(* ===== verification/_CoqProject ===== *)
-Q . S2P
Prelude.v
Text.v
Strto.v
CmdParser.v
Options.v
Gf256.v
GfField.v
GfVec.v
Exchange.v
InvertMat.v
Cauchy.v
FecCode.v
FecBlock.v
FecWire.v
FecEncoder.v
PlainEncoder.v
FecDecoder.v
FecRecover.v
FecLink.v
Radiotap.v
RawSend.v
RawReceive.v
RadiotapFields.v
RadiotapParse.v
RawCapture.v
SharedQueue.v
Worker.v
TransferStats.v
Status.v
FloatDiv.v
FecBuffer.v
SendThread.v
DecodeThread.v
TunInterface.v
Udev.v
HttpServer.v
Cards.v
Bridge.v
CardLoop.v
LogThread.v
StatsAccumulator.v
FecTest.v
Config.v
Startup.v
Devices.v
EndToEnd.v
Air.v
PlainLink.v
TunToTun.v
TunPlain.v
RawTest.v
