(* ===== verification/Prelude.v ===== *)
(** * wifibroadcast_bridge: verification library

    The bridge carries UDP and TCP packets between two machines over raw
    802.11 frames that are never acknowledged, and makes up for lost frames
    with an erasure code. A packet takes this way: the TUN device is read by
    [tun_raw_thread], which finds the link of the packet's port and queues a
    message; [raw_send_thread] gives it to the FEC encoder of the link and
    frames the finished packets for the card; on the other side the receive
    thread parses captures, queues them, and [fec_decode_thread] puts the
    packets of each radio port through a FEC decoder and hands on what it
    recovers. Around this way there are the table of links and the choice of
    the cards made by [main], a web server for the frequency, the udev monitor
    and the exchange of statistics.

    ** Files

    Prelude     machine integers, bytes, loops and maps that can fail, tactics
    Text        numbers as text (the formatted input and output of C++), the
                class [Token]
    Strto       numbers as text once more: stoi, stoul, stof, to_string
    CmdParser   src/include/cmdparser.hpp
    Options     the command lines of wfb_bridge and of the two test programs

    The erasure code, src/src/fec.c:
    Gf256       the tables of GF(2^8) and the functions that fill them
    GfField     multiplication of polynomials; [fec_init] computes it; the field
    GfVec       addmul and mul with their unrolled loops
    Exchange, Cauchy
                linear algebra: the exchange step, Cauchy matrices
    InvertMat   invert_mat
    FecCode     fec_encode, reduce, resolve, fec_decode

    Blocks and groups, src/include/wifibroadcast/fec.hh and src/src/fec.cc:
    FecBlock    FECHeader and FECBlock
    FecWire     the bytes of a group on the wire (a specification)
    FecEncoder  FECEncoder
    PlainEncoder
                the encoder of a link without FEC (a specification)
    FecDecoder  FECDecoder
    FecRecover  the decoder on the packets of one group
    FecLink     encoder, lossy channel and decoder for packets and flushes
    FloatDiv    the rounded-up quotient of two integers, computed in [double]
    FecBuffer   FECBufferEncoder

    Frames, src/src/radiotap/radiotap.c and src/src/raw_socket.cc:
    Radiotap    the radiotap iterator
    RawSend     RawSendSocket
    RawReceive  RawReceiveSocket::receive and the receive thread
    RadiotapFields
                headers with one bitmap (a specification): what the iterator,
                the receiver and the sender make of their fields
    RawCapture  RawReceiveSocket::add_device and the capture filter
    RadiotapParse
                src/src/radiotap/parse.c, the example program of the library

    Threads and queues:
    SharedQueue src/include/shared_queue.hh, as operations and as a monitor
    Worker      the loop of the transmit and relay threads and how they are
                stopped (src/src/raw_send_thread.cc, src/src/wfb_bridge.cc)
    TransferStats, Status
                src/src/transfer_stats.cc: counters and averages; messages
    SendThread  src/src/raw_send_thread.cc
    DecodeThread
                src/src/udp_send.cc: fec_decode_thread
    TunInterface
                src/src/tun_interface.cc: reading, routing and writing

    The program:
    Udev        src/src/udev_interface.cc
    HttpServer  src/src/http_server.cc
    Cards       the functions of src/src/raw_socket.cc that configure a card, as
                requests to the kernel, and the world they make for the others
    Bridge      the table of links, configure_device, the choice of the cards
    CardLoop    the main loop (both src/src/wfb_bridge.cc)
    LogThread   src/src/log_thread.cc
    StatsAccumulator
                src/include/stats_accumulator.hh, which nothing uses
    FecTest     src/src/test_fec.cc, the test of the erasure code
    RawTest     src/src/raw_socket_test.cc, the test of the raw sockets
    Config      the global settings, src/include/wfb_bridge.hh, logging.hh
    Startup     main of src/src/wfb_bridge.cc, up to the loop and with it
    Devices     the devices and sockets the program opens, and which stay open
    EndToEnd    from the messages of one bridge to the packets of the other
    Air         the same over an air that bridges of both sides share
    PlainLink   the same for a link without FEC
    TunToTun, TunPlain
                from one TUN device to the other, with the queues in between,
                for a bridge set up by its configuration, with and without FEC

    ** How the code is modelled

    A C++ object is a record with the names of its members, a method a function
    on it with the name of the method, a local loop a [Fixpoint]; functions keep
    the names of the source, with the class in front for constructors
    ([FECEncoder_new]). [None] is undefined behaviour: an access outside an
    array, a read of something indeterminate, a conversion out of range; each
    file says which; two indeterminate numbers that only reach tables or statistics,
    the rest of [port_lut] and the latency of a message, are arguments of any value.
    Integers are [Z] with the conversions of the code written
    out ([wrap w] for unsigned, [swrap w] for signed types of [w] bits), bytes
    are [byte], [float] and [double] the IEEE formats of the Standard Library's
    [SpecFloat]. Static tables and shared objects are passed as state: the
    encoders of the links are a list, and a message names its encoder by index,
    as the shared pointer of the program does.

    What is not under src/ is an argument: the answers of system calls, of the
    kernel to netlink messages, of libpcap, libudev, INIReader, the web server,
    tinyformat and the clock. The only assumptions about such code are
    [documented] in RawCapture (the meaning of the two filter expressions),
    [captured] in RawReceive and [hear] in EndToEnd (a capture is the frame, into
    which the wifi chip may have written a sequence number, with a radiotap header
    that the iterator accepts in front and a checksum behind),
    and [grants] in Cards (a kernel that gives sockets and takes flags and
    attributes, and answers messages as it likes). A program that prints and may end
    is a [prog] (Options): a function of its two output streams to an [ending].

    Concurrency: SharedQueue and Worker interleave the threads step by step.
    The threads themselves are functions of the sequence of messages they pop;
    that a queue gives them the messages pushed in order, without loss as long
    as it is not full, is [SharedQueue.queue_fifo].

    ** The theorems

    - The code: the tables are multiplication and inversion of polynomials
      modulo the primitive polynomial and form a field (GfField); the unrolled
      loops are pointwise (GfVec); invert_mat decides singularity and computes
      the inverse (InvertMat); any [n] of the [n + f] packets of a group bring
      back all data (FecCode.fec_erasure_recovery), for up to 128 data and 128
      FEC packets, and beyond that the code reads outside a table. The floating-point
      division of a buffer is exact (FloatDiv), so its blocks are all of the
      buffer (FecBuffer.encode_buffer_group).
    - Encoder and decoder: each group is emitted in the wire format
      (FecEncoder), the decoder recovers it from any state that has not seen
      it (FecRecover), and any sequence of packets and flushes passes a channel
      that loses packets (FecLink); [cut] says which groups it is sent in.
    - Frames: the iterator reads nothing outside a header it accepts and the
      whole walk of a caller ends, for any overrides and vendor namespaces, as long as
      no bitmap announces the undefined field 18 (Radiotap; [field_18_indeterminate]
      otherwise); under the same condition its example program can be given any
      file (RadiotapParse.parse_file); it reads exactly the fields of a header with one
      bitmap (RadiotapFields.radiotap_roundtrip); what is framed is unframed, for
      any header the iterator accepts (RawReceive.raw_link_roundtrip) and with
      all that a header says (RadiotapFields.captured_frame); a socket hears the
      other side only (RawCapture).
    - Threads: no item of a queue is lost, reordered or left with a thread
      asleep (SharedQueue); a thread can always be stopped (Worker); links and
      ports do not influence each other (SendThread, DecodeThread); under
      congestion a link with FEC loses only FEC packets, but one without data blocks, as
      is the default, loses its data (SendThread.congestion_drops); statistics add up.
    - The command line: what a line gives to which option, for any options
      (CmdParser.command_line), and what every line does to the bridge
      (Options.bridge_command_line); the test programs never get past theirs
      (Options.test_programs_stop).
    - The test programs behind their options: the test of the erasure code
      passes exactly the groups of which enough packets arrive
      (FecTest.run_test_counts); what the test of the sockets sends for its
      first message (RawTest.single_shot).
    - The program: how it starts or ends (Startup.main_outcome); the table of
      links, entry by entry, and what it makes of packets (Bridge, TunInterface); cards are used in allowed roles, and threads started and
      joined in pairs (Bridge, CardLoop); the server lists the frequencies that its card
      accepted in the last scan, and outside a scan asks for no other (HttpServer), in the worlds
      that Cards implements (Cards.card_calls); cards (Udev); status messages (Status, LogThread); the log, whose differences
      add up to the counters (LogThread.log_adds_up); resources (Devices).
    - All together: [Air.bridge_over_air] from the messages of a link to the
      packets of its port, over an air with other links and the own side on it;
      [TunToTun.tun_to_tun] from the packets of one TUN device to those of the
      other, for a bridge set up by its configuration; [TunPlain.tun_to_tun_plain]
      the same for a link without FEC; and
      [TunToTun.sending_side_safe]: the transmit thread of such a bridge never
      reaches undefined behaviour. What they assume is what the design relies
      on: [enough] of every group arrives, the transmit thread keeps up with
      the link ([keeps_up]), no queue overflows ([handed_over]), groups of at
      most 128 + 128 packets ([fec_supported]; [FecCode.fec_encode_too_many]
      otherwise), packets that leave room for the length field ([tun_fits];
      [TunToTun.full_packet_overflows] otherwise), and on the receiving side that
      what is heard on other ports does nothing undefined
      ([FecDecoder.short_packet_overread] is how it could).

    Where the code falls short of what it means to do, the theorem says what
    it does (for example Worker.worker_lost, FecRecover.fec_only_group_stays).

    ** Bounds and fuel

    Loops over a counter are [for_loop] and [for_opt]. Loops with another exit
    have fuel, and the theorems are about runs with enough of it: [iterator_next]
    one round per bit left in the bitmaps, as have the loops over its results, [each_arg]
    ([Radiotap.iterator_safe]) and that of the example program ([RadiotapParse.parse_file]), [drain],
    [collect], [transmit] and [pull] one more than the queue is long, [receive_thread] one
    more than the captures, [modnn_loop] shrinks its argument, [show] has a
    round per bit, [decimal_exponent] covers the exponents of a [float], and
    [mkpath] a round per character ([Config.mkpath_ends]).

    ** Not modelled

    The output of log4cpp but for the periodic log, how libnl encodes messages
    and what it does when it cannot allocate or connect, the assembler variants
    and the profiling code of fec.c that are not compiled, and the constants of
    radiotap.h and ieee80211_radiotap.h that no program uses. Data
    races: the TUN thread reads [is_flushed] of encoders, and the
    main thread the list of udev, while other threads change them; both reads
    are arguments or whole steps here. The sign of a printed NaN. *)

From stdpp Require Export prelude list gmap strings.
From Stdlib Require Export ZArith Lia Ascii.
From Stdlib Require Export Init.Byte Strings.Byte.

Open Scope Z_scope.

(** ** Machine integers

    A [uintN_t] value is a [Z]; [wrap w] is the conversion of an integer to
    an unsigned type of [w] bits. *)

Definition wrap (w z : Z) : Z := z mod 2 ^ w.

(** [int8_t]/[int16_t] conversions (two's complement). *)
Definition swrap (w z : Z) : Z := (z + 2 ^ (w - 1)) mod 2 ^ w - 2 ^ (w - 1).

(** An [unsigned char] is a [byte]; [u8] is its integer promotion and [byte_of]
    the conversion of an integer to [unsigned char]. *)
Definition u8 (b : byte) : Z := Z.of_N (Byte.to_N b).
Definition byte_of (z : Z) : byte := default x00 (Byte.of_N (Z.to_N (wrap 8 z))).

Lemma wrap_range w z : 0 <= w -> 0 <= wrap w z < 2 ^ w.
Proof. intros. apply Z.mod_pos_bound. lia. Qed.

Lemma wrap_small w z : 0 <= z < 2 ^ w -> wrap w z = z.
Proof. apply Z.mod_small. Qed.

Lemma u8_range b : 0 <= u8 b < 256.
Proof. unfold u8. pose proof (Byte.to_N_bounded b). lia. Qed.

Lemma u8_byte_of z : u8 (byte_of z) = wrap 8 z.
Proof.
  unfold u8, byte_of.
  assert (0 <= wrap 8 z < 256) as Hr by (apply (wrap_range 8); lia).
  destruct (Byte.of_N (Z.to_N (wrap 8 z))) as [b|] eqn:E; simpl.
  - apply Byte.to_of_N in E. lia.
  - apply Byte.of_N_None_iff in E. lia.
Qed.

Lemma u8_byte_of_small z : 0 <= z < 256 -> u8 (byte_of z) = z.
Proof. intros. rewrite u8_byte_of. by apply wrap_small. Qed.

Lemma byte_of_u8 b : byte_of (u8 b) = b.
Proof.
  unfold byte_of. rewrite wrap_small by apply (u8_range b).
  unfold u8. rewrite N2Z.id. by rewrite Byte.of_to_N.
Qed.

Lemma u8_inj a b : u8 a = u8 b -> a = b.
Proof. intros E. by rewrite <-(byte_of_u8 a), E, byte_of_u8. Qed.

#[export] Instance byte_eq_dec : EqDecision byte := Byte.byte_eq_dec.
#[export] Instance byte_inhabited : Inhabited byte := populate x00.
#[export] Instance u8_Inj : Inj (=) (=) u8 := u8_inj.

(** ** Little-endian 16-bit fields

    The layout of a [uint16_t] member of a packed struct on the machines the
    program is built for (x86 and ARM). *)

Definition le16 (z : Z) : list byte := [byte_of z; byte_of (Z.shiftr z 8)].
Definition of_le16 (lo hi : byte) : Z := u8 lo + 256 * u8 hi.

Lemma of_le16_range lo hi : 0 <= of_le16 lo hi < 65536.
Proof. unfold of_le16. pose proof (u8_range lo). pose proof (u8_range hi). lia. Qed.

Lemma of_le16_le16 z : 0 <= z < 65536 -> of_le16 (byte_of z) (byte_of (Z.shiftr z 8)) = z.
Proof.
  intros Hz. unfold of_le16. rewrite !u8_byte_of. unfold wrap. rewrite Z.shiftr_div_pow2 by lia.
  change (2 ^ 8) with 256. pose proof (Z.div_mod z 256). pose proof (Z.mod_pos_bound z 256).
  rewrite (Z.mod_small (z / 256)) by (split; [apply Z.div_pos|apply Z.div_lt_upper_bound]; lia). lia.
Qed.

Lemma le16_of_le16 lo hi : le16 (of_le16 lo hi) = [lo; hi].
Proof.
  unfold le16, of_le16. pose proof (u8_range lo). pose proof (u8_range hi).
  rewrite Z.shiftr_div_pow2 by lia. change (2 ^ 8) with 256.
  replace ((u8 lo + 256 * u8 hi) / 256) with (u8 hi) by (apply (Z.div_unique _ _ _ (u8 lo)); lia).
  f_equal; [|by rewrite byte_of_u8]. apply u8_inj. rewrite u8_byte_of. unfold wrap.
  change (2 ^ 8) with 256. symmetry. apply (Z.mod_unique _ _ (u8 hi)); lia.
Qed.

(** ** Counted loops

    [for_loop lo n body s] is [for (i = lo; i < lo + n; i++) s = body(i, s)];
    [for_opt] is the same loop when the body can fail ([None] is undefined
    behaviour of the C or C++ code: an access outside an array, a read of an
    indeterminate value). *)

Fixpoint for_loop {A} (lo n : nat) (body : nat -> A -> A) (a : A) : A :=
  match n with
  | O => a
  | S n' => for_loop (S lo) n' body (body lo a)
  end.

Fixpoint for_opt {A} (lo n : nat) (body : nat -> A -> option A) (a : A) : option A :=
  match n with
  | O => Some a
  | S n' => a' ← body lo a; for_opt (S lo) n' body a'
  end.

Section loops.
Context {A : Type}.
Implicit Types (I : nat -> A -> Prop) (a : A).
Local Open Scope nat_scope.

Lemma for_loop_inv I lo n (body : nat -> A -> A) a :
  I lo a ->
  (forall i a, lo <= i < lo + n -> I i a -> I (S i) (body i a)) ->
  I (lo + n) (for_loop lo n body a).
Proof.
  revert lo a. induction n as [|n IH]; intros lo a H0 Hstep; simpl.
  - by rewrite Nat.add_0_r.
  - rewrite Nat.add_succ_r. apply (IH (S lo)).
    + apply Hstep; [lia|done].
    + intros i b Hi. apply Hstep. lia.
Qed.

Lemma for_opt_inv I lo n (body : nat -> A -> option A) a :
  I lo a ->
  (forall i a, lo <= i < lo + n -> I i a -> exists a', body i a = Some a' /\ I (S i) a') ->
  exists a', for_opt lo n body a = Some a' /\ I (lo + n) a'.
Proof.
  revert lo a. induction n as [|n IH]; intros lo a H0 Hstep; simpl.
  - rewrite Nat.add_0_r. eauto.
  - rewrite Nat.add_succ_r. destruct (Hstep lo a) as (a' & -> & Ha'); [lia|done|].
    simpl. apply (IH (S lo)); [done|]. intros i b Hi. apply Hstep. lia.
Qed.

Lemma for_opt_pure lo n (body : nat -> A -> option A) (f : nat -> A -> A) a :
  (forall i a, lo <= i < lo + n -> body i a = Some (f i a)) ->
  for_opt lo n body a = Some (for_loop lo n f a).
Proof.
  revert lo a. induction n as [|n IH]; intros lo a Hb; simpl; [done|].
  rewrite Hb by lia. simpl. apply IH. intros i b Hi. apply Hb. lia.
Qed.

Lemma for_opt_preserves (P : A -> Prop) lo n (body : nat -> A -> option A) a a' :
  (forall i b b', body i b = Some b' -> P b -> P b') ->
  for_opt lo n body a = Some a' -> P a -> P a'.
Proof.
  intros Hb. revert lo a. induction n as [|n IH]; intros lo a E Ha; simpl in E.
  - by injection E as <-.
  - destruct (body lo a) as [a1|] eqn:E1; [|done]. simpl in E. eauto.
Qed.

(** A loop whose body commutes with [g]. *)
Lemma for_opt_fmap (g : A -> A) lo n (body : nat -> A -> option A) a :
  (forall i a, body i (g a) = g <$> body i a) -> for_opt lo n body (g a) = g <$> for_opt lo n body a.
Proof.
  intros Hb. revert lo a. induction n as [|n IH]; intros lo a; [done|]. cbn [for_opt]. rewrite Hb.
  destruct (body lo a); [|done]. cbn [mbind option_bind fmap option_fmap option_map]. apply IH.
Qed.

Lemma for_loop_S_r lo n (body : nat -> A -> A) a :
  for_loop lo (S n) body a = body (lo + n) (for_loop lo n body a).
Proof.
  revert lo a. induction n as [|n IH]; intros lo a.
  - simpl. by rewrite Nat.add_0_r.
  - change (for_loop lo (S (S n)) body a) with (for_loop (S lo) (S n) body (body lo a)).
    rewrite (IH (S lo)). by rewrite Nat.add_succ_r.
Qed.
End loops.

(** ** Fallible maps over lists *)

Lemma mapM_imap {A B C} (f : B -> option C) (g : nat -> A -> B) (h : nat -> A -> C) (l : list A) :
  (forall i x, l !! i = Some x -> f (g i x) = Some (h i x)) ->
  mapM f (imap g l) = Some (imap h l).
Proof.
  revert g h. induction l as [|x l IH]; intros g h H; [done|].
  rewrite !imap_cons. cbn [mapM]. rewrite (H 0%nat x) by done. cbn [mbind option_bind].
  rewrite (IH (g ∘ S) (h ∘ S)); [done|]. intros i y Hy. by apply (H (S i)).
Qed.

Lemma mapM_fmap_Some {A B C} (f : B -> option C) (g : A -> B) (h : A -> C) (l : list A) :
  (forall x, x ∈ l -> f (g x) = Some (h x)) -> mapM f (g <$> l) = Some (h <$> l).
Proof.
  intros H. induction l as [|x l IH]; [done|]. cbn [fmap list_fmap mapM].
  rewrite (H x) by left. cbn [mbind option_bind]. rewrite IH; [done|]. intros y Hy. apply H. by right.
Qed.

Lemma mapM_app_Some {A B} (f : A -> option B) l1 l2 k1 k2 :
  mapM f l1 = Some k1 -> mapM f l2 = Some k2 -> mapM f (l1 ++ l2) = Some (k1 ++ k2).
Proof.
  revert k1. induction l1 as [|x l1 IH]; intros k1 H1 H2; cbn [mapM app] in *.
  - by injection H1 as <-.
  - destruct (f x) as [y|]; [|done]. cbn [mbind option_bind] in *.
    destruct (mapM f l1) as [k|]; [|done]. injection H1 as <-. by rewrite (IH k).
Qed.

Lemma fmap_seq_lookup {A} (g : nat -> A) n j : (j < n)%nat -> (g <$> seq 0 n) !! j = Some (g j).
Proof. intros Hj. by rewrite list_lookup_fmap, (lookup_seq_lt 0 n j). Qed.

(** A list indexed by [0 .. n-1], given by a function. *)
Lemma fmap_seq_ext {A} (g g' : nat -> A) n :
  (forall j, (j < n)%nat -> g j = g' j) -> g <$> seq 0 n = g' <$> seq 0 n.
Proof. intros H. apply list_fmap_ext. intros i x Hx. apply lookup_seq in Hx as [-> Hi]. by apply H. Qed.

Lemma insert_fmap_seq {A} (g : nat -> A) n i v :
  (i < n)%nat -> <[i := v]> (g <$> seq 0 n) = (fun j => if decide (j = i) then v else g j) <$> seq 0 n.
Proof.
  intros Hi. apply list_eq. intros j. destruct (decide (j < n)%nat) as [Hj|Hj].
  - rewrite (fmap_seq_lookup (fun j => if decide (j = i) then v else g j)) by done.
    destruct (decide (j = i)) as [->|Hne].
    + apply list_lookup_insert_eq. by rewrite length_fmap, length_seq.
    + rewrite list_lookup_insert_ne by done. by apply fmap_seq_lookup.
  - rewrite !lookup_ge_None_2; [done|..].
    + rewrite length_fmap, length_seq. lia.
    + rewrite length_insert, length_fmap, length_seq. lia.
Qed.

Lemma replicate_fmap_seq {A} (v : A) n : replicate n v = (fun _ => v) <$> seq 0 n.
Proof.
  apply list_eq. intros j. destruct (decide (j < n)%nat) as [Hj|Hj].
  - rewrite (fmap_seq_lookup (fun _ => v)) by done. by apply lookup_replicate_2.
  - rewrite !lookup_ge_None_2; [done|..].
    + rewrite length_fmap, length_seq. lia.
    + rewrite length_replicate. lia.
Qed.

Lemma drop_seq j n m : drop j (seq n m) = seq (n + j) (m - j).
Proof.
  revert n m. induction j as [|j IH]; intros n m; [by rewrite Nat.add_0_r, Nat.sub_0_r, drop_0|].
  destruct m as [|m]; [done|]. cbn [seq drop]. rewrite IH. f_equal. lia.
Qed.

(** ** Tactics *)

(** Open an option bind in a hypothesis. *)
Ltac obind H :=
  match type of H with
  | context [ ?e ≫= _ ] =>
      let E := fresh "E" in destruct e eqn:E; simpl in H; [| discriminate H]
  end.

Tactic Notation "ostep" hyp(H) "as" simple_intropattern(p) "eqn" ident(E) :=
  match type of H with
  | context [ ?e ≫= _ ] => destruct e as [p|] eqn:E; cbn [mbind option_bind] in H; [|discriminate H]
  end.

(** Decide the comparisons the goal branches on. *)
Ltac zcase :=
  repeat match goal with
  | |- context [ Z.eqb ?a ?b ] => destruct (Z.eqb_spec a b); try lia
  | |- context [ Z.ltb ?a ?b ] => destruct (Z.ltb_spec a b); try lia
  | |- context [ Z.leb ?a ?b ] => destruct (Z.leb_spec a b); try lia
  end.

(** ** Hints

    [wfb] resolves the ranges of bytes, [wfb_bytes] rewrites conversions between
    bytes and integers. *)

Create HintDb wfb.
Create Rewrite HintDb wfb_bytes.
#[export] Hint Resolve u8_range of_le16_range : wfb.
#[export] Hint Rewrite u8_byte_of byte_of_u8 le16_of_le16 : wfb_bytes.
