(* ===== verification/Text.v ===== *)
(** * Numbers as text

    What the program uses of the C++ library's formatted input and output:
    decimal integers, [float]s with six significant digits, words; [getline];
    [tolower].
    The class [Token] is what the status messages need of a type. *)

From S2P Require Import Prelude.
From Stdlib Require Import Floats.SpecFloat.
Local Open Scope Z_scope.

Definition is_digit (a : ascii) : bool := (48 <=? nat_of_ascii a)%nat && (nat_of_ascii a <=? 57)%nat.
Definition is_space (a : ascii) : bool :=
  (nat_of_ascii a =? 32)%nat || ((9 <=? nat_of_ascii a)%nat && (nat_of_ascii a <=? 13)%nat).

(** [std::tolower] of the C locale. *)
Definition tolower (a : ascii) : ascii :=
  let n := nat_of_ascii a in if ((65 <=? n) && (n <=? 90))%nat then ascii_of_nat (n + 32) else a.

Fixpoint skip_space (s : string) : string :=
  match s with
  | String a s' => if is_space a then skip_space s' else s
  | EmptyString => s
  end.

Definition digit_value (a : ascii) : Z := Z.of_nat (nat_of_ascii a) - 48.

(** The number at the front of a string, continuing [acc]; none without a digit. *)
Fixpoint digits (s : string) (acc : option Z) : option Z :=
  match s with
  | String a s' => if is_digit a then digits s' (Some (10 * default 0 acc + digit_value a)) else acc
  | EmptyString => acc
  end.

(** ** Output *)

Definition digit_char (d : Z) : ascii := ascii_of_nat (Z.to_nat (48 + d)).

Fixpoint show_digits (fuel : nat) (z : Z) (acc : string) : string :=
  match fuel with
  | O => acc
  | S fuel =>
      let acc := String (digit_char (z mod 10)) acc in
      if z / 10 =? 0 then acc else show_digits fuel (z / 10) acc
  end.

(** A natural number; one round of fuel per bit is enough. *)
Definition show (z : Z) : string := show_digits (S (Z.to_nat (Z.log2 z))) z "".

(** ["%d"] of an unsigned number: it is printed as an [int]. *)
Definition print_d (n : Z) : string :=
  let n := swrap 32 n in if n <? 0 then String "-" (show (- n)) else show n.

(** The last [n] hexadecimal digits. *)
Definition hex_char (d : Z) : ascii := ascii_of_nat (Z.to_nat (if d <? 10 then 48 + d else 87 + d)).

Fixpoint hex_digits (n : nat) (z : Z) (acc : string) : string :=
  match n with
  | O => acc
  | S n => hex_digits n (z / 16) (String (hex_char (z mod 16)) acc)
  end.

Definition hex (n : nat) (z : Z) : string := hex_digits n z "".

Fixpoint zeros (n : nat) : string :=
  match n with O => "" | S n => String "0" (zeros n) end.

(** [num / den * 10 ^ k] as a fraction. *)
Definition scaled (num den k : Z) : Z * Z :=
  if 0 <=? k then (num * 10 ^ k, den) else (num, den * 10 ^ (- k)).

(** The largest [x] from [start] on down with [10 ^ x <= num / den]. *)
Fixpoint decimal_exponent (fuel : nat) (num den x : Z) : Z :=
  match fuel with
  | O => x
  | S fuel => let '(n, d) := scaled num den (- x) in if d <=? n then x else decimal_exponent fuel num den (x - 1)
  end.

(** To the nearest integer, halves to even. *)
Definition round_div (n d : Z) : Z :=
  let q := n / d in
  let r := n mod d in
  if 2 * r <? d then q else if d <? 2 * r then q + 1 else if Z.even q then q else q + 1.

(** Without trailing zeros, of which a number of [n] digits has fewer than [n]. *)
Fixpoint strip_zeros (n : nat) (z : Z) : Z :=
  match n with
  | O => z
  | S n => if z mod 10 =? 0 then strip_zeros n (z / 10) else z
  end.

Definition split_at (n : nat) (s : string) : string * string := (String.substring 0 n s, String.substring n (String.length s - n) s).

(** The digits [ds] of a number with decimal exponent [x], in the style of [%g]. *)
Definition place_point (ds : string) (x : Z) : string :=
  let k := Z.of_nat (String.length ds) in
  let point n := let '(i, f) := split_at n ds in if String.eqb f "" then i else (i ++ "." ++ f)%string in
  if (x <? -4) || (6 <=? x) then
    let a := Z.abs x in
    let e := if x <? 0 then "e-"%string else "e+"%string in
    let pad := if a <? 10 then "0"%string else ""%string in
    (point 1%nat ++ e ++ pad ++ show a)%string
  else if x <? 0 then ("0." ++ zeros (Z.to_nat (- x - 1)) ++ ds)%string
  else if k <=? x + 1 then (ds ++ zeros (Z.to_nat (x + 1 - k)))%string
  else point (Z.to_nat (x + 1)).

(** [os << std::setprecision(6) << f]. The sign of a NaN is not modelled. *)
Definition show_float (f : spec_float) : string :=
  match f with
  | S754_nan => "nan"
  | S754_infinity s => if s then "-inf" else "inf"
  | S754_zero s => if s then "-0" else "0"
  | S754_finite s m e =>
      let num := Zpos m * 2 ^ Z.max e 0 in
      let den := 2 ^ Z.max (- e) 0 in
      let x := decimal_exponent 90 num den 39 in
      let '(n, d) := scaled num den (5 - x) in
      let z := round_div n d in
      let '(z, x) := if z =? 10 ^ 6 then (10 ^ 5, x + 1) else (z, x) in
      ((if s then "-" else "") ++ place_point (show (strip_zeros 5 z)) x)%string
  end.

(** ** Input *)

(** A sign that may be there. *)
Definition sign (s : string) : bool * string :=
  match s with
  | String "-" s' => (true, s')
  | String "+" s' => (false, s')
  | _ => (false, s)
  end.

(** The digits at the front: their number, their value after [acc], the rest. *)
Fixpoint span_digits (s : string) (n : nat) (acc : Z) : nat * Z * string :=
  match s with
  | String a s' => if is_digit a then span_digits s' (S n) (10 * acc + digit_value a) else (n, acc, s)
  | EmptyString => (n, acc, s)
  end.

(** [m * 10 ^ e], rounded to the nearest number of a format. *)
Definition decimal (prec emax : Z) (neg : bool) (m e : Z) : spec_float :=
  match m with
  | Zpos p =>
      if 0 <=? e then binary_normalize prec emax ((if neg then -1 else 1) * (Zpos p * 10 ^ e)) 0 neg
      else
        let '(q, e', l) := SFdiv_core_binary prec emax (Zpos p) 0 (10 ^ (- e)) 0 in
        binary_round_aux prec emax neg q e' l
  | _ => S754_zero neg
  end.

Definition decimal_to_float : bool -> Z -> Z -> spec_float := decimal 24 128.

(** The largest [float]. *)
Definition FLT_MAX (neg : bool) : spec_float := S754_finite neg 16777215 104.

(** [num_get] for [float]: sign, digits with a point, exponent. *)
Definition scan_float (s : string) : spec_float * bool :=
  let '(neg, s) := sign s in
  let '(n, m, s) := span_digits s 0 0 in
  let '(n, k, m, s) :=
    match s with
    | String "." s' => let '(n', m, s) := span_digits s' n m in (n', (n' - n)%nat, m, s)
    | _ => (n, 0%nat, m, s)
    end in
  let convert e :=
    match decimal_to_float neg m (e - Z.of_nat k) with
    | S754_infinity _ => (FLT_MAX neg, false)
    | f => (f, true)
    end in
  if (n =? 0)%nat then (S754_zero false, false)
  else
    match s with
    | String a s' =>
        if Ascii.eqb a "e" || Ascii.eqb a "E" then
          let '(eneg, s') := sign s' in
          let '(en, e, _) := span_digits s' 0 0 in
          if (en =? 0)%nat then (S754_zero false, false) else convert (if eneg then - e else e)
        else convert 0
    | EmptyString => convert 0
    end.

(** [num_get] for [uint32_t]: a negative number is taken modulo 2^32. *)
Definition scan_uint32 (s : string) : Z * bool :=
  let '(neg, s) := sign s in
  match digits s None with
  | None => (0, false)
  | Some z => if 2 ^ 32 <=? z then (2 ^ 32 - 1, false) else (wrap 32 (if neg then - z else z), true)
  end.

Fixpoint word (s : string) : string :=
  match s with
  | String a s' => if is_space a then EmptyString else String a (word s')
  | EmptyString => s
  end.

(** [ss >> v]: nothing is stored when only white space is left. *)
Definition extract {A} (scan : string -> A * bool) (s : string) (v : A) : A * bool :=
  match skip_space s with
  | EmptyString => (v, false)
  | s => scan s
  end.

(** A stream: the characters left, or none once the end has been met.
    [getline(ss, token, ',')] *)
Fixpoint split_line (s : string) (delim : ascii) : string * option string :=
  match s with
  | EmptyString => (EmptyString, None)
  | String a s' =>
      if Ascii.eqb a delim then (EmptyString, Some s')
      else let '(t, rest) := split_line s' delim in (String a t, rest)
  end.

Definition getline (ss : option string) (delim : ascii) : option (string * option string) :=
  s ← ss;
  match s with
  | EmptyString => None
  | _ => Some (split_line s delim)
  end.

(** ** The tokens of a message

    A token can be sent in a line of tokens with commas in between if it is
    [clean]: no white space, no comma, and not empty. *)

Definition clean_char (a : ascii) : bool := negb (is_space a) && negb (Ascii.eqb a ",").

Fixpoint clean (s : string) : bool :=
  match s with
  | String a s' => clean_char a && clean s'
  | EmptyString => true
  end.

(** How a type is written and read: [get s v] reads over the old value [v]. *)
Class Token (A : Type) := {
  put : A -> string;
  get : string -> A -> A * bool
}.

(** The values that survive: what is put is one clean token, and is got back. *)
Class TokenLaws (A : Type) `{Token A} (valid : A -> Prop) : Prop := {
  put_clean v : valid v -> clean (put v) = true /\ put v <> ""%string;
  get_put v old : valid v -> get (put v) old = (v, true)
}.

#[export] Instance string_token : Token string := {
  put s := s;
  get := extract (fun s => (word s, true))
}.

Definition uint32 : Type := Z.
#[export] Instance uint32_token : Token uint32 := {
  put := show;
  get := extract scan_uint32
}.

Definition binary32 : Type := spec_float.
#[export] Instance binary32_token : Token binary32 := {
  put := show_float;
  get := extract scan_float
}.

(** *** Lemmas *)

Lemma append_cons a s t : (String a s ++ t)%string = String a (s ++ t).
Proof. reflexivity. Qed.

Lemma clean_app s t : clean (s ++ t) = clean s && clean t.
Proof. induction s as [|a s IH]; [done|]. rewrite append_cons. cbn. by rewrite IH, andb_assoc. Qed.

Lemma skip_space_clean s : clean s = true -> skip_space s = s.
Proof.
  destruct s as [|a s]; [done|]. cbn. unfold clean_char. intros H. by destruct (is_space a).
Qed.

Lemma word_clean s : clean s = true -> word s = s.
Proof.
  induction s as [|a s IH]; [done|]. cbn. unfold clean_char. intros H.
  destruct (is_space a); [done|]. apply andb_prop in H as [_ H]. by rewrite IH.
Qed.

Lemma extract_clean {A} (scan : string -> A * bool) s v :
  clean s = true -> s <> ""%string -> extract scan s v = scan s.
Proof. intros Hc Hn. unfold extract. rewrite skip_space_clean by done. by destruct s. Qed.

Lemma split_line_comma t rest : clean t = true -> split_line (t ++ String "," rest) "," = (t, Some rest).
Proof.
  induction t as [|a t IH]; [done|]. rewrite append_cons. cbn. intros [Ha Ht]%andb_prop. unfold clean_char in Ha.
  apply andb_prop in Ha as [_ Ha]. apply negb_true_iff in Ha. by rewrite Ha, IH.
Qed.

Lemma split_line_end t : clean t = true -> split_line t "," = (t, None).
Proof.
  induction t as [|a t IH]; [done|]. cbn. intros [Ha Ht]%andb_prop. unfold clean_char in Ha.
  apply andb_prop in Ha as [_ Ha]. apply negb_true_iff in Ha. by rewrite Ha, IH.
Qed.

Lemma digit_char_cases d : 0 <= d < 10 ->
  is_digit (digit_char d) = true /\ digit_value (digit_char d) = d /\ clean_char (digit_char d) = true.
Proof.
  intros H. assert (d = 0 \/ d = 1 \/ d = 2 \/ d = 3 \/ d = 4 \/ d = 5 \/ d = 6 \/ d = 7 \/ d = 8 \/ d = 9) as Hd by lia.
  by destruct_or! Hd; subst.
Qed.

Lemma show_digits_digits fuel : forall z acc,
  0 <= z < 2 ^ Z.of_nat fuel -> (0 < fuel)%nat -> digits (show_digits fuel z acc) None = digits acc (Some z).
Proof.
  induction fuel as [|fuel IH]; intros z acc Hz Hf; [lia|]. cbn [show_digits].
  destruct (digit_char_cases (z mod 10)) as (Hd & Hv & _); [by apply Z.mod_pos_bound|].
  destruct (Z.eqb_spec (z / 10) 0) as [E|E].
  - cbn [digits]. rewrite Hd, Hv. cbn [default]. f_equal. f_equal. pose proof (Z.div_mod z 10 ltac:(lia)). lia.
  - assert (0 < z / 10) by (pose proof (Z.div_pos z 10); lia).
    rewrite Nat2Z.inj_succ, Z.pow_succ_r in Hz by lia.
    assert (z / 10 < 2 ^ Z.of_nat fuel) by (apply Z.div_lt_upper_bound; lia).
    rewrite IH; [|lia|destruct fuel; [simpl in *; lia|lia]].
    cbn [digits]. rewrite Hd, Hv. unfold default, from_option, id. f_equal. f_equal. pose proof (Z.div_mod z 10 ltac:(lia)). lia.
Qed.

Lemma digits_show z : 0 <= z -> digits (show z) None = Some z.
Proof.
  intros Hz. unfold show. rewrite show_digits_digits; [done| |lia]. split; [done|].
  rewrite Nat2Z.inj_succ, Z2Nat.id by apply Z.log2_nonneg.
  destruct (Z.eq_dec z 0) as [->|]; [reflexivity|]. apply Z.log2_spec. lia.
Qed.

Lemma show_digits_clean fuel : forall z acc, clean acc = true -> clean (show_digits fuel z acc) = true.
Proof.
  induction fuel as [|fuel IH]; intros z acc Ha; [done|]. cbn [show_digits].
  destruct (digit_char_cases (z mod 10)) as (_ & _ & Hc); [by apply Z.mod_pos_bound|].
  assert (clean (String (digit_char (z mod 10)) acc) = true) by (cbn [clean]; by rewrite Hc).
  destruct (z / 10 =? 0); [done|]. by apply IH.
Qed.

Lemma show_clean z : clean (show z) = true.
Proof. by apply show_digits_clean. Qed.

(** The first character of a number is a digit. *)
Lemma show_digits_head fuel : forall z acc, (0 < fuel)%nat \/ (exists a s, acc = String a s /\ is_digit a = true) ->
  exists a s, show_digits fuel z acc = String a s /\ is_digit a = true.
Proof.
  induction fuel as [|fuel IH]; intros z acc H; cbn [show_digits]; [destruct H; [lia|done]|].
  destruct (digit_char_cases (z mod 10)) as (Hd & _ & _); [by apply Z.mod_pos_bound|].
  destruct (z / 10 =? 0); [by repeat eexists|]. apply IH. right. by repeat eexists.
Qed.

Lemma show_head z : exists a s, show z = String a s /\ is_digit a = true.
Proof. apply show_digits_head. lia. Qed.

Lemma sign_digit a s : is_digit a = true -> sign (String a s) = (false, String a s).
Proof. by destruct a as [[] [] [] [] [] [] [] []]. Qed.

#[export] Instance string_laws : TokenLaws string (fun s => clean s = true /\ s <> ""%string).
Proof.
  split; [done|]. intros s old [Hc Hn]. cbn. rewrite extract_clean by done. by rewrite word_clean.
Qed.

#[export] Instance uint32_laws : TokenLaws uint32 (fun z => 0 <= z < 2 ^ 32).
Proof.
  assert (forall z, show z <> ""%string) as Hn by (intros z; destruct (show_head z) as (a & s & -> & _); done).
  split; [intros z _; split; [apply show_clean|apply Hn]|]. intros z old Hz. cbn [get uint32_token put].
  rewrite extract_clean by (apply show_clean || apply Hn). unfold scan_uint32.
  assert (sign (show z) = (false, show z)) as ->.
  { destruct (show_head z) as (a & s & -> & Ha). by apply sign_digit. }
  rewrite digits_show by lia. rewrite (proj2 (Z.leb_gt _ _)) by lia. f_equal. by apply wrap_small.
Qed.

(** Six digits are enough for the value. *)
Definition six_digits (f : binary32) : Prop := scan_float (show_float f) = (f, true).

Lemma zeros_clean n : clean (zeros n) = true.
Proof. by induction n. Qed.

Lemma substring_clean s : forall n m, clean s = true -> clean (String.substring n m s) = true.
Proof.
  induction s as [|a s IH]; intros n m H; [by destruct n, m|]. cbn in H. apply andb_prop in H as [Ha H].
  destruct n as [|n]; [|by apply IH]. destruct m as [|m]; [done|]. cbn. rewrite Ha. by apply IH.
Qed.

Lemma place_point_clean ds x : clean ds = true -> clean (place_point ds x) = true.
Proof.
  intros H. unfold place_point, split_at.
  repeat case_match; rewrite ?clean_app, ?zeros_clean, ?show_clean, ?H, ?substring_clean by done; done.
Qed.

Lemma show_float_clean f : clean (show_float f) = true.
Proof.
  destruct f as [[]|[]| |s m e]; try done. unfold show_float. repeat case_match;
    rewrite clean_app, place_point_clean; try apply show_clean; done.
Qed.

#[export] Instance binary32_laws : TokenLaws binary32 six_digits.
Proof.
  assert (forall f, six_digits f -> show_float f <> ""%string) as Hn.
  { intros f Hf E. unfold six_digits in Hf. rewrite E in Hf. discriminate Hf. }
  split; [intros f Hf; split; [apply show_float_clean|by apply Hn]|]. intros f old Hf. cbn [get binary32_token put].
  rewrite extract_clean; [done|apply show_float_clean|by apply Hn].
Qed.
