(* ===== verification/Strto.v ===== *)
(** * Numbers of the command line

    The conversions of the C++ library that src/include/cmdparser.hpp uses:
    [std::stoi], [std::stol], [std::stoul], [std::stof] and the like, which
    throw ([None]) when there is no number or when it is out of range and
    ignore what follows it, and [std::to_string]. [long] has 64 bits. *)

From S2P Require Import Prelude Text.
From Stdlib Require Import Floats.SpecFloat.
Local Open Scope Z_scope.

(** ** Integers: [strtol] and [strtoul] *)

(** The value of a digit in any base up to 36. *)
Definition digit_of (a : ascii) : option Z :=
  let n := Z.of_nat (nat_of_ascii (tolower a)) in
  if (48 <=? n) && (n <=? 57) then @Some Z (n - 48)
  else if (97 <=? n) && (n <=? 122) then Some (n - 87)
  else None.

Definition digit_in (base : Z) (a : ascii) : option Z :=
  d ← digit_of a; if Z.ltb d base then Some d else None.

(** The digits at the front: their number, their value after [acc], the rest. *)
Fixpoint span_base (base : Z) (s : string) (n : nat) (acc : Z) : nat * Z * string :=
  match s with
  | String a s' =>
      match digit_in base a with
      | Some d => span_base base s' (S n) (base * acc + d)
      | None => (n, acc, s)
      end
  | EmptyString => (n, acc, s)
  end.

Definition is_x (a : ascii) : bool := Ascii.eqb (tolower a) "x".

(** A hexadecimal prefix counts when a digit follows; base 0 goes by the prefix. *)
Definition number_base (base : Z) (s : string) : Z * string :=
  let other := if base =? 0 then (match s with String "0" _ => 8 | _ => 10 end, s) else (base, s) in
  match s with
  | String "0" (String x (String d s')) =>
      if ((base =? 0) || (base =? 16)) && is_x x && bool_decide (is_Some (digit_in 16 d))
      then (16, String d s') else other
  | _ => other
  end.

(** Sign and magnitude. *)
Definition strto (base : Z) (s : string) : option (bool * Z) :=
  let '(neg, s) := sign (skip_space s) in
  let '(base, s) := number_base base s in
  let '(n, z, _) := span_base base s 0 0 in
  if (n =? 0)%nat then None else Some (neg, z).

Definition within (lo hi z : Z) : option Z := if (lo <=? z) && (z <=? hi) then Some z else None.

Definition stol (base : Z) (s : string) : option Z :=
  '(neg, z) ← strto base s; within (- 2 ^ 63) (2 ^ 63 - 1) (if neg : bool then - z else z).

(** The range of [int] is checked after that of [long]. *)
Definition stoi (base : Z) (s : string) : option Z :=
  z ← stol base s; within (- 2 ^ 31) (2 ^ 31 - 1) z.

(** A negative number is taken modulo 2^64, whatever its sign. *)
Definition stoul (base : Z) (s : string) : option Z :=
  '(neg, z) ← strto base s; z ← within 0 (2 ^ 64 - 1) z; Some (wrap 64 (if neg : bool then - z else z)).

(** ** Floating point: [strtof], [strtod], [strtold]

    A format is its precision and its largest exponent. *)

Fixpoint prefix_lower (p s : string) : bool :=
  match p, s with
  | EmptyString, _ => true
  | String a p, String b s => Ascii.eqb a (tolower b) && prefix_lower p s
  | _, EmptyString => false
  end.

(** The digits of a mantissa in base [base], with the digits after the point. *)
Definition span_mantissa (base : Z) (s : string) : nat * nat * Z * string :=
  let '(n, m, s) := span_base base s 0 0 in
  match s with
  | String "." s' => let '(n', m, s') := span_base base s' n m in (n', (n' - n)%nat, m, s')
  | _ => (n, 0%nat, m, s)
  end.

(** An exponent after the letter [mark]; without digits it is not one. *)
Definition exponent (mark : ascii) (s : string) : Z :=
  match s with
  | String a s' =>
      if Ascii.eqb (tolower a) mark then
        let '(neg, s') := sign s' in
        let '(n, e, _) := span_base 10 s' 0 0 in
        if (n =? 0)%nat then 0 else if neg then - e else e
      else 0
  | EmptyString => 0
  end.

(** Base, digits, digits after the point, mantissa, exponent. *)
Definition number_parts (s : string) : Z * nat * nat * Z * Z :=
  let decimal := let '(n, k, m, s) := span_mantissa 10 s in (10, n, k, m, exponent "e" s) in
  match s with
  | String "0" (String x s') =>
      if is_x x then
        let '(n, k, m, s') := span_mantissa 16 s' in
        if (n =? 0)%nat then decimal else (16, n, k, m, exponent "p" s')
      else decimal
  | _ => decimal
  end.

(** [num / den] rounded, and whether it could not be held: too large, or below
    the normal numbers and not exact. *)
Definition round_fraction (prec emax : Z) (neg : bool) (num den : positive) : spec_float * bool :=
  let '(q, e, l) := SFdiv_core_binary prec emax (Zpos num) 0 (Zpos den) 0 in
  let f := binary_round_aux prec emax neg q e l in
  match f with
  | S754_finite _ m e =>
      (f, (Zpos m <? 2 ^ (prec - 1)) && negb (Zpos m * Zpos den * 2 ^ Z.max e 0 =? Zpos num * 2 ^ Z.max (- e) 0))
  | _ => (f, true)
  end.

Definition stofloat (prec emax : Z) (s : string) : option spec_float :=
  let '(neg, s) := sign (skip_space s) in
  if prefix_lower "inf" s then Some (S754_infinity neg)
  else if prefix_lower "nan" s then Some S754_nan
  else
    let '(base, n, k, m, e) := number_parts s in
    let '(radix, e) := if base =? 16 then (2, e - 4 * Z.of_nat k) else (10, e - Z.of_nat k) in
    if (n =? 0)%nat then None
    else
      match m * radix ^ Z.max e 0, radix ^ Z.max (- e) 0 with
      | Zpos num, Zpos den =>
          let '(f, range_error) := round_fraction prec emax neg num den in
          if range_error then None else Some f
      | _, _ => Some (S754_zero neg)
      end.

(** ** Output: [std::to_string] *)

Definition show_int (z : Z) : string := if z <? 0 then (String "-" (show (- z))) else show z.

(** [%f]: six digits after the point, to the nearest, halves to even. The sign
    of a NaN is not modelled. *)
Definition show_fixed (f : spec_float) : string :=
  match f with
  | S754_nan => "nan"
  | S754_infinity s => if s then "-inf" else "inf"
  | S754_zero s => if s then "-0.000000" else "0.000000"
  | S754_finite s m e =>
      let z := round_div (Zpos m * 2 ^ Z.max e 0 * 10 ^ 6) (2 ^ Z.max (- e) 0) in
      let frac := show (z mod 10 ^ 6) in
      ((if s then "-" else "") ++ show (z / 10 ^ 6) ++ "." ++ zeros (6 - String.length frac) ++ frac)%string
  end.

(** ** Lemmas *)

Lemma digit_in_digit_char base d : 0 <= d < 10 -> d < base -> digit_in base (digit_char d) = Some d.
Proof.
  intros H Hb. unfold digit_in. assert (digit_of (digit_char d) = Some d) as ->.
  { assert (d = 0 \/ d = 1 \/ d = 2 \/ d = 3 \/ d = 4 \/ d = 5 \/ d = 6 \/ d = 7 \/ d = 8 \/ d = 9) as Hd by lia.
    by destruct_or! Hd; subst. }
  cbn. by rewrite (proj2 (Z.ltb_lt _ _)).
Qed.

Lemma span_base_show_digits fuel : forall z acc n m,
  0 <= z < 2 ^ Z.of_nat fuel -> (0 < fuel)%nat ->
  exists k, (0 < k)%nat /\
  span_base 10 (show_digits fuel z acc) n m = span_base 10 acc (n + k) (m * 10 ^ Z.of_nat k + z).
Proof.
  induction fuel as [|fuel IH]; intros z acc n m Hz Hf; [lia|]. cbn [show_digits].
  pose proof (Z.mod_pos_bound z 10 ltac:(lia)) as Hm. pose proof (Z.div_mod z 10 ltac:(lia)) as Hd.
  assert (forall n' m', span_base 10 (String (digit_char (z mod 10)) acc) n' m' =
    span_base 10 acc (S n') (10 * m' + z mod 10)) as Hs
    by (intros; cbn [span_base]; by rewrite digit_in_digit_char by lia).
  destruct (Z.eqb_spec (z / 10) 0) as [E|E].
  - exists 1%nat. split; [lia|]. rewrite Hs. f_equal; lia.
  - assert (0 < z / 10) by (pose proof (Z.div_pos z 10); lia).
    rewrite Nat2Z.inj_succ, Z.pow_succ_r in Hz by lia.
    assert (z / 10 < 2 ^ Z.of_nat fuel) by (apply Z.div_lt_upper_bound; lia).
    destruct (IH (z / 10) (String (digit_char (z mod 10)) acc) n m) as (k & Hk & ->);
      [lia|destruct fuel; [simpl in *; lia|lia]|].
    exists (S k). split; [lia|]. rewrite Hs. rewrite Nat2Z.inj_succ, Z.pow_succ_r by lia. f_equal; lia.
Qed.

(** A printed number has no prefix of another base: only zero starts with 0. *)
Lemma show_digits_zero fuel z s :
  0 < z < 2 ^ Z.of_nat fuel -> forall acc, show_digits fuel z acc <> String "0" s.
Proof.
  revert z. induction fuel as [|fuel IH]; intros z Hz acc; [simpl in *; lia|]. cbn [show_digits].
  pose proof (Z.div_mod z 10 ltac:(lia)) as Hd. pose proof (Z.mod_pos_bound z 10 ltac:(lia)).
  destruct (Z.eqb_spec (z / 10) 0) as [E|E].
  - intros [= Hc _]. apply (f_equal digit_value) in Hc. destruct (digit_char_cases (z mod 10)) as (_ & Ev & _); [lia|]. rewrite Ev in Hc.
    change (digit_value "0") with 0 in Hc. lia.
  - apply IH. rewrite Nat2Z.inj_succ, Z.pow_succ_r in Hz by lia.
    split; [pose proof (Z.div_pos z 10); lia|apply Z.div_lt_upper_bound; lia].
Qed.

Lemma strto_show z : 0 <= z -> strto 0 (show z) = Some (false, z).
Proof.
  intros Hz. unfold strto. rewrite skip_space_clean by apply show_clean.
  assert (sign (show z) = (false, show z)) as ->.
  { destruct (show_head z) as (a & s & -> & Ha). by apply sign_digit. }
  assert (0 <= z < 2 ^ Z.of_nat (S (Z.to_nat (Z.log2 z)))) as Hb.
  { split; [done|]. rewrite Nat2Z.inj_succ, Z2Nat.id by apply Z.log2_nonneg.
    destruct (Z.eq_dec z 0) as [->|]; [done|]. apply Z.log2_spec. lia. }
  destruct (Z.eq_dec z 0) as [->|Hn]; [done|].
  assert (number_base 0 (show z) = (10, show z)) as ->.
  { assert (forall s, show z <> String "0" s) as H0.
    { intros s. apply show_digits_zero. lia. }
    unfold number_base. destruct (show z) as [|a s]; [done|]. specialize (H0 s).
    by destruct a as [[] [] [] [] [] [] [] []]. }
  unfold show. destruct (span_base_show_digits (S (Z.to_nat (Z.log2 z))) z "" 0 0 Hb ltac:(lia)) as (k & Hk & ->).
  cbn [span_base]. destruct k; [lia|]. done.
Qed.

(** Printed numbers are read back. *)
Lemma stoi_show z : 0 <= z < 2 ^ 31 -> stoi 0 (show z) = Some z.
Proof.
  intros Hz. unfold stoi, stol. rewrite strto_show by lia. cbn [mbind option_bind]. unfold within.
  rewrite !(proj2 (Z.leb_le _ _)) by lia. cbn. by rewrite !(proj2 (Z.leb_le _ _)) by lia.
Qed.

Lemma stoul_show z : 0 <= z < 2 ^ 64 -> stoul 0 (show z) = Some z.
Proof.
  intros Hz. unfold stoul. rewrite strto_show by lia. cbn [mbind option_bind]. unfold within.
  rewrite !(proj2 (Z.leb_le _ _)) by lia. cbn. by rewrite wrap_small.
Qed.
