(* ===== verification/CmdParser.v ===== *)
(** * The command line parser: src/include/cmdparser.hpp

    [Parser] with its commands. A command of type [T] is a [CmdArgument]
    with a value of the C++ type that [arg_type] names; pointers to commands
    are indices into the list of commands. Exceptions of the conversions are
    [Thrown]; a value that was never initialised is [None], and reading it is
    [Undefined]. Output goes to the two streams of [run]. *)

From S2P Require Import Prelude Text Strto.
From Stdlib Require Import Floats.SpecFloat.
Local Open Scope string_scope.
Local Open Scope Z_scope.

(** ** Types of arguments and their values *)

Inductive int_type := T_int | T_unsigned | T_long | T_ulong | T_ulonglong.
Inductive float_type := T_float | T_double | T_ldouble.

Inductive arg_type :=
| T_bool
| T_ushort                                   (* [uint16_t] *)
| T_integer (k : int_type)
| T_floating (k : float_type)
| T_string
| T_vector (t : arg_type)
| T_base (k : int_type) (base : Z).          (* [NumericalBase<k, base>] *)

#[export] Instance int_type_eq_dec : EqDecision int_type.
Proof. solve_decision. Defined.
#[export] Instance float_type_eq_dec : EqDecision float_type.
Proof. solve_decision. Defined.
#[export] Instance arg_type_eq_dec : EqDecision arg_type.
Proof. solve_decision. Defined.

Fixpoint val (t : arg_type) : Type :=
  match t with
  | T_bool => bool
  | T_ushort | T_integer _ | T_base _ _ => Z
  | T_floating _ => spec_float
  | T_string => string
  | T_vector t => list (val t)
  end.

(** [T()] *)
Definition val_default (t : arg_type) : val t :=
  match t with
  | T_bool => false
  | T_ushort | T_integer _ | T_base _ _ => 0
  | T_floating _ => S754_zero false
  | T_string => ""
  | T_vector t => []
  end.

Inductive result (A : Type) := Parsed (a : A) | Thrown | Indeterminate.
Arguments Parsed {A}. Arguments Thrown {A}. Arguments Indeterminate {A}.

(** Conversions of a single element. *)
Definition parse_one {A} (f : string -> option A) (elements : list string) : result A :=
  match elements with
  | [e] => match f e with Some a => Parsed a | None => Thrown end
  | _ => Thrown
  end.

Definition parse_integer (k : int_type) (numberBase : Z) : string -> option Z :=
  match k with
  | T_int => stoi numberBase
  | T_unsigned => fun s => wrap 32 <$> stoul numberBase s
  | T_long => stol numberBase
  | T_ulong | T_ulonglong => stoul numberBase
  end.

(** The x87 format for [long double]. *)
Definition parse_floating (k : float_type) : string -> option spec_float :=
  match k with
  | T_float => stofloat 24 128
  | T_double => stofloat 53 1024
  | T_ldouble => stofloat 64 16384
  end.

(** The elements of a vector, up to the first that throws. *)
Fixpoint parse_all {A} (parse : list string -> result A) (elements : list string) : result (list A) :=
  match elements with
  | [] => Parsed []
  | e :: es =>
      match parse [e] with
      | Parsed a =>
          match parse_all parse es with
          | Parsed l => Parsed (a :: l)
          | r => r
          end
      | Thrown => Thrown
      | Indeterminate => Indeterminate
      end
  end.

(** [Parser::parse]. A [uint16_t] goes through the [int] overload; a [bool] is
    the opposite of its value. *)
Fixpoint parse (t : arg_type) (elements : list string) : option (val t) -> result (val t) :=
  match t with
  | T_bool => fun value =>
      match elements, value with
      | [], Some b => Parsed (negb b)
      | [], None => Indeterminate
      | _, _ => Thrown
      end
  | T_ushort => fun _ => parse_one (fun s => wrap 16 <$> stoi 0 s) elements
  | T_integer k => fun _ => parse_one (parse_integer k 0) elements
  | T_floating k => fun _ => parse_one (parse_floating k) elements
  | T_string => fun _ => parse_one Some elements
  | T_vector t => fun _ => parse_all (fun es => parse t es (Some (val_default t))) elements
  | T_base k base => fun _ => parse_one (parse_integer k base) elements
  end.

Fixpoint stringify (t : arg_type) : val t -> string :=
  match t with
  | T_bool => fun b : bool => if b then "1" else "0"
  | T_ushort | T_integer _ | T_base _ _ => show_int
  | T_floating _ => show_fixed
  | T_string => fun s => s
  | T_vector t => fun values => "[ " ++ foldr (fun v s => stringify t v ++ " " ++ s) "]" values
  end.

(** ** Commands *)

(** What a callback does: it returns or throws, having written to the two
    streams, or ends the program. *)
Inductive callback_result :=
| Returned (out err : string)
| Threw (out err : string)
| Exits (code : Z) (out err : string).

(** The callback of [enable_help] prints the usage of the parser. *)
Inductive callback := Help | Callback (f : list string -> callback_result).

Inductive cmd_kind :=
| CmdFunction (c : callback)
| CmdArgument (t : arg_type) (value : option (val t)).

Record CmdBase := MkCmd {
  c_name : string;
  command : string;
  alternative : string;
  description : string;
  required : bool;
  handled : bool;
  arguments : list string;
  dominant : bool;
  variadic : bool;
  kind : cmd_kind
}.

Definition dashed (dash name : string) : string := if String.eqb name "" then "" else dash ++ name.

Definition Variadic (t : arg_type) : bool := match t with T_vector _ => true | _ => false end.

Definition CmdBase_new (name alternative description : string) (required dominant variadic : bool) (k : cmd_kind) : CmdBase :=
  MkCmd name (dashed "-" name) (dashed "--" alternative) description required false [] dominant variadic k.

(** [CmdBase::is] *)
Definition is_given (c : CmdBase) (given : string) : bool :=
  String.eqb given (command c) || String.eqb given (alternative c).

Definition set_handled (c : CmdBase) : CmdBase :=
  MkCmd (c_name c) (command c) (alternative c) (description c) (required c) true (arguments c) (dominant c) (variadic c) (kind c).

Definition push_argument (a : string) (c : CmdBase) : CmdBase :=
  MkCmd (c_name c) (command c) (alternative c) (description c) (required c) true (arguments c ++ [a])%list (dominant c)
    (variadic c) (kind c).

Definition with_kind (c : CmdBase) (k : cmd_kind) : CmdBase :=
  MkCmd (c_name c) (command c) (alternative c) (description c) (required c) (handled c) (arguments c) (dominant c) (variadic c) k.

Definition print_value (k : cmd_kind) : option string :=
  match k with
  | CmdFunction _ => Some ""
  | CmdArgument t v => stringify t <$> v
  end.

(** ** The parser *)

Record Parser := MkParser { appname : string; args : list string; commands : list CmdBase }.

Definition with_commands (p : Parser) (cs : list CmdBase) : Parser := MkParser (appname p) (args p) cs.
Definition add_command (c : CmdBase) (p : Parser) : Parser := with_commands p (commands p ++ [c])%list.

Definition set_default (t : arg_type) (is_required : bool) (descr : string) : Parser -> Parser :=
  add_command (CmdBase_new "" "" descr is_required false (Variadic t)
    (CmdArgument t (match t with T_string | T_vector _ | T_base _ _ => Some (val_default t) | _ => None end))).

Definition set_required (t : arg_type) (name alt descr : string) (dom : bool) : Parser -> Parser :=
  add_command (CmdBase_new name alt descr true dom (Variadic t)
    (CmdArgument t (match t with T_string | T_vector _ | T_base _ _ => Some (val_default t) | _ => None end))).

Definition set_optional (t : arg_type) (name alt : string) (dflt : val t) (descr : string) (dom : bool) : Parser -> Parser :=
  add_command (CmdBase_new name alt descr false dom (Variadic t) (CmdArgument t (Some dflt))).

Definition set_callback (t : arg_type) (name alt : string) (cb : callback) (descr : string) (dom : bool) : Parser -> Parser :=
  add_command (CmdBase_new name alt descr false dom (Variadic t) (CmdFunction cb)).

Definition enable_help : Parser -> Parser := set_callback T_bool "h" "help" Help "" true.

(** [argv] with its [argc] strings; without [argv[0]] the constructor reads a
    null pointer. *)
Definition Parser_new (argv : list string) : option Parser :=
  match argv with
  | [] => None
  | app :: l => Some (enable_help (MkParser app l []))
  end.

Definition is_help (c : CmdBase) : bool := String.eqb (c_name c) "h" && String.eqb (alternative c) "--help".
Definition has_help (p : Parser) : bool := existsb is_help (commands p).

Fixpoint erase_first (f : CmdBase -> bool) (cs : list CmdBase) : list CmdBase :=
  match cs with
  | [] => []
  | c :: cs => if f c then cs else c :: erase_first f cs
  end.

Definition disable_help (p : Parser) : Parser := with_commands p (erase_first is_help (commands p)).

Fixpoint find_cmd (f : CmdBase -> bool) (cs : list CmdBase) : option nat :=
  match cs with
  | [] => None
  | c :: cs => if f c then Some O else S <$> find_cmd f cs
  end.

Definition find (name : string) : list CmdBase -> option nat := find_cmd (fun c => is_given c name).
Definition find_default : list CmdBase -> option nat := find_cmd (fun c => String.eqb (c_name c) "").

Definition requirements (p : Parser) : Z := Z.of_nat (length (List.filter required (commands p))).
Definition count (p : Parser) : Z := Z.of_nat (length (commands p)).

(** ** Texts *)

Definition nl : string := String (ascii_of_nat 10) "".
Definition tab : string := String (ascii_of_nat 9) "".

Definition usage_of (c : CmdBase) : option string :=
  tail ← (if required c then Some ""
          else v ← print_value (kind c);
               Some (nl ++ "   " ++ "This parameter is optional. The default value is '" ++ v ++ "'."));
  Some ("  " ++ command c ++ tab ++ alternative c ++ (if required c then tab ++ "(required)" else "")
        ++ nl ++ "   " ++ description c ++ tail ++ nl ++ nl).

Definition usage (p : Parser) : option string :=
  texts ← mapM usage_of (commands p);
  Some ("Available parameters:" ++ nl ++ nl ++ String.concat "" texts).

Definition print_help (p : Parser) : string := if has_help p then "For more help use --help or -h." ++ nl else "".

Definition howto_required (p : Parser) (c : CmdBase) : string :=
  "The parameter " ++ c_name c ++ " is required." ++ nl ++ description c ++ nl ++ print_help p.

Definition howto_use (p : Parser) (c : CmdBase) : string :=
  "The parameter " ++ c_name c ++ " has invalid arguments." ++ nl ++ description c ++ nl ++ print_help p.

Definition no_default (p : Parser) : string :=
  "No default parameter has been specified." ++ nl ++ "The given argument must be used with a parameter." ++ nl ++ print_help p.

(** ** [run] *)

Definition is_argument (w : string) : bool := match w with String "-" _ => true | _ => false end.

(** The command that a word names. *)
Definition associated (w : string) (cs : list CmdBase) : option nat := if is_argument w then find w cs else None.

Definition stays (i : nat) (cs : list CmdBase) : bool := match cs !! i with Some c => variadic c | None => false end.

(** The loop over the arguments; [false] when a word has no command. *)
Fixpoint associate (words : list string) (current : option nat) (cs : list CmdBase) : bool * list CmdBase :=
  match words with
  | [] => (true, cs)
  | w :: words =>
      match associated w cs with
      | Some i => associate words (Some i) (alter set_handled i cs)
      | None =>
          match current with
          | None => (false, cs)
          | Some i =>
              let cs := alter (push_argument w) i cs in
              associate words (if stays i cs then current else find_default cs) cs
          end
      end
  end.

Record streams := MkStreams { output : string; error : string }.

Definition write (s : streams) (out err : string) : streams := MkStreams (output s ++ out) (error s ++ err).

Inductive outcome (A : Type) := Done (a : A) (s : streams) | Exit (code : Z) (s : streams) | Undefined.
Arguments Done {A}. Arguments Exit {A}. Arguments Undefined {A}.

(** What the virtual [parse] of a command leaves of it. *)
Definition call (p : Parser) (cb : callback) (l : list string) : option callback_result :=
  match cb with
  | Help => u ← usage p; Some (Exits 0 u "")
  | Callback f => Some (f l)
  end.

Definition parse_command (p : Parser) (c : CmdBase) (s : streams) : outcome (bool * CmdBase) :=
  match kind c with
  | CmdFunction cb =>
      match call p cb (arguments c) with
      | Some (Returned out err) => Done (true, c) (write s out err)
      | Some (Threw out err) => Done (false, c) (write s out err)
      | Some (Exits code out err) => Exit code (write s out err)
      | None => Undefined
      end
  | CmdArgument t v =>
      match parse t (arguments c) v with
      | Parsed v => Done (true, with_kind c (CmdArgument t (Some v))) s
      | Thrown => Done (false, c) s
      | Indeterminate => Undefined
      end
  end.

(** The loop over the commands that are handled and dominant, or not. *)
Fixpoint parse_commands (dom : bool) (todo : list nat) (p : Parser) (s : streams) : outcome (bool * Parser) :=
  match todo with
  | [] => Done (true, p) s
  | i :: todo =>
      match commands p !! i with
      | None => Undefined
      | Some c =>
          if handled c && Bool.eqb (dominant c) dom then
            match parse_command p c s with
            | Done (ok, c) s =>
                let p := with_commands p (<[i := c]> (commands p)) in
                if ok : bool then parse_commands dom todo p s else Done (false, p) (write s "" (howto_use p c))
            | Exit code s => Exit code s
            | Undefined => Undefined
            end
          else parse_commands dom todo p s
      end
  end.

Definition missing (c : CmdBase) : bool := required c && negb (handled c).

Definition all_of (p : Parser) : list nat := seq 0 (length (commands p)).

Definition run (p : Parser) (s : streams) : outcome (bool * Parser) :=
  let '(ok, cs) := associate (args p) (find_default (commands p)) (commands p) in
  let p := with_commands p cs in
  if negb ok then Done (false, p) (write s "" (no_default p))
  else
    match parse_commands true (all_of p) p s with
    | Done (true, p) s =>
        match List.find missing (commands p) with
        | Some c => Done (false, p) (write s "" (howto_required p c))
        | None => parse_commands false (all_of p) p s
        end
    | r => r
    end.

Definition run_and_exit_if_error (p : Parser) (s : streams) : outcome Parser :=
  match run p s with
  | Done (true, p) s => Done p s
  | Done (false, _) s => Exit 1 s
  | Exit code s => Exit code s
  | Undefined => Undefined
  end.

(** ** [get] *)

(** [dynamic_cast] to the command of another type. *)
Definition cast {t : arg_type} (t' : arg_type) (v : option (val t)) : option (option (val t')) :=
  match decide (t = t') with
  | left E => Some (eq_rect t (fun t => option (val t)) v t' E)
  | right _ => None
  end.

Definition get_of (t : arg_type) (c : CmdBase) : result (val t) :=
  match kind c with
  | CmdFunction _ => Thrown
  | CmdArgument t' v =>
      match cast t v with
      | None => Thrown
      | Some None => Indeterminate
      | Some (Some v) => Parsed v
      end
  end.

(** The first command of the name decides, whatever its type. *)
Definition get (t : arg_type) (name : string) (p : Parser) : result (val t) :=
  match List.find (fun c => String.eqb (c_name c) name) (commands p) with
  | Some c => get_of t c
  | None => Thrown
  end.

Definition get_if (t : arg_type) (name : string) (cb : val t -> val t) (p : Parser) : result (val t) :=
  match get t name p with
  | Parsed v => Parsed (cb v)
  | r => r
  end.

(** ** What the arguments of a command line say

    A line is a list of items, each a word that names a command and the
    arguments that follow it. *)

Definition item : Type := string * list string.
Definition render (items : list item) : list string := concat (map (fun it => it.1 :: it.2) items).

Definition unnamed (cs : list CmdBase) (w : string) : Prop := associated w cs = None.

(** The command that an item names takes all its arguments. *)
Definition item_ok (cs : list CmdBase) (it : item) : Prop :=
  exists i, associated it.1 cs = Some i /\ Forall (unnamed cs) it.2 /\ (stays i cs = true \/ (length it.2 <= 1)%nat).

(** The command that takes the next argument after an item. *)
Definition next_of (cs : list CmdBase) (it : item) : option nat :=
  i ← associated it.1 cs; if stays i cs then Some i else match it.2 with [] => Some i | _ => None end.

(** No command takes another argument. *)
Definition full (cs : list CmdBase) (items : list item) : Prop :=
  match last items with Some it => next_of cs it = None | None => True end.

(** Which commands are named, with which arguments. *)
Definition named_by (cs : list CmdBase) (i : nat) (it : item) : bool := bool_decide (associated it.1 cs = Some i).
Definition mentioned (cs : list CmdBase) (items : list item) (i : nat) : bool := existsb (named_by cs i) items.
Definition given (cs : list CmdBase) (items : list item) (i : nat) : list string :=
  concat (map snd (List.filter (named_by cs i) items)).

Definition give (l : list string) (c : CmdBase) : CmdBase :=
  MkCmd (c_name c) (command c) (alternative c) (description c) (required c) true (arguments c ++ l)%list (dominant c)
    (variadic c) (kind c).

Definition fill (h : bool) (l : list string) (c : CmdBase) : CmdBase :=
  MkCmd (c_name c) (command c) (alternative c) (description c) (required c) (handled c || h) (arguments c ++ l)%list (dominant c)
    (variadic c) (kind c).

(** The commands after a line. *)
Definition filled (cs : list CmdBase) (items : list item) : list CmdBase :=
  imap (fun i => fill (mentioned cs items i) (given cs items i)) cs.

(** *** Commands that differ in what they were given only *)

Definition shape (c : CmdBase) : string * string * string * bool := (c_name c, command c, alternative c, variadic c).
Definition alike : relation CmdBase := fun c c' => shape c = shape c'.
Definition same_shape : relation (list CmdBase) := Forall2 alike.

#[export] Instance alike_equiv : Equivalence alike.
Proof. unfold alike. split; [by intros ?|by intros ??|by intros ??? ->]. Qed.
#[export] Instance same_shape_equiv : Equivalence same_shape.
Proof. unfold same_shape. apply _. Qed.

Lemma find_cmd_shape f g cs cs' :
  (forall c c', shape c = shape c' -> f c = g c') -> same_shape cs cs' -> find_cmd f cs = find_cmd g cs'.
Proof.
  intros Hf. induction 1 as [|c c' cs cs' Hc _ IH]; [done|]. cbn [find_cmd].
  rewrite (Hf c c') by done. destruct (g c'); [done|]. by rewrite IH.
Qed.

#[export] Instance associated_proper : Proper (eq ==> same_shape ==> eq) associated.
Proof.
  intros w ? <- cs cs' H. unfold associated, find. destruct (is_argument w); [|done].
  apply find_cmd_shape; [|done]. intros c c' [= _ E1 E2 _]. unfold is_given. by rewrite E1, E2.
Qed.

#[export] Instance find_default_proper : Proper (same_shape ==> eq) find_default.
Proof. intros cs cs'. apply find_cmd_shape. by intros c c' [= -> _ _ _]. Qed.

#[export] Instance stays_proper : Proper (eq ==> same_shape ==> eq) stays.
Proof.
  intros i ? <- cs cs' H. unfold stays.   pose proof (Forall2_length _ _ _ H) as Hlen. destruct (cs !! i) as [c|] eqn:E.
  - destruct (Forall2_lookup_l _ _ _ _ _ H E) as (c' & -> & [= _ _ _ ->]). done.
  - apply lookup_ge_None in E. by rewrite (lookup_ge_None_2 cs') by lia.
Qed.

Lemma alter_shape f i (cs : list CmdBase) : (forall c, shape (f c) = shape c) -> same_shape (alter f i cs) cs.
Proof.
  intros Hf. revert i. induction cs as [|c cs IH]; intros i; [done|].
  destruct i as [|i]; cbn; constructor; [apply Hf|reflexivity|done|apply IH].
Qed.

Lemma give_shape l i (cs : list CmdBase) : same_shape (alter (give l) i cs) cs.
Proof. by apply alter_shape. Qed.

Lemma stays_give l i j cs : stays j (alter (give l) i cs) = stays j cs.
Proof. by rewrite give_shape. Qed.

Lemma default_give l i cs : find_default (alter (give l) i cs) = find_default cs.
Proof. by rewrite give_shape. Qed.

Lemma unnamed_give l i cs w : unnamed cs w -> unnamed (alter (give l) i cs) w.
Proof. unfold unnamed. by rewrite give_shape. Qed.

Create Rewrite HintDb cmd_shape.
#[export] Hint Rewrite stays_give default_give : cmd_shape.

Lemma alter_give l l' i (cs : list CmdBase) : alter (give l') i (alter (give l) i cs) = alter (give (l ++ l')) i cs.
Proof.
  rewrite list_alter_alter_eq. apply list_alter_ext; [|done]. intros c _. unfold give, compose. cbn. by rewrite <-(assoc_L (++)).
Qed.

Lemma alter_handled i (cs : list CmdBase) : alter set_handled i cs = alter (give []) i cs.
Proof. apply list_alter_ext; [|done]. intros c _. unfold set_handled, give. by rewrite app_nil_r. Qed.

(** *** The loop over the words of an item *)

Lemma associate_named w words i current cs :
  associated w cs = Some i -> associate (w :: words) current cs = associate words (Some i) (alter (give []) i cs).
Proof. intros H. cbn [associate]. by rewrite H, alter_handled. Qed.

Lemma associate_unnamed w words i cs :
  unnamed cs w ->
  associate (w :: words) (Some i) cs =
    associate words (if stays i cs then Some i else find_default cs) (alter (give [w]) i cs).
Proof.
  intros H. cbn [associate]. rewrite H. change (push_argument w) with (give [w]). by autorewrite with cmd_shape.
Qed.

Lemma associate_variadic l rest i cs :
  stays i cs = true -> Forall (unnamed cs) l ->
  forall l0, associate (l ++ rest) (Some i) (alter (give l0) i cs) = associate rest (Some i) (alter (give (l0 ++ l)) i cs).
Proof.
  intros Hv. induction 1 as [|w l Hw Hl IH]; intros l0; [by rewrite app_nil_r|].
  rewrite <-app_comm_cons, associate_unnamed by (by apply unnamed_give).
  autorewrite with cmd_shape. rewrite Hv, alter_give, IH. by rewrite <-(assoc_L (++)).
Qed.

Definition take_item (cs : list CmdBase) (it : item) : list CmdBase :=
  match associated it.1 cs with Some i => alter (give it.2) i cs | None => cs end.

Lemma take_item_shape cs it : same_shape (take_item cs it) cs.
Proof. unfold take_item. destruct (associated it.1 cs); [apply give_shape|done]. Qed.

Lemma associate_item cs it rest current :
  find_default cs = None -> item_ok cs it ->
  associate (it.1 :: it.2 ++ rest) current cs = associate rest (next_of cs it) (take_item cs it).
Proof.
  intros Hd (i & Ei & Hl & Hn). unfold next_of, take_item. rewrite (associate_named _ _ i), Ei by done.
  cbn [mbind option_bind]. destruct (stays i cs) eqn:Hv; [by apply (associate_variadic it.2 rest i cs Hv Hl [])|].
  destruct Hn as [?|Hn]; [done|]. destruct it as [w [|a [|b l]]]; cbn [fst snd length app] in *; [done| |lia].
  apply Forall_cons in Hl as [Ha _]. rewrite associate_unnamed by (by apply unnamed_give).
  autorewrite with cmd_shape. by rewrite Hv, Hd, alter_give.
Qed.

Lemma item_ok_shape cs cs' it : same_shape cs cs' -> item_ok cs it -> item_ok cs' it.
Proof.
  intros H (i & Ei & Hl & Hn). assert (forall w, associated w cs' = associated w cs) as Ha by (intros w; by rewrite H).
  exists i. rewrite Ha. split_and!; [done|eapply Forall_impl; [exact Hl|]; intros a; unfold unnamed; by rewrite Ha|].
  by rewrite <-(stays_proper i i eq_refl _ _ H).
Qed.

Lemma next_of_shape cs cs' it : same_shape cs cs' -> next_of cs it = next_of cs' it.
Proof. intros H. unfold next_of. rewrite H. destruct (associated it.1 cs'); [|done]. cbn. by rewrite H. Qed.

Lemma associate_items items : forall cs current rest,
  find_default cs = None -> Forall (item_ok cs) items ->
  associate (render items ++ rest) current cs =
    associate rest (match last items with Some it => next_of cs it | None => current end) (foldl take_item cs items).
Proof.
  induction items as [|it items IH]; intros cs current rest Hd H; [done|]. apply Forall_cons in H as [Hit H].
  cbn [render map concat]. rewrite <-app_assoc. change (concat _) with (render items). cbn [app foldl].
  rewrite associate_item by done. pose proof (take_item_shape cs it) as Hs.
  rewrite IH; [|by rewrite Hs|eapply Forall_impl; [exact H|]; intros ?; by apply item_ok_shape].
  f_equal. destruct items as [|it' items]; [done|]. change (last (it :: it' :: items)) with (last (it' :: items)).
  destruct (last (it' :: items)) as [x|] eqn:E; [by apply next_of_shape|]. by apply last_None in E.
Qed.

(** *** The result in closed form *)

Lemma list_alter_imap {A} (f : A -> A) (i : nat) (l : list A) :
  alter f i l = imap (fun j x => if decide (j = i) then f x else x) l.
Proof.
  apply list_eq. intros j. rewrite list_lookup_alter, list_lookup_imap. case_decide as E.
  - subst j. destruct (l !! i); [|done]. cbn. by rewrite decide_True.
  - destruct (l !! j); [|done]. cbn. by rewrite decide_False.
Qed.

Lemma imap_imap {A} (f g : nat -> A -> A) (l : list A) : imap g (imap f l) = imap (fun i x => g i (f i x)) l.
Proof. apply list_eq. intros i. rewrite !list_lookup_imap. by destruct (l !! i). Qed.

Lemma fill_fill h l h' l' c : fill h' l' (fill h l c) = fill (h || h') (l ++ l') c.
Proof. unfold fill. cbn. by rewrite orb_assoc, <-(assoc_L (++)). Qed.

Lemma imap_same {A} (f : nat -> A -> A) (l : list A) : (forall i x, f i x = x) -> imap f l = l.
Proof. intros H. apply list_eq. intros i. rewrite list_lookup_imap. destruct (l !! i); [|done]. cbn. by rewrite H. Qed.

Lemma fill_nothing c : fill false [] c = c.
Proof. unfold fill. destruct c. cbn. by rewrite orb_false_r, app_nil_r. Qed.

Lemma filled_shape cs cs' items :
  same_shape cs cs' -> forall i, mentioned cs items i = mentioned cs' items i /\ given cs items i = given cs' items i.
Proof.
  intros H i. assert (forall it, named_by cs i it = named_by cs' i it) as Hn.
  { intros it. unfold named_by. apply bool_decide_ext. by rewrite H. }
  unfold mentioned, given. split.
  - induction items as [|it items IH]; [done|]. cbn. by rewrite Hn, IH.
  - f_equal. f_equal. apply List.filter_ext, Hn.
Qed.

Lemma take_item_fill cs it :
  take_item cs it = imap (fun i => fill (named_by cs i it) (if named_by cs i it then it.2 else [])) cs.
Proof.
  unfold take_item, named_by. destruct (associated it.1 cs) as [i|] eqn:E.
  - rewrite list_alter_imap. apply imap_ext. intros j c _. case_decide as Ej.
    + subst j. rewrite bool_decide_true by done. unfold give, fill. by rewrite orb_true_r.
    + rewrite bool_decide_false by congruence. symmetry. apply fill_nothing.
  - symmetry. apply imap_same. intros i c. apply fill_nothing.
Qed.

Lemma take_items_filled items : forall cs, foldl take_item cs items = filled cs items.
Proof.
  induction items as [|it items IH]; intros cs.
  - symmetry. apply imap_same. intros i c. apply fill_nothing.
  - cbn [foldl]. rewrite IH. unfold filled.
    trans (imap (fun i => fill (mentioned cs items i) (given cs items i)) (take_item cs it)).
    { apply imap_ext. intros i c _. by destruct (filled_shape _ _ items (take_item_shape cs it) i) as [-> ->]. }
    rewrite take_item_fill, imap_imap. apply imap_ext. intros i c _. rewrite fill_fill. f_equal.
    unfold given. cbn [List.filter]. by destruct (named_by cs i it).
Qed.

Lemma filled_same cs items : same_shape (filled cs items) cs.
Proof.
  rewrite <-take_items_filled. revert cs. induction items as [|it items IH]; intros cs; [done|].
  cbn [foldl]. by rewrite IH, take_item_shape.
Qed.

(** *** Every line *)

Lemma render_app items items' : render (items ++ items') = (render items ++ render items')%list.
Proof. unfold render. by rewrite map_app, concat_app. Qed.

(** A word is an item of its own, or goes to the last item, or is too much. *)
Lemma line_step cs its w :
  Forall (item_ok cs) its ->
  (exists its', Forall (item_ok cs) its' /\ render its' = (render its ++ [w])%list) \/ (unnamed cs w /\ full cs its).
Proof.
  intros H. destruct (associated w cs) as [i|] eqn:Ew.
  { left. exists (its ++ [(w, [])])%list. rewrite render_app. split; [|done]. apply Forall_app. split; [done|].
    apply Forall_singleton. exists i. cbn. split_and!; [done|constructor|lia]. }
  destruct its as [|it its _] using rev_ind; [right; by split|]. unfold full. rewrite last_snoc.
  destruct (next_of cs it) as [i|] eqn:En; [left|right; by split].
  apply Forall_app in H as [H Hit]. apply Forall_singleton in Hit as (j & Ej & Hl & Hn).
  exists (its ++ [(it.1, it.2 ++ [w])])%list. rewrite !render_app. split.
  - apply Forall_app. split; [done|]. apply Forall_singleton. exists j. cbn. split_and!; [done| |].
    + apply Forall_app. split; [done|by apply Forall_singleton].
    + unfold next_of in En. rewrite Ej in En. cbn in En. destruct (stays j cs); [by left|right].
      destruct it as [? [|? ?]]; [cbn; lia|done].
  - rewrite <-(assoc_L (++)). f_equal. cbn. by rewrite !app_nil_r.
Qed.

(** Words are items as far as possible: a line is read to its end, or up to a
    word for which there is no command. *)
Lemma line_cases cs words :
  exists items, Forall (item_ok cs) items /\
    (words = render items \/
     exists w rest, words = (render items ++ w :: rest)%list /\ unnamed cs w /\ full cs items).
Proof.
  assert (forall words its, Forall (item_ok cs) its -> exists items, Forall (item_ok cs) items /\
    ((render its ++ words)%list = render items \/
     exists w rest, (render its ++ words)%list = (render items ++ w :: rest)%list /\ unnamed cs w /\ full cs items)) as H.
  2: { by apply (H words []). }
  clear words. induction words as [|w words IH]; intros its H.
  - exists its. rewrite app_nil_r. eauto.
  - destruct (line_step cs its w H) as [(its' & H' & E)|[Hw Hf]].
    + destruct (IH its' H') as (items & Hi & Hc). exists items. split; [done|].
      by rewrite E, <-(assoc_L (++)) in Hc.
    + exists its. split; [done|]. right. by exists w, words.
Qed.

Lemma associate_line cs items :
  find_default cs = None -> Forall (item_ok cs) items -> associate (render items) None cs = (true, filled cs items).
Proof.
  intros Hd H. rewrite <-(app_nil_r (render items)), associate_items by done. cbn [associate].
  by rewrite take_items_filled.
Qed.

Lemma associate_stray cs items w rest :
  find_default cs = None -> Forall (item_ok cs) items -> unnamed cs w -> full cs items ->
  associate (render items ++ w :: rest) None cs = (false, filled cs items).
Proof.
  intros Hd H Hw Hf. rewrite associate_items, take_items_filled by done.
  assert (match last items with Some it => next_of cs it | None => None end = None) as ->.
  { unfold full in Hf. by destruct (last items). }
  assert (unnamed (filled cs items) w) as E by (unfold unnamed; by rewrite filled_same).
  cbn [associate]. by rewrite E.
Qed.

(** C21: reading a command line. Without a default command, a line of items
    gives each command it names the arguments that follow its names, in order,
    and leaves the others alone; a word for which there is no command stops the
    reading with an error; and every line is of one of the two forms. *)
Theorem command_line (cs : list CmdBase) (Hd : find_default cs = None) :
  (forall items, Forall (item_ok cs) items -> associate (render items) None cs = (true, filled cs items)) /\
  (forall items w rest, Forall (item_ok cs) items -> unnamed cs w -> full cs items ->
     associate (render items ++ w :: rest) None cs = (false, filled cs items)) /\
  (forall words, exists items, Forall (item_ok cs) items /\
     (words = render items \/
      exists w rest, words = (render items ++ w :: rest)%list /\ unnamed cs w /\ full cs items)).
Proof.
  split; [|split; [|apply line_cases]].
  - intros items. by apply associate_line.
  - intros items w rest. by apply associate_stray.
Qed.

(** Items of a concrete line. *)
Ltac items_ok :=
  repeat first [apply Forall_nil_2|apply Forall_cons_2];
  (eexists; split; [reflexivity|split; [repeat first [apply Forall_nil_2|apply Forall_cons_2]; reflexivity|]]);
  first [by left|right; cbn; lia].

(** A list of numbers and a file name. *)
Definition demo_commands : list CmdBase :=
  commands (set_optional (T_vector (T_integer T_int)) "l" "list" [] "" false
    (set_required T_string "f" "file" "" false (enable_help (MkParser "demo" [] [])))).

Definition demo_line : list item := [("-l", ["1"; "0x10"]); ("--file", ["-"]); ("-l", ["-3"])].

Lemma command_line_witness :
  find_default demo_commands = None /\
  associate (render demo_line) None demo_commands = (true, filled demo_commands demo_line) /\
  given demo_commands demo_line 2 = ["1"; "0x10"; "-3"] /\
  associate (render demo_line ++ ["-l"; "7"; "-f"; "a"; "b"]) None demo_commands =
    (false, filled demo_commands (demo_line ++ [("-l", ["7"]); ("-f", ["a"])])).
Proof.
  assert (find_default demo_commands = None) as Hd by reflexivity.
  destruct (command_line demo_commands Hd) as (H1 & H2 & _).
  assert (Forall (item_ok demo_commands) (demo_line ++ [("-l", ["7"]); ("-f", ["a"])])) as H.
  { items_ok. }
  split; [exact Hd|]. split; [apply H1; by apply Forall_app in H as [H _]|]. split; [reflexivity|].
  by apply (H2 _ "b" [] H).
Defined.

(** ** What is registered decides what [get] returns *)

Definition registered (c : CmdBase) : string * option arg_type :=
  (c_name c, match kind c with CmdArgument t _ => Some t | CmdFunction _ => None end).

Definition initialised (c : CmdBase) : Prop :=
  match kind c with CmdArgument _ v => is_Some v | CmdFunction _ => True end.

(** Reading, parsing and failing keep the registrations and initialise no less. *)
Definition keeps (cs cs' : list CmdBase) : Prop :=
  registered <$> cs' = registered <$> cs /\ Forall initialised cs'.

Lemma parse_all_defined {A} (f : list string -> result A) l :
  (forall es, f es <> Indeterminate) -> parse_all f l <> Indeterminate.
Proof.
  intros Hf. induction l as [|e l IH]; [done|]. cbn. specialize (Hf [e]). destruct (f [e]); try done.
  by destruct (parse_all f l).
Qed.

Lemma parse_one_defined {A} (f : string -> option A) l : parse_one f l <> Indeterminate.
Proof. unfold parse_one. destruct l as [|e [|]]; try done. by destruct (f e). Qed.

Lemma parse_defined t : forall l v, is_Some v -> parse t l v <> Indeterminate.
Proof.
  induction t; intros l v [x ->]; cbn [parse]; try apply parse_one_defined.
  - by destruct l.
  - apply parse_all_defined. intros es. apply IHt. by eexists.
Qed.

Lemma usage_defined p : Forall initialised (commands p) -> is_Some (usage p).
Proof.
  intros H. unfold usage. assert (is_Some (mapM usage_of (commands p))) as [l ->]; [|by eexists].
  apply mapM_is_Some_2. eapply Forall_impl; [exact H|]. intros c Hc. change (is_Some (usage_of c)). unfold usage_of.
  destruct (required c); [by eexists|]. assert (is_Some (print_value (kind c))) as [v ->]; [|by eexists].
  unfold initialised in Hc. destruct (kind c) as [|t v]; [by eexists|]. destruct Hc as [x ->]. by eexists.
Qed.

Lemma parse_command_keeps p c s :
  Forall initialised (commands p) -> initialised c ->
  match parse_command p c s with
  | Done (_, c') _ => registered c' = registered c /\ initialised c'
  | Exit _ _ => True
  | Undefined => False
  end.
Proof.
  intros Hp Hc. unfold parse_command. destruct (kind c) as [cb|t v] eqn:E.
  - assert (is_Some (call p cb (arguments c))) as [r ->].
    { destruct cb; [|by eexists]. destruct (usage_defined p Hp) as [u Hu]. cbn. rewrite Hu. by eexists. }
    by destruct r.
  - unfold initialised in Hc. rewrite E in Hc. pose proof (parse_defined t (arguments c) v Hc).
    destruct (parse t (arguments c) v); [|by split; [|unfold initialised; rewrite E]|done].
    unfold registered, initialised. cbn. rewrite E. split; [done|by eexists].
Qed.

Lemma keeps_insert (cs : list CmdBase) i c c' :
  Forall initialised cs -> cs !! i = Some c -> registered c' = registered c -> initialised c' -> keeps cs (<[i := c']> cs).
Proof.
  intros H Hi Hr Hc. split; [|by apply Forall_insert].
  rewrite list_fmap_insert, Hr, <-list_fmap_insert. by rewrite list_insert_id.
Qed.

Lemma keeps_alter f i (cs : list CmdBase) :
  (forall c, registered (f c) = registered c /\ (initialised c -> initialised (f c))) ->
  Forall initialised cs -> keeps cs (alter f i cs).
Proof.
  intros Hf H. revert i. induction H as [|c cs Hc H IH]; intros i; [by split|]. destruct i as [|i].
  - split; [cbn; by rewrite (proj1 (Hf c))|]. constructor; [by apply Hf|done].
  - destruct (IH i) as [H1 H2]. split; [|by constructor]. cbn. f_equal. apply H1.
Qed.

Lemma keep_commands_trans cs cs' cs'' : keeps cs cs' -> keeps cs' cs'' -> keeps cs cs''.
Proof. intros [H1 _] [H2 H]. split; [congruence|done]. Qed.

Lemma associate_keeps words : forall current cs,
  Forall initialised cs -> keeps cs (associate words current cs).2.
Proof.
  induction words as [|w words IH]; intros current cs H; [by split|]. cbn [associate].
  assert (forall f i current, (forall c, registered (f c) = registered c /\ (initialised c -> initialised (f c))) ->
    keeps cs (associate words current (alter f i cs)).2) as Hf.
  { intros f i cur Hf. pose proof (keeps_alter f i cs Hf H) as Hk. eapply keep_commands_trans; [exact Hk|]. apply IH, Hk. }
  destruct (associated w cs) as [i|]; [by apply Hf|]. destruct current as [i|]; [by apply Hf|by split].
Qed.

Lemma parse_commands_keeps dom todo : forall p s,
  Forall initialised (commands p) -> Forall (fun i => (i < length (commands p))%nat) todo ->
  match parse_commands dom todo p s with
  | Done (_, p') _ => keeps (commands p) (commands p')
  | Exit _ _ => True
  | Undefined => False
  end.
Proof.
  induction todo as [|i todo IH]; intros p s H Hi; [by split|]. apply Forall_cons in Hi as [Hi Hl]. cbn [parse_commands].
  destruct (lookup_lt_is_Some_2 _ _ Hi) as [c Ec]. rewrite Ec. destruct (handled c && _); [|by apply IH].
  pose proof (parse_command_keeps p c s H ltac:(by eapply Forall_lookup_1)) as Hk.
  destruct (parse_command p c s) as [[ok c'] s'| |]; [|done|done]. destruct Hk as [Hr Hc].
  pose proof (keeps_insert _ _ _ _ H Ec Hr Hc) as Hk. destruct ok; [|done].
  specialize (IH (with_commands p (<[i:=c']> (commands p))) s' (proj2 Hk)).
  cbn in IH. rewrite length_insert in IH. specialize (IH Hl).
  destruct (parse_commands _ _ _ _) as [[ok p'] s''| |]; [|done|done]. by eapply keep_commands_trans.
Qed.

Lemma all_of_range p : Forall (fun i => (i < length (commands p))%nat) (all_of p).
Proof. apply Forall_seq. lia. Qed.

Lemma run_keeps p s :
  Forall initialised (commands p) ->
  match run p s with
  | Done (_, p') _ => keeps (commands p) (commands p')
  | Exit _ _ => True
  | Undefined => False
  end.
Proof.
  intros H. unfold run. pose proof (associate_keeps (args p) (find_default (commands p)) _ H) as Ha.
  destruct (associate _ _ _) as [ok cs]. cbn [snd] in Ha. destruct ok; cbn [negb]; [|done].
  pose proof (parse_commands_keeps true (all_of (with_commands p cs)) (with_commands p cs) s (proj2 Ha) (all_of_range _)) as H1.
  destruct (parse_commands true _ _ _) as [[[] p1] s1| |]; [|by eapply keep_commands_trans|done|done].
  pose proof (keep_commands_trans _ _ _ Ha H1) as H2. destruct (List.find missing (commands p1)); [done|].
  pose proof (parse_commands_keeps false (all_of p1) p1 s1 (proj2 H2) (all_of_range _)) as H3.
  destruct (parse_commands false _ _ _) as [[ok p2] s2| |]; [|done|done]. by eapply keep_commands_trans.
Qed.

(** The type that the first command of a name is registered with. *)
Definition type_of (name : string) (cs : list CmdBase) : option arg_type :=
  '(_, t) ← List.find (fun r => String.eqb r.1 name) (map registered cs); t.

Lemma find_registered name cs :
  List.find (fun r => String.eqb r.1 name) (map registered cs) =
  registered <$> List.find (fun c => String.eqb (c_name c) name) cs.
Proof. induction cs as [|c cs IH]; [done|]. cbn. by destruct (String.eqb (c_name c) name). Qed.

Lemma get_of_type (t : arg_type) name p :
  Forall initialised (commands p) ->
  if bool_decide (type_of name (commands p) = Some t) then exists v, get t name p = Parsed v else get t name p = Thrown.
Proof.
  intros H. unfold type_of, get. rewrite find_registered.
  destruct (List.find _ (commands p)) as [c|] eqn:E; cbn; [|done].
  apply List.find_some in E as [Hc _]. assert (initialised c) as Hi by (eapply List.Forall_forall in H; eauto).
  unfold get_of. unfold initialised in Hi. destruct (kind c) as [cb|t' v]; [done|]. destruct Hi as [x ->].
  unfold cast. case_bool_decide as Et.
  - injection Et as ->. destruct (decide (t = t)) as [e|]; [|done]. rewrite (proof_irrel e eq_refl). by eexists.
  - destruct (decide (t' = t)); [congruence|done].
Qed.

(** Whatever the command line, a run of the parser is defined when every
    value is initialised, and then what was registered decides whether [get]
    returns or throws: it returns for the type of the first command of that
    name and throws for every other type and name. *)
Theorem registration_decides (p : Parser) (s : streams) :
  Forall initialised (commands p) ->
  match run_and_exit_if_error p s with
  | Done p' _ =>
      forall (t : arg_type) (name : string),
        if bool_decide (type_of name (commands p) = Some t) then exists v, get t name p' = Parsed v
        else get t name p' = Thrown
  | Exit _ _ => True
  | Undefined => False
  end.
Proof.
  intros H. unfold run_and_exit_if_error. pose proof (run_keeps p s H) as Hk.
  destruct (run p s) as [[[] p'] s'| |]; [|done|done|done]. destruct Hk as [Hr Hi]. intros t name.
  pose proof (get_of_type t name p' Hi) as Hg. unfold type_of in *.
  change (map registered (commands p')) with (registered <$> commands p') in Hg. by rewrite Hr in Hg.
Qed.
