(* ===== verification/Options.v ===== *)
(** * The command lines of the programs

    What [main] of src/src/wfb_bridge.cc, src/src/raw_socket_test.cc and
    src/src/test_fec.cc do with their arguments: the options they register,
    run the parser on and read. [prog] is a computation that writes to the two
    standard streams and may end the program. *)

From S2P Require Import Prelude Text Strto CmdParser.
From Stdlib Require Import Floats.SpecFloat.
Local Open Scope string_scope.
Local Open Scope Z_scope.

(** ** Programs *)

(** [Terminated]: by an exception that nothing catches. *)
Inductive ending (A : Type) :=
| Running (a : A) (s : streams)
| Exited (code : Z) (s : streams)
| Terminated (s : streams)
| Undefined_behaviour.
Arguments Running {A}. Arguments Exited {A}. Arguments Terminated {A}. Arguments Undefined_behaviour {A}.

Definition prog (A : Type) : Type := streams -> ending A.

#[export] Instance prog_ret : MRet prog := fun A a s => Running a s.
#[export] Instance prog_bind : MBind prog := fun A B f m s =>
  match m s with
  | Running a s => f a s
  | Exited code s => Exited code s
  | Terminated s => Terminated s
  | Undefined_behaviour => Undefined_behaviour
  end.

Definition quit {A} (code : Z) : prog A := fun s => Exited code s.
Definition print_err (text : string) : prog unit := fun s => Running tt (write s "" text).
Definition undefined {A} : prog A := fun _ => Undefined_behaviour.
Definition print_out (text : string) : prog unit := fun s => Running tt (write s text "").
Definition defined {A} (o : option A) : prog A := match o with Some a => mret a | None => undefined end.

Definition EXIT_SUCCESS : Z := 0.
Definition EXIT_FAILURE : Z := 1.

Definition parser (argv : list string) : prog Parser :=
  match Parser_new argv with Some p => mret p | None => undefined end.

Definition run_options (p : Parser) : prog Parser := fun s =>
  match run_and_exit_if_error p s with
  | Done p s => Running p s
  | Exit code s => Exited code s
  | Undefined => Undefined_behaviour
  end.

Definition option_of (t : arg_type) (name : string) (p : Parser) : prog (val t) := fun s =>
  match get t name p with
  | Parsed v => Running v s
  | Thrown => Terminated s
  | Indeterminate => Undefined_behaviour
  end.

(** The programs that need a raw socket check who runs them. *)
Definition check_root (uid : Z) : prog unit :=
  if uid =? 0 then mret tt
  else print_err ("This application must be run as root or with root privileges." ++ nl);; quit EXIT_FAILURE.

(** ** [wfb_bridge] *)

Definition bridge_parser (p : Parser) : Parser :=
  set_required T_string "c" "conf_file" "the path to the configuration file used for configuring ports" false
    (set_optional T_bool "n" "no_conf_wifi" false "do not configure the wifi interfaces" false p).

(** [do_configure] and [conf_file] *)
Definition bridge_options (argv : list string) : prog (bool * string) :=
  p ← parser argv;
  p ← run_options (bridge_parser p);
  n ← option_of T_bool "n" p;
  c ← option_of T_string "c" p;
  mret (negb n, c).

(** ** [raw_socket_test] *)

Definition raw_test_parser (p : Parser) : Parser :=
  let p := set_optional T_bool "v" "verbose" false "output debug messages" false p in
  let p := set_optional T_ushort "p" "port" 0 "the port number (0-16) to send to" false p in
  let p := set_optional T_ushort "d" "datarate" 3 "the MCS datarate" false p in
  let p := set_optional T_ushort "l" "length" 1024 "the length of message to send" false p in
  let p := set_optional T_ushort "D" "data_blocks" 0 "the number of data blocks per FEC sequence" false p in
  let p := set_optional T_ushort "F" "fec_blocks" 0 "the number of fec blocks per FEC sequence" false p in
  let p := set_optional T_bool "r" "receiver" false "receive messages instead of sending them" false p in
  let p := set_optional T_string "m" "message" "Hello World!" "the test message to send" false p in
  let p := set_optional (T_integer T_ulong) "P" "period" 0 "the time between messages in microseconds" false p in
  let p := set_optional (T_floating T_float) "f" "frequency" (S754_zero false) "change the frequency of the wifi channel" false p in
  let p := set_required T_string "c" "conf_file" "the path to the configuration file used for configuring ports" false p in
  set_required T_string "D" "device" "the wifi device to connect to" false p.

Record raw_test_settings := MkRawTest {
  t_port : Z;
  t_period : Z;
  t_length : Z;
  t_frequency : spec_float;
  t_datarate : Z;
  t_num_data_blocks : Z;
  t_num_fec_blocks : Z;
  t_message : string;
  t_device : string;
  t_receiver : bool;
  t_verbose : bool
}.

Definition raw_test_options (uid : Z) (argv : list string) : prog raw_test_settings :=
  check_root uid;;
  p ← parser argv;
  p ← run_options (raw_test_parser p);
  port ← option_of T_ushort "p" p;
  period ← option_of (T_integer T_ulong) "P" p;
  length ← option_of T_ushort "l" p;
  frequency ← option_of (T_floating T_float) "f" p;
  datarate ← option_of T_ushort "d" p;
  num_data_blocks ← option_of T_ushort "D" p;
  num_fec_blocks ← option_of T_ushort "F" p;
  message ← option_of T_string "m" p;
  device ← option_of T_string "D" p;
  receiver ← option_of T_bool "r" p;
  verbose ← option_of T_bool "v" p;
  mret (MkRawTest port period length frequency datarate num_data_blocks num_fec_blocks message device receiver verbose).

(** ** [test_fec] *)

Definition test_fec_parser (p : Parser) : Parser :=
  let p := set_optional T_ushort "i" "iterations" 1000 "the number of iterations to run" false p in
  let p := set_optional T_ushort "b" "block_size" 1400 "the block size to test" false p in
  set_optional (T_floating T_float) "f" "fec_ratio" (S754_finite false 8388608 (-24)) "the FEC block / data block ratio" false p.

Record test_fec_settings := MkTestFec { f_iterations : Z; f_block_size : Z; f_fec_ratio : spec_float }.

(** [uint32_t] is [unsigned int]. *)
Definition test_fec_options (argv : list string) : prog test_fec_settings :=
  p ← parser argv;
  p ← run_options (test_fec_parser p);
  iterations ← option_of (T_integer T_unsigned) "i" p;
  block_size ← option_of (T_integer T_unsigned) "b" p;
  fec_ratio ← option_of (T_floating T_float) "f" p;
  mret (MkTestFec iterations block_size fec_ratio).

(** ** Lemmas *)

Lemma parser_cons app l s : parser (app :: l) s = Running (enable_help (MkParser app l [])) s.
Proof. done. Qed.

(** Reading an option after a successful run: it goes on if the type is the
    registered one, otherwise an exception ends the program. *)
Lemma option_after (p p' : Parser) (s s' : streams) (t : arg_type) (name : string) :
  Forall initialised (commands p) -> run_and_exit_if_error p s = Done p' s' ->
  if bool_decide (type_of name (commands p) = Some t) then exists v, option_of t name p' s' = Running v s'
  else option_of t name p' s' = Terminated s'.
Proof.
  intros H E. pose proof (run_keeps p s H) as Hk. unfold run_and_exit_if_error in E.
  destruct (run p s) as [[[] p1] s1| |]; try done. injection E as -> ->. destruct Hk as [Hr Hi].
  pose proof (get_of_type t name p' Hi) as Hg. unfold type_of in *.
  change (map registered (commands p')) with (registered <$> commands p') in Hg. rewrite Hr in Hg.
  unfold option_of. revert Hg. destruct (bool_decide _); [intros [v ->]; by exists v|by intros ->].
Qed.

Lemma bind_cases {A B} (m : prog A) (f : A -> prog B) (s : streams) :
  (m ≫= f) s =
    match m s with
    | Running a s' => f a s'
    | Exited code s' => Exited code s'
    | Terminated s' => Terminated s'
    | Undefined_behaviour => Undefined_behaviour
    end.
Proof. done. Qed.

Lemma run_options_cases {A} (p : Parser) (f : Parser -> prog A) (s : streams) :
  (run_options p ≫= f) s =
    match run_and_exit_if_error p s with
    | Done p' s' => f p' s'
    | Exit code s' => Exited code s'
    | Undefined => Undefined_behaviour
    end.
Proof. rewrite bind_cases. unfold run_options. by destruct (run_and_exit_if_error p s). Qed.

Lemma bind_running {A B} (m : prog A) (f : A -> prog B) s a s' : m s = Running a s' -> (m ≫= f) s = f a s'.
Proof. rewrite bind_cases. by intros ->. Qed.

Lemma bind_defined {A B} (o : option A) (f : A -> prog B) a s : o = Some a -> (defined o ≫= f) s = f a s.
Proof. by intros ->. Qed.
Lemma bind_print_out {B} text (f : unit -> prog B) s : (print_out text ≫= f) s = f tt (write s text "").
Proof. done. Qed.
Lemma bind_print_err {B} text (f : unit -> prog B) s : (print_err text ≫= f) s = f tt (write s "" text).
Proof. done. Qed.

Lemma bind_terminated {A B} (m : prog A) (f : A -> prog B) s s' : m s = Terminated s' -> (m ≫= f) s = Terminated s'.
Proof. rewrite bind_cases. by intros ->. Qed.

Ltac all_initialised := repeat first [apply Forall_nil_2|apply Forall_cons_2]; first [exact I|by eexists].

(** Step over an option that is registered with the type it is read with. *)
Ltac read_option H E t name :=
  let Ho := fresh "Ho" in
  pose proof (option_after _ _ _ _ t name H E) as Ho;
  match type of Ho with if bool_decide ?P then _ else _ =>
    let d := eval vm_compute in (bool_decide P) in change (bool_decide P) with d in Ho end;
  cbv iota in Ho.

Ltac step_option H E t name :=
  read_option H E t name;
  match goal with Ho : exists v, _ = Running v _ |- _ =>
    let v := fresh "v" in let Hv := fresh "Hv" in
    destruct Ho as [v Hv]; rewrite (bind_running _ _ _ _ _ Hv); clear Hv end.

(** ** Properties *)

(** C32: the test programs never come to their test. Whatever the command
    line, they end with the parser's error or help, or, when the parser is
    satisfied, with an exception that nothing catches: [test_fec] reads options
    as [uint32_t] that are registered as [uint16_t], [raw_socket_test] reads the
    device as the option "D" that was registered first, an integer. *)
Theorem test_programs_stop (app : string) (l : list string) (uid : Z) (s : streams) :
  match run_and_exit_if_error (test_fec_parser (enable_help (MkParser app l []))) s with
  | Done _ s' => test_fec_options (app :: l) s = Terminated s'
  | Exit code s' => test_fec_options (app :: l) s = Exited code s'
  | Undefined => False
  end /\
  (uid <> 0 -> exists text, raw_test_options uid (app :: l) s = Exited EXIT_FAILURE (write s "" text)) /\
  match run_and_exit_if_error (raw_test_parser (enable_help (MkParser app l []))) s with
  | Done _ s' => raw_test_options 0 (app :: l) s = Terminated s'
  | Exit code s' => raw_test_options 0 (app :: l) s = Exited code s'
  | Undefined => False
  end.
Proof.
  split; [|split].
  - unfold test_fec_options. rewrite (bind_running _ _ _ _ _ (parser_cons app l s)), run_options_cases.
    set (p := test_fec_parser (enable_help (MkParser app l []))).
    assert (Forall initialised (commands p)) as H by all_initialised.
    pose proof (run_keeps p s H) as Hk. destruct (run_and_exit_if_error p s) as [p' s'| |] eqn:E; [|done|].
    + read_option H E (T_integer T_unsigned) "i". by apply bind_terminated.
    + unfold run_and_exit_if_error in E. by destruct (run p s) as [[[] ?] ?| |].
  - intros Hu. unfold raw_test_options, check_root. rewrite (proj2 (Z.eqb_neq _ _) Hu). by eexists.
  - unfold raw_test_options. rewrite (bind_running (check_root 0) _ s tt s eq_refl).
    rewrite (bind_running _ _ _ _ _ (parser_cons app l s)), run_options_cases.
    set (p := raw_test_parser (enable_help (MkParser app l []))).
    assert (Forall initialised (commands p)) as H by all_initialised.
    pose proof (run_keeps p s H) as Hk. destruct (run_and_exit_if_error p s) as [p' s'| |] eqn:E; [|done|].
    + step_option H E T_ushort "p". step_option H E (T_integer T_ulong) "P". step_option H E T_ushort "l".
      step_option H E (T_floating T_float) "f". step_option H E T_ushort "d". step_option H E T_ushort "D".
      step_option H E T_ushort "F". step_option H E T_string "m".
      read_option H E T_string "D". by apply bind_terminated.
    + unfold run_and_exit_if_error in E. by destruct (run p s) as [[[] ?] ?| |].
Qed.

(** The defaults, and a complete command line of the other program. *)
Lemma test_programs_stop_witness :
  let s := MkStreams "" "" in
  test_fec_options ["test_fec"] s = Terminated s /\
  raw_test_options 0 ["raw_socket_test"; "-c"; "wfb.conf"; "--device"; "wlan0"] s = Terminated s /\
  (exists text, raw_test_options 1000 ["raw_socket_test"] s = Exited EXIT_FAILURE (write s "" text)) /\
  exists text, raw_test_options 0 ["raw_socket_test"] s = Exited 1 (write s "" text).
Proof.
  intros s. destruct (test_programs_stop "test_fec" [] 0 s) as [H1 _].
  destruct (test_programs_stop "raw_socket_test" ["-c"; "wfb.conf"; "--device"; "wlan0"] 0 s) as (_ & _ & H2).
  destruct (test_programs_stop "raw_socket_test" [] 1000 s) as (_ & H3 & H4).
  split; [exact H1|]. split; [exact H2|]. split; [by apply H3|]. eexists. exact H4.
Defined.

(** *** The command line of the bridge *)

Definition bridge_commands : list CmdBase := commands (bridge_parser (enable_help (MkParser "" [] []))).

Definition HELP : nat := 0.
Definition NO_CONF : nat := 1.
Definition CONF : nat := 2.

Definition help_hint : string := "For more help use --help or -h." ++ nl.
Definition conf_text : string := "the path to the configuration file used for configuring ports".
Definition no_conf_text : string := "do not configure the wifi interfaces".

Definition bridge_usage : string :=
  "Available parameters:" ++ nl ++ nl ++
  "  -h" ++ tab ++ "--help" ++ nl ++ "   " ++ nl ++
  "   This parameter is optional. The default value is ''." ++ nl ++ nl ++
  "  -n" ++ tab ++ "--no_conf_wifi" ++ nl ++ "   " ++ no_conf_text ++ nl ++
  "   This parameter is optional. The default value is '0'." ++ nl ++ nl ++
  "  -c" ++ tab ++ "--conf_file" ++ tab ++ "(required)" ++ nl ++ "   " ++ conf_text ++ nl ++ nl.

(** The end of the program for a line of items, by what they name. *)
Definition bridge_result (named : nat -> bool) (with_args : nat -> list string) (s : streams) : ending (bool * string) :=
  let fails text := Exited EXIT_FAILURE (write s "" (text ++ nl ++ help_hint)) in
  if named HELP then Exited EXIT_SUCCESS (write s bridge_usage "")
  else if negb (named CONF) then fails ("The parameter c is required." ++ nl ++ conf_text)
  else
    match (if named NO_CONF then with_args NO_CONF else []), with_args CONF with
    | _ :: _, _ => fails ("The parameter n has invalid arguments." ++ nl ++ no_conf_text)
    | [], [file] => Running (negb (named NO_CONF), file) s
    | [], _ => fails ("The parameter c has invalid arguments." ++ nl ++ conf_text)
    end.

Lemma bridge_run (app : string) (words : list string) (s : streams) :
  bridge_options (app :: words) s =
    match run_and_exit_if_error (MkParser app words bridge_commands) s with
    | Done p s =>
        match get T_bool "n" p, get T_string "c" p with
        | Parsed n, Parsed c => Running (negb n, c) s
        | Parsed _, Thrown | Thrown, _ => Terminated s
        | _, _ => Undefined_behaviour
        end
    | Exit code s => Exited code s
    | Undefined => Undefined_behaviour
    end.
Proof.
  unfold bridge_options. rewrite (bind_running _ _ _ _ _ (parser_cons app words s)), run_options_cases.
  change (bridge_parser (enable_help (MkParser app words []))) with (MkParser app words bridge_commands).
  destruct (run_and_exit_if_error _ s) as [p s'| |]; [|done|done].
  unfold mbind, prog_bind, option_of. destruct (get T_bool "n" p); [|done|done]. by destruct (get T_string "c" p).
Qed.

(** The run, given what the three commands were given. *)
Lemma bridge_outcome app words cs (h n c : bool) (ah an ac : list string) s :
  associate words None bridge_commands = (true, cs) ->
  cs = imap (fun i => fill (nth i [h; n; c] false) (nth i [ah; an; ac] [])) bridge_commands ->
  bridge_options (app :: words) s =
    bridge_result (fun i => nth i [h; n; c] false) (fun i => nth i [ah; an; ac] []) s.
Proof.
  intros E Ecs. rewrite bridge_run. unfold run_and_exit_if_error, run. cbn [args commands].
  change (find_default bridge_commands) with (@None nat). rewrite E. subst cs. cbn [negb].
  destruct h; [reflexivity|]. destruct c; [|by destruct n].
  destruct n; [destruct an as [|a an]; [|reflexivity]|]; destruct ac as [|a' [|b' ac]]; reflexivity.
Qed.

Lemma bridge_names w :
  associated w bridge_commands =
    if bool_decide (w ∈ ["-h"; "--help"]) then Some HELP
    else if bool_decide (w ∈ ["-n"; "--no_conf_wifi"]) then Some NO_CONF
    else if bool_decide (w ∈ ["-c"; "--conf_file"]) then Some CONF else None.
Proof.
  destruct (decide (w ∈ ["-h"; "--help"; "-n"; "--no_conf_wifi"; "-c"; "--conf_file"])) as [H|H].
  - repeat (apply elem_of_cons in H as [->|H]; [reflexivity|]). by apply elem_of_nil in H.
  - rewrite !not_elem_of_cons in H. destruct H as (N1 & N2 & N3 & N4 & N5 & N6 & _).
    rewrite !bool_decide_false
      by (intros Hw; repeat (apply elem_of_cons in Hw as [Hw|Hw]; [congruence|]); by apply elem_of_nil in Hw).
    unfold associated. destruct (is_argument w); [|done]. unfold find. cbn.
    unfold is_given. cbn. by rewrite !(proj2 (String.eqb_neq _ _)).
Qed.

Lemma bridge_line app s items :
  Forall (item_ok bridge_commands) items ->
  bridge_options (app :: render items) s =
    bridge_result (mentioned bridge_commands items) (given bridge_commands items) s.
Proof.
  intros H. set (cs := bridge_commands).
  apply (bridge_outcome app (render items) (filled cs items) (mentioned cs items HELP) (mentioned cs items NO_CONF)
    (mentioned cs items CONF) (given cs items HELP) (given cs items NO_CONF) (given cs items CONF)); [|reflexivity].
  by apply associate_line.
Qed.

Definition stray_text : string :=
  "No default parameter has been specified." ++ nl ++ "The given argument must be used with a parameter." ++ nl ++ help_hint.

Lemma bridge_stray app s items w rest :
  Forall (item_ok bridge_commands) items -> unnamed bridge_commands w -> full bridge_commands items ->
  bridge_options (app :: render items ++ w :: rest) s = Exited EXIT_FAILURE (write s "" stray_text).
Proof.
  intros H Hw Hf. rewrite bridge_run. unfold run_and_exit_if_error, run. cbn [args commands].
  change (find_default bridge_commands) with (@None nat).
  rewrite (associate_stray bridge_commands items w rest) by done. reflexivity.
Qed.

(** Whatever the arguments, the program goes on, having printed nothing, or ends. *)
Lemma bridge_options_end app words s :
  match bridge_options (app :: words) s with
  | Running _ s' => s' = s
  | Exited code _ => code = EXIT_SUCCESS \/ code = EXIT_FAILURE
  | Terminated _ | Undefined_behaviour => False
  end.
Proof.
  destruct (line_cases bridge_commands words) as (items & H & [->|(w & rest & -> & Hw & Hf)]).
  - rewrite bridge_line by done. unfold bridge_result. repeat case_match; simplify_eq; auto.
  - rewrite bridge_stray by done. by right.
Qed.

(** C20: the command line of the bridge. A line of items ends the program with
    the usage text if one of them asks for help, with an error if there is no
    configuration file, if the switch "n" has an argument or if the file is
    given more than once, and otherwise goes on with that file, and with the
    cards to be configured unless the switch is there. A word that no option
    takes is an error. Every line is of one of these forms. *)
Theorem bridge_command_line (app : string) (s : streams) :
  let cs := bridge_commands in
  (forall items, Forall (item_ok cs) items ->
     bridge_options (app :: render items) s = bridge_result (mentioned cs items) (given cs items) s) /\
  (forall items w rest, Forall (item_ok cs) items -> unnamed cs w -> full cs items ->
     bridge_options (app :: render items ++ w :: rest) s = Exited EXIT_FAILURE (write s "" stray_text)) /\
  (forall words, exists items, Forall (item_ok cs) items /\
     (words = render items \/
      exists w rest, words = (render items ++ w :: rest)%list /\ unnamed cs w /\ full cs items)) /\
  (forall w, associated w cs = if bool_decide (w ∈ ["-h"; "--help"]) then Some HELP
     else if bool_decide (w ∈ ["-n"; "--no_conf_wifi"]) then Some NO_CONF
     else if bool_decide (w ∈ ["-c"; "--conf_file"]) then Some CONF else None).
Proof.
  intros cs. split; [intros items; apply bridge_line|].
  split; [intros items w rest; apply bridge_stray|]. split; [apply line_cases|apply bridge_names].
Qed.

(** A path that looks like an option, and the two ways to go wrong. *)
Lemma bridge_command_line_witness :
  let s := MkStreams "" "" in
  bridge_options ["wfb_bridge"; "--conf_file"; "-x.conf"; "-n"] s = Running (false, "-x.conf") s /\
  bridge_options ["wfb_bridge"; "-c"; "a"; "-c"; "b"] s =
    Exited 1 (write s "" ("The parameter c has invalid arguments." ++ nl ++ conf_text ++ nl ++ help_hint)) /\
  bridge_options ["wfb_bridge"; "-c"; "a"; "b"; "--help"] s =
    Exited 1 (write s "" stray_text).
Proof.
  intros s. destruct (bridge_command_line "wfb_bridge" s) as (H1 & H2 & _ & _).
  split; [apply (H1 [("--conf_file", ["-x.conf"]); ("-n", [])])|split].
  - items_ok.
  - etrans; [apply (H1 [("-c", ["a"]); ("-c", ["b"])])|]; [items_ok|reflexivity].
  - apply (H2 [("-c", ["a"])] "b" ["--help"]); [items_ok|done|done].
Defined.
