(* ===== verification/Gf256.v ===== *)
(** * The GF(2^8) tables of src/src/fec.c

    [fec_state] is the file-static storage of fec.c; [generate_gf],
    [init_mul_table] and [fec_init] fill it with the loops of the C code. *)

From S2P Require Import Prelude.

(** [typedef unsigned char gf]; [GF_BITS] is 8 and [GF_SIZE] 255. *)
Abbreviation gf := byte.
Definition GF_BITS : nat := 8.
Definition GF_SIZE : Z := Z.shiftl 1 8 - 1.

(** [allPp[GF_BITS]]: the primitive polynomial 1+x^2+x^3+x^4+x^8. *)
Definition allPp_8 : string := "101110001".

(** The static arrays of fec.c. A C array indexed in order is a list;
    [gf_mul_table] (65536 entries) is a finite map from indices, an absent
    index being an entry that still has its static initial value 0. *)
Record fec_state := FecState {
  gf_exp : list gf;                 (* gf gf_exp[2*GF_SIZE] *)
  gf_log : list Z;                  (* int gf_log[GF_SIZE + 1] *)
  inverse : list gf;                (* gf inverse[GF_SIZE+1] *)
  gf_mul_table : gmap N gf;         (* gf gf_mul_table[(GF_SIZE+1)*(GF_SIZE+1)] *)
  fec_initialized : Z
}.

(** Static storage before [fec_init] runs. *)
Definition fec_static : fec_state :=
  FecState (replicate 510 x00) (replicate 256 0) (replicate 256 x00) ∅ 0.

Definition set_exp (i : nat) (v : gf) (s : fec_state) : fec_state :=
  FecState (<[i := v]> (gf_exp s)) (gf_log s) (inverse s) (gf_mul_table s) (fec_initialized s).
Definition set_log (i : nat) (v : Z) (s : fec_state) : fec_state :=
  FecState (gf_exp s) (<[i := v]> (gf_log s)) (inverse s) (gf_mul_table s) (fec_initialized s).
Definition set_inverse (i : nat) (v : gf) (s : fec_state) : fec_state :=
  FecState (gf_exp s) (gf_log s) (<[i := v]> (inverse s)) (gf_mul_table s) (fec_initialized s).
Definition set_mul (i : N) (v : gf) (s : fec_state) : fec_state :=
  FecState (gf_exp s) (gf_log s) (inverse s) (<[i := v]> (gf_mul_table s)) (fec_initialized s).

(** Array reads whose index is in range by construction of the loops. *)
Definition exp_at (s : fec_state) (i : Z) : gf := gf_exp s !!! Z.to_nat i.
Definition log_at (s : fec_state) (b : gf) : Z := gf_log s !!! Z.to_nat (u8 b).

(** [modnn(x)]: x % GF_SIZE without a slow divide. [x] itself bounds the
    iterations: every one decreases it. *)
Fixpoint modnn_loop (fuel : nat) (x : Z) : option Z :=
  match fuel with
  | O => None
  | S fuel' =>
      if GF_SIZE <=? x then
        let x := x - GF_SIZE in
        let x := Z.shiftr x 8 + Z.land x GF_SIZE in
        modnn_loop fuel' x
      else Some x
  end.

Definition modnn (x : Z) : option Z := wrap 8 <$> modnn_loop (S (Z.to_nat x)) x.

(** The index [modnn] returns, for the callers in this file. *)
Definition modnn_ix (x : Z) : Z := default 0 (modnn x).

Definition byte_index (b : gf) : nat := Z.to_nat (u8 b).

(** First loop of [generate_gf]: powers 0..7 of alpha, and alpha^8 from [Pp]. *)
Definition generate_gf_low (i : nat) (sm : fec_state * gf) : fec_state * gf :=
  let '(s, mask) := sm in
  let s := set_exp i mask s in
  let s := set_log (byte_index (exp_at s (Z.of_nat i))) (Z.of_nat i) s in
  let s :=
    if bool_decide (String.get i allPp_8 = Some "1"%char)
    then set_exp GF_BITS (byte_of (Z.lxor (u8 (exp_at s 8)) (u8 mask))) s else s in
  (s, byte_of (Z.shiftl (u8 mask) 1)).

(** Second loop: alpha^(i) from alpha^(i-1), reduced by alpha^8. *)
Definition generate_gf_high (mask : gf) (i : nat) (s : fec_state) : fec_state :=
  let prev := u8 (exp_at s (Z.of_nat i - 1)) in
  let v :=
    if u8 mask <=? prev
    then Z.lxor (u8 (exp_at s 8)) (Z.shiftl (Z.lxor prev (u8 mask)) 1)
    else Z.shiftl prev 1 in
  let s := set_exp i (byte_of v) s in
  set_log (byte_index (exp_at s (Z.of_nat i))) (Z.of_nat i) s.

Definition generate_gf (s : fec_state) : fec_state :=
  let s := set_exp GF_BITS x00 s in
  let '(s, _) := for_loop 0 GF_BITS generate_gf_low (s, x01) in
  let s := set_log (byte_index (exp_at s 8)) 8 s in
  let mask := byte_of (Z.shiftl 1 (8 - 1)) in
  let s := for_loop 9 (255 - 9) (generate_gf_high mask) s in
  (* log(0) is not defined, so use a special value *)
  let s := set_log 0 GF_SIZE s in
  (* the extended gf_exp values *)
  let s := for_loop 0 255 (fun i s => set_exp (i + 255) (exp_at s (Z.of_nat i)) s) s in
  let s := set_inverse 0 x00 s in
  let s := set_inverse 1 x01 s in
  for_loop 2 254
    (fun i s => set_inverse i (exp_at s (GF_SIZE - log_at s (byte_of (Z.of_nat i)))) s) s.

(** [gf_mul_table[(i<<8)+j]] *)
Definition mul_ix (i j : Z) : N := Z.to_N (Z.shiftl i 8 + j).

(** The body of the double loop, and the two loops of [init_mul_table]. *)
Definition init_mul_entry (i j : nat) (s : fec_state) : fec_state :=
  set_mul (mul_ix (Z.of_nat i) (Z.of_nat j))
    (exp_at s (modnn_ix (log_at s (byte_of (Z.of_nat i)) + log_at s (byte_of (Z.of_nat j))))) s.

Definition init_mul_rows (s : fec_state) : fec_state :=
  for_loop 0 256 (fun i s => for_loop 0 256 (init_mul_entry i) s) s.

Definition init_mul_zero (s : fec_state) : fec_state :=
  for_loop 0 256
    (fun j s =>
       let s := set_mul (mul_ix (Z.of_nat j) 0) x00 s in
       set_mul (mul_ix 0 (Z.of_nat j)) x00 s) s.

Definition init_mul_table (s : fec_state) : fec_state := init_mul_zero (init_mul_rows s).

Definition fec_init (s : fec_state) : fec_state :=
  let s := generate_gf s in
  let s := init_mul_table s in
  FecState (gf_exp s) (gf_log s) (inverse s) (gf_mul_table s) 1.

(** [gf_mul(x,y)]; [GF_MULC0(c)] selects row [c] of the same table. *)
Definition gf_mul (s : fec_state) (x y : gf) : gf :=
  default x00 (gf_mul_table s !! mul_ix (u8 x) (u8 y)).

(** [dst ^= v] on a [gf]. *)
Definition gf_xor (a b : gf) : gf := byte_of (Z.lxor (u8 a) (u8 b)).

(** The read [inverse[i]]: [None] when [i] is outside the 256 entries. *)
Definition inverse_at (s : fec_state) (i : Z) : option gf :=
  if (0 <=? i) then inverse s !! Z.to_nat i else None.

(** ** [modnn] *)

Lemma modnn_loop_spec fuel x :
  0 <= x -> x < Z.of_nat fuel -> modnn_loop fuel x = Some (x mod 255).
Proof.
  revert x. induction fuel as [|fuel IH]; intros x Hx Hf; [lia|].
  cbn [modnn_loop]. change GF_SIZE with 255.
  destruct (Z.leb_spec 255 x) as [Hle|Hlt].
  - set (y := x - 255).
    assert (Z.land y 255 = y mod 256) as ->.
    { change 255 with (Z.ones 8). by rewrite Z.land_ones by lia. }
    rewrite Z.shiftr_div_pow2 by lia. change (2 ^ 8) with 256.
    pose proof (Z.div_mod y 256 ltac:(lia)) as Hy.
    pose proof (Z.mod_pos_bound y 256 ltac:(lia)).
    assert (0 <= y / 256) by (apply Z.div_pos; lia).
    rewrite IH by lia. f_equal.
    replace (y / 256 + y mod 256) with (x + (- (y / 256) - 1) * 255) by lia.
    apply Z.mod_add. lia.
  - f_equal. symmetry. apply Z.mod_small. lia.
Qed.

Lemma modnn_spec x : 0 <= x -> modnn x = Some (x mod 255).
Proof.
  intros Hx. unfold modnn. rewrite modnn_loop_spec by lia. simpl. f_equal.
  apply wrap_small. pose proof (Z.mod_pos_bound x 255 ltac:(lia)).
  change (2 ^ 8) with 256. lia.
Qed.

Lemma modnn_ix_spec x : 0 <= x -> modnn_ix x = x mod 255.
Proof. intros Hx. unfold modnn_ix. by rewrite modnn_spec. Qed.

(** The loop of [modnn] terminates and computes the remainder modulo 255
    of every nonnegative argument. *)
Theorem modnn_remainder (x : Z) : 0 <= x -> modnn x = Some (x mod 255).
Proof. apply modnn_spec. Qed.

Lemma modnn_remainder_witness : modnn 511 = Some 1.
Proof. exact (modnn_remainder 511 ltac:(lia)). Defined.
