(* ===== verification/GfField.v ===== *)
(** * GF(2^8): what the tables of fec.c compute

    [poly_mul] is multiplication of polynomials over GF(2) modulo
    x^8+x^4+x^3+x^2+1, defined without tables. The file proves that the
    tables [fec_init] builds are [poly_mul] and its inverse, and that bytes
    with [gf_xor] and [poly_mul] are a field of characteristic 2; it registers
    that field with [ring] and [field]. *)

From S2P Require Import Prelude Gf256.
From Stdlib Require Import Ring Field.

(** ** Reference arithmetic *)

(** Multiplication by x modulo the polynomial 0x11d. *)
Definition xtime (b : byte) : byte :=
  let s := Z.shiftl (u8 b) 1 in
  byte_of (if Z.testbit s 8 then Z.lxor s 0x11d else s).

(** Shift-and-add multiplication: the sum of [xtime^i b] over the bits [i] of [a]. *)
Definition poly_step (a : byte) (i : nat) (at_ : byte * byte) : byte * byte :=
  let '(acc, t) := at_ in
  (if Z.testbit (u8 a) (Z.of_nat i) then gf_xor acc t else acc, xtime t).

Definition poly_mul (a b : byte) : byte := fst (for_loop 0 8 (poly_step a) (x00, b)).

(** The tables after [generate_gf], evaluated once. *)
Definition exp_tab : list gf := Eval vm_compute in gf_exp (generate_gf fec_static).
Definition log_tab : list Z := Eval vm_compute in gf_log (generate_gf fec_static).
Definition inv_tab : list gf := Eval vm_compute in inverse (generate_gf fec_static).

Definition gexp (i : Z) : gf := exp_tab !!! Z.to_nat i.
Definition glog (b : gf) : Z := log_tab !!! Z.to_nat (u8 b).
Definition ginv (b : gf) : gf := inv_tab !!! Z.to_nat (u8 b).

(** ** [generate_gf] *)

Lemma generate_gf_static m f :
  generate_gf (FecState (replicate 510 x00) (replicate 256 0) (replicate 256 x00) m f)
  = FecState exp_tab log_tab inv_tab m f.
Proof. vm_compute. reflexivity. Qed.

Lemma generate_gf_again m f :
  generate_gf (FecState exp_tab log_tab inv_tab m f) = FecState exp_tab log_tab inv_tab m f.
Proof. vm_compute. reflexivity. Qed.

(** ** [init_mul_table] *)

(** The entry the table construction stores for [(i, j)]. *)
Definition mul_entry (x y : byte) : gf := gexp ((glog x + glog y) mod 255).

Lemma forall_byte (P : byte -> bool) :
  forallb (fun i => P (byte_of (Z.of_nat i))) (seq 0 256) = true -> forall b, P b = true.
Proof.
  intros H b. rewrite forallb_forall in H.
  specialize (H (Z.to_nat (u8 b))). pose proof (u8_range b).
  rewrite Z2Nat.id, byte_of_u8 in H by lia. apply H. apply in_seq. lia.
Qed.

Lemma glog_range b : 0 <= glog b <= 255.
Proof.
  assert ((0 <=? glog b) && (glog b <=? 255) = true) by
    (revert b; apply forall_byte; vm_compute; reflexivity).
  lia.
Qed.

Lemma mul_ix_inj i j i' j' :
  0 <= i -> 0 <= j < 256 -> 0 <= i' -> 0 <= j' < 256 ->
  mul_ix i j = mul_ix i' j' -> i = i' /\ j = j'.
Proof. unfold mul_ix. rewrite !Z.shiftl_mul_pow2 by lia. change (2 ^ 8) with 256. lia. Qed.

Lemma mul_ix_bound i j : 0 <= i < 256 -> 0 <= j < 256 -> (mul_ix i j < 65536)%N.
Proof. unfold mul_ix. rewrite Z.shiftl_mul_pow2 by lia. change (2 ^ 8) with 256. lia. Qed.

(** Only [gf_mul_table] differs between the states of [init_mul_table]. *)
Definition tabs (s : fec_state) : Prop :=
  gf_exp s = exp_tab /\ gf_log s = log_tab /\ inverse s = inv_tab.

Definition entry (i j : nat) : gf := mul_entry (byte_of (Z.of_nat i)) (byte_of (Z.of_nat j)).
Definition ix (i j : nat) : N := mul_ix (Z.of_nat i) (Z.of_nat j).

Lemma ix_inj i j i' j' : (j < 256)%nat -> (j' < 256)%nat -> ix i j = ix i' j' -> i = i' /\ j = j'.
Proof. intros ?? E. apply mul_ix_inj in E; lia. Qed.

Lemma ix_bound i j : (i < 256)%nat -> (j < 256)%nat -> (ix i j < 65536)%N.
Proof. intros. apply mul_ix_bound; lia. Qed.

(** The table [s] has the values [f] at the index pairs below 256 that satisfy
    [P], and the entries of [m0] outside. *)
Definition filled (m0 : gmap N gf) (f : nat -> nat -> gf) (P : nat -> nat -> Prop)
    (s : fec_state) : Prop :=
  tabs s /\
  (forall i j, (i < 256)%nat -> (j < 256)%nat -> P i j -> gf_mul_table s !! ix i j = Some (f i j)) /\
  (forall n, (65536 <= n)%N -> gf_mul_table s !! n = m0 !! n).

Lemma filled_set m0 f P (Q : nat -> nat -> Prop) s i j v :
  (i < 256)%nat -> (j < 256)%nat -> filled m0 f P s ->
  v = f i j -> (forall i' j', Q i' j' -> P i' j' \/ (i' = i /\ j' = j)) ->
  filled m0 f Q (set_mul (ix i j) v s).
Proof.
  intros Hi Hj (Ht & Hf & Ho) -> HQ. split; [exact Ht|]. split; simpl.
  - intros i' j' Hi' Hj' Hq. destruct (decide (ix i j = ix i' j')) as [E|E].
    + apply ix_inj in E as [<- <-]; try done. by rewrite lookup_insert_eq.
    + rewrite lookup_insert_ne by done. apply Hf; try done.
      destruct (HQ i' j' Hq) as [?|[-> ->]]; done.
  - intros n Hn. rewrite lookup_insert_ne; [by apply Ho|].
    pose proof (ix_bound i j Hi Hj). lia.
Qed.

Lemma entry_step s i j :
  tabs s -> init_mul_entry i j s = set_mul (ix i j) (entry i j) s.
Proof.
  intros (He & Hl & _). unfold init_mul_entry, exp_at, log_at. rewrite He, Hl.
  fold (glog (byte_of (Z.of_nat i))) (glog (byte_of (Z.of_nat j))).
  rewrite modnn_ix_spec; [done|].
  pose proof (glog_range (byte_of (Z.of_nat i))). pose proof (glog_range (byte_of (Z.of_nat j))). lia.
Qed.

Lemma init_mul_rows_fill s :
  tabs s -> filled (gf_mul_table s) entry (fun i _ => i < 256)%nat (init_mul_rows s).
Proof.
  intros Hs. unfold init_mul_rows. set (m0 := gf_mul_table s).
  refine (for_loop_inv (fun n => filled m0 entry (fun i _ => (i < n)%nat)) 0 256 _ s _ _).
  { split; [done|]. split; [lia|done]. }
  intros i a Hi Ha.
  assert (filled m0 entry (fun i' j' => (i' < i)%nat \/ (i' = i /\ j' < 0 + 256)%nat)
            (for_loop 0 256 (init_mul_entry i) a)) as (Ht & Hf & Ho).
  { refine (for_loop_inv (fun n => filled m0 entry (fun i' j' => (i' < i)%nat \/ (i' = i /\ j' < n)%nat)) _ _ _ _ _ _).
    - destruct Ha as (Ht & Hf & Ho). split; [done|]. split; [|done].
      intros i' j' Hi' Hj' [?|?]; [by apply Hf|lia].
    - intros j b Hj Hb. rewrite entry_step by apply Hb.
      eapply filled_set; [lia|lia|exact Hb|done|]. simpl. lia. }
  split; [done|]. split; [|done]. intros i' j' ???. apply Hf; lia.
Qed.

(** What the last loop leaves: row 0 and column 0 are zero below [n]. *)
Definition zeroed (n i j : nat) : gf :=
  if ((i =? 0) && (j <? n))%nat || ((j =? 0) && (i <? n))%nat then x00 else entry i j.

Lemma zeroed_step n i j :
  ~ (i = 0 /\ j = n)%nat -> ~ (j = 0 /\ i = n)%nat -> zeroed (S n) i j = zeroed n i j.
Proof.
  intros. unfold zeroed.
  destruct (Nat.eqb_spec i 0), (Nat.eqb_spec j 0), (Nat.ltb_spec j n), (Nat.ltb_spec j (S n)),
    (Nat.ltb_spec i n), (Nat.ltb_spec i (S n)); simpl; try done; lia.
Qed.

Lemma init_mul_zero_fill m0 s :
  filled m0 entry (fun i _ => i < 256)%nat s ->
  filled m0 (zeroed 256) (fun i _ => i < 256)%nat (init_mul_zero s).
Proof.
  intros (Ht0 & Hf0 & Ho0). unfold init_mul_zero.
  refine (for_loop_inv (fun n => filled m0 (zeroed n) (fun i _ => (i < 256)%nat)) 0 256 _ s _ _).
  - split; [done|]. split; [|done]. intros i j Hi Hj _. rewrite Hf0 by done. unfold zeroed.
    rewrite (proj2 (Nat.ltb_ge j 0)), (proj2 (Nat.ltb_ge i 0)) by lia. by rewrite !andb_false_r.
  - intros j b Hj (Ht & Hf & Ho).
    change (mul_ix 0 (Z.of_nat j)) with (ix 0 j). change (mul_ix (Z.of_nat j) 0) with (ix j 0).
    split; [exact Ht|]. split; simpl.
    + intros i' j' Hi' Hj' _.
      destruct (decide (ix 0 j = ix i' j')) as [E|E].
      { apply ix_inj in E as [<- <-]; [|lia|lia]. rewrite lookup_insert_eq. unfold zeroed.
        by rewrite (proj2 (Nat.ltb_lt j (S j)) ltac:(lia)). }
      rewrite lookup_insert_ne by done.
      destruct (decide (ix j 0 = ix i' j')) as [E'|E'].
      { apply ix_inj in E' as [<- <-]; [|lia|lia]. rewrite lookup_insert_eq. unfold zeroed.
        by rewrite (proj2 (Nat.ltb_lt j (S j)) ltac:(lia)), orb_true_r. }
      rewrite lookup_insert_ne, Hf by done. f_equal. symmetry. apply zeroed_step.
      * intros [-> ->]. done.
      * intros [-> ->]. done.
    + intros n Hn. pose proof (ix_bound 0 j). pose proof (ix_bound j 0).
      rewrite !lookup_insert_ne by lia. by apply Ho.
Qed.

Lemma init_mul_table_fill s :
  tabs s -> filled (gf_mul_table s) (zeroed 256) (fun i _ => i < 256)%nat (init_mul_table s).
Proof. intros Hs. unfold init_mul_table. apply init_mul_zero_fill, init_mul_rows_fill, Hs. Qed.

(** ** The field GF(2^8) *)

Lemma gf_xor_u8 a b : u8 (gf_xor a b) = Z.lxor (u8 a) (u8 b).
Proof.
  unfold gf_xor. apply u8_byte_of_small.
  pose proof (u8_range a). pose proof (u8_range b).
  assert (0 <= Z.lxor (u8 a) (u8 b)) by (apply Z.lxor_nonneg; lia).
  split; [done|].
  destruct (Z.eq_dec (Z.lxor (u8 a) (u8 b)) 0) as [->|]; [lia|].
  apply (Z.log2_lt_cancel _ 256). change (Z.log2 256) with 8.
  eapply Z.le_lt_trans; [apply Z.log2_lxor; lia|].
  assert (forall z, 0 <= z < 256 -> Z.log2 z < 8) as Hl.
  { intros z Hz. destruct (Z.eq_dec z 0) as [->|]; [done|]. apply Z.log2_lt_pow2; lia. }
  apply Z.max_lub_lt; apply Hl; lia.
Qed.

Lemma gf_xor_comm a b : gf_xor a b = gf_xor b a.
Proof. apply u8_inj. by rewrite !gf_xor_u8, Z.lxor_comm. Qed.
Lemma gf_xor_assoc a b c : gf_xor a (gf_xor b c) = gf_xor (gf_xor a b) c.
Proof. apply u8_inj. by rewrite !gf_xor_u8, Z.lxor_assoc. Qed.
Lemma gf_xor_0_l a : gf_xor x00 a = a.
Proof. apply u8_inj. by rewrite gf_xor_u8. Qed.
Lemma gf_xor_diag a : gf_xor a a = x00.
Proof. apply u8_inj. by rewrite gf_xor_u8, Z.lxor_nilpotent. Qed.

Definition byte_eqb (a b : byte) : bool := Byte.eqb a b.
Lemma byte_eqb_eq a b : byte_eqb a b = true -> a = b.
Proof. apply Byte.byte_dec_bl. Qed.

(** A property of all bytes, checked on the 256 values. *)
Ltac by_bytes :=
  match goal with
  | |- forall b : byte, @?f b = @?g b =>
      intros b; apply byte_eqb_eq; revert b;
      apply (forall_byte (fun b => byte_eqb (f b) (g b))); vm_compute; reflexivity
  end.

(** The two halves of [xtime]: the shift of the low seven bits, and the reduction. *)
Lemma xtime_u8 b :
  u8 (xtime b) = Z.lxor (Z.shiftl (Z.land (u8 b) 127) 1) (if Z.testbit (u8 b) 7 then 29 else 0).
Proof.
  apply Z.eqb_eq. revert b.
  apply (forall_byte (fun b => u8 (xtime b) =?
    Z.lxor (Z.shiftl (Z.land (u8 b) 127) 1) (if Z.testbit (u8 b) 7 then 29 else 0))).
  vm_compute. reflexivity.
Qed.

Lemma Zland_lxor a b c : Z.land (Z.lxor a b) c = Z.lxor (Z.land a c) (Z.land b c).
Proof.
  apply Z.bits_inj'. intros n _. rewrite !Z.lxor_spec, !Z.land_spec, Z.lxor_spec.
  by destruct (Z.testbit a n), (Z.testbit b n), (Z.testbit c n).
Qed.

Lemma Z_lxor_interchange p q r s :
  Z.lxor (Z.lxor p q) (Z.lxor r s) = Z.lxor (Z.lxor p r) (Z.lxor q s).
Proof.
  apply Z.bits_inj'. intros n _. rewrite !Z.lxor_spec.
  by destruct (Z.testbit p n), (Z.testbit q n), (Z.testbit r n), (Z.testbit s n).
Qed.

Lemma xtime_xor a b : xtime (gf_xor a b) = gf_xor (xtime a) (xtime b).
Proof.
  apply u8_inj. rewrite gf_xor_u8, !xtime_u8, gf_xor_u8.
  rewrite Zland_lxor, Z.shiftl_lxor, Z.lxor_spec.
  transitivity (Z.lxor (Z.lxor (Z.shiftl (Z.land (u8 a) 127) 1) (Z.shiftl (Z.land (u8 b) 127) 1))
    (Z.lxor (if Z.testbit (u8 a) 7 then 29 else 0) (if Z.testbit (u8 b) 7 then 29 else 0))).
  - f_equal. by destruct (Z.testbit (u8 a) 7), (Z.testbit (u8 b) 7).
  - apply Z_lxor_interchange.
Qed.

Lemma xtime_0 : xtime x00 = x00.
Proof. reflexivity. Qed.

(** Iterated [xtime]: multiplication by a power of alpha. *)
Definition xpow (n : nat) (b : byte) : byte := Nat.iter n xtime b.

Lemma xpow_xor n a b : xpow n (gf_xor a b) = gf_xor (xpow n a) (xpow n b).
Proof. induction n as [|n IH]; [done|]. unfold xpow in *. simpl. by rewrite IH, xtime_xor. Qed.

Lemma xpow_0 n : xpow n x00 = x00.
Proof. induction n as [|n IH]; [done|]. unfold xpow in *. simpl. by rewrite IH. Qed.

Lemma xpow_add n m b : xpow (n + m) b = xpow n (xpow m b).
Proof. apply Nat.iter_add. Qed.

Lemma xpow_255_one : xpow 255 x01 = x01.
Proof. vm_compute. reflexivity. Qed.

Lemma xpow_255k k : xpow (k * 255) x01 = x01.
Proof.
  induction k as [|k IH]; [done|].
  replace (S k * 255)%nat with (255 + k * 255)%nat by lia.
  by rewrite xpow_add, IH, xpow_255_one.
Qed.

(** [alpha^n], reduced by the order 255 of alpha. *)
Lemma xpow_mod n : xpow (n mod 255) x01 = xpow n x01.
Proof.
  rewrite (Nat.div_mod_eq n 255) at 2. rewrite Nat.add_comm, Nat.mul_comm, xpow_add.
  by rewrite xpow_255k.
Qed.

Lemma gexp_xpow i : 0 <= i < 255 -> gexp i = xpow (Z.to_nat i) x01.
Proof.
  intros Hi.
  assert (forallb (fun n => byte_eqb (exp_tab !!! n) (xpow n x01)) (seq 0 255) = true) as H
    by (vm_compute; reflexivity).
  rewrite forallb_forall in H. apply byte_eqb_eq, (H (Z.to_nat i)), in_seq. lia.
Qed.

Lemma glog_small b : b <> x00 -> 0 <= glog b < 255.
Proof.
  intros Hb. pose proof (glog_range b).
  assert ((glog b =? 255) && negb (byte_eqb b x00) = false) as H'.
  { apply negb_true_iff. revert b Hb H.
    refine (fun b _ _ => forall_byte (fun b => negb ((glog b =? 255) && negb (byte_eqb b x00))) _ b).
    vm_compute. reflexivity. }
  apply andb_false_iff in H' as [H'|H']; [lia|].
  apply negb_false_iff, byte_eqb_eq in H'. done.
Qed.

(** Every non-zero byte is a power of alpha. *)
Lemma xpow_glog b : b <> x00 -> xpow (Z.to_nat (glog b)) x01 = b.
Proof.
  intros Hb.
  assert (byte_eqb b x00 || byte_eqb (xpow (Z.to_nat (glog b)) x01) b = true) as H.
  { revert b Hb. refine (fun b _ => forall_byte
      (fun b => byte_eqb b x00 || byte_eqb (xpow (Z.to_nat (glog b)) x01) b) _ b).
    vm_compute. reflexivity. }
  apply orb_true_iff in H as [H|H]; by apply byte_eqb_eq in H.
Qed.

Lemma gf_xor_interchange a b c d :
  gf_xor (gf_xor a b) (gf_xor c d) = gf_xor (gf_xor a c) (gf_xor b d).
Proof. apply u8_inj. rewrite !gf_xor_u8. apply Z_lxor_interchange. Qed.

(** [poly_mul] is linear in its second argument, and commutes with [xtime]. *)
Lemma poly_loop_xor a lo n acc1 acc2 t1 t2 :
  fst (for_loop lo n (poly_step a) (gf_xor acc1 acc2, gf_xor t1 t2))
  = gf_xor (fst (for_loop lo n (poly_step a) (acc1, t1))) (fst (for_loop lo n (poly_step a) (acc2, t2))).
Proof.
  revert lo acc1 acc2 t1 t2. induction n as [|n IH]; intros lo acc1 acc2 t1 t2; [done|].
  cbn [for_loop poly_step]. rewrite xtime_xor. destruct (Z.testbit (u8 a) (Z.of_nat lo)); [|apply IH].
  rewrite gf_xor_interchange. apply IH.
Qed.

Lemma poly_loop_xtime a lo n acc t :
  fst (for_loop lo n (poly_step a) (xtime acc, xtime t))
  = xtime (fst (for_loop lo n (poly_step a) (acc, t))).
Proof.
  revert lo acc t. induction n as [|n IH]; intros lo acc t; [done|].
  cbn [for_loop poly_step]. rewrite <-IH. destruct (Z.testbit (u8 a) (Z.of_nat lo)); [|done].
  by rewrite xtime_xor.
Qed.

Lemma poly_mul_xor_r a b c : poly_mul a (gf_xor b c) = gf_xor (poly_mul a b) (poly_mul a c).
Proof. apply (poly_loop_xor a 0 8 x00 x00). Qed.

Lemma poly_mul_xtime a b : poly_mul a (xtime b) = xtime (poly_mul a b).
Proof. apply (poly_loop_xtime a 0 8 x00). Qed.

Lemma poly_mul_xpow a n b : poly_mul a (xpow n b) = xpow n (poly_mul a b).
Proof. induction n as [|n IH]; [done|]. unfold xpow in *. simpl. by rewrite poly_mul_xtime, IH. Qed.

Lemma poly_mul_1_r a : poly_mul a x01 = a.
Proof. revert a. by_bytes. Qed.

Lemma poly_mul_0_r a : poly_mul a x00 = x00.
Proof. revert a. by_bytes. Qed.

Lemma poly_mul_glog a b : b <> x00 -> poly_mul a b = xpow (Z.to_nat (glog b)) a.
Proof. intros Hb. rewrite <-(xpow_glog b Hb) at 1. by rewrite poly_mul_xpow, poly_mul_1_r. Qed.

Lemma poly_mul_0_l b : poly_mul x00 b = x00.
Proof.
  destruct (decide (b = x00)) as [->|Hb]; [apply poly_mul_0_r|].
  by rewrite poly_mul_glog, xpow_0.
Qed.

(** The product of non-zero bytes is the power of alpha whose exponent is the sum. *)
Lemma poly_mul_logs a b :
  a <> x00 -> b <> x00 -> poly_mul a b = xpow (Z.to_nat (glog a) + Z.to_nat (glog b)) x01.
Proof.
  intros Ha Hb. rewrite poly_mul_glog by done.
  rewrite <-(xpow_glog a Ha) at 1. by rewrite <-xpow_add, Nat.add_comm.
Qed.

Lemma poly_mul_comm a b : poly_mul a b = poly_mul b a.
Proof.
  destruct (decide (a = x00)) as [->|Ha]; [by rewrite poly_mul_0_l, poly_mul_0_r|].
  destruct (decide (b = x00)) as [->|Hb]; [by rewrite poly_mul_0_l, poly_mul_0_r|].
  by rewrite !poly_mul_logs, Nat.add_comm.
Qed.

Lemma poly_mul_assoc a b c : poly_mul a (poly_mul b c) = poly_mul (poly_mul a b) c.
Proof.
  destruct (decide (c = x00)) as [->|Hc]; [by rewrite !poly_mul_0_r|].
  by rewrite (poly_mul_glog b c), (poly_mul_glog _ c), poly_mul_xpow.
Qed.

Lemma poly_mul_inv a : a <> x00 -> poly_mul (ginv a) a = x01.
Proof.
  intros Ha. assert (byte_eqb a x00 || byte_eqb (poly_mul (ginv a) a) x01 = true) as H.
  { revert a Ha. refine (fun a _ => forall_byte
      (fun a => byte_eqb a x00 || byte_eqb (poly_mul (ginv a) a) x01) _ a).
    vm_compute. reflexivity. }
  apply orb_true_iff in H as [H|H]; by apply byte_eqb_eq in H.
Qed.

Lemma gf_one_not_zero : x01 <> x00.
Proof. done. Qed.

(** Subtraction and negation are addition: the characteristic is 2. *)
Definition gf_opp (a : byte) : byte := a.
Definition gf_div (a b : byte) : byte := poly_mul a (ginv b).

Lemma gf_ring_theory : ring_theory x00 x01 gf_xor poly_mul gf_xor gf_opp eq.
Proof.
  split; intros.
  - apply gf_xor_0_l.
  - apply gf_xor_comm.
  - apply gf_xor_assoc.
  - rewrite poly_mul_comm. apply poly_mul_1_r.
  - apply poly_mul_comm.
  - apply poly_mul_assoc.
  - rewrite poly_mul_comm, poly_mul_xor_r. by rewrite !(poly_mul_comm z).
  - done.
  - apply gf_xor_diag.
Qed.

(** Coefficients are taken modulo 2, so that [ring] proves [a + a = 0]. *)
Definition gf_of_bool (b : bool) : byte := if b then x01 else x00.

Lemma gf_morph :
  ring_morph x00 x01 gf_xor poly_mul gf_xor gf_opp eq
    false true xorb andb xorb (fun b => b) Bool.eqb gf_of_bool.
Proof.
  split; try done; by intros [] [].
Qed.

Lemma gf_field_theory :
  field_theory x00 x01 gf_xor poly_mul gf_xor gf_opp gf_div ginv eq.
Proof.
  split.
  - apply gf_ring_theory.
  - apply gf_one_not_zero.
  - done.
  - apply poly_mul_inv.
Qed.

Ltac gf_constant t :=
  match t with
  | x00 => constr:(false)
  | x01 => constr:(true)
  | _ => constr:(NotConstant)
  end.

Add Field gf_field : gf_field_theory (morphism gf_morph, constants [gf_constant]).

(** ** The interface the coding routines rely on *)

(** What [fec_encode] and [fec_decode] need of the tables. *)
Class GfTables (s : fec_state) : Prop := {
  gt_mul : forall x y, gf_mul s x y = poly_mul x y;
  gt_inv : forall b, inverse s !! Z.to_nat (u8 b) = Some (ginv b);
  gt_inv_length : length (inverse s) = 256%nat
}.

Lemma gexp_mod n : gexp (Z.of_nat n mod 255) = xpow n x01.
Proof.
  rewrite gexp_xpow by (apply Z.mod_pos_bound; lia).
  change 255 with (Z.of_nat 255). by rewrite <-Nat2Z.inj_mod, Nat2Z.id, xpow_mod.
Qed.

Lemma mul_entry_poly x y : x <> x00 -> y <> x00 -> mul_entry x y = poly_mul x y.
Proof.
  intros Hx Hy. rewrite poly_mul_logs by done. unfold mul_entry.
  pose proof (glog_small x Hx). pose proof (glog_small y Hy).
  rewrite <-gexp_mod. f_equal. f_equal. lia.
Qed.

Lemma zeroed_poly x y : zeroed 256 (byte_index x) (byte_index y) = poly_mul x y.
Proof.
  unfold zeroed, byte_index, entry. pose proof (u8_range x). pose proof (u8_range y).
  rewrite !Z2Nat.id, !byte_of_u8 by lia.
  rewrite !(proj2 (Nat.ltb_lt _ 256)) by lia. rewrite !andb_true_r.
  destruct (Nat.eqb_spec (Z.to_nat (u8 x)) 0) as [Ex|Ex]; simpl.
  { assert (x = x00) as -> by (apply u8_inj; change (u8 x00) with 0; lia). by rewrite poly_mul_0_l. }
  destruct (Nat.eqb_spec (Z.to_nat (u8 y)) 0) as [Ey|Ey]; simpl.
  { assert (y = x00) as -> by (apply u8_inj; change (u8 x00) with 0; lia). by rewrite poly_mul_0_r. }
  apply mul_entry_poly; intros ->; by change (u8 x00) with 0 in *.
Qed.

Lemma init_mul_table_tables s : tabs s -> GfTables (init_mul_table s).
Proof.
  intros Hs. destruct (init_mul_table_fill s Hs) as ((_ & _ & Hi) & Hf & _). split.
  - intros x y. unfold gf_mul. rewrite <-zeroed_poly.
    pose proof (u8_range x). pose proof (u8_range y).
    replace (mul_ix (u8 x) (u8 y)) with (ix (byte_index x) (byte_index y))
      by (unfold ix, byte_index; by rewrite !Z2Nat.id by lia).
    rewrite Hf; [done|unfold byte_index; lia..].
  - intros b. rewrite Hi. unfold ginv. apply list_lookup_lookup_total_lt.
    pose proof (u8_range b). change (length inv_tab) with 256%nat. lia.
  - by rewrite Hi.
Qed.

#[export] Hint Mode GfTables ! : typeclass_instances.
#[global] Opaque generate_gf init_mul_rows init_mul_zero.

(** The states the program can be in: static storage, or after a [fec_init]. *)
Inductive fec_reachable : fec_state -> Prop :=
  | reach_static : fec_reachable fec_static
  | reach_init s : fec_reachable s -> fec_reachable (fec_init s).

(** [fec_init] once its tables are known to be the evaluated ones. *)
Definition with_tabs (m : gmap N gf) (f : Z) : fec_state := FecState exp_tab log_tab inv_tab m f.

Lemma with_tabs_of s : tabs s ->
  FecState (gf_exp s) (gf_log s) (inverse s) (gf_mul_table s) 1 = with_tabs (gf_mul_table s) 1.
Proof. intros (-> & -> & ->). reflexivity. Qed.

Lemma with_tabs_tabs m f : tabs (with_tabs m f) /\ gf_mul_table (with_tabs m f) = m.
Proof. repeat split; reflexivity. Qed.

Lemma fec_init_shape s :
  tabs (generate_gf s) -> fec_init s = with_tabs (gf_mul_table (init_mul_table (generate_gf s))) 1.
Proof.
  intros Ht. destruct (init_mul_table_fill _ Ht) as [Ht' _].
  unfold fec_init. exact (with_tabs_of _ Ht').
Qed.

Lemma generate_gf_reachable s :
  fec_reachable s -> tabs (generate_gf s) /\ gf_mul_table (generate_gf s) = gf_mul_table s.
Proof.
  induction 1 as [|s Hs [Ht Hm]].
  - unfold fec_static. rewrite generate_gf_static. exact (with_tabs_tabs ∅ 0).
  - rewrite (fec_init_shape s Ht). generalize (gf_mul_table (init_mul_table (generate_gf s))).
    intros m. unfold with_tabs at 1 2. rewrite generate_gf_again. exact (with_tabs_tabs m 1).
Qed.

Lemma fec_init_reachable s :
  fec_reachable s ->
  exists m, fec_init s = with_tabs m 1 /\ GfTables (with_tabs m 1) /\
    forall n, m !! n = if (n <? 65536)%N then Some (zeroed 256 (N.to_nat (n / 256)) (N.to_nat (n mod 256)))
                       else gf_mul_table s !! n.
Proof.
  intros Hs. destruct (generate_gf_reachable s Hs) as [Ht Hm].
  pose proof (fec_init_shape s Ht) as E.
  pose proof (init_mul_table_tables _ Ht) as [Hg1 Hg2 Hg3].
  destruct (init_mul_table_fill _ Ht) as ((_ & _ & Hi) & Hf & Ho).
  revert E Hg1 Hg2 Hg3 Hi Hf Ho. generalize (init_mul_table (generate_gf s)).
  intros t E Hg1 Hg2 Hg3 Hi Hf Ho. exists (gf_mul_table t). split; [exact E|]. split.
  - rewrite Hi in Hg2, Hg3. split; [exact Hg1|exact Hg2|exact Hg3].
  - intros n. destruct (N.ltb_spec n 65536) as [Hn|Hn]; [|by rewrite Ho, Hm].
    pose proof (N.div_mod n 256 ltac:(lia)). pose proof (N.mod_lt n 256 ltac:(lia)).
    assert ((n / 256 < 256)%N) by (apply N.Div0.div_lt_upper_bound; lia).
    rewrite <-Hf by (cbn beta; lia). f_equal.
    unfold ix, mul_ix. rewrite Z.shiftl_mul_pow2 by lia. change (2 ^ 8) with 256. lia.
Qed.

Lemma fec_init_tables s : fec_reachable s -> GfTables (fec_init s).
Proof. intros Hs. by destruct (fec_init_reachable s Hs) as (m & -> & Ht & _). Qed.

Lemma fec_reachable_outside s n : fec_reachable s -> (65536 <= n)%N -> gf_mul_table s !! n = None.
Proof.
  induction 1 as [|s Hs IH]; intros Hn; [done|].
  destruct (fec_init_reachable s Hs) as (m & -> & _ & Hm). simpl.
  rewrite Hm, (proj2 (N.ltb_ge n 65536)) by done. by apply IH.
Qed.

(** Every [FECEncoder] and [FECDecoder] constructor calls [fec_init] again: a
    sequential re-initialisation leaves the tables as they are. *)
Lemma fec_init_again s : fec_reachable s -> fec_init (fec_init s) = fec_init s.
Proof.
  intros Hs. pose proof (fec_reachable_outside (fec_init s)) as Ho.
  destruct (fec_init_reachable _ (reach_init s Hs)) as (m' & -> & _ & Hm').
  pose proof (fec_reachable_outside s) as Ho'.
  destruct (fec_init_reachable s Hs) as (m & E & _ & Hm). rewrite E. f_equal. apply map_eq.
  intros n. rewrite Hm', Hm. destruct (N.ltb_spec n 65536); [done|].
  rewrite (Ho n (reach_init s Hs)) by done. by rewrite Ho'.
Qed.

Declare Scope gf_scope.
Delimit Scope gf_scope with gf.
Infix "⊕" := gf_xor (at level 50, left associativity) : gf_scope.
Infix "⊗" := poly_mul (at level 40, left associativity) : gf_scope.

(** ** Properties *)

(** C13: after [fec_init], from any state the program can be in, the
    multiplication table holds the products of polynomials over GF(2) modulo
    x^8+x^4+x^3+x^2+1, the inverse table the inverses, and running [fec_init]
    again (every encoder and decoder constructor does) changes nothing. *)
Theorem fec_init_correct (s : fec_state) :
  fec_reachable s ->
  (forall x y, gf_mul (fec_init s) x y = poly_mul x y) /\
  (forall x, x <> x00 -> exists i, inverse (fec_init s) !! Z.to_nat (u8 x) = Some i /\
     gf_mul (fec_init s) i x = x01) /\
  fec_init (fec_init s) = fec_init s.
Proof.
  intros Hs. destruct (fec_init_tables s Hs) as [Hm Hi _]. split; [exact Hm|]. split; [|by apply fec_init_again].
  intros x Hx. exists (ginv x). split; [apply Hi|]. rewrite Hm. by apply poly_mul_inv.
Qed.

Lemma fec_init_correct_witness :
  (forall x y, gf_mul (fec_init fec_static) x y = poly_mul x y) /\
  (forall x, x <> x00 -> exists i, inverse (fec_init fec_static) !! Z.to_nat (u8 x) = Some i /\
     gf_mul (fec_init fec_static) i x = x01) /\
  fec_init (fec_init fec_static) = fec_init fec_static.
Proof. exact (fec_init_correct fec_static reach_static). Defined.


