(* ===== verification/GfVec.v ===== *)
(** * Multiplying and adding buffers of field elements: [mul] and [addmul]

    A buffer passed by pointer is the list of the bytes from that pointer to
    the end of its allocation; [sz] bytes of it are accessed. [None] is an
    access past the end. The source and destination of every call in the
    program are different allocations, or disjoint rows of one. *)

From S2P Require Import Prelude Gf256 GfField.
From Stdlib Require Import Ring.
Local Open Scope nat_scope.
Local Open Scope gf_scope.

(** [#define UNROLL 16] *)
Definition UNROLL : nat := 16.

(** One [GF_ADDMULC(dst[i], src[i])]: [dst ^= __gf_mulc_[x]]. *)
Definition gf_addmulc (T : fec_state) (c : gf) (src : list gf) (i : nat) (dst : list gf)
  : option (list gf) :=
  x ← src !! i; d ← dst !! i; Some (<[i := d ⊕ gf_mul T c x]> dst).

(** One [GF_MULC(dst[i], src[i])]: [dst = __gf_mulc_[x]]. *)
Definition gf_mulc (T : fec_state) (c : gf) (src : list gf) (i : nat) (dst : list gf)
  : option (list gf) :=
  x ← src !! i; _ ← dst !! i; Some (<[i := gf_mul T c x]> dst).

(** The loop unrolled sixteen times, [for (; dst < lim; dst += UNROLL)] with
    [lim = &dst[sz - UNROLL + 1]]; it returns the index it stops at. *)
Fixpoint unrolled (fuel : nat) (step : nat -> list gf -> option (list gf)) (sz i : nat)
    (dst : list gf) : option (nat * list gf) :=
  match fuel with
  | O => None
  | S fuel' =>
      if i + UNROLL <=? sz then
        dst' ← for_opt i UNROLL step dst; unrolled fuel' step sz (i + UNROLL) dst'
      else Some (i, dst)
  end.

(** The unrolled loop, then the final components one at a time. *)
Definition unrolled_then_rest (step : nat -> list gf -> option (list gf)) (sz : nat)
    (dst : list gf) : option (list gf) :=
  '(i, dst) ← unrolled (S sz) step sz 0 dst; for_opt i (sz - i) step dst.

Definition slow_addmul1 (T : fec_state) (dst src : list gf) (c : gf) (sz : nat) :=
  unrolled_then_rest (gf_addmulc T c src) sz dst.

Definition slow_mul1 (T : fec_state) (dst src : list gf) (c : gf) (sz : nat) :=
  unrolled_then_rest (gf_mulc T c src) sz dst.

(** [addmul(dst, src, c, sz)]: nothing is read or written when [c] is 0. *)
Definition addmul (T : fec_state) (dst src : list gf) (c : gf) (sz : nat) : option (list gf) :=
  if Byte.eqb c x00 then Some dst else slow_addmul1 T dst src c sz.

(** [memset(dst, 0, sz)] *)
Definition memset0 (dst : list gf) (sz : nat) : option (list gf) :=
  if sz <=? length dst then Some (replicate sz x00 ++ drop sz dst) else None.

(** [mul(dst, src, c, sz)] *)
Definition mul (T : fec_state) (dst src : list gf) (c : gf) (sz : nat) : option (list gf) :=
  if Byte.eqb c x00 then memset0 dst sz else slow_mul1 T dst src c sz.

(** ** The unrolled loop is the plain loop *)

Section for_opt.
Context {A : Type}.
Lemma for_opt_app lo n m (body : nat -> A -> option A) a :
  for_opt lo (n + m) body a = for_opt lo n body a ≫= for_opt (lo + n) m body.
Proof.
  revert lo a. induction n as [|n IH]; intros lo a; simpl.
  - by rewrite Nat.add_0_r.
  - destruct (body lo a) as [a'|]; simpl; [|done]. rewrite IH. by rewrite Nat.add_succ_r.
Qed.
End for_opt.

Lemma unrolled_plain fuel step sz i dst :
  i <= sz -> sz < i + fuel ->
  ('(j, d) ← unrolled fuel step sz i dst; for_opt j (sz - j) step d) = for_opt i (sz - i) step dst.
Proof.
  revert i dst. induction fuel as [|fuel IH]; intros i dst Hi Hf; [lia|]. cbn [unrolled].
  destruct (Nat.leb_spec (i + UNROLL) sz) as [Hle|Hgt]; [|done].
  replace (sz - i) with (UNROLL + (sz - (i + UNROLL))) by lia. rewrite for_opt_app.
  destruct (for_opt i UNROLL step dst) as [d|]; cbn [mbind option_bind]; [|done].
  apply IH; unfold UNROLL in *; lia.
Qed.

Lemma unrolled_then_rest_plain step sz dst :
  unrolled_then_rest step sz dst = for_opt 0 sz step dst.
Proof.
  unfold unrolled_then_rest. rewrite unrolled_plain by lia. by rewrite Nat.sub_0_r.
Qed.

(** ** Pointwise description *)

(** A loop that overwrites position [i] with a value [f i d] of its old content. *)
Lemma for_opt_pointwise (step : nat -> list gf -> option (list gf)) (f : nat -> gf -> gf) sz dst :
  sz <= length dst ->
  (forall i d, i < sz -> i < length d -> step i d = Some (<[i := f i (d !!! i)]> d)) ->
  exists dst', for_opt 0 sz step dst = Some dst' /\ length dst' = length dst /\
    forall i, dst' !!! i = if decide (i < sz) then f i (dst !!! i) else dst !!! i.
Proof.
  intros Hlen Hstep.
  destruct (for_opt_inv (fun n d => length d = length dst /\
      forall i, d !!! i = if decide (i < n) then f i (dst !!! i) else dst !!! i) 0 sz step dst)
    as (d' & E & Hd & Hl).
  - split; [done|]. intros i. by rewrite decide_False by lia.
  - intros n d Hn [Hd Hl]. rewrite Hstep by lia. eexists. split; [done|].
    split; [by rewrite length_insert|]. intros i. destruct (decide (i = n)) as [->|Hin].
    + rewrite list_lookup_total_insert_eq by lia. rewrite Hl.
      rewrite decide_False, decide_True by lia. done.
    + rewrite list_lookup_total_insert_ne by done. rewrite Hl.
      destruct (decide (i < n)), (decide (i < S n)); done || lia.
  - eauto.
Qed.

Section spec.
Context (T : fec_state) `{!GfTables T}.

Lemma addmul_spec dst src c sz :
  sz <= length dst -> sz <= length src ->
  exists dst', addmul T dst src c sz = Some dst' /\ length dst' = length dst /\
    forall i, dst' !!! i = if decide (i < sz) then dst !!! i ⊕ c ⊗ (src !!! i) else dst !!! i.
Proof.
  intros Hd Hs. unfold addmul. destruct (Byte.eqb c x00) eqn:Ec.
  - apply byte_eqb_eq in Ec as ->. exists dst. split; [done|]. split; [done|].
    intros i. destruct (decide (i < sz)); [ring|done].
  - unfold slow_addmul1. rewrite unrolled_then_rest_plain.
    apply (for_opt_pointwise _ (fun i d => d ⊕ c ⊗ (src !!! i))); [done|].
    intros i d Hi Hid. unfold gf_addmulc.
    rewrite (list_lookup_lookup_total_lt src i), (list_lookup_lookup_total_lt d i) by lia.
    cbn. by rewrite gt_mul.
Qed.

Lemma mul_spec dst src c sz :
  sz <= length dst -> sz <= length src ->
  exists dst', mul T dst src c sz = Some dst' /\ length dst' = length dst /\
    forall i, dst' !!! i = if decide (i < sz) then c ⊗ (src !!! i) else dst !!! i.
Proof.
  intros Hd Hs. unfold mul. destruct (Byte.eqb c x00) eqn:Ec.
  - apply byte_eqb_eq in Ec as ->. unfold memset0. rewrite (proj2 (Nat.leb_le _ _)) by done.
    eexists. split; [done|]. split; [rewrite length_app, length_replicate, length_drop; lia|].
    intros i. destruct (decide (i < sz)) as [Hi|Hi].
    + rewrite lookup_total_app_l by (by rewrite length_replicate).
      rewrite lookup_total_replicate_2 by done. ring.
    + rewrite lookup_total_app_r, length_replicate by (rewrite length_replicate; lia).
      rewrite lookup_total_drop. f_equal. lia.
  - unfold slow_mul1. rewrite unrolled_then_rest_plain.
    apply (for_opt_pointwise _ (fun i _ => c ⊗ (src !!! i))); [done|].
    intros i d Hi Hid. unfold gf_mulc.
    rewrite (list_lookup_lookup_total_lt src i), (list_lookup_lookup_total_lt d i) by lia.
    cbn. by rewrite gt_mul.
Qed.
End spec.

(** Two buffers with the same bytes are equal. *)
Lemma list_eq_total (l k : list byte) :
  length l = length k -> (forall i, i < length l -> l !!! i = k !!! i) -> l = k.
Proof.
  intros Hlen Heq. apply list_eq_same_length with (length l); [done|done|].
  intros i x y Hi Hx Hy. specialize (Heq i Hi).
  by rewrite (list_lookup_total_correct _ _ _ Hx), (list_lookup_total_correct _ _ _ Hy) in Heq.
Qed.

(** ** Sums over an initial segment *)

Fixpoint gsum (n : nat) (f : nat -> byte) : byte :=
  match n with
  | O => x00
  | S n' => gsum n' f ⊕ f n'
  end.

Lemma gsum_ext n f g : (forall i, i < n -> f i = g i) -> gsum n f = gsum n g.
Proof. induction n as [|n IH]; intros H; [done|]. simpl. rewrite IH, H; auto with lia. Qed.

#[export] Instance gsum_proper n : Proper (pointwise_relation nat eq ==> eq) (gsum n).
Proof. intros f g H. by apply gsum_ext. Qed.

Lemma gsum_zero n f : (forall i, i < n -> f i = x00) -> gsum n f = x00.
Proof. intros H. induction n as [|n IH]; [done|]. simpl. rewrite IH, H by auto with lia. ring. Qed.

Lemma gsum_xor n f g : gsum n (fun i => f i ⊕ g i) = gsum n f ⊕ gsum n g.
Proof. induction n as [|n IH]; [done|]. simpl. rewrite IH. ring. Qed.

Lemma gsum_mul_l n c f : gsum n (fun i => c ⊗ f i) = c ⊗ gsum n f.
Proof. induction n as [|n IH]; simpl; [ring|]. rewrite IH. ring. Qed.

Lemma gsum_S_l n f : gsum (S n) f = f 0 ⊕ gsum n (fun i => f (S i)).
Proof. induction n as [|n IH]; [cbn; ring|]. cbn [gsum] in *. rewrite IH. ring. Qed.

Lemma gsum_swap n m (f : nat -> nat -> byte) :
  gsum n (fun i => gsum m (f i)) = gsum m (fun j => gsum n (fun i => f i j)).
Proof.
  induction n as [|n IH]; simpl.
  - symmetry. by apply gsum_zero.
  - by rewrite IH, gsum_xor.
Qed.

(** The term at [k] taken out of a sum. *)
Lemma gsum_pick n k f :
  k < n -> gsum n f = f k ⊕ gsum n (fun i => if decide (i = k) then x00 else f i).
Proof.
  induction n as [|n IH]; [lia|]. intros Hk. simpl. destruct (decide (n = k)) as [->|Hne].
  - rewrite (gsum_ext k (fun i => if decide (i = k) then x00 else f i) f); [ring|].
    intros i Hi. by rewrite decide_False by lia.
  - rewrite IH by lia. ring.
Qed.

Lemma gsum_single n k f :
  k < n -> (forall i, i < n -> i <> k -> f i = x00) -> gsum n f = f k.
Proof.
  intros Hk Hz. rewrite (gsum_pick n k) by done. rewrite gsum_zero; [ring|].
  intros i Hi. destruct (decide (i = k)); [done|]. by apply Hz.
Qed.

(** ** Properties *)

(** C36: the sixteenfold unrolled loops touch exactly the first [sz] bytes of
    the destination, for every length: [addmul] adds [c] times the source and
    [mul] stores it, and neither leaves the buffers. *)
Theorem addmul_mul_pointwise (s : fec_state) (dst src : list gf) (c : gf) (sz : nat) :
  fec_reachable s -> sz <= length dst -> sz <= length src ->
  (exists d, addmul (fec_init s) dst src c sz = Some d /\ length d = length dst /\
     forall i, d !!! i = if decide (i < sz) then dst !!! i ⊕ c ⊗ (src !!! i) else dst !!! i) /\
  (exists d, mul (fec_init s) dst src c sz = Some d /\ length d = length dst /\
     forall i, d !!! i = if decide (i < sz) then c ⊗ (src !!! i) else dst !!! i).
Proof.
  intros Hs Hd Hsrc. pose proof (fec_init_tables s Hs) as HT. generalize dependent (fec_init s).
  intros T HT. split; [by apply addmul_spec|by apply mul_spec].
Qed.

Lemma addmul_mul_pointwise_witness :
  exists d, addmul (fec_init fec_static) [x01; x02; x03] [x05; x06] x02 2 = Some d /\ length d = 3 /\
    forall i, d !!! i = if decide (i < 2) then [x01; x02; x03] !!! i ⊕ x02 ⊗ ([x05; x06] !!! i)
                        else [x01; x02; x03] !!! i.
Proof.
  exact (proj1 (addmul_mul_pointwise fec_static [x01; x02; x03] [x05; x06] x02 2 reach_static
    ltac:(simpl; lia) ltac:(simpl; lia))).
Defined.

(** An access past the end of the source is not hidden by the unrolling:
    with a nonzero coefficient and a source shorter than [sz], [addmul] reads
    out of bounds. *)
Theorem addmul_short_source (T : fec_state) (dst src : list gf) (c : gf) (sz : nat) :
  c <> x00 -> length src < sz -> addmul T dst src c sz = None.
Proof.
  intros Hc Hs. unfold addmul. destruct (Byte.eqb c x00) eqn:E; [by apply byte_eqb_eq in E|].
  unfold slow_addmul1. rewrite unrolled_then_rest_plain.
  replace sz with (length src + S (sz - length src - 1)) by lia. rewrite for_opt_app.
  destruct (for_opt 0 (length src) _ dst) as [d|]; cbn [mbind option_bind]; [|done].
  cbn [for_opt]. assert (gf_addmulc T c src (0 + length src) d = None) as ->; [|done].
  unfold gf_addmulc. by rewrite (lookup_ge_None_2 src) by lia.
Qed.

Lemma addmul_short_source_witness : addmul fec_static [x00; x00] [x01] x01 2 = None.
Proof. exact (addmul_short_source fec_static [x00; x00] [x01] x01 2 ltac:(done) ltac:(simpl; lia)). Defined.
