(* ===== verification/Exchange.v ===== *)
(** * The exchange step of in-place Gauss-Jordan elimination

    After some pivots, the array no longer holds the original matrix [A] but
    the matrix that maps a mixture of the unknowns and the right-hand sides to
    the complementary mixture. This file states that relation ([exchanged]) and
    the effect on it of a row swap, of a pivot and of the final column swaps,
    for matrices seen as functions. *)

From S2P Require Import Prelude Gf256 GfField GfVec.
From Stdlib Require Import Ring Field.
Local Open Scope nat_scope.
Local Open Scope gf_scope.

Abbreviation vec := (nat -> byte).
Abbreviation mat := (nat -> nat -> byte).

Definition mv (k : nat) (M : mat) (x : vec) : vec := fun i => gsum k (fun j => M i j ⊗ x j).

(** Equality of the first [k] entries. *)
Definition veq (k : nat) (x y : vec) : Prop := forall i, i < k -> x i = y i.
Definition meq (k : nat) (M N : mat) : Prop := forall i j, i < k -> j < k -> M i j = N i j.

#[export] Instance veq_equiv k : Equivalence (veq k).
Proof.
  split; [by intros x i Hi|intros x y H i Hi; symmetry; by apply H|].
  intros x y z H1 H2 i Hi. by rewrite (H1 i), (H2 i).
Qed.

#[export] Instance meq_equiv k : Equivalence (meq k).
Proof.
  split; [by intros M i j|intros M N H i j Hi Hj; symmetry; by apply H|].
  intros M N O H1 H2 i j Hi Hj. by rewrite (H1 i j), (H2 i j).
Qed.

#[export] Instance mv_proper k : Proper (meq k ==> veq k ==> veq k) (mv k).
Proof.
  intros M N HM x y Hx i Hi. apply gsum_ext. intros j Hj. by rewrite (HM i j), (Hx j).
Qed.

Lemma mv_xor k M x y : veq k (mv k M (fun i => x i ⊕ y i)) (fun i => mv k M x i ⊕ mv k M y i).
Proof.
  intros i Hi. unfold mv. rewrite <-gsum_xor. apply gsum_ext. intros j Hj. ring.
Qed.

Definition nonsingular (k : nat) (A : mat) : Prop :=
  forall x, (forall i, i < k -> mv k A x i = x00) -> forall j, j < k -> x j = x00.

(** ** One pivot *)

(** The matrix after pivoting on the diagonal element [p]. *)
Definition exch (p : nat) (M : mat) : mat := fun i j =>
  let a := ginv (M p p) in
  if decide (i = p) then (if decide (j = p) then a else a ⊗ M p j)
  else if decide (j = p) then M i p ⊗ a
  else M i j ⊕ M i p ⊗ (a ⊗ M p j).

Definition upd (p : nat) (b : byte) (x : vec) : vec := fun i => if decide (i = p) then b else x i.

Lemma exch_fwd k p M u v :
  p < k -> M p p <> x00 -> veq k u (mv k M v) -> veq k (upd p (v p) u) (mv k (exch p M) (upd p (u p) v)).
Proof.
  intros Hp Ha Hu i Hi. unfold mv.
  set (R := fun i => gsum k (fun j => if decide (j = p) then x00 else M i j ⊗ v j)).
  assert (forall i, i < k -> u i = M i p ⊗ v p ⊕ R i) as Hui.
  { intros i' Hi'. etransitivity; [by apply Hu|]. unfold mv. by rewrite (gsum_pick k p). }
  rewrite (gsum_pick k p) by done. unfold upd at 2. rewrite decide_True by done.
  unfold upd at 1. unfold exch at 1. destruct (decide (i = p)) as [->|Hip].
  - rewrite decide_True by done.
    transitivity (ginv (M p p) ⊗ (u p ⊕ R p)).
    + rewrite Hui by done. field. done.
    + rewrite (gsum_ext k _ (fun j => ginv (M p p) ⊗ (if decide (j = p) then x00 else M p j ⊗ v j))).
      { rewrite gsum_mul_l. fold (R p). ring. }
      intros j Hj. unfold exch, upd. rewrite (decide_True (P := p = p)) by done.
      destruct (decide (j = p)); ring.
  - rewrite decide_True by done.
    rewrite (gsum_ext k _ (fun j => (if decide (j = p) then x00 else M i j ⊗ v j)
       ⊕ (M i p ⊗ ginv (M p p)) ⊗ (if decide (j = p) then x00 else M p j ⊗ v j))).
    { rewrite gsum_xor, gsum_mul_l. fold (R p) (R i). rewrite !Hui by done. field. done. }
    intros j Hj. unfold exch, upd. rewrite (decide_False (P := i = p)) by done.
    destruct (decide (j = p)); ring.
Qed.

Lemma exch_pp p M : exch p M p p = ginv (M p p).
Proof. unfold exch. by rewrite !decide_True. Qed.

Lemma ginv_nonzero a : a <> x00 -> ginv a <> x00.
Proof.
  intros Ha E. pose proof (poly_mul_inv a Ha) as H. rewrite E, poly_mul_0_l in H. done.
Qed.

Lemma exch_exch p M i j : M p p <> x00 -> exch p (exch p M) i j = M i j.
Proof.
  intros Ha. pose proof (ginv_nonzero _ Ha) as Hg.
  unfold exch at 1. rewrite exch_pp. unfold exch. rewrite !(decide_True (P := p = p)) by done.
  destruct (decide (i = p)) as [->|Hi], (decide (j = p)) as [->|Hj];
    rewrite ?decide_True, ?decide_False by done; field; done.
Qed.

Lemma upd_eq p b (x : vec) : upd p b x p = b.
Proof. unfold upd. by rewrite decide_True. Qed.

Lemma upd_upd p (x y : vec) i : upd p (x p) (upd p (y p) x) i = x i.
Proof. unfold upd. by destruct (decide (i = p)) as [->|]. Qed.

Lemma exch_iff k p M u v :
  p < k -> M p p <> x00 ->
  veq k u (mv k M v) <-> veq k (upd p (v p) u) (mv k (exch p M) (upd p (u p) v)).
Proof.
  intros Hp Ha. split; [by apply exch_fwd|]. intros H.
  pose proof (exch_fwd k p (exch p M) (upd p (v p) u) (upd p (u p) v) Hp) as H'.
  rewrite !upd_eq in H'. specialize (H' ltac:(rewrite exch_pp; by apply ginv_nonzero) H).
  intros i Hi. rewrite <-(upd_upd p u v i). etransitivity; [by apply H'|].
  apply mv_proper; [intros i' j' _ _; by apply exch_exch|intros j Hj; apply upd_upd|done].
Qed.

(** ** Swaps *)

(** Exchange of the entries [r] and [c]. *)
Definition swapi (r c i : nat) : nat :=
  if decide (i = r) then c else if decide (i = c) then r else i.
Definition swapv (r c : nat) (x : vec) : vec := fun i => x (swapi r c i).

Lemma swapi_lt k r c i : r < k -> c < k -> i < k -> swapi r c i < k.
Proof. unfold swapi. intros. by repeat case_decide. Qed.

Lemma swapi_swapi r c i : swapi r c (swapi r c i) = i.
Proof. unfold swapi. repeat case_decide; congruence. Qed.

Lemma swapv_veq k r c x y : r < k -> c < k -> veq k x y -> veq k (swapv r c x) (swapv r c y).
Proof. intros Hr Hc H i Hi. apply H. by apply swapi_lt. Qed.

Lemma gsum_swapi k r c f : r < k -> c < k -> gsum k (fun j => f (swapi r c j)) = gsum k f.
Proof.
  intros Hr Hc. destruct (decide (r = c)) as [->|Hrc].
  { apply gsum_ext. intros i _. unfold swapi. repeat case_decide; by subst. }
  rewrite (gsum_pick k r), (gsum_pick k c (fun i => if decide (i = r) then x00 else f (swapi r c i))) by done.
  rewrite (gsum_pick k r f), (gsum_pick k c (fun i => if decide (i = r) then x00 else f i)) by done.
  rewrite (gsum_ext k _ (fun i => if decide (i = c) then x00 else if decide (i = r) then x00 else f i)).
  2: { intros i _. unfold swapi. by repeat case_decide. }
  rewrite !(decide_False (P := c = r)) by done.
  replace (swapi r c r) with c by (unfold swapi; by rewrite decide_True).
  replace (swapi r c c) with r by (unfold swapi; rewrite decide_False, decide_True; done).
  ring.
Qed.

Definition swap_mrows (r c : nat) (M : mat) : mat := fun i j => M (swapi r c i) j.
Definition swap_mcols (r c : nat) (M : mat) : mat := fun i j => M i (swapi r c j).

Lemma mv_swap_mcols k r c M x :
  r < k -> c < k -> veq k (mv k (swap_mcols r c M) x) (mv k M (swapv r c x)).
Proof.
  intros Hr Hc i Hi. unfold mv, swap_mcols, swapv.
  rewrite <-(gsum_swapi k r c) by done. apply gsum_ext. intros j Hj. by rewrite swapi_swapi.
Qed.

(** ** The invariant of the elimination *)

(** [mix d a b]: [a] at the indices already pivoted, [b] at the others. *)
Definition mix (d : nat -> bool) (a b : vec) : vec := fun i => if d i then a i else b i.

(** [M] maps (right-hand sides at pivoted indices, unknowns elsewhere) to
    (unknowns at pivoted indices, right-hand sides elsewhere); [perm] records
    the row swaps. *)
Definition exchanged (k : nat) (A : mat) (d : nat -> bool) (M : mat) (perm : vec -> vec) : Prop :=
  forall x y, veq k y (mv k A x) <-> veq k (mix d x (perm y)) (mv k M (mix d (perm y) x)).

Lemma mix_ext k d a a' b b' : veq k a a' -> veq k b b' -> veq k (mix d a b) (mix d a' b').
Proof. intros Ha Hb i Hi. unfold mix. destruct (d i); auto. Qed.

Lemma veq_iff k u u' v v' : veq k u u' -> veq k v v' -> veq k u v <-> veq k u' v'.
Proof. intros Hu Hv. by rewrite Hu, Hv. Qed.

Lemma exchanged_init k A d : (forall i, i < k -> d i = false) -> exchanged k A d A id.
Proof.
  intros Hd x y.
  assert (forall a b, veq k (mix d a b) b) as Hm by (intros a b i Hi; unfold mix; by rewrite Hd).
  apply veq_iff; [by rewrite Hm|]. apply mv_proper; [done|by rewrite Hm].
Qed.

Lemma exchanged_meq k A d M N perm : meq k M N -> exchanged k A d M perm -> exchanged k A d N perm.
Proof.
  intros HM H x y. rewrite (H x y). apply veq_iff; [done|]. by apply mv_proper.
Qed.

Lemma exchanged_deq k A d e M perm :
  (forall i, i < k -> d i = e i) -> exchanged k A d M perm -> exchanged k A e M perm.
Proof.
  intros Hd H x y. rewrite (H x y).
  assert (forall a b, veq k (mix d a b) (mix e a b)) as Hm
    by (intros a b i Hi; unfold mix; by rewrite Hd).
  apply veq_iff; [apply Hm|]. apply mv_proper; [done|apply Hm].
Qed.

Lemma exchanged_perm k A d M perm perm' :
  (forall y, perm y = perm' y) -> exchanged k A d M perm -> exchanged k A d M perm'.
Proof. intros Hp H x y. rewrite <-Hp. apply H. Qed.

Lemma exchanged_swap k A d M perm r c :
  r < k -> c < k -> d r = false -> d c = false ->
  exchanged k A d M perm -> exchanged k A d (swap_mrows r c M) (fun y => swapv r c (perm y)).
Proof.
  intros Hr Hc Hdr Hdc H x y. rewrite (H x y).
  assert (forall i, d (swapi r c i) = d i) as Hd by (intros i; unfold swapi; repeat case_decide; congruence).
  assert (forall i, d i = true -> swapi r c i = i) as Hfix.
  { intros i Hi. unfold swapi. repeat case_decide; congruence. }
  assert (forall i, mix d (swapv r c (perm y)) x i = mix d (perm y) x i) as Hv.
  { intros i. unfold mix, swapv. destruct (d i) eqn:E; [by rewrite Hfix|done]. }
  assert (forall i, mix d x (swapv r c (perm y)) i = mix d x (perm y) (swapi r c i)) as Hu.
  { intros i. unfold mix, swapv. rewrite Hd. destruct (d i) eqn:E; [by rewrite Hfix|done]. }
  assert (forall i, mv k (swap_mrows r c M) (mix d (swapv r c (perm y)) x) i
            = mv k M (mix d (perm y) x) (swapi r c i)) as Hm.
  { intros i. unfold mv, swap_mrows. apply gsum_ext. intros j _. by rewrite Hv. }
  split; intros E i Hi.
  - rewrite Hu, Hm. apply E. by apply swapi_lt.
  - rewrite <-(swapi_swapi r c i). rewrite <-Hu, <-Hm. apply E. by apply swapi_lt.
Qed.

Lemma exchanged_pivot k A d M perm p :
  p < k -> d p = false -> M p p <> x00 ->
  exchanged k A d M perm -> exchanged k A (fun i => if decide (i = p) then true else d i) (exch p M) perm.
Proof.
  intros Hp Hdp Ha H x y. rewrite (H x y), (exch_iff k p) by done.
  assert (forall a b, mix d a b p = b p) as Hmp by (intros; unfold mix; by rewrite Hdp).
  assert (forall a b, upd p (a p) (mix d a b) = upd p (mix d b a p) (mix d a b)) as Hup
    by (intros; by rewrite Hmp).
  assert (forall a b i, upd p (mix d b a p) (mix d a b) i
            = mix (fun i => if decide (i = p) then true else d i) a b i) as Hm.
  { intros a b i. rewrite Hmp. unfold upd, mix. destruct (decide (i = p)) as [->|]; done. }
  apply veq_iff; [intros i _; apply Hm|].
  apply mv_proper; [done|intros i _; apply Hm].
Qed.

Lemma exchanged_done k A d M perm :
  (forall i, i < k -> d i = true) -> exchanged k A d M perm ->
  forall x, veq k x (mv k M (perm (mv k A x))).
Proof.
  intros Hd H x.
  assert (forall a b, veq k (mix d a b) a) as Hm by (intros a b i Hi; unfold mix; by rewrite Hd).
  specialize (proj1 (H x (mv k A x)) (reflexivity _)) as E. by rewrite !Hm in E.
Qed.

(** No pivot left although an index is not pivoted: the matrix is singular. *)
Lemma exchanged_stuck k A d M perm j0 :
  perm (fun _ => x00) = (fun _ => x00) -> exchanged k A d M perm ->
  (forall i j, i < k -> j < k -> d i = false -> d j = false -> M i j = x00) ->
  j0 < k -> d j0 = false -> ~ nonsingular k A.
Proof.
  intros Hperm H Hz Hj0 Hd Hns.
  set (v := fun i => if decide (i = j0) then x01 else x00).
  set (x := mix d (mv k M v) v).
  assert (veq k (fun _ => x00) (mv k A x)) as E.
  { apply (H x (fun _ => x00)). rewrite Hperm.
    assert (veq k (mix d (fun _ => x00) x) v) as Hv.
    { intros i Hi. unfold mix, x, mix, v. destruct (d i) eqn:Ei; [|done].
      rewrite decide_False; [done|]. intros ->. congruence. }
    etransitivity; [|symmetry; apply mv_proper; [reflexivity|exact Hv]].
    intros i Hi. unfold mix, x, mix. destruct (d i) eqn:Ei; [done|].
    symmetry. unfold mv. rewrite (gsum_single k j0).
    - rewrite Hz by done. ring.
    - done.
    - intros j Hj Hne. unfold v. rewrite decide_False by done. ring. }
  assert (x j0 = x00) as Ex by (apply (Hns x); [intros i Hi; symmetry; by apply E|done]).
  unfold x, mix, v in Ex. rewrite Hd, decide_True in Ex by done. done.
Qed.
