(* ===== verification/InvertMat.v ===== *)
(** * [invert_mat] of src/src/fec.c: in-place Gauss-Jordan inversion

    The matrix is the flat C array [src] of [k*k] bytes. Indices are below [k]
    by the bounds of the loops; the arrays [indxr], [indxc] are indeterminate
    in C until column [col] writes entry [col], so their initial content here
    (zeros) is never used: the loop that reads them runs after all columns
    are done. *)

From S2P Require Import Prelude Gf256 GfField GfVec Exchange.
From Stdlib Require Import Ring Field.
Local Open Scope nat_scope.
Local Open Scope gf_scope.

(** Local variables of [invert_mat]. *)
Record gj := GJ {
  src : list gf;       (* the matrix *)
  ipiv : list Z;       (* marks elements already used as pivots *)
  indxr : list nat;
  indxc : list nat;
  id_row : list gf
}.

(** [irow], [icol] after the search: a pivot, or one of the two failures. *)
Inductive pivot := Found (irow icol : nat) | NotFound | Singular.

(** The inner loop [for (ix = 0; ix < k; ix++)] of the search in one row. *)
Fixpoint scan_cols (m : list gf) (piv : list Z) (k row ix n : nat) : option pivot :=
  match n with
  | O => None
  | S n' =>
      if (piv !!! ix =? 0)%Z then
        if negb (Byte.eqb (m !!! (row * k + ix)) x00) then Some (Found row ix)
        else scan_cols m piv k row (S ix) n'
      else if (1 <? piv !!! ix)%Z then Some Singular
      else scan_cols m piv k row (S ix) n'
  end.

(** The outer loop over the rows not used yet. *)
Fixpoint scan_rows (m : list gf) (piv : list Z) (k row n : nat) : pivot :=
  match n with
  | O => NotFound
  | S n' =>
      if negb (piv !!! row =? 1)%Z then
        match scan_cols m piv k row 0 k with
        | Some p => p
        | None => scan_rows m piv k (S row) n'
        end
      else scan_rows m piv k (S row) n'
  end.

(** First the diagonal element, then any row and column not used yet. *)
Definition find_pivot (m : list gf) (piv : list Z) (k col : nat) : pivot :=
  if negb (piv !!! col =? 1)%Z && negb (Byte.eqb (m !!! (col * k + col)) x00)
  then Found col col
  else scan_rows m piv k 0 k.

(** [SWAP(src[a], src[b], gf)] *)
Definition swap_at (a b : nat) (m : list gf) : list gf :=
  let tmp := m !!! a in <[b := tmp]> (<[a := m !!! b]> m).

Definition swap_rows (k irow icol : nat) (m : list gf) : list gf :=
  if irow =? icol then m
  else for_loop 0 k (fun ix m => swap_at (irow * k + ix) (icol * k + ix) m) m.

(** [if (c != 1) { ... }]: divide the pivot row by [c]. *)
Definition scale_row (T : fec_state) (k icol : nat) (m : list gf) : option (list gf) :=
  let c := m !!! (icol * k + icol) in
  if Byte.eqb c x01 then Some m
  else
    c' ← inverse_at T (u8 c);
    let m := <[icol * k + icol := x01]> m in
    Some (for_loop 0 k (fun ix m => <[icol * k + ix := gf_mul T c' (m !!! (icol * k + ix))]> m) m).

(** Remove multiples of the pivot row from all other rows. *)
Definition clear_row (T : fec_state) (k icol ix : nat) (m : list gf) : option (list gf) :=
  if ix =? icol then Some m
  else
    let c := m !!! (ix * k + icol) in
    let m := <[ix * k + icol := x00]> m in
    p ← addmul T (drop (ix * k) m) (drop (icol * k) m) c k;
    Some (take (ix * k) m ++ p).

Definition clear_rows (T : fec_state) (k icol : nat) (idr m : list gf) : option (list gf) :=
  if decide (take k (drop (icol * k) m) = idr) then Some m   (* memcmp(...) == 0 *)
  else for_opt 0 k (clear_row T k icol) m.

(** One iteration of the loop over the columns; [inl] is [goto fail]. *)
Definition invert_col (T : fec_state) (k col : nat) (s : gj) : option (list gf + gj) :=
  match find_pivot (src s) (ipiv s) k col with
  | NotFound | Singular => Some (inl (src s))
  | Found irow icol =>
      let piv := <[icol := (ipiv s !!! icol + 1)%Z]> (ipiv s) in
      let m := swap_rows k irow icol (src s) in
      let ir := <[col := irow]> (indxr s) in
      let ic := <[col := icol]> (indxc s) in
      if Byte.eqb (m !!! (icol * k + icol)) x00 then Some (inl m)
      else
        m ← scale_row T k icol m;
        let idr := <[icol := x01]> (id_row s) in
        m ← clear_rows T k icol idr m;
        Some (inr (GJ m piv ir ic (<[icol := x00]> idr)))
  end.

Fixpoint invert_cols (T : fec_state) (k col n : nat) (s : gj) : option (list gf + gj) :=
  match n with
  | O => Some (inr s)
  | S n' =>
      r ← invert_col T k col s;
      match r with
      | inl m => Some (inl m)
      | inr s' => invert_cols T k (S col) n' s'
      end
  end.

(** [for (col = k-1; col >= 0; col--)]: swap the columns back. An index out of
    range only prints a message. *)
Fixpoint unscramble (k : nat) (ir ic : list nat) (n : nat) (m : list gf) : list gf :=
  match n with
  | O => m
  | S col =>
      let r := ir !!! col in
      let c := ic !!! col in
      let m :=
        if k <=? r then m
        else if k <=? c then m
        else if r =? c then m
        else for_loop 0 k (fun row m => swap_at (row * k + r) (row * k + c) m) m in
      unscramble k ir ic col m
  end.

(** [invert_mat(src, k)]: the error code (0 or 1) and the matrix left in [src]. *)
Definition invert_mat (T : fec_state) (m : list gf) (k : nat) : option (Z * list gf) :=
  r ← invert_cols T k 0 k
        (GJ m (replicate k 0%Z) (replicate k 0) (replicate k 0) (replicate k x00));
  match r with
  | inl m => Some (1%Z, m)
  | inr s => Some (0%Z, unscramble k (indxr s) (indxc s) k (src s))
  end.

(** ** The flat array as a matrix *)

Definition Mx (k : nat) (m : list gf) : mat := fun i j => m !!! (i * k + j).

Lemma idx_lt k i j : i < k -> j < k -> i * k + j < k * k.
Proof. nia. Qed.

Lemma idx_inj k i j i' j' : j < k -> j' < k -> i * k + j = i' * k + j' -> i = i' /\ j = j'.
Proof.
  intros Hj Hj' E. assert (i = i') as ->; [|lia].
  destruct (Nat.lt_trichotomy i i') as [?|[?|?]]; [nia|done|nia].
Qed.

Lemma Mx_insert k m r c v i j :
  length m = k * k -> r < k -> c < k -> i < k -> j < k ->
  Mx k (<[r * k + c := v]> m) i j = if decide (i = r /\ j = c) then v else Mx k m i j.
Proof.
  intros Hm Hr Hc Hi Hj. unfold Mx. case_decide as H.
  - destruct H as [-> ->]. apply list_lookup_total_insert_eq. rewrite Hm. by apply idx_lt.
  - apply list_lookup_total_insert_ne. intros E. apply idx_inj in E as [-> ->]; [by apply H|done..].
Qed.

Lemma length_swap_at a b m : length (swap_at a b m) = length m.
Proof. unfold swap_at. by rewrite !length_insert. Qed.

Lemma swap_at_lookup a b m i :
  a < length m -> b < length m -> swap_at a b m !!! i = m !!! swapi a b i.
Proof.
  intros Ha Hb. unfold swap_at, swapi. destruct (decide (i = b)) as [->|Hib].
  - rewrite list_lookup_total_insert_eq by (by rewrite length_insert). by case_decide; subst.
  - rewrite list_lookup_total_insert_ne by done. destruct (decide (i = a)) as [->|Hia].
    + by rewrite list_lookup_total_insert_eq.
    + by rewrite list_lookup_total_insert_ne.
Qed.

(** A swap at [(r1, c1)] and [(r2, c2)]. *)
Lemma Mx_swap_at k m r1 c1 r2 c2 i j :
  length m = k * k -> r1 < k -> c1 < k -> r2 < k -> c2 < k -> i < k -> j < k ->
  Mx k (swap_at (r1 * k + c1) (r2 * k + c2) m) i j =
    if decide (i = r1 /\ j = c1) then Mx k m r2 c2
    else if decide (i = r2 /\ j = c2) then Mx k m r1 c1 else Mx k m i j.
Proof.
  intros Hm H1 H2 H3 H4 Hi Hj. unfold Mx at 1.
  rewrite swap_at_lookup by (rewrite Hm; by apply idx_lt). unfold swapi, Mx.
  assert (forall r c, r < k -> c < k -> i * k + j = r * k + c <-> i = r /\ j = c) as Hiff.
  { intros r c Hr Hc. split; [by apply idx_inj|by intros [-> ->]]. }
  destruct (decide (i * k + j = r1 * k + c1)) as [E|E].
  - by rewrite decide_True by (by apply Hiff).
  - rewrite (decide_False (P := i = r1 /\ j = c1)) by (by rewrite <-Hiff).
    destruct (decide (i * k + j = r2 * k + c2)) as [E'|E'].
    + by rewrite decide_True by (by apply Hiff).
    + by rewrite decide_False by (by rewrite <-Hiff).
Qed.

Lemma swap_rows_spec k r c m :
  length m = k * k -> r < k -> c < k ->
  length (swap_rows k r c m) = k * k /\ meq k (Mx k (swap_rows k r c m)) (swap_mrows r c (Mx k m)).
Proof.
  intros Hm Hr Hc. unfold swap_rows. destruct (Nat.eqb_spec r c) as [->|Hrc].
  { split; [done|]. intros i j _ _. unfold swap_mrows, swapi. repeat case_decide; by subst. }
  destruct (for_loop_inv (fun n m' => length m' = k * k /\ forall i j, i < k -> j < k ->
      Mx k m' i j = if decide (j < n) then Mx k m (swapi r c i) j else Mx k m i j)
    0 k (fun ix m => swap_at (r * k + ix) (c * k + ix) m) m) as [Hl Hx].
  - split; [done|]. intros i j _ _. by rewrite decide_False by lia.
  - intros n m' Hn [Hl Hx]. split; [by rewrite length_swap_at|]. intros i j Hi Hj.
    rewrite Mx_swap_at by (done || lia). unfold swapi.
    destruct (decide (j = n)) as [->|Hjn].
    + rewrite (decide_True (P := n < S n)) by lia.
      destruct (decide (i = r)) as [->|Hir].
      { rewrite !decide_True by done. rewrite Hx by (done || lia). by rewrite decide_False by lia. }
      rewrite (decide_False (P := i = r /\ n = n)) by (by intros []).
      destruct (decide (i = c)) as [->|Hic].
      { rewrite !decide_True by done. rewrite Hx by (done || lia). by rewrite decide_False by lia. }
      rewrite decide_False by (by intros []). rewrite Hx by (done || lia). by rewrite decide_False by lia.
    + rewrite !(decide_False (P := _ /\ j = n)) by (by intros []). rewrite Hx by done.
      unfold swapi. destruct (decide (j < n)), (decide (j < S n)); done || lia.
  - split; [done|]. intros i j Hi Hj. rewrite Hx by done. by rewrite decide_True by lia.
Qed.

(** ** The pivot search *)

Definition piv_ok (k : nat) (piv : list Z) : Prop :=
  length piv = k /\ forall i, i < k -> piv !!! i = 0%Z \/ piv !!! i = 1%Z.

Definition is_done (piv : list Z) (i : nat) : bool := (piv !!! i =? 1)%Z.

Lemma not_done piv k i : piv_ok k piv -> i < k -> is_done piv i = false <-> piv !!! i = 0%Z.
Proof. intros [_ H] Hi. unfold is_done. destruct (H i Hi) as [E|E]; rewrite E; simpl; lia. Qed.

(** What the search of one row, of all rows, and of the column returns. *)
Definition good_pivot (k : nat) (m : list gf) (piv : list Z) (r c : nat) : Prop :=
  r < k /\ c < k /\ is_done piv r = false /\ is_done piv c = false /\ Mx k m r c <> x00.

Lemma scan_cols_spec k m piv row ix n :
  piv_ok k piv -> row < k -> is_done piv row = false -> ix + n = k ->
  match scan_cols m piv k row ix n with
  | Some (Found r c) => good_pivot k m piv r c
  | Some _ => False
  | None => forall j, ix <= j < k -> is_done piv j = false -> Mx k m row j = x00
  end.
Proof.
  intros Hp Hrow Hd. revert ix. induction n as [|n IH]; intros ix Hn; simpl; [lia|].
  specialize (IH (S ix) ltac:(lia)). pose proof (not_done piv k ix Hp ltac:(lia)) as Hix.
  destruct Hp as [Hl H01]. destruct (H01 ix ltac:(lia)) as [E|E]; rewrite E in *; simpl.
  - destruct (Byte.eqb (m !!! (row * k + ix)) x00) eqn:Eb; simpl.
    + apply byte_eqb_eq in Eb.
      destruct (scan_cols m piv k row (S ix) n) as [[]|]; [done..|].
      intros j Hj Hdj. destruct (decide (j = ix)) as [->|]; [done|]. apply IH; [lia|done].
    + repeat split; try done; [lia|by apply Hix|].
      unfold Mx. intros Ez. rewrite Ez in Eb. done.
  - destruct (scan_cols m piv k row (S ix) n) as [[]|]; [done..|].
    intros j Hj Hdj. destruct (decide (j = ix)) as [->|].
    + apply Hix in Hdj. done.
    + apply IH; [lia|done].
Qed.

Lemma scan_rows_spec k m piv row n :
  piv_ok k piv -> row + n = k ->
  match scan_rows m piv k row n with
  | Found r c => good_pivot k m piv r c
  | Singular => False
  | NotFound => forall i j, row <= i < k -> j < k -> is_done piv i = false -> is_done piv j = false ->
                  Mx k m i j = x00
  end.
Proof.
  intros Hp. revert row. induction n as [|n IH]; intros row Hn; simpl; [lia|].
  specialize (IH (S row) ltac:(lia)). fold (is_done piv row).
  destruct (is_done piv row) eqn:Ed; simpl.
  - destruct (scan_rows m piv k (S row) n); [done| |done].
    intros i j Hi Hj Hdi Hdj. apply IH; try done. destruct (decide (i = row)) as [->|]; [congruence|lia].
  - pose proof (scan_cols_spec k m piv row 0 k Hp ltac:(lia) Ed eq_refl) as Hc.
    destruct (scan_cols m piv k row 0 k) as [[]|]; [done..|].
    destruct (scan_rows m piv k (S row) n); [done| |done].
    intros i j Hi Hj Hdi Hdj. destruct (decide (i = row)) as [->|]; [apply Hc; done || lia|].
    apply IH; done || lia.
Qed.

Lemma find_pivot_spec k m piv col :
  piv_ok k piv -> col < k ->
  match find_pivot m piv k col with
  | Found r c => good_pivot k m piv r c
  | Singular => False
  | NotFound => forall i j, i < k -> j < k -> is_done piv i = false -> is_done piv j = false ->
                  Mx k m i j = x00
  end.
Proof.
  intros Hp Hcol. unfold find_pivot. fold (is_done piv col).
  destruct (is_done piv col) eqn:Ed; cbn [negb andb].
  2: destruct (Byte.eqb (m !!! (col * k + col)) x00) eqn:Eb; cbn [negb].
  1, 2: pose proof (scan_rows_spec k m piv 0 k Hp eq_refl) as H;
        destruct (scan_rows m piv k 0 k); [done| |done]; intros; apply H; done || lia.
  repeat split; try done. unfold Mx. intros Ez. rewrite Ez in Eb. done.
Qed.

(** ** Scaling and clearing *)

Section steps.
Context (T : fec_state) `{!GfTables T}.

Lemma scale_row_spec k p m :
  length m = k * k -> p < k -> Mx k m p p <> x00 ->
  exists m', scale_row T k p m = Some m' /\ length m' = k * k /\
    meq k (Mx k m') (fun i j =>
      if decide (i = p) then if decide (j = p) then ginv (Mx k m p p) else ginv (Mx k m p p) ⊗ Mx k m p j
      else Mx k m i j).
Proof.
  intros Hm Hp Ha. unfold scale_row. set (c := m !!! (p * k + p)).
  change (Mx k m p p) with c in *. destruct (Byte.eqb c x01) eqn:Ec.
  { apply byte_eqb_eq in Ec. rewrite Ec. change (ginv x01) with x01.
    exists m. split; [done|]. split; [done|]. intros i j Hi Hj.
    destruct (decide (i = p)) as [->|], (decide (j = p)) as [->|]; [done|ring|done|done]. }
  unfold inverse_at. rewrite (proj2 (Z.leb_le 0 (u8 c))) by apply u8_range.
  rewrite gt_inv. cbn [mbind option_bind].
  set (m1 := <[p * k + p := x01]> m).
  destruct (for_loop_inv (fun n m' => length m' = k * k /\ forall i j, i < k -> j < k ->
      Mx k m' i j = if decide (i = p /\ j < n) then ginv c ⊗ Mx k m1 p j else Mx k m1 i j)
    0 k (fun ix m => <[p * k + ix := gf_mul T (ginv c) (m !!! (p * k + ix))]> m) m1) as [Hl Hx].
  - split; [unfold m1; by rewrite length_insert|].
    intros i j _ _. by rewrite decide_False by lia.
  - intros n m' Hn [Hl Hx]. split; [by rewrite length_insert|]. intros i j Hi Hj.
    rewrite Mx_insert by (done || lia). rewrite gt_mul. change (m' !!! (p * k + n)) with (Mx k m' p n).
    rewrite (Hx p n), (Hx i j) by (done || lia). rewrite (decide_False (P := p = p /\ n < n)) by lia.
    destruct (decide (i = p /\ j = n)) as [[-> ->]|Hne].
    + by rewrite decide_True by lia.
    + destruct (decide (i = p /\ j < n)), (decide (i = p /\ j < S n)); done || lia.
  - eexists. split; [done|]. split; [done|]. intros i j Hi Hj. rewrite Hx by done. unfold m1.
    rewrite !Mx_insert by done. destruct (decide (i = p)) as [->|Hi'].
    + rewrite decide_True by lia. destruct (decide (j = p)) as [->|Hj'].
      * rewrite decide_True by done. ring.
      * rewrite decide_False by (by intros []). done.
    + rewrite !decide_False by (by intros []). done.
Qed.

(** Row [ix] after removing the multiple of row [p]. *)
Definition cleared (k p : nat) (M : mat) : mat := fun i j =>
  (if decide (j = p) then x00 else M i j) ⊕ M i p ⊗ M p j.

Lemma clear_row_spec k p r m :
  length m = k * k -> p < k -> r < k -> r <> p ->
  exists m', clear_row T k p r m = Some m' /\ length m' = k * k /\
    meq k (Mx k m') (fun i j => if decide (i = r) then cleared k p (Mx k m) r j else Mx k m i j).
Proof.
  intros Hm Hp Hr Hrp. unfold clear_row. rewrite (proj2 (Nat.eqb_neq r p)) by done.
  change (m !!! (r * k + p)) with (Mx k m r p).
  set (m1 := <[r * k + p := x00]> m).
  assert (length m1 = k * k) as Hm1 by (unfold m1; by rewrite length_insert).
  assert (forall i, i < k -> k <= length (drop (i * k) m1)) as Hd.
  { intros i Hi. rewrite length_drop, Hm1. nia. }
  destruct (addmul_spec T (drop (r * k) m1) (drop (p * k) m1) (Mx k m r p) k)
    as (d & -> & Hdl & Hdx); [by apply Hd..|].
  cbn [mbind option_bind]. eexists. split; [done|].
  assert (length (take (r * k) m1) = r * k) as Htl by (rewrite length_take, Hm1; nia).
  split; [rewrite length_app, Htl, Hdl, length_drop, Hm1; nia|].
  intros i j Hi Hj. unfold Mx at 1.
  assert (forall i j, drop (i * k) m1 !!! j = m1 !!! (i * k + j)) as Hdrop
    by (intros; by rewrite lookup_total_drop).
  assert (forall i, i < k -> Mx k m1 i j = if decide (i = r /\ j = p) then x00 else Mx k m i j) as Hx1
    by (intros i' Hi'; unfold m1; by apply Mx_insert).
  destruct (Nat.lt_trichotomy i r) as [Hlt|[->|Hgt]].
  - rewrite lookup_total_app_l by (rewrite Htl; nia).
    rewrite lookup_total_take, decide_True by nia. fold (Mx k m1 i j). rewrite Hx1 by done.
    by rewrite !decide_False by lia.
  - rewrite lookup_total_app_r by (rewrite Htl; lia). rewrite Htl.
    replace (r * k + j - r * k) with j by lia. rewrite Hdx, !Hdrop.
    rewrite !decide_True by done. fold (Mx k m1 r j) (Mx k m1 p j). rewrite !Hx1 by done.
    unfold cleared. rewrite (decide_False (P := p = r /\ j = p)) by (intros [-> _]; done).
    destruct (decide (j = p)) as [->|].
    + by rewrite decide_True.
    + by rewrite decide_False by (by intros []).
  - rewrite lookup_total_app_r by (rewrite Htl; nia). rewrite Htl, Hdx, Hdrop.
    assert (r * k + k <= i * k) by nia.
    rewrite (decide_False (P := _ < k)) by lia.
    replace (r * k + (i * k + j - r * k)) with (i * k + j) by lia.
    fold (Mx k m1 i j). rewrite Hx1 by done. by rewrite !decide_False by lia.
Qed.

Definition unit_row (k p : nat) : list gf := <[p := x01]> (replicate k x00).

Lemma unit_row_lookup k p j : p < k -> unit_row k p !!! j = if decide (j = p) then x01 else x00.
Proof.
  intros Hp. unfold unit_row. destruct (decide (j = p)) as [->|Hj].
  - by rewrite list_lookup_total_insert_eq by (by rewrite length_replicate).
  - rewrite list_lookup_total_insert_ne by done. destruct (decide (j < k)).
    + by rewrite lookup_total_replicate_2.
    + rewrite list_lookup_total_alt, lookup_ge_None_2; [done|]. rewrite length_replicate. lia.
Qed.

Lemma clear_rows_spec k p m :
  length m = k * k -> p < k ->
  exists m', clear_rows T k p (unit_row k p) m = Some m' /\ length m' = k * k /\
    meq k (Mx k m') (fun i j => if decide (i = p) then Mx k m i j else cleared k p (Mx k m) i j).
Proof.
  intros Hm Hp. unfold clear_rows. case_decide as Hid.
  - exists m. split; [done|]. split; [done|]. intros i j Hi Hj.
    assert (Mx k m p j = if decide (j = p) then x01 else x00) as Hpj.
    { rewrite <-(unit_row_lookup k p j Hp), <-Hid. unfold Mx.
      by rewrite lookup_total_take, decide_True, lookup_total_drop. }
    unfold cleared. rewrite Hpj. destruct (decide (i = p)) as [->|]; [done|].
    destruct (decide (j = p)) as [->|]; ring.
  - destruct (for_opt_inv (fun n m' => length m' = k * k /\ forall i j, i < k -> j < k ->
        Mx k m' i j = if decide (i <> p /\ i < n) then cleared k p (Mx k m) i j else Mx k m i j)
      0 k (clear_row T k p) m) as (m' & E & Hl & Hx).
    + split; [done|]. intros i j _ _. by rewrite decide_False by lia.
    + intros n m' Hn [Hl Hx]. destruct (decide (n = p)) as [->|Hnp].
      * exists m'. unfold clear_row. rewrite Nat.eqb_refl. split; [done|]. split; [done|].
        intros i j Hi Hj. rewrite Hx by done.
        destruct (decide (i <> p /\ i < p)), (decide (i <> p /\ i < S p)); done || lia.
      * destruct (clear_row_spec k p n m' Hl Hp ltac:(lia) Hnp) as (m'' & E & Hl' & Hx').
        exists m''. split; [done|]. split; [done|]. intros i j Hi Hj. rewrite Hx' by done.
        destruct (decide (i = n)) as [->|Hin].
        -- unfold cleared. rewrite !Hx by done. rewrite !(decide_False (P := _ /\ n < n)) by lia.
           rewrite (decide_False (P := p <> p /\ _)) by (by intros []).
           rewrite (decide_True (P := n <> p /\ n < S n)) by lia. done.
        -- rewrite Hx by done.
           destruct (decide (i <> p /\ i < n)), (decide (i <> p /\ i < S n)); done || lia.
    + exists m'. split; [done|]. split; [done|]. intros i j Hi Hj. rewrite Hx by done.
      destruct (decide (i = p)) as [->|]; [by rewrite decide_False by (by intros [])|].
      by rewrite decide_True by lia.
Qed.

(** The row operations of one column are the exchange step. *)
Lemma pivot_ops k p m :
  length m = k * k -> p < k -> Mx k m p p <> x00 ->
  exists m', (m ← scale_row T k p m; clear_rows T k p (unit_row k p) m) = Some m' /\
    length m' = k * k /\ meq k (exch p (Mx k m)) (Mx k m').
Proof.
  intros Hm Hp Ha.
  destruct (scale_row_spec k p m Hm Hp Ha) as (m1 & -> & Hl1 & Hx1). cbn [mbind option_bind].
  destruct (clear_rows_spec k p m1 Hl1 Hp) as (m2 & -> & Hl2 & Hx2).
  exists m2. split; [done|]. split; [done|]. intros i j Hi Hj. rewrite Hx2 by done.
  unfold cleared, exch. rewrite !Hx1 by done. rewrite ?(decide_True (P := p = p)) by done.
  destruct (decide (i = p)) as [->|Hip]; [by rewrite ?(decide_True (P := p = p)) by done|].
  destruct (decide (j = p)) as [->|Hjp]; rewrite ?(decide_True (P := p = p)) by done; ring.
Qed.

(** ** The loop over the columns *)

(** The row swaps recorded in the first [n] entries of [indxr] and [indxc]. *)
Fixpoint yperm (ir ic : list nat) (n : nat) (y : vec) : vec :=
  match n with
  | O => y
  | S n' => swapv (ir !!! n') (ic !!! n') (yperm ir ic n' y)
  end.

Lemma yperm_ext ir ic ir' ic' n y :
  (forall i, i < n -> ir !!! i = ir' !!! i /\ ic !!! i = ic' !!! i) ->
  yperm ir ic n y = yperm ir' ic' n y.
Proof.
  induction n as [|n IH]; intros H; simpl; [done|].
  destruct (H n ltac:(lia)) as [-> ->]. rewrite IH; [done|]. intros i Hi. apply H. lia.
Qed.

Lemma yperm_zero ir ic n : yperm ir ic n (fun _ => x00) = (fun _ => x00).
Proof. induction n as [|n IH]; simpl; [done|]. by rewrite IH. Qed.

Definition Zsum (l : list Z) : Z := foldr Z.add 0%Z l.

Lemma Zsum_insert (l : list Z) i v :
  i < length l -> Zsum (<[i := v]> l) = (Zsum l + v - l !!! i)%Z.
Proof.
  revert i. induction l as [|z l IH]; intros [|i] Hi; simpl in *; try lia.
  rewrite IH by lia. lia.
Qed.

Lemma Zsum_pivots k piv :
  piv_ok k piv -> (0 <= Zsum piv <= Z.of_nat k)%Z /\
    (Zsum piv = Z.of_nat k -> forall i, i < k -> is_done piv i = true) /\
    ((Zsum piv < Z.of_nat k)%Z -> exists i, i < k /\ is_done piv i = false).
Proof.
  intros [<- H]. induction piv as [|z piv IH]; simpl; [split; [lia|split; lia]|].
  destruct IH as (IH1 & IH2 & IH3); [intros i Hi; apply (H (S i)); simpl; lia|].
  specialize (H 0 ltac:(simpl; lia)) as H0. simpl in H0. fold (Zsum piv).
  split; [lia|]. split.
  - intros Hs [|i] Hi; unfold is_done; simpl.
    + lia.
    + apply IH2; lia.
  - intros Hs. destruct H0 as [->| ->].
    + exists 0. split; [lia|]. done.
    + destruct IH3 as (i & Hi & Hd); [lia|]. exists (S i). split; [lia|]. done.
Qed.

Record gj_inv (k : nat) (A : mat) (col : nat) (s : gj) : Prop := {
  inv_src : length (src s) = k * k;
  inv_piv : piv_ok k (ipiv s);
  inv_sum : Zsum (ipiv s) = Z.of_nat col;
  inv_len : length (indxr s) = k /\ length (indxc s) = k;
  inv_idx : forall c, c < col -> indxr s !!! c < k /\ indxc s !!! c < k;
  inv_id : id_row s = replicate k x00;
  inv_rel : exchanged k A (is_done (ipiv s)) (Mx k (src s)) (yperm (indxr s) (indxc s) col)
}.

(** Swapping the pivot to the diagonal. *)
Lemma invert_col_pivot k A col s r c :
  gj_inv k A col s -> col < k -> good_pivot k (src s) (ipiv s) r c ->
  find_pivot (src s) (ipiv s) k col = Found r c ->
  exists s', invert_col T k col s = Some (inr s') /\ gj_inv k A (S col) s'.
Proof.
  intros [Hsrc Hpiv Hsum Hlen Hidx Hid Hrel] Hcol (Hr & Hc & Hdr & Hdc & Hnz) E.
  unfold invert_col. rewrite E.
  destruct (swap_rows_spec k r c (src s) Hsrc Hr Hc) as [Hl Hx].
  set (m := swap_rows k r c (src s)) in *.
  assert (Mx k m c c <> x00) as Ha.
  { rewrite (Hx c c) by done. unfold swap_mrows, swapi.
    destruct (decide (c = r)) as [->|]; [done|]. by rewrite decide_True. }
  change (m !!! (c * k + c)) with (Mx k m c c).
  destruct (Byte.eqb (Mx k m c c) x00) eqn:Eb; [by apply byte_eqb_eq in Eb|].
  destruct (pivot_ops k c m Hl Hc Ha) as (m' & Em & Hl' & Hx').
  rewrite Hid. fold (unit_row k c). destruct (scale_row T k c m) as [m1|]; [|done].
  cbn [mbind option_bind] in *. rewrite Em. eexists. split; [done|].
  pose proof (proj1 (not_done _ k c Hpiv Hc) Hdc) as Hc0.
  destruct Hpiv as [Hpl Hp01]. destruct Hlen as [Hrl Hcl].
  split; cbn [src ipiv indxr indxc id_row].
  - done.
  - split; [by rewrite length_insert|]. intros i Hi. destruct (decide (i = c)) as [->|Hic].
    + rewrite list_lookup_total_insert_eq by lia. lia.
    + rewrite list_lookup_total_insert_ne by done. by apply Hp01.
  - rewrite Zsum_insert by lia. lia.
  - by rewrite !length_insert.
  - intros i Hi. destruct (decide (i = col)) as [->|Hne].
    + rewrite !list_lookup_total_insert_eq by lia. done.
    + rewrite !list_lookup_total_insert_ne by done. apply Hidx. lia.
  - unfold unit_row. rewrite list_insert_insert_eq. apply list_insert_id.
    by apply lookup_replicate_2.
  - eapply (exchanged_perm _ _ _ _ (fun y => swapv r c (yperm (indxr s) (indxc s) col y))).
    { intros y. cbn [yperm]. rewrite !list_lookup_total_insert_eq by lia. f_equal.
      apply yperm_ext. intros i Hi. by rewrite !list_lookup_total_insert_ne by lia. }
    pose proof (exchanged_swap k A _ _ _ r c Hr Hc Hdr Hdc Hrel) as H1.
    apply (exchanged_meq k A _ _ (Mx k m)) in H1; [|by symmetry].
    apply (exchanged_pivot k A _ _ _ c Hc Hdc Ha) in H1.
    apply (exchanged_meq k A _ _ (Mx k m')) in H1; [|done].
    eapply exchanged_deq; [|exact H1]. intros i Hi. cbv beta. unfold is_done.
    destruct (decide (i = c)) as [->|Hic].
    + rewrite list_lookup_total_insert_eq by lia. rewrite Hc0. done.
    + by rewrite list_lookup_total_insert_ne by done.
Qed.

Lemma invert_col_spec k A col s :
  gj_inv k A col s -> col < k ->
  (exists s', invert_col T k col s = Some (inr s') /\ gj_inv k A (S col) s') \/
  (exists m, invert_col T k col s = Some (inl m) /\ ~ nonsingular k A).
Proof.
  intros Hinv Hcol. pose proof (find_pivot_spec k (src s) (ipiv s) col (inv_piv _ _ _ _ Hinv) Hcol) as Hf.
  destruct (find_pivot (src s) (ipiv s) k col) as [r c| |] eqn:E; [| |done].
  - left. by eapply invert_col_pivot.
  - right. exists (src s). unfold invert_col. rewrite E. split; [done|].
    destruct (Zsum_pivots k (ipiv s) (inv_piv _ _ _ _ Hinv)) as (_ & _ & Hex).
    rewrite (inv_sum _ _ _ _ Hinv) in Hex. destruct Hex as (i & Hi & Hd); [lia|].
    exact (exchanged_stuck k A _ _ _ i (yperm_zero _ _ _) (inv_rel _ _ _ _ Hinv) Hf Hi Hd).
Qed.

Lemma invert_cols_spec k A col n s :
  gj_inv k A col s -> col + n = k ->
  (exists s', invert_cols T k col n s = Some (inr s') /\ gj_inv k A k s') \/
  (exists m, invert_cols T k col n s = Some (inl m) /\ ~ nonsingular k A).
Proof.
  revert col s. induction n as [|n IH]; intros col s Hinv Hn; simpl.
  - left. exists s. split; [done|]. rewrite Nat.add_0_r in Hn. by subst col.
  - destruct (invert_col_spec k A col s Hinv) as [(s' & -> & H')|(m & -> & H')]; [lia| |].
    + apply IH; [done|lia].
    + right. by exists m.
Qed.

Lemma gj_init k m :
  length m = k * k ->
  gj_inv k (Mx k m) 0 (GJ m (replicate k 0%Z) (replicate k 0) (replicate k 0) (replicate k x00)).
Proof.
  intros Hm. split; cbn; try done; try lia.
  - split; [apply length_replicate|]. intros i Hi. left. by apply lookup_total_replicate_2.
  - clear. induction k as [|k IH]; [done|]. exact IH.
  - by rewrite !length_replicate.
  - apply exchanged_init. intros i Hi. unfold is_done. by rewrite lookup_total_replicate_2.
Qed.

(** ** The final column swaps *)

Lemma swap_cols_spec k r c m :
  length m = k * k -> r < k -> c < k -> r <> c ->
  let m' := for_loop 0 k (fun row m => swap_at (row * k + r) (row * k + c) m) m in
  length m' = k * k /\ meq k (Mx k m') (swap_mcols r c (Mx k m)).
Proof.
  intros Hm Hr Hc Hrc m'.
  destruct (for_loop_inv (fun n m' => length m' = k * k /\ forall i j, i < k -> j < k ->
      Mx k m' i j = if decide (i < n) then Mx k m i (swapi r c j) else Mx k m i j)
    0 k (fun row m => swap_at (row * k + r) (row * k + c) m) m) as [Hl Hx].
  - split; [done|]. intros i j _ _. by rewrite decide_False by lia.
  - intros n m1 Hn [Hl Hx]. split; [by rewrite length_swap_at|]. intros i j Hi Hj.
    rewrite Mx_swap_at by (done || lia). rewrite !Hx by (done || lia). unfold swapi.
    destruct (decide (i = n)) as [->|Hin].
    + rewrite !(decide_False (P := n < n)), (decide_True (P := n < S n)) by lia.
      destruct (decide (j = r)) as [->|Hjr]; [by rewrite decide_True by done|].
      rewrite decide_False by (by intros []).
      destruct (decide (j = c)) as [->|Hjc]; [by rewrite decide_True by done|].
      by rewrite decide_False by (by intros []).
    + rewrite !(decide_False (P := i = n /\ _)) by (by intros []).
      destruct (decide (i < n)), (decide (i < S n)); done || lia.
  - split; [done|]. intros i j Hi Hj. unfold m'. rewrite Hx by done. by rewrite decide_True by lia.
Qed.

Lemma unscramble_step_spec k r c m :
  length m = k * k -> r < k -> c < k ->
  let m' := if k <=? r then m else if k <=? c then m else if r =? c then m
            else for_loop 0 k (fun row m => swap_at (row * k + r) (row * k + c) m) m in
  length m' = k * k /\ meq k (Mx k m') (swap_mcols r c (Mx k m)).
Proof.
  intros Hm Hr Hc m'. unfold m'. rewrite !(proj2 (Nat.leb_gt k _)) by done.
  destruct (Nat.eqb_spec r c) as [->|Hrc].
  - split; [done|]. intros i j _ _. unfold swap_mcols, swapi. repeat case_decide; by subst.
  - by apply swap_cols_spec.
Qed.

Lemma yperm_veq k ir ic n x y :
  (forall i, i < n -> ir !!! i < k /\ ic !!! i < k) -> veq k x y -> veq k (yperm ir ic n x) (yperm ir ic n y).
Proof.
  induction n as [|n IH]; intros H E; simpl; [done|].
  destruct (H n ltac:(lia)). apply swapv_veq; [done..|]. apply IH; [|done]. intros i Hi. apply H. lia.
Qed.

Lemma unscramble_spec k ir ic n m :
  length m = k * k -> (forall i, i < n -> ir !!! i < k /\ ic !!! i < k) ->
  length (unscramble k ir ic n m) = k * k /\
  forall y, veq k (mv k (Mx k (unscramble k ir ic n m)) y) (mv k (Mx k m) (yperm ir ic n y)).
Proof.
  revert m. induction n as [|n IH]; intros m Hm Hi; [done|].
  destruct (Hi n ltac:(lia)) as [Hr Hc].
  destruct (unscramble_step_spec k _ _ m Hm Hr Hc) as [Hl Hx].
  cbn [unscramble yperm]. cbv zeta in *.
  destruct (IH _ Hl) as [Hl' Hx']; [intros i Hlt; apply Hi; lia|].
  split; [exact Hl'|]. intros y. rewrite Hx', Hx. by rewrite mv_swap_mcols by done.
Qed.

(** ** Correctness *)

(** [B] is a left inverse of [A]. *)
Definition left_inverse (k : nat) (B A : mat) : Prop := forall x, veq k (mv k B (mv k A x)) x.

Lemma invert_mat_spec k m :
  length m = k * k ->
  exists e B, invert_mat T m k = Some (e, B) /\
    ((e = 0%Z /\ length B = k * k /\ left_inverse k (Mx k B) (Mx k m)) \/
     (e = 1%Z /\ ~ nonsingular k (Mx k m))).
Proof.
  intros Hm. unfold invert_mat.
  destruct (invert_cols_spec k (Mx k m) 0 k _ (gj_init k m Hm) eq_refl)
    as [(s & -> & Hinv)|(m' & -> & Hns)]; cbn [mbind option_bind].
  - eexists _, _. split; [done|]. left. split; [done|].
    destruct Hinv as [Hsrc Hpiv Hsum Hlen Hidx Hid Hrel].
    destruct (unscramble_spec k (indxr s) (indxc s) k (src s) Hsrc Hidx) as [Hl Hx].
    split; [done|]. intros x. rewrite Hx. symmetry.
    apply (exchanged_done k (Mx k m) (is_done (ipiv s)) (Mx k (src s))); [|done].
    destruct (Zsum_pivots k (ipiv s) Hpiv) as (_ & Hall & _). by apply Hall.
  - eexists _, _. split; [done|]. right. done.
Qed.

(** A left inverse exists only for a nonsingular matrix, so the error code
    is exact. *)
Lemma left_inverse_nonsingular k B A : left_inverse k B A -> nonsingular k A.
Proof.
  intros HB x Hx j Hj. rewrite <-(HB x j Hj).
  transitivity (mv k B (fun _ => x00) j); [apply mv_proper; done|].
  unfold mv. apply gsum_zero. intros i _. ring.
Qed.
End steps.

(** C12: [invert_mat] terminates without leaving its arrays on every [k*k]
    matrix; it returns 0 exactly for the nonsingular ones, and then the array
    holds a left inverse of the matrix it held before. *)
Theorem invert_mat_correct (s : fec_state) (m : list gf) (k : nat) :
  fec_reachable s -> length m = k * k ->
  exists e B, invert_mat (fec_init s) m k = Some (e, B) /\
    (e = 0%Z <-> nonsingular k (Mx k m)) /\ (e = 0%Z \/ e = 1%Z) /\
    (e = 0%Z -> length B = k * k /\ left_inverse k (Mx k B) (Mx k m)).
Proof.
  intros Hs Hm. pose proof (fec_init_tables s Hs) as HT. generalize dependent (fec_init s). intros T HT.
  destruct (invert_mat_spec T k m Hm) as (e & B & E & [(-> & Hl & Hinv)|(-> & Hns)]).
  - exists 0%Z, B. split; [exact E|]. split; [|auto]. split; [|done]. intros _. by eapply left_inverse_nonsingular.
  - exists 1%Z, B. split; [exact E|]. split; [done|]. split; [by right|done].
Qed.

Lemma invert_mat_correct_witness :
  exists e B, invert_mat (fec_init fec_static) [x01; x02; x02; x01] 2 = Some (e, B) /\
    (e = 0%Z <-> nonsingular 2 (Mx 2 [x01; x02; x02; x01])) /\ (e = 0%Z \/ e = 1%Z) /\
    (e = 0%Z -> length B = 4 /\ left_inverse 2 (Mx 2 B) (Mx 2 [x01; x02; x02; x01])).
Proof. exact (invert_mat_correct fec_static [x01; x02; x02; x01] 2 reach_static eq_refl). Defined.
