(* ===== verification/Cauchy.v ===== *)
(** * Cauchy matrices are nonsingular

    The code of src/src/fec.c uses as coefficient of data block [col] in FEC
    block [row] the inverse of [row - col] (a xor), with rows numbered from
    128. The submatrix that the decoder inverts is therefore a Cauchy matrix;
    this file shows that such a matrix is nonsingular for every choice of
    distinct rows and distinct columns. *)

From S2P Require Import Prelude Gf256 GfField GfVec Exchange.
From Stdlib Require Import Ring Field.
Local Open Scope nat_scope.
Local Open Scope gf_scope.

Lemma gf_xor_zero a b : a ⊕ b = x00 -> a = b.
Proof.
  intros E. replace a with ((a ⊕ b) ⊕ b) by ring. rewrite E. ring.
Qed.

Lemma gf_xor_nonzero a b : a <> b -> a ⊕ b <> x00.
Proof. intros Hab E. by apply Hab, gf_xor_zero. Qed.

Lemma poly_mul_zero a b : a ⊗ b = x00 -> a = x00 \/ b = x00.
Proof.
  intros E. destruct (decide (a = x00)) as [->|Ha]; [by left|]. right.
  replace b with (ginv a ⊗ (a ⊗ b)) by (field; done). rewrite E. ring.
Qed.

Definition cauchy (x y : vec) : mat := fun i j => ginv (x i ⊕ y j).

(** Entry [(i, j)] scaled by [x i + y k], plus the same for row [k]. *)
Lemma cauchy_eliminate (xi xk yj yk c : byte) :
  xi ⊕ yj <> x00 -> xk ⊕ yj <> x00 ->
  (xi ⊕ yk) ⊗ (ginv (xi ⊕ yj) ⊗ c) ⊕ (xk ⊕ yk) ⊗ (ginv (xk ⊕ yj) ⊗ c) =
  (xi ⊕ xk) ⊗ (ginv (xi ⊕ yj) ⊗ (c ⊗ (yj ⊕ yk) ⊗ ginv (xk ⊕ yj))).
Proof. intros H1 H2. field. done. Qed.

Lemma cauchy_nonsingular k (x y : vec) :
  (forall i i', i < k -> i' < k -> x i = x i' -> i = i') ->
  (forall j j', j < k -> j' < k -> y j = y j' -> j = j') ->
  (forall i j, i < k -> j < k -> x i <> y j) ->
  nonsingular k (cauchy x y).
Proof.
  induction k as [|k IH]; intros Hx Hy Hxy c Hc j Hj; [lia|].
  assert (forall i j, i < S k -> j < S k -> x i ⊕ y j <> x00) as Hnz
    by (intros; apply gf_xor_nonzero; auto).
  assert (forall i, i < S k ->
    gsum k (fun j => (x i ⊕ y k) ⊗ (ginv (x i ⊕ y j) ⊗ c j)) = c k) as Hrow.
  { intros i Hi. specialize (Hc i Hi). unfold mv, cauchy in Hc. cbn [gsum] in Hc.
    apply gf_xor_zero in Hc. rewrite gsum_mul_l, Hc. field. by apply Hnz; lia. }
  set (d := fun j => c j ⊗ (y j ⊕ y k) ⊗ ginv (x k ⊕ y j)).
  assert (forall i, i < k -> mv k (cauchy x y) d i = x00) as Hd.
  { intros i Hi.
    assert ((x i ⊕ x k) ⊗ mv k (cauchy x y) d i = x00) as E.
    { unfold mv. rewrite <-gsum_mul_l.
      rewrite (gsum_ext k _ (fun j => (x i ⊕ y k) ⊗ (ginv (x i ⊕ y j) ⊗ c j)
                                    ⊕ (x k ⊕ y k) ⊗ (ginv (x k ⊕ y j) ⊗ c j))).
      { rewrite gsum_xor, !Hrow by lia. ring. }
      intros j' Hj'. symmetry. apply cauchy_eliminate; apply Hnz; lia. }
    apply poly_mul_zero in E as [E|E]; [|done].
    apply gf_xor_zero, Hx in E; lia. }
  assert (forall j, j < k -> c j = x00) as Hck.
  { intros j' Hj'.
    assert (d j' = x00) as E.
    { apply (IH) with (x := d); [| | |exact Hd|done].
      - intros; apply Hx; lia || done.
      - intros; apply Hy; lia || done.
      - intros; apply Hxy; lia. }
    unfold d in E. apply poly_mul_zero in E as [E|E].
    - apply poly_mul_zero in E as [E|E]; [done|]. apply gf_xor_zero, Hy in E; lia.
    - exfalso. revert E. apply ginv_nonzero, Hnz; lia. }
  destruct (decide (j = k)) as [->|Hne]; [|apply Hck; lia].
  rewrite <-(Hrow k) by lia. apply gsum_zero. intros j' Hj'. rewrite Hck by done. ring.
Qed.
