(* ===== verification/FecCode.v ===== *)
(** * The erasure code of src/src/fec.c: [fec_encode] and [fec_decode]

    [data_blocks] and [fec_blocks] are arrays of pointers to distinct
    allocations: lists of buffers. [None] is an access outside one of the
    arrays or buffers, or outside the table [inverse]. *)

From S2P Require Import Prelude Gf256 GfField GfVec Exchange InvertMat Cauchy.
From Stdlib Require Import Ring Field.
Local Open Scope nat_scope.
Local Open Scope gf_scope.

Abbreviation blocks := (list (list gf)).

(** A call that overwrites the buffer [bs[j]]. *)
Definition on_block (bs : blocks) (j : nat) (f : list gf -> option (list gf)) : option blocks :=
  b ← bs !! j; b' ← f b; Some (<[j := b']> bs).

(** [inverse[row ^ col]] with [row] and [col] as the code computes them. *)
Definition inverse_xor (T : fec_state) (a b : nat) : option gf :=
  inverse_at T (Z.lxor (Z.of_nat a) (Z.of_nat b)).

(** ** Encoding *)

Definition fec_encode (T : fec_state) (blockSize : nat) (data_blocks : blocks) (nrDataBlocks : nat)
    (fec_blocks : blocks) (nrFecBlocks : nat) : option blocks :=
  if nrDataBlocks =? 0 then Some fec_blocks
  else
    fec ← for_opt 0 nrFecBlocks (fun row fec =>
            src ← data_blocks !! 0;
            c ← inverse_xor T 128 row;
            on_block fec row (fun dst => mul T dst src c blockSize)) fec_blocks;
    for_opt 1 (nrDataBlocks - 1) (fun blockNo fec =>
      let col := 128 + blockNo in
      for_opt 0 nrFecBlocks (fun row fec =>
        src ← data_blocks !! blockNo;
        c ← inverse_xor T row col;
        on_block fec row (fun dst => addmul T dst src c blockSize)) fec) fec.

(** ** Decoding *)

(** The body of the loop over [j]: subtract data block [col]. *)
Definition reduce_block (T : fec_state) (blockSize : nat) (src : list gf) (fec_block_nos : list nat)
    (col j : nat) (fec : blocks) : option blocks :=
  blno ← fec_block_nos !! j;
  c ← inverse_at T (Z.lxor (Z.lxor (Z.of_nat blno) (Z.of_nat col)) 128);
  on_block fec j (fun dst => addmul T dst src c blockSize).

(** One iteration over [col]; the state is [(erasedIdx, fec_blocks)]. *)
Definition reduce_col (T : fec_state) (blockSize : nat) (data_blocks : blocks)
    (fec_block_nos erased_blocks : list nat) (nr_fec_blocks col : nat) (s : nat * blocks)
  : option (nat * blocks) :=
  let '(erasedIdx, fec) := s in
  hit ← (if erasedIdx <? nr_fec_blocks
         then e ← erased_blocks !! erasedIdx; Some (e =? col) else Some false);
  if hit : bool then Some (S erasedIdx, fec)
  else
    src ← data_blocks !! col;
    fec ← for_opt 0 nr_fec_blocks (reduce_block T blockSize src fec_block_nos col) fec;
    Some (erasedIdx, fec).

Definition reduce (T : fec_state) (blockSize : nat) (data_blocks : blocks) (nr_data_blocks : nat)
    (fec_blocks : blocks) (fec_block_nos erased_blocks : list nat) (nr_fec_blocks : nat)
  : option blocks :=
  '(_, fec) ← for_opt 0 nr_data_blocks
      (reduce_col T blockSize data_blocks fec_block_nos erased_blocks nr_fec_blocks) (0, fec_blocks);
  Some fec.

(** The matrix of the missing columns, entry after entry ([ptr++]). *)
Definition resolve_matrix (T : fec_state) (fec_block_nos erased_blocks : list nat) (k : nat)
  : option (list gf) :=
  for_opt 0 k (fun row m =>
    no ← fec_block_nos !! row;
    let irow := 128 + no in
    for_opt 0 k (fun col m =>
      icol ← erased_blocks !! col;
      c ← inverse_xor T irow icol;
      Some (m ++ [c])) m) [].

(** Recompute one missing block; [ptr] is [row * k + col]. *)
Definition resolve_row (T : fec_state) (blockSize : nat) (fec_blocks : blocks)
    (matrix : list gf) (k row : nat) (target : list gf) : option (list gf) :=
  f0 ← fec_blocks !! 0;
  c0 ← matrix !! (row * k);
  target ← mul T target f0 c0 blockSize;
  for_opt 1 (k - 1) (fun col target =>
    f ← fec_blocks !! col;
    c ← matrix !! (row * k + col);
    addmul T target f c blockSize) target.

(** The error code of [invert_mat] is only printed ([assert] is compiled out). *)
Definition resolve (T : fec_state) (blockSize : nat) (data_blocks fec_blocks : blocks)
    (fec_block_nos erased_blocks : list nat) (nr_fec_blocks : nat) : option blocks :=
  matrix ← resolve_matrix T fec_block_nos erased_blocks nr_fec_blocks;
  '(_, matrix) ← invert_mat T matrix nr_fec_blocks;
  for_opt 0 nr_fec_blocks (fun row data =>
    e ← erased_blocks !! row;
    on_block data e (resolve_row T blockSize fec_blocks matrix nr_fec_blocks row)) data_blocks.

(** [fec_decode]: the data blocks and the (overwritten) FEC blocks. *)
Definition fec_decode (T : fec_state) (blockSize : nat) (data_blocks : blocks) (nr_data_blocks : nat)
    (fec_blocks : blocks) (fec_block_nos erased_blocks : list nat) (nr_fec_blocks : nat)
  : option (blocks * blocks) :=
  fec ← reduce T blockSize data_blocks nr_data_blocks fec_blocks fec_block_nos erased_blocks nr_fec_blocks;
  data ← resolve T blockSize data_blocks fec fec_block_nos erased_blocks nr_fec_blocks;
  Some (data, fec).

(** ** The reference: a systematic code with Cauchy coefficients *)

(** The coefficient of data block [col] in FEC block [row]. *)
Definition coef (row col : nat) : gf :=
  ginv (byte_of (Z.of_nat (128 + row)) ⊕ byte_of (Z.of_nat col)).

(** Byte [i] of FEC block [row] for [n] data blocks [D]. *)
Definition parity (n : nat) (D : nat -> nat -> byte) (row i : nat) : byte :=
  gsum n (fun col => coef row col ⊗ D col i).

Lemma byte_of_lxor a b :
  (0 <= a < 256)%Z -> (0 <= b < 256)%Z -> byte_of a ⊕ byte_of b = byte_of (Z.lxor a b).
Proof.
  intros Ha Hb. apply u8_inj. rewrite gf_xor_u8, !u8_byte_of.
  rewrite (wrap_small 8 a), (wrap_small 8 b) by done.
  rewrite wrap_small; [done|].
  rewrite <-(u8_byte_of_small a), <-(u8_byte_of_small b), <-gf_xor_u8 by done. apply u8_range.
Qed.

Lemma Zlxor_128 r c : r < 128 -> c < 128 ->
  Z.lxor (Z.of_nat r) (Z.of_nat (128 + c)) = Z.lxor (Z.of_nat (128 + r)) (Z.of_nat c) /\
  Z.lxor (Z.lxor (Z.of_nat r) (Z.of_nat c)) 128 = Z.lxor (Z.of_nat (128 + r)) (Z.of_nat c).
Proof.
  intros Hr Hc.
  assert (forall a, a < 128 -> Z.of_nat (128 + a) = Z.lxor (Z.of_nat a) 128) as E.
  { intros a Ha. rewrite Nat2Z.inj_add, Z.add_comm. apply Z.add_nocarry_lxor.
    change 128%Z with (2 ^ 7)%Z. apply Z.bits_inj'. intros n Hn.
    rewrite Z.land_spec, Z.bits_0. destruct (decide (n = 7%Z)) as [->|Hne].
    - rewrite Z.bits_above_log2; [done|lia|]. destruct (decide (a = 0)) as [->|]; [done|].
      apply Z.log2_lt_pow2; lia.
    - rewrite Z.pow2_bits_false by done. by rewrite andb_false_r. }
  rewrite !E by done. rewrite !Z.lxor_assoc. split; [|f_equal; apply Z.lxor_comm].
  f_equal. apply Z.lxor_comm.
Qed.

(** ** Loops that overwrite one buffer per iteration *)

Definition same_shape (a b : blocks) : Prop :=
  length a = length b /\ forall j, length (a !!! j) = length (b !!! j).

Lemma same_shape_refl a : same_shape a a.
Proof. done. Qed.

Lemma same_shape_trans a b c : same_shape a b -> same_shape b c -> same_shape a c.
Proof. intros [H1 H2] [H3 H4]. split; [congruence|]. intros j. by rewrite H2. Qed.

Lemma same_shape_insert a j b : length b = length (a !!! j) -> same_shape (<[j := b]> a) a.
Proof.
  intros Hb. split; [apply length_insert|]. intros j'. destruct (decide (j' = j)) as [->|Hne].
  - destruct (decide (j < length a)).
    + by rewrite list_lookup_total_insert_eq.
    + by rewrite list_insert_ge by lia.
  - by rewrite list_lookup_total_insert_ne.
Qed.

(** [b'] is [b] with its first [bs] bytes replaced. *)
Definition rewritten (bs : nat) (g : nat -> byte -> byte) (b b' : list gf) : Prop :=
  length b' = length b /\ forall i, b' !!! i = if decide (i < bs) then g i (b !!! i) else b !!! i.

Lemma for_opt_blocks bs k (g : nat -> nat -> byte -> byte) body fec :
  k <= length fec ->
  (forall j a, j < k -> same_shape a fec -> exists b',
     body j a = Some (<[j := b']> a) /\ rewritten bs (g j) (a !!! j) b') ->
  exists fec', for_opt 0 k body fec = Some fec' /\ same_shape fec' fec /\
    forall j i, (fec' !!! j) !!! i =
      if decide (j < k /\ i < bs) then g j i ((fec !!! j) !!! i) else (fec !!! j) !!! i.
Proof.
  intros Hk Hbody.
  destruct (for_opt_inv (fun n a => same_shape a fec /\ forall j i, (a !!! j) !!! i =
      if decide (j < n /\ i < bs) then g j i ((fec !!! j) !!! i) else (fec !!! j) !!! i) 0 k body fec)
    as (a & E & Hs & Hx).
  - split; [done|]. intros j i. by rewrite decide_False by lia.
  - intros n a Hn [Hs Hx]. destruct (Hbody n a ltac:(lia) Hs) as (b' & -> & Hl & Hb).
    eexists. split; [done|]. split.
    { eapply same_shape_trans; [by apply same_shape_insert|done]. }
    intros j i. destruct (decide (j = n)) as [->|Hjn].
    + rewrite list_lookup_total_insert_eq by (destruct Hs; lia). rewrite Hb, Hx.
      rewrite (decide_False (P := n < n /\ _)) by lia.
      destruct (decide (i < bs)).
      * by rewrite decide_True by lia.
      * by rewrite decide_False by lia.
    + rewrite list_lookup_total_insert_ne by done. rewrite Hx.
      destruct (decide (j < n /\ i < bs)), (decide (j < S n /\ i < bs)); done || lia.
  - eauto.
Qed.

Section spec.
Context (T : fec_state) `{!GfTables T}.

Lemma inverse_coef r c :
  r < 128 -> c < 128 -> inverse_at T (Z.lxor (Z.of_nat (128 + r)) (Z.of_nat c)) = Some (coef r c).
Proof.
  intros Hr Hc. unfold coef. rewrite byte_of_lxor by lia.
  set (z := Z.lxor _ _). assert (u8 (byte_of z) = z) as Ez.
  { unfold z. rewrite <-byte_of_lxor, gf_xor_u8, !u8_byte_of_small by lia. done. }
  unfold inverse_at. pose proof (u8_range (byte_of z)) as Hr'. rewrite Ez in Hr'.
  rewrite (proj2 (Z.leb_le 0 z)) by lia. rewrite <-Ez at 1. apply gt_inv.
Qed.

Lemma on_block_mul a j (src : list gf) c bs :
  j < length a -> bs <= length (a !!! j) -> bs <= length src ->
  exists b', on_block a j (fun dst => mul T dst src c bs) = Some (<[j := b']> a) /\
    rewritten bs (fun i _ => c ⊗ (src !!! i)) (a !!! j) b'.
Proof.
  intros Hj Hd Hs. unfold on_block. rewrite (list_lookup_lookup_total_lt a j) by done.
  cbn [mbind option_bind]. destruct (mul_spec T _ src c bs Hd Hs) as (b' & -> & H). by exists b'.
Qed.

Lemma on_block_addmul a j (src : list gf) c bs :
  j < length a -> bs <= length (a !!! j) -> bs <= length src ->
  exists b', on_block a j (fun dst => addmul T dst src c bs) = Some (<[j := b']> a) /\
    rewritten bs (fun i d => d ⊕ c ⊗ (src !!! i)) (a !!! j) b'.
Proof.
  intros Hj Hd Hs. unfold on_block. rewrite (list_lookup_lookup_total_lt a j) by done.
  cbn [mbind option_bind]. destruct (addmul_spec T _ src c bs Hd Hs) as (b' & -> & H). by exists b'.
Qed.

(** Every buffer has at least [bs] bytes. *)
Definition wide (bs : nat) (k : nat) (a : blocks) : Prop := forall j, j < k -> bs <= length (a !!! j).

Lemma wide_shape bs k a b : same_shape a b -> wide bs k b -> wide bs k a.
Proof. intros [_ H] Hw j Hj. rewrite H. by apply Hw. Qed.

(** *** Encoding *)

Lemma fec_encode_spec bs data n fec m :
  0 < n -> n <= 128 -> m <= 128 -> n <= length data -> m <= length fec ->
  wide bs n data -> wide bs m fec ->
  exists fec', fec_encode T bs data n fec m = Some fec' /\ same_shape fec' fec /\
    forall j i, (fec' !!! j) !!! i =
      if decide (j < m /\ i < bs) then parity n (fun col i => (data !!! col) !!! i) j i
      else (fec !!! j) !!! i.
Proof.
  intros Hn0 Hn Hm Hld Hlf Hwd Hwf. unfold fec_encode.
  rewrite (proj2 (Nat.eqb_neq n 0)) by lia.
  destruct (for_opt_blocks bs m (fun j i _ => coef j 0 ⊗ ((data !!! 0) !!! i))
    (fun row fec => src ← data !! 0; c ← inverse_xor T 128 row;
       on_block fec row (fun dst => mul T dst src c bs)) fec Hlf) as (f1 & -> & Hs1 & Hx1).
  { intros j a Hj Ha. rewrite (list_lookup_lookup_total_lt data 0) by lia. cbn [mbind option_bind].
    unfold inverse_xor. rewrite Z.lxor_comm.
    replace 128 with (128 + 0) by done. rewrite (proj1 (Zlxor_128 j 0 ltac:(lia) ltac:(lia))).
    rewrite inverse_coef by lia. cbn [mbind option_bind]. destruct Ha as [Hl Hw].
    apply on_block_mul; [lia| |by apply Hwd]. rewrite Hw. by apply Hwf. }
  cbn [mbind option_bind].
  destruct (for_opt_inv (fun c a => same_shape a fec /\ forall j i, (a !!! j) !!! i =
      if decide (j < m /\ i < bs) then parity c (fun col i => (data !!! col) !!! i) j i
      else (fec !!! j) !!! i) 1 (n - 1)
    (fun blockNo fec => for_opt 0 m (fun row fec =>
       src ← data !! blockNo; c ← inverse_xor T row (128 + blockNo);
       on_block fec row (fun dst => addmul T dst src c bs)) fec) f1) as (f2 & E & Hs2 & Hx2).
  - split; [done|]. intros j i. rewrite Hx1.
    destruct (decide (j < m /\ i < bs)); [|done]. unfold parity. cbn [gsum]. ring.
  - intros c a Hc [Hs Hx].
    destruct (for_opt_blocks bs m (fun j i d => d ⊕ coef j c ⊗ ((data !!! c) !!! i))
      (fun row fec => src ← data !! c; c ← inverse_xor T row (128 + c);
         on_block fec row (fun dst => addmul T dst src c bs)) a) as (a' & -> & Hs' & Hx').
    { destruct Hs. lia. }
    { intros j b Hj Hb. rewrite (list_lookup_lookup_total_lt data c) by lia. cbn [mbind option_bind].
      unfold inverse_xor. rewrite (proj1 (Zlxor_128 j c ltac:(lia) ltac:(lia))).
      rewrite inverse_coef by lia. cbn [mbind option_bind].
      pose proof (same_shape_trans _ _ _ Hb Hs) as [Hl Hw].
      apply on_block_addmul; [lia| |apply Hwd; lia]. rewrite Hw. by apply Hwf. }
    eexists. split; [done|]. split; [by eapply same_shape_trans|].
    intros j i. rewrite Hx', !Hx. destruct (decide (j < m /\ i < bs)); [|done].
    unfold parity. cbn [gsum]. done.
  - exists f2. split; [done|]. split; [done|]. intros j i. rewrite Hx2.
    by replace (1 + (n - 1)) with n by lia.
Qed.

(** *** [reduce] *)

Lemma reduce_block_loop bs data fec nos k col :
  k <= length nos -> k <= length fec -> col < 128 -> col < length data -> bs <= length (data !!! col) ->
  wide bs k fec -> (forall j, j < k -> nos !!! j < 128) ->
  exists fec', for_opt 0 k (reduce_block T bs (data !!! col) nos col) fec = Some fec' /\
    same_shape fec' fec /\ forall j i, (fec' !!! j) !!! i =
      if decide (j < k /\ i < bs) then (fec !!! j) !!! i ⊕ coef (nos !!! j) col ⊗ ((data !!! col) !!! i)
      else (fec !!! j) !!! i.
Proof.
  intros Hkn Hkf Hc Hcl Hcw Hwf Hnos.
  apply (for_opt_blocks bs k (fun j i d => d ⊕ coef (nos !!! j) col ⊗ ((data !!! col) !!! i))); [done|].
  intros j a Hj [Hl Hw]. unfold reduce_block.
  rewrite (list_lookup_lookup_total_lt nos j) by lia. cbn [mbind option_bind].
  rewrite (proj2 (Zlxor_128 _ _ (Hnos j Hj) Hc)), inverse_coef by auto. cbn [mbind option_bind].
  apply on_block_addmul; [lia| |done]. rewrite Hw. by apply Hwf.
Qed.
End spec.

(** [erased] is increasing: what the caller guarantees. *)
Definition increasing (l : list nat) : Prop := forall i j, i < j -> j < length l -> l !!! i < l !!! j.

Lemma increasing_NoDup l : increasing l -> NoDup l.
Proof.
  intros H. apply NoDup_alt. intros i j x Hi Hj.
  pose proof (lookup_lt_Some _ _ _ Hi). pose proof (lookup_lt_Some _ _ _ Hj).
  apply list_lookup_total_correct in Hi, Hj.
  destruct (Nat.lt_trichotomy i j) as [Hlt|[?|Hlt]]; [|done|]; specialize (H _ _ Hlt); lia.
Qed.

Lemma elem_of_total (l : list nat) x : x ∈ l <-> exists t, t < length l /\ l !!! t = x.
Proof.
  rewrite list_elem_of_lookup. split; intros (t & Ht).
  - exists t. split; [by eapply lookup_lt_Some|by apply list_lookup_total_correct].
  - destruct Ht as [Hl <-]. exists t. by apply list_lookup_lookup_total_lt.
Qed.

(** A sum over the members of a list. *)
Lemma gsum_members n (l : list nat) f :
  NoDup l -> (forall x, x ∈ l -> x < n) ->
  gsum n (fun c => if decide (c ∈ l) then f c else x00) = gsum (length l) (fun t => f (l !!! t)).
Proof.
  intros Hnd. revert n. induction Hnd as [|x l Hx Hnd IH] using NoDup_ind; intros n Hl.
  { apply gsum_zero. intros c _. by rewrite decide_False by (apply not_elem_of_nil). }
  rewrite (gsum_pick n x) by (apply Hl; left).
  rewrite (gsum_ext n _ (fun c => if decide (c ∈ l) then f c else x00)).
  2: { intros c _. destruct (decide (c = x)) as [->|Hne]; [by rewrite decide_False|].
       destruct (decide (c ∈ x :: l)) as [Hin|Hin], (decide (c ∈ l)) as [Hin'|Hin']; try done.
       - by apply elem_of_cons in Hin as [?|?].
       - destruct Hin. by right. }
  rewrite decide_True by left. rewrite IH by (intros c Hc; apply Hl; by right).
  cbn [length]. by rewrite gsum_S_l.
Qed.

Section decode.
Context (T : fec_state) `{!GfTables T}.
Context (bs n k : nat) (D : nat -> nat -> byte) (nos erased : list nat).
Context (Hn : n <= 128) (Hnos : length nos = k) (Her : length erased = k).
Context (Hnos_lt : forall j, j < k -> nos !!! j < 128) (Hnos_nd : NoDup nos).
Context (Her_lt : forall t, t < k -> erased !!! t < n) (Her_inc : increasing erased).

(** The received data blocks hold the bytes [D]. *)
Definition received (data : blocks) : Prop :=
  n <= length data /\ wide bs n data /\
  forall col i, col < n -> i < bs -> col ∉ erased -> (data !!! col) !!! i = D col i.

(** The part of the parity due to the columns below [c] that were received. *)
Definition known (c row i : nat) : byte :=
  gsum c (fun col => if decide (col ∈ erased) then x00 else coef row col ⊗ D col i).

(** What is left: the part due to the erased columns. *)
Definition unknown (row i : nat) : byte :=
  gsum k (fun t => coef row (erased !!! t) ⊗ D (erased !!! t) i).

Lemma erased_lt x : x ∈ erased -> x < n.
Proof. rewrite elem_of_total. intros (t & Ht & <-). apply Her_lt. by rewrite Her in Ht. Qed.

Lemma parity_split row i : parity n D row i ⊕ known n row i = unknown row i.
Proof.
  unfold parity, known, unknown. rewrite <-gsum_xor, <-Her.
  rewrite <-(gsum_members n erased (fun c => coef row c ⊗ D c i)).
  - apply gsum_ext. intros c _. destruct (decide (c ∈ erased)); ring.
  - by apply increasing_NoDup.
  - apply erased_lt.
Qed.

(** [erasedIdx] counts the erased columns already passed. *)
Definition passed (c ei : nat) : Prop :=
  ei <= k /\ (forall t, t < ei -> erased !!! t < c) /\ (forall t, ei <= t -> t < k -> c <= erased !!! t).

Lemma passed_hit c ei : passed c ei -> ei < k -> erased !!! ei = c -> passed (S c) (S ei).
Proof.
  intros (H1 & H2 & H3) Hlt He. split; [lia|]. split.
  - intros t Ht. destruct (decide (t = ei)) as [->|]; [lia|]. specialize (H2 t ltac:(lia)). lia.
  - intros t Ht Htk. specialize (Her_inc ei t ltac:(lia) ltac:(lia)). lia.
Qed.

Lemma passed_miss c ei :
  passed c ei -> (ei < k -> erased !!! ei <> c) -> passed (S c) ei /\ c ∉ erased.
Proof.
  intros (H1 & H2 & H3) Hne.
  assert (forall t, ei <= t -> t < k -> c < erased !!! t) as H3'.
  { intros t Ht Htk. specialize (Hne ltac:(lia)). specialize (H3 ei ltac:(lia) ltac:(lia)) as H3''.
    destruct (decide (t = ei)) as [->|]; [lia|].
    specialize (Her_inc ei t ltac:(lia) ltac:(lia)). lia. }
  split.
  - split; [done|]. split; [intros t Ht; specialize (H2 t Ht); lia|].
    intros t Ht Htk. specialize (H3' t Ht Htk). lia.
  - rewrite elem_of_total. intros (t & Ht & <-). destruct (decide (t < ei)) as [Hlt|].
    + specialize (H2 t Hlt). lia.
    + specialize (H3' t ltac:(lia) ltac:(lia)). lia.
Qed.

Lemma reduce_col_spec data fec c ei :
  received data -> c < n -> k <= length fec -> wide bs k fec -> passed c ei ->
  exists ei' fec', reduce_col T bs data nos erased k c (ei, fec) = Some (ei', fec') /\
    passed (S c) ei' /\ same_shape fec' fec /\ forall j i, (fec' !!! j) !!! i =
      if decide (j < k /\ i < bs)
      then (fec !!! j) !!! i ⊕ (if decide (c ∈ erased) then x00 else coef (nos !!! j) c ⊗ D c i)
      else (fec !!! j) !!! i.
Proof.
  intros (Hld & Hwd & HD) Hc Hlf Hwf Hp. unfold reduce_col.
  assert ((if ei <? k then e ← erased !! ei; Some (e =? c) else Some false)
           = Some (bool_decide (ei < k /\ erased !!! ei = c))) as ->.
  { destruct (Nat.ltb_spec ei k) as [Hlt|Hge].
    - rewrite (list_lookup_lookup_total_lt erased ei) by lia. cbn. f_equal.
      destruct (Nat.eqb_spec (erased !!! ei) c).
      + by rewrite bool_decide_true by lia.
      + by rewrite bool_decide_false by lia.
    - by rewrite bool_decide_false by lia. }
  cbn [mbind option_bind]. case_bool_decide as Hhit.
  - destruct Hhit as [Hlt He]. eexists _, _. split; [done|].
    split; [by apply passed_hit|]. split; [done|]. intros j i.
    rewrite (decide_True (P := c ∈ erased)) by (apply elem_of_total; exists ei; split; [lia|done]).
    destruct (decide (j < k /\ i < bs)); [ring|done].
  - destruct (passed_miss c ei Hp) as [Hp' Hnot]; [intros ? ?; by apply Hhit|].
    rewrite (list_lookup_lookup_total_lt data c) by lia. cbn [mbind option_bind].
    destruct (reduce_block_loop T bs data fec nos k c) as (f & -> & Hs & Hx);
      [lia|done|lia|lia|by apply Hwd|done|done|].
    cbn [mbind option_bind]. eexists _, _. split; [done|]. split; [done|]. split; [done|].
    intros j i. rewrite Hx. rewrite (decide_False (P := c ∈ erased)) by done.
    destruct (decide (j < k /\ i < bs)); [|done]. by rewrite HD by (done || lia).
Qed.

Lemma reduce_spec data fec :
  received data -> k <= length fec -> wide bs k fec ->
  (forall j i, j < k -> i < bs -> (fec !!! j) !!! i = parity n D (nos !!! j) i) ->
  exists fec', reduce T bs data n fec nos erased k = Some fec' /\ same_shape fec' fec /\
    forall j i, j < k -> i < bs -> (fec' !!! j) !!! i = unknown (nos !!! j) i.
Proof.
  intros Hd Hlf Hwf HP. unfold reduce.
  destruct (for_opt_inv (fun c s => passed c s.1 /\ same_shape s.2 fec /\
      forall j i, j < k -> i < bs -> (s.2 !!! j) !!! i = parity n D (nos !!! j) i ⊕ known c (nos !!! j) i)
    0 n (reduce_col T bs data nos erased k) (0, fec)) as ([ei f] & -> & _ & Hs & Hx).
  - split; [|split; [done|]].
    + unfold passed; cbn [fst]; split_and!; intros; lia.
    + intros j i Hj Hi. cbn [snd]. rewrite HP by done. unfold known. cbn [gsum]. ring.
  - intros c [ei f] Hc (Hp & Hs & Hx). cbn [fst snd] in *.
    destruct (reduce_col_spec data f c ei) as (ei' & f' & E & Hp' & Hs' & Hx');
      [done|lia|destruct Hs; lia|by eapply wide_shape|done|].
    exists (ei', f'). cbn [fst snd]. split; [done|]. split; [done|].
    split; [by eapply same_shape_trans|].
    intros j i Hj Hi. rewrite Hx', decide_True, Hx by done. unfold known. cbn [gsum]. ring.
  - cbn [mbind option_bind fst snd] in *. exists f. split; [done|]. split; [done|].
    intros j i Hj Hi. rewrite Hx by done. apply parity_split.
Qed.

(** *** [resolve] *)

(** Entries [(row, col)] of the mini-matrix before position [p]. *)
Definition matrix_upto (p : nat) (m : list gf) : Prop :=
  length m = p /\ forall i j, j < k -> i * k + j < p -> m !!! (i * k + j) = coef (nos !!! i) (erased !!! j).

Lemma matrix_upto_snoc r c m :
  c < k -> matrix_upto (r * k + c) m ->
  matrix_upto (r * k + S c) (m ++ [coef (nos !!! r) (erased !!! c)]).
Proof.
  intros Hc [Hl Hx]. split; [rewrite length_app, Hl; simpl; lia|].
  intros i j Hj Hp. destruct (decide (i * k + j = r * k + c)) as [E|Hne].
  - apply idx_inj in E as [-> ->]; [|done..].
    rewrite lookup_total_app_r by lia. by rewrite Hl, Nat.sub_diag.
  - rewrite lookup_total_app_l by lia. apply Hx; lia.
Qed.

Lemma resolve_matrix_spec :
  exists m, resolve_matrix T nos erased k = Some m /\ length m = k * k /\
    meq k (Mx k m) (fun i j => coef (nos !!! i) (erased !!! j)).
Proof.
  unfold resolve_matrix.
  match goal with |- context [ for_opt 0 k ?body [] ] =>
    destruct (for_opt_inv (fun r m => matrix_upto (r * k) m) 0 k body []) as (m & -> & Hl & Hx) end.
  - split; [done|]. intros i j _ H. lia.
  - intros r m Hr Hm. rewrite (list_lookup_lookup_total_lt nos r) by lia. cbn [mbind option_bind].
    match goal with |- context [ for_opt 0 k ?body m ] =>
      destruct (for_opt_inv (fun c m => matrix_upto (r * k + c) m) 0 k body m) as (m' & -> & Hm') end.
    + by rewrite Nat.add_0_r.
    + intros c m1 Hc Hm1. rewrite (list_lookup_lookup_total_lt erased c) by lia. cbn [mbind option_bind].
      unfold inverse_xor. specialize (Hnos_lt r ltac:(lia)). specialize (Her_lt c ltac:(lia)).
      rewrite (inverse_coef T) by lia. cbn [mbind option_bind].
      eexists. split; [done|]. apply matrix_upto_snoc; [lia|done].
    + exists m'. split; [done|]. by replace (S r * k) with (r * k + (0 + k)) by lia.
  - exists m. split; [done|]. split; [done|]. intros i j Hi Hj. unfold Mx. apply Hx; [done|].
    by apply idx_lt.
Qed.

Lemma resolve_row_spec (fec : blocks) matrix row target :
  0 < k -> row < k -> length matrix = k * k -> k <= length fec -> wide bs k fec -> bs <= length target ->
  exists b', resolve_row T bs fec matrix k row target = Some b' /\
    rewritten bs (fun i _ => mv k (Mx k matrix) (fun col => (fec !!! col) !!! i) row) target b'.
Proof.
  intros Hk Hrow Hlm Hlf Hwf Hlt. unfold resolve_row.
  rewrite (list_lookup_lookup_total_lt fec 0) by lia. cbn [mbind option_bind].
  assert (forall col, col < k -> matrix !! (row * k + col) = Some (Mx k matrix row col)) as HM.
  { intros col Hc. apply list_lookup_lookup_total_lt. rewrite Hlm. by apply idx_lt. }
  specialize (HM 0) as HM0. rewrite Nat.add_0_r in HM0. rewrite HM0 by lia. cbn [mbind option_bind].
  destruct (mul_spec T target (fec !!! 0) (Mx k matrix row 0) bs) as (t1 & -> & Hl1 & Hx1); [done|by apply Hwf|].
  cbn [mbind option_bind].
  set (term := fun i col => Mx k matrix row col ⊗ ((fec !!! col) !!! i)).
  match goal with |- context [ for_opt 1 (k - 1) ?body t1 ] =>
    destruct (for_opt_inv (fun c t => length t = length target /\ forall i, t !!! i =
      if decide (i < bs) then gsum c (term i) else target !!! i) 1 (k - 1) body t1)
      as (t2 & -> & Hl2 & Hx2) end.
  - split; [done|]. intros i. rewrite Hx1. destruct (decide (i < bs)); [|done].
    cbn [gsum]. unfold term. ring.
  - intros c t Hc [Hl Hx]. rewrite (list_lookup_lookup_total_lt fec c) by lia. cbn [mbind option_bind].
    rewrite HM by lia. cbn [mbind option_bind].
    destruct (addmul_spec T t (fec !!! c) (Mx k matrix row c) bs) as (t' & -> & Hl' & Hx'); [lia|apply Hwf; lia|].
    exists t'. split; [done|]. split; [lia|]. intros i. rewrite Hx', Hx.
    destruct (decide (i < bs)); [|done]. done.
  - exists t2. split; [done|]. split; [done|]. intros i. rewrite Hx2.
    by replace (1 + (k - 1)) with k by lia.
Qed.

Lemma coef_nonsingular : nonsingular k (fun i j => coef (nos !!! i) (erased !!! j)).
Proof.
  assert (forall a b, a < 256 -> b < 256 -> byte_of (Z.of_nat a) = byte_of (Z.of_nat b) -> a = b) as Hinj.
  { intros a b Ha Hb E. apply (f_equal u8) in E. rewrite !u8_byte_of_small in E by lia. lia. }
  unfold coef. set (x := fun i => byte_of (Z.of_nat (128 + nos !!! i))).
  set (y := fun j => byte_of (Z.of_nat (erased !!! j))).
  fold (cauchy x y). apply (cauchy_nonsingular k x y).
  - intros i i' Hi Hi' E. pose proof (Hnos_lt i Hi). pose proof (Hnos_lt i' Hi').
    apply Hinj in E; [|lia..]. eapply (NoDup_lookup nos); [done|..].
    + by apply list_lookup_lookup_total_lt; lia.
    + rewrite (list_lookup_lookup_total_lt nos i') by lia. f_equal. lia.
  - intros j j' Hj Hj' E. pose proof (Her_lt j Hj). pose proof (Her_lt j' Hj').
    apply Hinj in E; [|lia..].
    destruct (Nat.lt_trichotomy j j') as [Hl|[?|Hl]]; [|done|];
      specialize (Her_inc _ _ Hl ltac:(lia)); lia.
  - intros i j Hi Hj E. pose proof (Hnos_lt i Hi). pose proof (Her_lt j Hj). apply Hinj in E; lia.
Qed.

(** The buffer of an erased column after the loop up to row [r]. *)
Lemma resolve_spec data fec :
  0 < k -> received data -> k <= length fec -> wide bs k fec ->
  (forall j i, j < k -> i < bs -> (fec !!! j) !!! i = unknown (nos !!! j) i) ->
  exists data', resolve T bs data fec nos erased k = Some data' /\ same_shape data' data /\
    (forall col, col ∉ erased -> data' !!! col = data !!! col) /\
    forall t i, t < k -> (data' !!! (erased !!! t)) !!! i =
      if decide (i < bs) then D (erased !!! t) i else (data !!! (erased !!! t)) !!! i.
Proof.
  intros Hk (Hld & Hwd & _) Hlf Hwf HU. unfold resolve.
  destruct resolve_matrix_spec as (m & -> & Hlm & Hm). cbn [mbind option_bind].
  destruct (invert_mat_spec T k m Hlm) as (e & B & -> & [(-> & HlB & Hinv)|(_ & Hns)]).
  2: { exfalso. apply Hns. intros x Hx. apply coef_nonsingular. intros i Hi.
       rewrite <-(Hx i Hi). by apply mv_proper. }
  cbn [mbind option_bind].
  assert (forall t i, t < k -> i < bs -> mv k (Mx k B) (fun c => (fec !!! c) !!! i) t = D (erased !!! t) i) as HB.
  { intros t i Ht Hi. rewrite <-(Hinv (fun t => D (erased !!! t) i) t Ht).
    apply mv_proper; [done| |done]. intros c Hc. rewrite HU by done. unfold unknown, mv.
    apply gsum_ext. intros j Hj. by rewrite (Hm c j). }
  match goal with |- context [ for_opt 0 k ?body data ] =>
    destruct (for_opt_inv (fun r d => same_shape d data /\
      (forall col, col ∉ erased -> d !!! col = data !!! col) /\
      forall t i, t < k -> (d !!! (erased !!! t)) !!! i =
        if decide (t < r /\ i < bs) then D (erased !!! t) i else (data !!! (erased !!! t)) !!! i)
      0 k body data) as (d & -> & Hs & Ho & Hx) end.
  - split; [done|]. split; [done|]. intros t i Ht. by rewrite decide_False by lia.
  - intros r d Hr (Hs & Ho & Hx). rewrite (list_lookup_lookup_total_lt erased r) by lia.
    cbn [mbind option_bind]. unfold on_block. pose proof (Her_lt r ltac:(lia)) as Her_r.
    rewrite (list_lookup_lookup_total_lt d (erased !!! r)) by (destruct Hs; lia). cbn [mbind option_bind].
    destruct (resolve_row_spec fec B r (d !!! (erased !!! r))) as (b' & -> & Hlb & Hb);
      [done|lia|done|done|done|destruct Hs as [_ ->]; by apply Hwd|].
    cbn [mbind option_bind]. eexists. split; [done|]. split.
    { eapply same_shape_trans; [by apply same_shape_insert|done]. }
    split.
    { intros col Hcol. rewrite list_lookup_total_insert_ne; [by apply Ho|].
      intros <-. apply Hcol, elem_of_total. exists r. split; [lia|done]. }
    intros t i Ht. destruct (decide (t = r)) as [->|Htr].
    + rewrite list_lookup_total_insert_eq by (destruct Hs; lia). rewrite Hb.
      destruct (decide (i < bs)).
      * rewrite decide_True by lia. apply HB; lia.
      * rewrite Hx by done. by rewrite !decide_False by lia.
    + rewrite list_lookup_total_insert_ne.
      2: { intros E. destruct (Nat.lt_trichotomy t r) as [Hl|[?|Hl]]; [|done|];
           specialize (Her_inc _ _ Hl ltac:(lia)); lia. }
      rewrite Hx by done.
      destruct (decide (t < r /\ i < bs)), (decide (t < S r /\ i < bs)); done || lia.
  - exists d. split; [done|]. split; [done|]. split; [done|]. intros t i Ht. rewrite Hx by done.
    destruct (decide (i < bs)).
    + by rewrite decide_True by lia.
    + by rewrite decide_False by lia.
Qed.

(** *** [fec_decode] *)

Lemma fec_decode_spec data fec :
  received data -> k <= length fec -> wide bs k fec ->
  (forall j i, j < k -> i < bs -> (fec !!! j) !!! i = parity n D (nos !!! j) i) ->
  exists data' fec', fec_decode T bs data n fec nos erased k = Some (data', fec') /\
    same_shape data' data /\
    (forall col, col ∉ erased -> data' !!! col = data !!! col) /\
    forall col i, col < n -> i < bs -> (data' !!! col) !!! i = D col i.
Proof.
  intros Hd Hlf Hwf HP. unfold fec_decode.
  destruct (reduce_spec data fec Hd Hlf Hwf HP) as (f & -> & [Hfl Hfw] & HU). cbn [mbind option_bind].
  destruct (decide (k = 0)) as [Hk0|Hk].
  - unfold resolve, resolve_matrix, invert_mat. rewrite Hk0. cbn. eexists _, _. split; [done|].
    split; [done|]. split; [done|]. intros col i Hc Hi. apply Hd; [done..|].
    rewrite elem_of_total. intros (t & Ht & _). lia.
  - destruct (resolve_spec data f) as (d' & -> & Hs & Ho & Hx); [lia|done|lia| |done|].
    { intros j Hj. rewrite Hfw. by apply Hwf. }
    cbn [mbind option_bind]. eexists _, _. split; [done|]. split; [done|]. split; [done|].
    intros col i Hc Hi. destruct (decide (col ∈ erased)) as [Hin|Hnot].
    + apply elem_of_total in Hin as (t & Ht & <-). rewrite Hx by lia. by rewrite decide_True.
    + rewrite Ho by done. by apply Hd.
Qed.
End decode.

(** ** Properties *)

Section erasure.
Context (T : fec_state) `{!GfTables T}.
Context (bs n m : nat) (data fec0 damaged : blocks) (erased nos : list nat).
Context (Hn : 0 < n <= 128) (Hm : m <= 128) (Hdata : length data = n) (Hfec : length fec0 = m).
Context (Hdb : forall j, j < n -> length (data !!! j) = bs)
        (Hfb : forall j, j < m -> length (fec0 !!! j) = bs).
Context (Her : increasing erased) (Her_lt : forall t, t ∈ erased -> t < n).
Context (Hnos : NoDup nos) (Hnos_lt : forall j, j ∈ nos -> j < m) (Hlen : length nos = length erased).
Context (Hdam : length damaged = n) (Hdamb : forall j, j < n -> length (damaged !!! j) = bs)
        (Hkept : forall j, j < n -> j ∉ erased -> damaged !!! j = data !!! j).

Lemma erasure_roundtrip :
  exists fec fec', fec_encode T bs data n fec0 m = Some fec /\
    fec_decode T bs damaged n ((fun j => fec !!! j) <$> nos) nos erased (length erased) = Some (data, fec').
Proof.
  assert (wide bs n data /\ wide bs m fec0) as [Hwd Hwf]
    by (split; intros j Hj; [by rewrite Hdb|by rewrite Hfb]).
  destruct (fec_encode_spec T bs data n fec0 m) as (fec & -> & [Hl Hw] & Hx); [lia..|done|done|].
  assert (forall t, t < length nos -> nos !!! t < m) as Hnt by (intros t Ht; apply Hnos_lt, elem_of_total; eauto).
  assert (forall t, t < length nos -> ((fun j => fec !!! j) <$> nos) !!! t = fec !!! (nos !!! t)) as Hsel.
  { intros t Ht. apply list_lookup_total_correct.
    by rewrite list_lookup_fmap, (list_lookup_lookup_total_lt nos t). }
  destruct (fec_decode_spec T bs n (length erased) (fun col i => (data !!! col) !!! i) nos erased)
    with (data := damaged) (fec := (fun j => fec !!! j) <$> nos) as (d' & f' & E & [Hdl Hdw] & _ & HD).
  - lia.
  - done.
  - done.
  - intros j Hj. specialize (Hnt j ltac:(lia)). lia.
  - done.
  - intros t Ht. apply Her_lt, elem_of_total. eauto.
  - done.
  - split; [lia|]. split; [intros j Hj; by rewrite Hdamb|]. intros j i Hj Hi Hne. by rewrite Hkept.
  - by rewrite length_fmap, Hlen.
  - intros t Ht. rewrite Hsel, Hw by lia. rewrite Hfb; [done|]. apply Hnt. lia.
  - intros t i Ht Hi. rewrite Hsel, Hx by lia. rewrite decide_True; [done|]. split; [apply Hnt; lia|done].
  - exists fec, f'. split; [done|]. rewrite E. f_equal. f_equal.
    apply list_eq_same_length with n; [lia|lia|]. intros j a b Hj Ha Hb.
    apply list_lookup_total_correct in Ha, Hb. subst a b.
    apply list_eq_total; rewrite Hdw, Hdamb by done; [by rewrite Hdb|]. intros i Hi. by apply HD.
Qed.
End erasure.

(** C6: the erasure code. Encode up to 128 data blocks into up to 128 FEC
    blocks, lose any data blocks, keep as many FEC blocks (any of them, in any
    order): [fec_decode] restores the data blocks exactly, whatever the buffers
    of the missing ones hold, and never inverts a singular matrix. *)
Theorem fec_erasure_recovery (s : fec_state) (bs n m : nat) (data fec0 damaged : blocks)
    (erased nos : list nat) :
  fec_reachable s -> 0 < n <= 128 -> m <= 128 -> length data = n -> length fec0 = m ->
  (forall j, j < n -> length (data !!! j) = bs) -> (forall j, j < m -> length (fec0 !!! j) = bs) ->
  increasing erased -> (forall t, t ∈ erased -> t < n) ->
  NoDup nos -> (forall j, j ∈ nos -> j < m) -> length nos = length erased ->
  length damaged = n -> (forall j, j < n -> length (damaged !!! j) = bs) ->
  (forall j, j < n -> j ∉ erased -> damaged !!! j = data !!! j) ->
  exists fec fec', fec_encode (fec_init s) bs data n fec0 m = Some fec /\
    fec_decode (fec_init s) bs damaged n ((fun j => fec !!! j) <$> nos) nos erased (length erased)
      = Some (data, fec').
Proof.
  intros Hs. pose proof (fec_init_tables s Hs) as HT. generalize dependent (fec_init s). intros T HT. intros.
  by apply erasure_roundtrip.
Qed.

Lemma fec_erasure_recovery_witness :
  exists fec fec', fec_encode (fec_init fec_static) 2 [[x01; x02]; [x03; x04]] 2 [[x00; x00]] 1 = Some fec /\
    fec_decode (fec_init fec_static) 2 [[x01; x02]; [x00; x00]] 2 ((fun j => fec !!! j) <$> [0]) [0] [1] 1
      = Some ([[x01; x02]; [x03; x04]], fec').
Proof.
  apply (fec_erasure_recovery fec_static 2 2 1 [[x01; x02]; [x03; x04]] [[x00; x00]]
    [[x01; x02]; [x00; x00]] [1] [0] reach_static); try done; try lia.
  - intros [|[|j]] Hj; done || lia.
  - intros [|j] Hj; done || lia.
  - intros i j Hij Hj. simpl in Hj. lia.
  - intros t Ht. apply list_elem_of_singleton in Ht. lia.
  - apply NoDup_singleton.
  - intros t Ht. apply list_elem_of_singleton in Ht. lia.
  - intros [|[|j]] Hj; done || lia.
  - intros [|[|j]] Hj Hne; [done| |lia]. destruct Hne. left.
Defined.

(** The limit of 128 data blocks is real: with the assertions compiled
    out, encoding more of them reads outside the table of inverses as soon as
    there is a FEC block. *)
Theorem fec_encode_too_many (T : fec_state) (bs n m : nat) (data fec : blocks) :
  length (inverse T) = 256 -> 128 < n -> 0 < m -> fec_encode T bs data n fec m = None.
Proof.
  intros HT Hn Hm. unfold fec_encode. rewrite (proj2 (Nat.eqb_neq n 0)) by lia.
  destruct (for_opt 0 m _ fec) as [f1|]; cbn [mbind option_bind]; [|done].
  replace (n - 1) with (127 + S (n - 129)) by lia. rewrite for_opt_app.
  destruct (for_opt 1 127 _ f1) as [f2|]; cbn [mbind option_bind]; [|done].
  destruct m as [|m]; [lia|]. cbn [for_opt Nat.add].
  destruct (data !! 128) as [d|]; cbn [mbind option_bind]; [|done].
  unfold inverse_xor, inverse_at. change (Z.lxor (Z.of_nat 0) (Z.of_nat 256)) with 256%Z. simpl (0 <=? 256)%Z.
  rewrite (lookup_ge_None_2 (inverse T)) by (rewrite HT; lia). done.
Qed.

Lemma fec_encode_too_many_witness :
  fec_encode fec_static 1 (replicate 129 [x00]) 129 [[x00]] 1 = None.
Proof. apply (fec_encode_too_many fec_static 1 129 1); [reflexivity|lia|lia]. Defined.
