(* ===== verification/FecBlock.v ===== *)
(** * Packets: [FECHeader] and [FECBlock] of src/include/wifibroadcast/fec.hh

    A block owns one allocation, [m_data], that holds the packed header, the
    16-bit length field (little endian) and the data. A pointer into it
    ([data()], [fec_data()]) is the suffix of the allocation from that offset.
    [None] is an access outside the allocation. *)

From S2P Require Import Prelude.

(** [sizeof(FECHeader)] *)
Definition FEC_OVERHEAD : Z := 6.

Record FECHeader := MkFECHeader {
  h_seq_num : Z;
  h_block : Z;
  h_n_blocks : Z;
  h_n_fec_blocks : Z;
  h_length : Z
}.

(** The default constructor. *)
Definition FECHeader_default : FECHeader := MkFECHeader 0 0 0 0 0.

(** The packed layout. *)
Definition header_bytes (h : FECHeader) : list byte :=
  [byte_of (h_seq_num h); byte_of (h_block h); byte_of (h_n_blocks h); byte_of (h_n_fec_blocks h)]
  ++ le16 (h_length h).

Definition header_of (m : list byte) : option FECHeader :=
  match m with
  | s :: b :: n :: f :: lo :: hi :: _ =>
      Some (MkFECHeader (u8 s) (u8 b) (u8 n) (u8 f) (of_le16 lo hi))
  | _ => None
  end.

(** [*header() = h] *)
Definition put_header (h : FECHeader) (m : list byte) : option (list byte) :=
  _ ← header_of m; Some (header_bytes h ++ drop 6 m).

Record FECBlock := MkFECBlock {
  m_data : list byte;      (* the allocation *)
  m_data_length : Z        (* uint16_t *)
}.

Definition header (b : FECBlock) : option FECHeader := header_of (m_data b).

Definition with_header (f : FECHeader -> FECHeader) (b : FECBlock) : option FECBlock :=
  h ← header b; m ← put_header (f h) (m_data b); Some (MkFECBlock m (m_data_length b)).

Definition data_length (b : FECBlock) : option Z := h ← header b; Some (h_length h).

(** [data_length(len)], and the other assignments to a header field. *)
Definition set_h_length (len : Z) (h : FECHeader) : FECHeader :=
  MkFECHeader (h_seq_num h) (h_block h) (h_n_blocks h) (h_n_fec_blocks h) len.
Definition set_h_block (k : Z) (h : FECHeader) : FECHeader :=
  MkFECHeader (h_seq_num h) k (h_n_blocks h) (h_n_fec_blocks h) (h_length h).
Definition set_h_n_blocks (n : Z) (h : FECHeader) : FECHeader :=
  MkFECHeader (h_seq_num h) (h_block h) n (h_n_fec_blocks h) (h_length h).

Definition set_data_length (len : Z) : FECBlock -> option FECBlock := with_header (set_h_length len).

(** The FEC block size, which includes the data and data length fields. *)
Definition block_size (b : FECBlock) : option Z := l ← data_length b; Some (wrap 16 (l + 2)).

Definition adjust_block_size (bs : Z) (b : FECBlock) : FECBlock :=
  MkFECBlock (m_data b) (wrap 16 (bs + FEC_OVERHEAD - 2)).

Definition data (b : FECBlock) : list byte := drop 6 (m_data b).
Definition fec_data (b : FECBlock) : list byte := drop 4 (m_data b).

(** What the memory holds after [fec_data()] has been overwritten with [buf]. *)
Definition put_fec_data (buf : list byte) (b : FECBlock) : FECBlock :=
  MkFECBlock (take 4 (m_data b) ++ buf) (m_data_length b).

(** [std::copy(src, src + length, data())] *)
Definition copy_to_data (p : list byte) (b : FECBlock) : option FECBlock :=
  if (length p <=? length (data b))%nat
  then Some (MkFECBlock (take 6 (m_data b) ++ p ++ drop (length p) (data b)) (m_data_length b))
  else None.

Definition pkt_length (b : FECBlock) : Z := m_data_length b.
Definition pkt_data (b : FECBlock) : list byte := m_data b.

Definition is_data_block (b : FECBlock) : option bool :=
  h ← header b; Some (h_block h <? h_n_blocks h).
Definition is_fec_block (b : FECBlock) : option bool := d ← is_data_block b; Some (negb d).
Definition seq_num (b : FECBlock) : option Z := h ← header b; Some (h_seq_num h).

(** The three constructors. *)
Definition FECBlock_new (seq blk nblocks nfec_blocks max_block_len dlen : Z) : option FECBlock :=
  let n := wrap 16 (max_block_len + FEC_OVERHEAD - 2) in
  m ← put_header (MkFECHeader seq blk nblocks nfec_blocks dlen) (replicate (Z.to_nat n) x00);
  Some (MkFECBlock m n).

Definition FECBlock_of_packet (buf : list byte) (pkt_length : Z) : option FECBlock :=
  if (Z.to_nat pkt_length <=? length buf)%nat
  then Some (MkFECBlock (take (Z.to_nat pkt_length) buf) pkt_length) else None.

Definition FECBlock_of_header (h : FECHeader) (block_length : Z) : option FECBlock :=
  let n := wrap 16 (block_length + FEC_OVERHEAD - 2) in
  m ← put_header h (replicate (Z.to_nat n) x00);
  set_data_length (wrap 16 (block_length - 2)) (MkFECBlock m n).

(** What is put on the wire, and what a consumer of decoded data reads:
    [data_length()] bytes from [data()]. *)
Definition wire (b : FECBlock) : option (list byte) :=
  if (Z.to_nat (pkt_length b) <=? length (pkt_data b))%nat
  then Some (take (Z.to_nat (pkt_length b)) (pkt_data b)) else None.

Definition payload (b : FECBlock) : option (list byte) :=
  l ← data_length b;
  if (Z.to_nat l <=? length (data b))%nat then Some (take (Z.to_nat l) (data b)) else None.

(** ** Well-formed headers *)

Definition header_ok (h : FECHeader) : Prop :=
  0 <= h_seq_num h < 256 /\ 0 <= h_block h < 256 /\ 0 <= h_n_blocks h < 256 /\
  0 <= h_n_fec_blocks h < 256 /\ 0 <= h_length h < 65536.

Lemma length_header_bytes h : length (header_bytes h) = 6%nat.
Proof. done. Qed.

Lemma header_of_bytes h m : header_ok h -> header_of (header_bytes h ++ m) = Some h.
Proof.
  intros (Hs & Hb & Hn & Hf & Hl). destruct h as [s b n f l]; cbn in *.
  by rewrite !u8_byte_of_small, of_le16_le16.
Qed.

Lemma header_of_Some m : (6 <= length m)%nat -> is_Some (header_of m).
Proof. do 6 (destruct m as [|? m]; [cbn; lia|]). cbn. eauto. Qed.

Lemma header_of_None m : (length m < 6)%nat -> header_of m = None.
Proof. do 6 (destruct m as [|? m]; [done|]). cbn. lia. Qed.

Lemma header_of_split m h :
  header_of m = Some h -> header_ok h /\ m = header_bytes h ++ drop 6 m.
Proof.
  do 6 (destruct m as [|? m]; [done|]). cbn [header_of]. intros [= <-]. split.
  - repeat split; cbn; apply u8_range || apply of_le16_range.
  - cbn [drop]. unfold header_bytes. cbn [h_seq_num h_block h_n_blocks h_n_fec_blocks h_length].
    autorewrite with wfb_bytes. done.
Qed.

Lemma header_of_length m h : header_of m = Some h -> (6 <= length m)%nat.
Proof. intros E. destruct (decide (6 <= length m)%nat); [done|]. rewrite header_of_None in E; [done|lia]. Qed.

Lemma put_header_app h h' m :
  header_ok h -> put_header h' (header_bytes h ++ m) = Some (header_bytes h' ++ m).
Proof. intros Hh. unfold put_header. rewrite header_of_bytes by done. done. Qed.

Lemma put_header_replicate h n :
  (6 <= n)%nat -> put_header h (replicate n x00) = Some (header_bytes h ++ replicate (n - 6) x00).
Proof.
  intros Hn. unfold put_header.
  destruct (header_of_Some (replicate n x00)) as [h0 ->]; [by rewrite length_replicate|].
  cbn [mbind option_bind]. by rewrite drop_replicate.
Qed.

(** A block in its normal form: header, then data. *)
Definition mk_block (h : FECHeader) (p : list byte) (n : Z) : FECBlock :=
  MkFECBlock (header_bytes h ++ p) n.

Lemma header_mk h p n : header_ok h -> header (mk_block h p n) = Some h.
Proof. apply header_of_bytes. Qed.

Lemma with_header_mk f h p n :
  header_ok h -> with_header f (mk_block h p n) = Some (mk_block (f h) p n).
Proof.
  intros Hh. unfold with_header. rewrite header_mk by done. cbn [mbind option_bind].
  unfold mk_block. cbn [m_data m_data_length]. by rewrite put_header_app.
Qed.

Lemma data_mk h p n : data (mk_block h p n) = p.
Proof. reflexivity. Qed.

Lemma fec_data_mk h p n : fec_data (mk_block h p n) = le16 (h_length h) ++ p.
Proof. reflexivity. Qed.

Lemma block_size_mk h p n :
  header_ok h -> h_length h + 2 < 65536 -> block_size (mk_block h p n) = Some (h_length h + 2).
Proof.
  intros Hh Hl. unfold block_size, data_length. rewrite header_mk by done. cbn [mbind option_bind].
  f_equal. apply wrap_small. destruct Hh as (_ & _ & _ & _ & ?). change (2 ^ 16) with 65536. lia.
Qed.

Lemma FECBlock_new_mk s b n f mx l :
  2 <= mx -> mx + 4 < 65536 ->
  FECBlock_new s b n f mx l
    = Some (mk_block (MkFECHeader s b n f l) (replicate (Z.to_nat (mx - 2)) x00) (mx + 4)).
Proof.
  intros H1 H2. unfold FECBlock_new, FEC_OVERHEAD.
  rewrite wrap_small by (change (2 ^ 16) with 65536; lia).
  rewrite put_header_replicate by lia. cbn [mbind option_bind]. unfold mk_block.
  replace (mx + 6 - 2) with (mx + 4) by lia. by replace (Z.to_nat (mx + 4) - 6)%nat with (Z.to_nat (mx - 2)) by lia.
Qed.

Lemma FECBlock_of_header_mk h bs :
  header_ok h -> 2 <= bs -> bs + 4 < 65536 ->
  FECBlock_of_header h bs
    = Some (mk_block (set_h_length (bs - 2) h) (replicate (Z.to_nat (bs - 2)) x00) (bs + 4)).
Proof.
  intros Hh H1 H2. unfold FECBlock_of_header, FEC_OVERHEAD.
  rewrite !wrap_small by (change (2 ^ 16) with 65536; lia).
  rewrite put_header_replicate by lia. cbn [mbind option_bind].
  replace (bs + 6 - 2) with (bs + 4) by lia. replace (Z.to_nat (bs + 4) - 6)%nat with (Z.to_nat (bs - 2)) by lia.
  apply with_header_mk. done.
Qed.

Lemma copy_to_data_mk h m p n :
  (length p <= length m)%nat ->
  copy_to_data p (mk_block h m n) = Some (mk_block h (p ++ drop (length p) m) n).
Proof.
  intros Hl. unfold copy_to_data. rewrite data_mk. rewrite (proj2 (Nat.leb_le _ _)) by done.
  unfold mk_block. cbn [m_data m_data_length]. by rewrite take_app_length'.
Qed.

Lemma payload_mk h p n :
  header_ok h -> (Z.to_nat (h_length h) <= length p)%nat ->
  payload (mk_block h p n) = Some (take (Z.to_nat (h_length h)) p).
Proof.
  intros Hh Hl. unfold payload, data_length. rewrite header_mk by done. cbn [mbind option_bind].
  rewrite data_mk. by rewrite (proj2 (Nat.leb_le _ _)).
Qed.

Lemma with_header_Some f b b' :
  with_header f b = Some b' ->
  exists h, header_ok h /\ header b = Some h /\ b' = mk_block (f h) (data b) (m_data_length b).
Proof.
  unfold with_header, header. intros E. obind E. exists f0.
  destruct (header_of_split _ _ E0) as [Hh Hm]. split; [done|]. split; [done|].
  unfold put_header in E. rewrite E0 in E. cbn [mbind option_bind] in E. by injection E as <-.
Qed.

Lemma adjust_block_size_mk bs h p n :
  0 <= bs -> bs + 4 < 65536 -> adjust_block_size bs (mk_block h p n) = mk_block h p (bs + 4).
Proof.
  intros H1 H2. unfold adjust_block_size, FEC_OVERHEAD.
  rewrite wrap_small by (change (2 ^ 16) with 65536; lia).
  unfold mk_block. cbn [m_data]. f_equal. lia.
Qed.

(** ** Properties *)

(** The packed header. Every allocation of six bytes or more is read as a
    header in range, and writing that header back, or any other one, changes
    exactly the six bytes and is read back unchanged. *)
Theorem header_roundtrip (m : list byte) :
  (6 <= length m)%nat ->
  (exists h, header_of m = Some h /\ header_ok h /\ put_header h m = Some m) /\
  (forall h, header_ok h -> exists m', put_header h m = Some m' /\ header_of m' = Some h /\
     length m' = length m /\ drop 6 m' = drop 6 m).
Proof.
  intros Hm. destruct (header_of_Some m Hm) as [h0 E]. destruct (header_of_split m h0 E) as [Hok Hsplit].
  split.
  - exists h0. split; [done|]. split; [done|]. unfold put_header. rewrite E. cbn [mbind option_bind]. by rewrite <-Hsplit.
  - intros h Hh. exists (header_bytes h ++ drop 6 m). unfold put_header. rewrite E. split; [done|].
    split; [by apply header_of_bytes|]. split; [|done].
    rewrite length_app, length_header_bytes, length_drop. lia.
Qed.

Lemma header_roundtrip_witness :
  exists m', put_header (MkFECHeader 7 1 8 4 1400) (replicate 8 x00) = Some m' /\
    header_of m' = Some (MkFECHeader 7 1 8 4 1400) /\ length m' = 8%nat /\ drop 6 m' = [x00; x00].
Proof.
  apply (proj2 (header_roundtrip (replicate 8 x00) ltac:(simpl; lia))).
  repeat split; simpl; lia.
Defined.
