(* ===== verification/FecWire.v ===== *)
(** * The wire format of a FEC group

    The reference that the encoder produces and the decoder consumes: a group
    of [n] payloads, sent with sequence number [sq] and [f] FEC packets. Every
    packet of the group carries [bs] bytes after the four header bytes, where
    [bs] is the size of the longest payload plus its length field. *)

From S2P Require Import Prelude Gf256 GfField GfVec FecCode FecBlock.
Local Open Scope nat_scope.

Abbreviation bytes := (list byte).

Definition plen (p : bytes) : Z := Z.of_nat (length p).

Definition group_size (ps : list bytes) : nat := foldr (fun p m => (length p + 2) `max` m) 0 ps.

Definition data_header (sq : Z) (n f : nat) (i : nat) (p : bytes) : FECHeader :=
  MkFECHeader sq (Z.of_nat i) (Z.of_nat n) (Z.of_nat f) (plen p).

Definition padded (bs : nat) (p : bytes) : bytes := p ++ replicate (bs - 2 - length p) x00.

(** The bytes of a data packet that the code protects: length field, data, padding. *)
Definition fec_src (bs : nat) (p : bytes) : bytes := le16 (plen p) ++ padded bs p.

Definition data_wire (sq : Z) (n f bs : nat) (i : nat) (p : bytes) : bytes :=
  header_bytes (data_header sq n f i p) ++ padded bs p.

(** Byte [i] of protected block [col]. *)
Definition src_byte (bs : nat) (ps : list bytes) (col i : nat) : byte := fec_src bs (ps !!! col) !!! i.

Definition fec_bytes (bs : nat) (ps : list bytes) (j : nat) : bytes :=
  map (parity (length ps) (src_byte bs ps) j) (seq 0 bs).

Definition fec_wire (sq : Z) (f bs : nat) (ps : list bytes) (j : nat) : bytes :=
  [byte_of sq; byte_of (Z.of_nat (length ps + j)); byte_of (Z.of_nat (length ps)); byte_of (Z.of_nat f)]
  ++ fec_bytes bs ps j.

Definition group_wires (sq : Z) (f : nat) (ps : list bytes) : list bytes :=
  let bs := group_size ps in
  imap (data_wire sq (length ps) f bs) ps ++ map (fec_wire sq f bs ps) (seq 0 f).

(** The groups the code supports: [mx] is the maximum block size. *)
Record group_ok (sq : Z) (f : nat) (mx : Z) (ps : list bytes) : Prop := {
  ok_seq : (0 <= sq < 256)%Z;
  ok_n : 0 < length ps <= 128;
  ok_f : 0 < f <= 128;
  ok_max : (mx + 4 < 65536)%Z;
  ok_len : forall p, p ∈ ps -> (plen p + 2 <= mx)%Z
}.

Lemma group_size_ge ps p : p ∈ ps -> length p + 2 <= group_size ps.
Proof. induction 1; simpl in *; lia. Qed.

Lemma group_size_le ps b : (forall p, p ∈ ps -> length p + 2 <= b) -> group_size ps <= b.
Proof.
  intros H. induction ps as [|p ps IH]; simpl; [lia|].
  apply Nat.max_lub; [apply H; left|]. apply IH. intros q Hq. apply H. by right.
Qed.

Lemma group_size_witness ps : ps <> [] -> exists p, p ∈ ps /\ group_size ps = length p + 2.
Proof.
  induction ps as [|p ps IH]; [done|]. intros _. simpl.
  destruct (Nat.max_spec (length p + 2) (group_size ps)) as [[H ->]|[H ->]].
  - destruct ps as [|p' ps]; [simpl in H; lia|]. destruct IH as (q & Hq & E); [done|].
    exists q. split; [by right|done].
  - exists p. split; [left|done].
Qed.

Lemma group_size_app ps p : group_size (ps ++ [p]) = (group_size ps `max` (length p + 2))%nat.
Proof.
  induction ps as [|q ps IH]; simpl; [lia|]. rewrite IH. lia.
Qed.

Lemma group_size_take ps n p :
  ps !! n = Some p -> group_size (take (S n) ps) = (group_size (take n ps) `max` (length p + 2))%nat.
Proof. intros H. by rewrite (take_S_r _ _ p), group_size_app. Qed.

Lemma length_padded bs p : length p + 2 <= bs -> length (padded bs p) = bs - 2.
Proof. intros H. unfold padded. rewrite length_app, length_replicate. lia. Qed.

Lemma length_fec_src bs p : length p + 2 <= bs -> length (fec_src bs p) = bs.
Proof. intros H. unfold fec_src. rewrite length_app, length_padded by done. simpl. lia. Qed.

Lemma length_fec_bytes bs ps j : length (fec_bytes bs ps j) = bs.
Proof. unfold fec_bytes. by rewrite length_map, length_seq. Qed.

Lemma fec_bytes_lookup bs ps j i :
  i < bs -> fec_bytes bs ps j !!! i = parity (length ps) (src_byte bs ps) j i.
Proof.
  intros Hi. unfold fec_bytes. apply list_lookup_total_correct.
  rewrite list_lookup_fmap, lookup_seq_lt by done. done.
Qed.

Lemma data_wire_split sq n f bs i p :
  data_wire sq n f bs i p =
  [byte_of sq; byte_of (Z.of_nat i); byte_of (Z.of_nat n); byte_of (Z.of_nat f)] ++ fec_src bs p.
Proof. reflexivity. Qed.

Section group.
Context (sq : Z) (f : nat) (mx : Z) (ps : list bytes) (Hok : group_ok sq f mx ps).

Lemma ok_size : 2 <= group_size ps /\ (Z.of_nat (group_size ps) <= mx)%Z.
Proof.
  destruct Hok as [_ Hn _ _ Hlen].
  destruct (group_size_witness ps) as (p & Hp & ->); [by intros ->; simpl in *; lia|].
  specialize (Hlen p Hp). unfold plen in Hlen. lia.
Qed.

Lemma ok_header n i p : p ∈ ps -> n < 256 -> i < 256 -> header_ok (data_header sq n f i p).
Proof.
  intros Hp Hn Hi. destruct Hok as [Hs _ Hf Hmx Hlen]. specialize (Hlen p Hp).
  unfold plen in *. repeat split; cbn; unfold plen; lia.
Qed.
End group.
