(* ===== verification/FecEncoder.v ===== *)
(** * [FECEncoder] of src/src/fec.cc

    The blocks the encoder holds are shared with its caller only until they
    are handed out, so they are values here. [T] is the state of the tables of
    fec.c, set up by [fec_init] in the constructor. [None] is an access
    outside a block or a vector. *)

From S2P Require Import Prelude Gf256 GfField GfVec FecCode FecBlock FecWire.

Record FECEncoder := MkFECEncoder {
  m_seq_num : Z;
  m_num_blocks : Z;
  m_num_fec_blocks : Z;
  m_max_block_size : Z;
  m_in_blocks : list FECBlock;
  m_out_blocks : list FECBlock    (* front first *)
}.

(** The constructor: the encoder and the new state of the tables. *)
Definition FECEncoder_new (T : fec_state) (num_blocks num_fec_blocks max_block_size start_seq_num : Z)
  : fec_state * FECEncoder :=
  (fec_init T, MkFECEncoder start_seq_num num_blocks num_fec_blocks max_block_size [] []).

Definition new_block (e : FECEncoder) : option FECBlock :=
  FECBlock_new 0 0 (m_num_blocks e) (m_num_fec_blocks e) (m_max_block_size e) 0.

Definition get_next_block (e : FECEncoder) (len : Z) : option FECBlock :=
  FECBlock_new (m_seq_num e) (wrap 8 (Z.of_nat (length (m_in_blocks e)))) (m_num_blocks e)
    (m_num_fec_blocks e) (m_max_block_size e) len.

(** [++m_seq_num; if (m_seq_num == 0) ++m_seq_num;] *)
Definition next_seq (s : Z) : Z :=
  let s := wrap 8 (s + 1) in if s =? 0 then wrap 8 (s + 1) else s.

Definition set_out (e : FECEncoder) (out : list FECBlock) : FECEncoder :=
  MkFECEncoder (m_seq_num e) (m_num_blocks e) (m_num_fec_blocks e) (m_max_block_size e)
    (m_in_blocks e) out.
Definition set_in (e : FECEncoder) (ins : list FECBlock) : FECEncoder :=
  MkFECEncoder (m_seq_num e) (m_num_blocks e) (m_num_fec_blocks e) (m_max_block_size e)
    ins (m_out_blocks e).
Definition set_seq (e : FECEncoder) (s : Z) : FECEncoder :=
  MkFECEncoder s (m_num_blocks e) (m_num_fec_blocks e) (m_max_block_size e)
    (m_in_blocks e) (m_out_blocks e).

(** The size of the largest of the first [n] blocks. *)
Definition largest_block (bs : list FECBlock) (n : nat) : option Z :=
  for_opt 0 n (fun i acc => b ← bs !! i; s ← block_size b; Some (Z.max acc s)) 0.

(** What the second loop of [encode_blocks] does to a data block. *)
Definition finish_block (num_blocks bs : Z) (b : FECBlock) : option FECBlock :=
  with_header (set_h_n_blocks num_blocks) (adjust_block_size bs b).

Definition new_fec_block (e : FECEncoder) (num_blocks bs : Z) (i : nat) : option FECBlock :=
  FECBlock_new (m_seq_num e) (wrap 8 (num_blocks + Z.of_nat i)) num_blocks (m_num_fec_blocks e)
    bs (wrap 16 (bs - 2)).

Definition encode_blocks (T : fec_state) (e : FECEncoder) : option FECEncoder :=
  let num_blocks := wrap 8 (Z.of_nat (length (m_in_blocks e))) in
  if num_blocks =? 0 then Some e
  else
    let n := Z.to_nat num_blocks in
    let f := Z.to_nat (m_num_fec_blocks e) in
    bs ← largest_block (m_in_blocks e) n;
    (* [data_blocks] has [m_num_blocks] entries *)
    if m_num_blocks e <? num_blocks then None
    else
      blks ← mapM (finish_block num_blocks bs) (take n (m_in_blocks e));
      fecs ← mapM (new_fec_block e num_blocks bs) (seq 0 f);
      parities ← fec_encode T (Z.to_nat bs) (fec_data <$> blks) n (fec_data <$> fecs) f;
      let e := set_out e (m_out_blocks e ++ blks ++ zip_with put_fec_data parities fecs) in
      let e := set_seq e (next_seq (m_seq_num e)) in
      Some (set_in e []).

Definition add_block (T : fec_state) (e : FECEncoder) (block : FECBlock) : option FECEncoder :=
  block ← with_header (set_h_block (wrap 8 (Z.of_nat (length (m_in_blocks e))))) block;
  if (m_num_fec_blocks e =? 0) || (m_num_blocks e =? 0) then
    let e := set_out e (m_out_blocks e ++ [block]) in
    Some (set_seq e (next_seq (m_seq_num e)))
  else
    let e := set_in e (m_in_blocks e ++ [block]) in
    h ← header block;
    if (0 <? m_num_fec_blocks e) && (h_block h =? m_num_blocks e - 1) then encode_blocks T e
    else Some e.

Definition get_block (e : FECEncoder) : option FECBlock * FECEncoder :=
  match m_out_blocks e with
  | [] => (None, e)
  | b :: out => (Some b, set_out e out)
  end.

Definition flush (T : fec_state) (e : FECEncoder) : option FECEncoder := encode_blocks T e.
Definition is_flushed (e : FECEncoder) : bool := bool_decide (m_in_blocks e = []).
Definition n_output_blocks (e : FECEncoder) : nat := length (m_out_blocks e).

(** The use every caller makes of the encoder: take a block for [len] bytes,
    copy the data into it, and add it. *)
Definition send (T : fec_state) (e : FECEncoder) (p : list byte) : option FECEncoder :=
  b ← get_next_block e (plen p);
  b ← copy_to_data p b;
  add_block T e b.

(** ** Well-formed encoders *)

Record enc_ok (e : FECEncoder) : Prop := {
  enc_seq : 0 <= m_seq_num e < 256;
  enc_num : 0 <= m_num_blocks e < 256;
  enc_fec : 0 <= m_num_fec_blocks e < 256;
  enc_max : 0 <= m_max_block_size e < 65536;
  enc_in : m_in_blocks e = [] \/ (0 < m_num_fec_blocks e /\ Z.of_nat (length (m_in_blocks e)) < m_num_blocks e)
}.

Lemma next_seq_range s : 0 <= s < 256 -> 0 < next_seq s < 256.
Proof.
  intros Hs. unfold next_seq, wrap. change (2 ^ 8) with 256.
  destruct (decide (s = 255)) as [->|]; [done|]. rewrite (Z.mod_small (s + 1)) by lia.
  rewrite (proj2 (Z.eqb_neq _ _)) by lia. lia.
Qed.

Lemma next_seq_neq s : 0 <= s < 256 -> next_seq s <> s.
Proof.
  intros Hs. unfold next_seq, wrap. change (2 ^ 8) with 256.
  destruct (decide (s = 255)) as [->|]; [done|]. rewrite (Z.mod_small (s + 1)) by lia.
  rewrite (proj2 (Z.eqb_neq _ _)) by lia. lia.
Qed.

Lemma FECEncoder_new_ok T n f mx s :
  0 <= n < 256 -> 0 <= f < 256 -> 0 <= mx < 65536 -> 0 <= s < 256 -> enc_ok (FECEncoder_new T n f mx s).2.
Proof. intros. split; cbn; auto. Qed.

(** The ranges of the fields, without the bound on the pending blocks. *)
Definition enc_ranges (e : FECEncoder) : Prop :=
  0 <= m_seq_num e < 256 /\ 0 <= m_num_blocks e < 256 /\
  0 <= m_num_fec_blocks e < 256 /\ 0 <= m_max_block_size e < 65536.

Lemma enc_ok_ranges e : enc_ok e -> enc_ranges e.
Proof. by intros []. Qed.

Lemma enc_ok_length e : enc_ok e -> Z.of_nat (length (m_in_blocks e)) < 256.
Proof. intros [_ ? _ _ [E|[_ ?]]]; [rewrite E; simpl; lia|lia]. Qed.

Lemma encode_blocks_nil T e : m_in_blocks e = [] -> encode_blocks T e = Some e.
Proof. intros E. unfold encode_blocks. by rewrite E. Qed.

Lemma encode_blocks_shape T e e' :
  m_in_blocks e <> [] -> Z.of_nat (length (m_in_blocks e)) < 256 -> encode_blocks T e = Some e' ->
  m_in_blocks e' = [] /\ m_seq_num e' = next_seq (m_seq_num e) /\ m_num_blocks e' = m_num_blocks e /\
  m_num_fec_blocks e' = m_num_fec_blocks e /\ m_max_block_size e' = m_max_block_size e.
Proof.
  intros Hne Hlt. unfold encode_blocks. rewrite wrap_small by (change (2 ^ 8) with 256; lia).
  rewrite (proj2 (Z.eqb_neq _ _)) by (destruct (m_in_blocks e); simpl; [done|lia]).
  intros E. obind E. destruct (_ <? _); [done|]. obind E. obind E. obind E.
  injection E as <-. done.
Qed.

(** The pending blocks go to the output, and FEC blocks behind them. *)
Lemma encode_blocks_outs T e e' :
  Z.of_nat (length (m_in_blocks e)) < 256 -> encode_blocks T e = Some e' ->
  m_in_blocks e' = [] /\ exists data fecs, m_out_blocks e' = m_out_blocks e ++ data ++ fecs /\ length data = length (m_in_blocks e).
Proof.
  intros Hlt. unfold encode_blocks. rewrite wrap_small by (change (2 ^ 8) with 256; lia).
  destruct (Z.eqb_spec (Z.of_nat (length (m_in_blocks e))) 0) as [E0|].
  { intros [= <-]. destruct (m_in_blocks e); [|cbn in E0; lia]. split; [done|]. exists [], []. by rewrite app_nil_r. }
  intros E. ostep E as bs eqn Ebs. destruct (_ <? _); [done|]. ostep E as blks eqn Eb. ostep E as fecs eqn Ef. ostep E as par eqn Ep.
  injection E as <-. split; [done|]. eexists blks, _. split; [done|].
  apply mapM_Some, Forall2_length in Eb. rewrite <-Eb, length_take. lia.
Qed.

Lemma enc_ok_encode T e e' :
  enc_ranges e -> Z.of_nat (length (m_in_blocks e)) < 256 -> encode_blocks T e = Some e' -> enc_ok e'.
Proof.
  intros (Hs & Hn & Hf & Hm) Hlt E. destruct (decide (m_in_blocks e = [])) as [Hnil|Hne].
  { rewrite encode_blocks_nil in E by done. injection E as <-. split; auto. }
  destruct (encode_blocks_shape T e e') as (E1 & E2 & E3 & E4 & E5); [done..|].
  split; rewrite ?E2, ?E3, ?E4, ?E5; try done; [|by left].
  pose proof (next_seq_range _ Hs). lia.
Qed.

(** The block is renumbered, then it is pending, or the group is encoded, or
    it goes straight to the output when FEC is off. *)
Lemma add_block_cases T e b e' :
  enc_ok e -> add_block T e b = Some e' ->
  exists b', with_header (set_h_block (Z.of_nat (length (m_in_blocks e)))) b = Some b' /\
  ((m_num_fec_blocks e = 0 \/ m_num_blocks e = 0) /\
     e' = set_seq (set_out e (m_out_blocks e ++ [b'])) (next_seq (m_seq_num e)) \/
   (0 < m_num_fec_blocks e /\ Z.of_nat (length (m_in_blocks e)) + 1 = m_num_blocks e /\
     encode_blocks T (set_in e (m_in_blocks e ++ [b'])) = Some e') \/
   (0 < m_num_fec_blocks e /\ Z.of_nat (length (m_in_blocks e)) + 1 < m_num_blocks e /\
     e' = set_in e (m_in_blocks e ++ [b']))).
Proof.
  intros Hok E. pose proof (enc_ok_length e Hok) as Hl. destruct Hok as [Hs Hn Hf Hm Hi].
  unfold add_block in E. rewrite wrap_small in E by (change (2 ^ 8) with 256; lia).
  destruct (with_header _ b) as [b'|] eqn:Eb; cbn [mbind option_bind] in E; [|done].
  exists b'. split; [done|].
  destruct (Z.eqb_spec (m_num_fec_blocks e) 0) as [Hf0|Hf0]; cbn [orb] in E.
  { injection E as <-. left. auto. }
  destruct (Z.eqb_spec (m_num_blocks e) 0) as [Hn0|Hn0].
  { injection E as <-. left. auto. }
  right. apply with_header_Some in Eb as (h & Hh & _ & ->).
  rewrite header_mk in E by (destruct Hh as (? & ? & ? & ? & ?); repeat split; cbn; lia).
  cbn [mbind option_bind] in E. cbn [m_num_fec_blocks m_num_blocks set_in h_block set_h_block] in E.
  rewrite (proj2 (Z.ltb_lt 0 _)) in E by lia. cbn [andb] in E.
  assert (Z.of_nat (length (m_in_blocks e)) < m_num_blocks e) as Hlt.
  { destruct Hi as [Hi|[_ ?]]; [rewrite Hi; simpl; lia|done]. }
  destruct (Z.eqb_spec (Z.of_nat (length (m_in_blocks e))) (m_num_blocks e - 1)) as [He|He].
  - left. split; [lia|]. split; [lia|done].
  - right. split; [lia|]. split; [lia|]. by injection E as <-.
Qed.

Lemma enc_ok_add_block T e b e' : enc_ok e -> add_block T e b = Some e' -> enc_ok e'.
Proof.
  intros Hok E. destruct (add_block_cases T e b e' Hok E) as (b' & _ & [[_ ->]|[(Hf0 & Hl & E')|(Hf0 & Hl & ->)]]);
    pose proof (enc_ok_ranges e Hok) as (Hs & Hn & Hf & Hm).
  - destruct Hok as [_ _ _ _ Hi]. pose proof (next_seq_range _ Hs). by split; cbn; try lia.
  - eapply enc_ok_encode; [| |exact E']; [done|]. cbn. rewrite length_app. simpl. lia.
  - split; cbn; try done. right. rewrite length_app. simpl. lia.
Qed.

Lemma enc_ok_get_block e : enc_ok e -> enc_ok (get_block e).2.
Proof. intros [Hs Hn Hf Hm Hi]. unfold get_block. by destruct (m_out_blocks e). Qed.

(** ** The encoder emits the wire format *)

(** A pending data block, as [get_next_block], the copy and [add_block] leave it. *)
Definition pending_block (e : FECEncoder) (i : nat) (p : bytes) : FECBlock :=
  mk_block (MkFECHeader (m_seq_num e) (Z.of_nat i) (m_num_blocks e) (m_num_fec_blocks e) (plen p))
    (p ++ replicate (Z.to_nat (m_max_block_size e - 2) - length p) x00) (m_max_block_size e + 4).

Definition pending (e : FECEncoder) (ps : list bytes) : Prop :=
  m_in_blocks e = imap (pending_block e) ps.

Section encode.
Context (T : fec_state) `{!GfTables T}.
Context (e : FECEncoder) (ps : list bytes) (f : nat).
Context (Hok : enc_ranges e) (Hp : pending e ps).
Context (Hg : group_ok (m_seq_num e) f (m_max_block_size e) ps).
Context (Hf : m_num_fec_blocks e = Z.of_nat f) (Hnum : Z.of_nat (length ps) <= m_num_blocks e).

Local Abbreviation bs := (group_size ps).
Local Abbreviation n := (length ps).
Local Abbreviation sq := (m_seq_num e).
Local Abbreviation mx := (m_max_block_size e).

Lemma n_range : (0 < n <= 128)%nat.
Proof. apply Hg. Qed.

Lemma bs_range : (2 <= bs)%nat /\ Z.of_nat bs <= mx /\ mx + 4 < 65536.
Proof.
  destruct (ok_size _ _ _ _ Hg). split; [done|]. split; [done|]. apply (ok_max _ _ _ _ Hg).
Qed.

Lemma payload_fits i p : ps !! i = Some p -> (i < n)%nat /\ (length p + 2 <= bs)%nat.
Proof.
  intros Hi. split; [by eapply lookup_lt_Some|]. apply group_size_ge. by eapply list_elem_of_lookup_2.
Qed.

Lemma pending_header_ok i p :
  ps !! i = Some p ->
  header_ok (MkFECHeader sq (Z.of_nat i) (m_num_blocks e) (m_num_fec_blocks e) (plen p)).
Proof.
  intros Hi. destruct (payload_fits i p Hi). destruct bs_range as (? & ? & ?).
  pose proof n_range. destruct Hok as (? & ? & ? & ?). unfold plen. repeat split; cbn; lia.
Qed.

Lemma largest_block_pending : largest_block (m_in_blocks e) n = Some (Z.of_nat bs).
Proof.
  unfold largest_block.
  destruct (for_opt_inv (fun c acc => acc = Z.of_nat (group_size (take c ps))) 0 n
    (fun i acc => b ← m_in_blocks e !! i; s ← block_size b; Some (Z.max acc s)) 0) as (a & -> & ->).
  - done.
  - intros i a Hi ->. destruct (lookup_lt_is_Some_2 ps i) as [p Hpi]; [lia|].
    rewrite Hp, list_lookup_imap, Hpi. cbn [fmap option_fmap option_map mbind option_bind].
    destruct (payload_fits i p Hpi). destruct bs_range as (? & ? & ?).
    unfold pending_block. rewrite block_size_mk; [|by apply pending_header_ok|cbn; unfold plen; lia].
    cbn [mbind option_bind h_length]. eexists. split; [done|].
    rewrite (group_size_take ps i p) by done. unfold plen. lia.
  - cbn [Nat.add]. by rewrite firstn_all.
Qed.

(** The data blocks once finished, and the FEC blocks before encoding. *)
Definition finished (i : nat) (p : bytes) : FECBlock :=
  mk_block (data_header sq n f i p)
    (p ++ replicate (Z.to_nat (mx - 2) - length p) x00) (Z.of_nat bs + 4).

Definition empty_fec (j : nat) : FECBlock :=
  mk_block (MkFECHeader sq (Z.of_nat (n + j)) (Z.of_nat n) (Z.of_nat f) (Z.of_nat bs - 2))
    (replicate (bs - 2) x00) (Z.of_nat bs + 4).

Lemma finish_pending i p :
  ps !! i = Some p -> finish_block (Z.of_nat n) (Z.of_nat bs) (pending_block e i p) = Some (finished i p).
Proof.
  intros Hi. unfold finish_block, pending_block. destruct bs_range as (? & ? & ?).
  rewrite adjust_block_size_mk, with_header_mk by (lia || by apply pending_header_ok).
  unfold finished, data_header, set_h_n_blocks. cbn. by rewrite Hf.
Qed.

Lemma new_fec_block_ok j :
  (j < f)%nat -> new_fec_block e (Z.of_nat n) (Z.of_nat bs) j = Some (empty_fec j).
Proof.
  intros Hj. unfold new_fec_block. destruct bs_range as (? & ? & ?). pose proof n_range.
  pose proof (ok_f _ _ _ _ Hg).
  rewrite FECBlock_new_mk by lia. unfold empty_fec. f_equal.
  rewrite Hf, !wrap_small by (change (2 ^ 16) with 65536; change (2 ^ 8) with 256; lia).
  f_equal; [f_equal; lia|f_equal; lia].
Qed.

Lemma finished_fec_data i p :
  ps !! i = Some p ->
  length (fec_data (finished i p)) = Z.to_nat mx /\
  forall j, (j < bs)%nat -> fec_data (finished i p) !!! j = fec_src bs p !!! j.
Proof.
  intros Hi. destruct (payload_fits i p Hi). destruct bs_range as (? & ? & ?).
  unfold finished. rewrite fec_data_mk. unfold fec_src, padded. cbn [h_length data_header].
  split.
  - rewrite !length_app, length_replicate. simpl. lia.
  - intros j Hj. rewrite !app_assoc. destruct (decide (j < length (le16 (plen p) ++ p))%nat) as [Hlt|Hge].
    + by rewrite !(lookup_total_app_l (le16 (plen p) ++ p)).
    + rewrite !(lookup_total_app_r (le16 (plen p) ++ p)) by lia. rewrite length_app in *. change (length (le16 (plen p))) with 2%nat in *.
      rewrite !lookup_total_replicate_2 by lia. done.
Qed.

Lemma empty_fec_data j : length (fec_data (empty_fec j)) = bs.
Proof.
  destruct bs_range as (? & ? & ?). unfold empty_fec. rewrite fec_data_mk, length_app, length_replicate.
  simpl. lia.
Qed.

Lemma data_fec_src i j :
  (i < n)%nat -> (j < bs)%nat ->
  ((fec_data <$> imap finished ps) !!! i) !!! j = src_byte bs ps i j.
Proof.
  intros Hi Hj. destruct (lookup_lt_is_Some_2 ps i Hi) as [p Hpi].
  unfold src_byte. rewrite (list_lookup_total_correct ps i p Hpi).
  rewrite <-(proj2 (finished_fec_data i p Hpi) j Hj). f_equal.
  apply list_lookup_total_correct. by rewrite list_lookup_fmap, list_lookup_imap, Hpi.
Qed.

(** The parity buffers that [fec_encode] leaves. *)
Lemma encode_parities :
  fec_encode T bs (fec_data <$> imap finished ps) n (fec_data <$> (empty_fec <$> seq 0 f)) f
    = Some (fec_bytes bs ps <$> seq 0 f).
Proof.
  pose proof n_range as Hn. pose proof (ok_f _ _ _ _ Hg) as Hf'. destruct bs_range as (? & ? & ?).
  assert (forall j, (j < f)%nat -> (fec_data <$> (empty_fec <$> seq 0 f)) !!! j = fec_data (empty_fec j)) as Hfl.
  { intros j Hj. apply list_lookup_total_correct. by rewrite !list_lookup_fmap, lookup_seq_lt. }
  destruct (fec_encode_spec T bs (fec_data <$> imap finished ps) n
    (fec_data <$> (empty_fec <$> seq 0 f)) f) as (fec' & -> & [Hl Hw] & Hx).
  - lia.
  - lia.
  - lia.
  - by rewrite length_fmap, length_imap.
  - by rewrite !length_fmap, length_seq.
  - intros i Hi. destruct (lookup_lt_is_Some_2 ps i Hi) as [p Hpi].
    rewrite (list_lookup_total_correct _ i (fec_data (finished i p))).
    + rewrite (proj1 (finished_fec_data i p Hpi)). lia.
    + by rewrite list_lookup_fmap, list_lookup_imap, Hpi.
  - intros j Hj. rewrite Hfl by done. by rewrite empty_fec_data.
  - f_equal. rewrite !length_fmap, length_seq in Hl.
    apply list_eq_same_length with f; [by rewrite length_fmap, length_seq|done|].
    intros j b b' Hj Hb Hb'. rewrite fmap_seq_lookup in Hb' by done. injection Hb' as <-.
    specialize (Hw j). rewrite Hfl, empty_fec_data in Hw by done.
    rewrite (list_lookup_total_correct _ _ _ Hb) in Hw.
    apply list_eq_total; [by rewrite length_fec_bytes|]. intros i Hi. rewrite Hw in Hi.
    specialize (Hx j i). rewrite decide_True, (list_lookup_total_correct _ _ _ Hb) in Hx by done.
    rewrite Hx, fec_bytes_lookup by done. unfold parity. apply gsum_ext. intros c Hc.
    by rewrite data_fec_src.
Qed.

Lemma wire_finished i p :
  ps !! i = Some p -> wire (finished i p) = Some (data_wire sq n f bs i p).
Proof.
  intros Hi. destruct (payload_fits i p Hi). destruct bs_range as (? & ? & ?).
  unfold wire, finished, mk_block, pkt_length, pkt_data. cbn [m_data m_data_length].
  rewrite !length_app, length_header_bytes, length_replicate.
  rewrite (proj2 (Nat.leb_le _ _)) by lia. f_equal. unfold data_wire, padded.
  rewrite take_app_ge, length_header_bytes by (rewrite length_header_bytes; lia). f_equal.
  rewrite take_app_ge by lia. f_equal. rewrite take_replicate. f_equal. lia.
Qed.

Lemma wire_fec j :
  (j < f)%nat -> wire (put_fec_data (fec_bytes bs ps j) (empty_fec j)) = Some (fec_wire sq f bs ps j).
Proof.
  intros Hj. destruct bs_range as (? & ? & ?).
  unfold wire, put_fec_data, empty_fec, mk_block, pkt_length, pkt_data. cbn [m_data m_data_length].
  rewrite length_app, length_fec_bytes. change (length (take 4 _)) with 4%nat.
  rewrite (proj2 (Nat.leb_le _ _)) by lia. f_equal.
  rewrite firstn_all2; [done|]. rewrite length_app, length_fec_bytes.
  change (length (take 4 _)) with 4%nat. lia.
Qed.

Lemma encode_blocks_pending :
  exists e' outs, encode_blocks T e = Some e' /\
    m_in_blocks e' = [] /\ m_seq_num e' = next_seq sq /\ m_num_blocks e' = m_num_blocks e /\
    m_num_fec_blocks e' = m_num_fec_blocks e /\ m_max_block_size e' = mx /\
    m_out_blocks e' = m_out_blocks e ++ outs /\ mapM wire outs = Some (group_wires sq f ps).
Proof.
  pose proof n_range as Hn. unfold encode_blocks.
  replace (length (m_in_blocks e)) with n by (by rewrite Hp, length_imap).
  rewrite wrap_small by (change (2 ^ 8) with 256; lia).
  rewrite (proj2 (Z.eqb_neq _ _)) by lia. rewrite Nat2Z.id, largest_block_pending. cbn [mbind option_bind].
  rewrite (proj2 (Z.ltb_ge _ _)) by done.
  rewrite firstn_all2 by (rewrite Hp, length_imap; done). rewrite Hp.
  rewrite (mapM_imap _ _ finished) by (by intros; apply finish_pending). cbn [mbind option_bind].
  rewrite Hf, !Nat2Z.id.
  assert (mapM (new_fec_block e (Z.of_nat n) (Z.of_nat bs)) (seq 0 f) = Some (empty_fec <$> seq 0 f)) as ->.
  { rewrite <-(list_fmap_id (seq 0 f)) at 1. apply mapM_fmap_Some. intros j Hj.
    apply new_fec_block_ok. apply elem_of_seq in Hj. lia. }
  cbn [mbind option_bind]. rewrite ?Nat2Z.id, encode_parities. cbn [mbind option_bind].
  eexists _, _. split; [done|]. cbn. split; [done|]. split; [done|]. split; [done|]. split; [done|].
  split; [done|]. split; [done|]. unfold group_wires. apply mapM_app_Some.
  - apply mapM_imap. apply wire_finished.
  - rewrite zip_with_fmap_l, zip_with_fmap_r, zip_with_diag.
    apply (mapM_fmap_Some wire _ (fec_wire sq f bs ps)). intros j Hj. apply wire_fec.
    apply elem_of_seq in Hj. lia.
Qed.
End encode.

(** ** Sending payloads *)

Fixpoint send_all (T : fec_state) (e : FECEncoder) (ps : list bytes) : option FECEncoder :=
  match ps with
  | [] => Some e
  | p :: ps => e ← send T e p; send_all T e ps
  end.

Lemma send_pending T e p :
  enc_ok e -> 0 < m_num_fec_blocks e -> 0 < m_num_blocks e ->
  Z.of_nat (length (m_in_blocks e)) < m_num_blocks e ->
  plen p + 2 <= m_max_block_size e -> m_max_block_size e + 4 < 65536 ->
  let e1 := set_in e (m_in_blocks e ++ [pending_block e (length (m_in_blocks e)) p]) in
  send T e p = if Z.of_nat (length (m_in_blocks e)) + 1 =? m_num_blocks e then encode_blocks T e1 else Some e1.
Proof.
  intros Hok Hf Hn Hlt Hp Hmx e1. pose proof (enc_ok_length e Hok) as Hl. destruct Hok as [Hs Hnr Hfr Hm _].
  unfold plen in Hp. unfold send, get_next_block. rewrite FECBlock_new_mk by lia. cbn [mbind option_bind].
  rewrite copy_to_data_mk by (rewrite length_replicate; lia). cbn [mbind option_bind].
  rewrite drop_replicate. unfold add_block. rewrite wrap_small by (change (2 ^ 8) with 256; lia).
  rewrite with_header_mk by (repeat split; cbn; unfold plen; lia). cbn [mbind option_bind].
  rewrite !(proj2 (Z.eqb_neq _ 0)) by lia. cbn [orb].
  rewrite header_mk by (repeat split; cbn; unfold plen; lia). cbn [mbind option_bind].
  change (set_in e _) with e1.
  cbn [m_num_fec_blocks m_num_blocks e1 set_in h_block set_h_block]. rewrite (proj2 (Z.ltb_lt 0 _)) by done. cbn [andb].
  destruct (Z.eqb_spec (Z.of_nat (length (m_in_blocks e))) (m_num_blocks e - 1)),
    (Z.eqb_spec (Z.of_nat (length (m_in_blocks e)) + 1) (m_num_blocks e)); done || lia.
Qed.

(** Fewer payloads than a full group stay pending. *)
Lemma send_all_pending T e done_ ps :
  enc_ok e -> pending e done_ -> 0 < m_num_fec_blocks e ->
  Z.of_nat (length done_ + length ps) < m_num_blocks e ->
  m_max_block_size e + 4 < 65536 -> (forall p, p ∈ ps -> plen p + 2 <= m_max_block_size e) ->
  send_all T e ps = Some (set_in e (imap (pending_block e) (done_ ++ ps))) /\
  enc_ok (set_in e (imap (pending_block e) (done_ ++ ps))).
Proof.
  intros Hok Hpend Hf. revert e done_ Hok Hpend Hf. induction ps as [|p ps IH]; intros e dn Hok Hpend Hf Hlt Hmx Hp.
  - cbn [send_all]. rewrite app_nil_r, <-Hpend. by destruct e.
  - assert (length (m_in_blocks e) = length dn) as Hld by (by rewrite Hpend, length_imap).
    cbn [length] in Hlt. cbn [send_all]. rewrite send_pending; [|done|done|lia|lia|apply Hp; left|done].
    rewrite (proj2 (Z.eqb_neq _ _)) by lia. cbn [mbind option_bind]. rewrite Hld.
    set (e1 := set_in e (m_in_blocks e ++ [pending_block e (length dn) p])).
    destruct (IH e1 (dn ++ [p])) as [E1 E2].
    + pose proof (enc_ok_ranges e Hok) as (? & ? & ? & ?). split; try done. right. cbn.
      rewrite length_app, Hld. simpl. lia.
    + unfold pending. cbn. rewrite Hpend, imap_app. cbn. by rewrite Nat.add_0_r.
    + done.
    + cbn. rewrite length_app. simpl. lia.
    + done.
    + intros q Hq. apply Hp. by right.
    + rewrite <-app_assoc in E1, E2. split; [exact E1|exact E2].
Qed.

Lemma send_all_app T e ps qs : send_all T e (ps ++ qs) = send_all T e ps ≫= fun e => send_all T e qs.
Proof.
  revert e. induction ps as [|p ps IH]; intros e; cbn [send_all app]; [done|].
  destruct (send T e p); cbn [mbind option_bind]; [apply IH|done].
Qed.

(** More than 128 data blocks: [fec_encode] reads outside its table. *)
Lemma encode_blocks_too_many T e :
  length (inverse T) = 256%nat -> 0 < m_num_fec_blocks e -> 128 < Z.of_nat (length (m_in_blocks e)) < 256 ->
  encode_blocks T e = None.
Proof.
  intros HT Hf Hn. unfold encode_blocks. rewrite wrap_small by (change (2 ^ 8) with 256; lia).
  rewrite (proj2 (Z.eqb_neq _ _)) by lia. destruct (largest_block _ _) as [bs|]; cbn [mbind option_bind]; [|done].
  destruct (_ <? _); [done|]. destruct (mapM (finish_block _ _) _) as [blks|]; cbn [mbind option_bind]; [|done].
  destruct (mapM (new_fec_block _ _ _) _) as [fecs|]; cbn [mbind option_bind]; [|done].
  by rewrite fec_encode_too_many by lia.
Qed.

Lemma send_all_too_many T `{!GfTables T} e ps :
  enc_ok e -> m_in_blocks e = [] -> 0 < m_num_fec_blocks e -> 128 < m_num_blocks e ->
  Z.of_nat (length ps) = m_num_blocks e -> m_max_block_size e + 4 < 65536 ->
  (forall p, p ∈ ps -> plen p + 2 <= m_max_block_size e) -> send_all T e ps = None.
Proof.
  intros Hok Hidle Hf Hn Hl Hmx Hps. pose proof (enc_ok_ranges e Hok) as (_ & Hn' & _).
  destruct (exists_last (l := ps)) as (ps' & p & ->); [by intros ->; simpl in *; lia|].
  rewrite length_app in Hl. cbn [length] in Hl. rewrite send_all_app.
  destruct (send_all_pending T e [] ps') as [-> Hok1]; try done.
  { cbn [length Nat.add]. lia. }
  { intros q Hq. apply Hps, elem_of_app. by left. }
  cbn [app] in Hok1. cbn [mbind option_bind send_all app].
  rewrite (send_pending T _ p Hok1); cbn [m_in_blocks m_num_blocks m_num_fec_blocks m_max_block_size set_in];
    rewrite ?length_imap; try done; try lia.
  - rewrite (proj2 (Z.eqb_eq _ _)) by lia. rewrite encode_blocks_too_many; [done|apply gt_inv_length|done|].
    cbn. rewrite length_app, length_imap. cbn [length]. lia.
  - apply Hps, elem_of_app. right. left.
Qed.

(** A full group: the encoder emits exactly the wire format and is ready for
    the next group. *)
Section group.
Context (T : fec_state) `{!GfTables T}.
Context (e : FECEncoder) (ps : list bytes) (f : nat).
Context (Hok : enc_ok e) (Hidle : m_in_blocks e = []).
Context (Hg : group_ok (m_seq_num e) f (m_max_block_size e) ps).
Context (Hf : m_num_fec_blocks e = Z.of_nat f).

(** [e'] has put the packets of the group in its output queue. *)
Definition emitted (e' : FECEncoder) : Prop :=
  m_in_blocks e' = [] /\ m_seq_num e' = next_seq (m_seq_num e) /\ m_num_blocks e' = m_num_blocks e /\
  m_num_fec_blocks e' = m_num_fec_blocks e /\ m_max_block_size e' = m_max_block_size e /\
  exists outs, m_out_blocks e' = m_out_blocks e ++ outs /\
    mapM wire outs = Some (group_wires (m_seq_num e) f ps).

Lemma encode_pending_group :
  Z.of_nat (length ps) <= m_num_blocks e ->
  exists e', encode_blocks T (set_in e (imap (pending_block e) ps)) = Some e' /\ emitted e'.
Proof.
  intros Hn. destruct (encode_blocks_pending T (set_in e (imap (pending_block e) ps)) ps f)
    as (e' & outs & E & E1 & E2 & E3 & E4 & E5 & E6 & E7); try done.
  - exact (enc_ok_ranges e Hok).
  - exists e'. split; [done|]. split_and!; try done. by exists outs.
Qed.

Lemma Hf_pos : 0 < m_num_fec_blocks e.
Proof. rewrite Hf. pose proof (ok_f _ _ _ _ Hg). lia. Qed.

(** A partial group completed by [flush]. *)
Lemma flush_group :
  Z.of_nat (length ps) < m_num_blocks e ->
  exists e', (e1 ← send_all T e ps; flush T e1) = Some e' /\ emitted e'.
Proof.
  intros Hn. destruct (send_all_pending T e [] ps) as [-> _]; try done.
  - apply Hf_pos.
  - apply (ok_max _ _ _ _ Hg).
  - apply (ok_len _ _ _ _ Hg).
  - cbn [mbind option_bind]. apply encode_pending_group. lia.
Qed.

(** A full group. *)
Lemma send_group :
  Z.of_nat (length ps) = m_num_blocks e -> exists e', send_all T e ps = Some e' /\ emitted e'.
Proof.
  intros Hn. destruct (ok_n _ _ _ _ Hg) as [Hn0 _].
  destruct (exists_last (l := ps)) as (ps' & p & E); [by intros ->; simpl in *; lia|].
  assert (length ps = S (length ps')) as El by (rewrite E, length_app; simpl; lia).
  assert (forall q, q ∈ ps -> plen q + 2 <= m_max_block_size e) as Hlen by apply (ok_len _ _ _ _ Hg).
  pose proof (ok_max _ _ _ _ Hg) as Hmx. pose proof Hf_pos.
  destruct encode_pending_group as (e' & E' & He'); [lia|]. exists e'. split; [|done].
  rewrite E, send_all_app. destruct (send_all_pending T e [] ps') as [-> Hok1]; try done.
  { simpl. lia. }
  { intros q Hq. apply Hlen. rewrite E. apply elem_of_app. by left. }
  cbn [app] in Hok1. cbn [mbind option_bind send_all app].
  rewrite (send_pending T _ p Hok1); cbn [m_in_blocks m_num_blocks m_num_fec_blocks m_max_block_size set_in];
    rewrite ?length_imap; try done; try lia.
  2: { apply Hlen. rewrite E. apply elem_of_app. right. left. }
  rewrite (proj2 (Z.eqb_eq _ _)) by lia.
  replace (encode_blocks T _) with (Some e'); [done|]. rewrite <-E'. f_equal. unfold set_in. cbn.
  f_equal. rewrite E, imap_app. cbn. by rewrite Nat.add_0_r.
Qed.
End group.

(** A payload must leave room for its length field: copying one of
    [max_block_size - 1] bytes or more into a block of the encoder writes past
    the end of its allocation. *)
Lemma send_oversized (T : fec_state) (e : FECEncoder) (p : list byte) :
  2 <= m_max_block_size e -> m_max_block_size e + 4 < 65536 -> m_max_block_size e < plen p + 2 ->
  send T e p = None.
Proof.
  intros H1 H2 Hp. unfold send, get_next_block. rewrite FECBlock_new_mk by done.
  cbn [mbind option_bind]. unfold copy_to_data. rewrite data_mk, length_replicate.
  unfold plen in Hp. by rewrite (proj2 (Nat.leb_gt _ _)) by lia.
Qed.

(** ** Properties *)

(** C15: a full group. Sending as many payloads as the group has data blocks
    puts exactly the packets of the wire format in the output queue (data
    packets padded to the largest, then the FEC packets), advances the sequence
    number skipping 0, and leaves the encoder ready for the next group. *)
Theorem encoder_emits_group (s : fec_state) (e : FECEncoder) (ps : list bytes) (f : nat) :
  fec_reachable s -> enc_ok e -> m_in_blocks e = [] ->
  group_ok (m_seq_num e) f (m_max_block_size e) ps -> m_num_fec_blocks e = Z.of_nat f ->
  Z.of_nat (length ps) = m_num_blocks e ->
  exists e', send_all (fec_init s) e ps = Some e' /\ emitted e ps f e'.
Proof.
  intros Hs. pose proof (fec_init_tables s Hs) as HT. generalize dependent (fec_init s). intros T HT. intros.
  by apply send_group.
Qed.

Definition demo_encoder (n : Z) : FECEncoder := MkFECEncoder 255 n 1 100 [] [].

Lemma demo_group_ok : group_ok 255 1 100 [[x01]; [x02; x03]].
Proof.
  split; simpl; try lia. intros p Hp.
  apply elem_of_cons in Hp as [->|Hp]; [done|]. by apply list_elem_of_singleton in Hp as ->.
Qed.

Lemma demo_encoder_ok n : 0 <= n < 256 -> enc_ok (demo_encoder n).
Proof. intros. split; cbn; auto; lia. Qed.

Lemma encoder_emits_group_witness :
  exists e', send_all (fec_init fec_static) (demo_encoder 2) [[x01]; [x02; x03]] = Some e' /\
    emitted (demo_encoder 2) [[x01]; [x02; x03]] 1 e'.
Proof.
  apply (encoder_emits_group fec_static (demo_encoder 2) [[x01]; [x02; x03]] 1 reach_static).
  - apply demo_encoder_ok. lia.
  - reflexivity.
  - exact demo_group_ok.
  - reflexivity.
  - reflexivity.
Defined.

(** C16: [flush] closes a group early: the packets are those of a group of the
    payloads sent so far, with that number in their headers. *)
Theorem encoder_flush_group (s : fec_state) (e : FECEncoder) (ps : list bytes) (f : nat) :
  fec_reachable s -> enc_ok e -> m_in_blocks e = [] ->
  group_ok (m_seq_num e) f (m_max_block_size e) ps -> m_num_fec_blocks e = Z.of_nat f ->
  Z.of_nat (length ps) < m_num_blocks e ->
  exists e1 e', send_all (fec_init s) e ps = Some e1 /\ m_out_blocks e1 = m_out_blocks e /\
    flush (fec_init s) e1 = Some e' /\ emitted e ps f e' /\ is_flushed e' = true.
Proof.
  intros Hs. pose proof (fec_init_tables s Hs) as HT. generalize dependent (fec_init s). intros T HT.
  intros Hok Hidle Hg Hf Hn. destruct (flush_group T e ps f Hok Hidle Hg Hf Hn) as (e' & E & He').
  destruct (send_all_pending T e [] ps) as [E1 _]; try done.
  - eapply Hf_pos; done.
  - apply (ok_max _ _ _ _ Hg).
  - apply (ok_len _ _ _ _ Hg).
  - rewrite E1 in E. cbn [mbind option_bind] in E. eexists _, e'. split; [exact E1|]. split; [done|].
    split; [exact E|]. split; [done|]. unfold is_flushed. apply bool_decide_true. by destruct He'.
Qed.

Lemma encoder_flush_group_witness :
  exists e1 e', send_all (fec_init fec_static) (demo_encoder 8) [[x01]; [x02; x03]] = Some e1 /\
    m_out_blocks e1 = [] /\ flush (fec_init fec_static) e1 = Some e' /\
    emitted (demo_encoder 8) [[x01]; [x02; x03]] 1 e' /\ is_flushed e' = true.
Proof.
  apply (encoder_flush_group fec_static (demo_encoder 8) [[x01]; [x02; x03]] 1 reach_static).
  - apply demo_encoder_ok. lia.
  - reflexivity.
  - exact demo_group_ok.
  - reflexivity.
  - reflexivity.
Defined.


(** Two blocks complete a group of two, with one FEC block; one block is flushed. *)
Definition demo_block (p : bytes) : FECBlock :=
  default (MkFECBlock [] 0) (b ← get_next_block (demo_encoder 2) (plen p); copy_to_data p b).
Definition demo_tables : fec_state := fec_init fec_static.

