(* ===== verification/PlainEncoder.v ===== *)
(** * The encoder without FEC

    With no data or no FEC packets configured, [FECEncoder] hands every packet
    on at once, padded to a whole block. *)

From S2P Require Import Prelude Gf256 FecBlock FecWire FecEncoder.

(** The packet of a payload: the header, and the data of the whole block. *)
Definition plain_wire (n f mx sq : Z) (p : list byte) : list byte :=
  header_bytes (MkFECHeader sq 0 n f (plen p)) ++ p ++ replicate (Z.to_nat (mx - 2) - length p) x00.

Fixpoint plain_wires (n f mx sq : Z) (ps : list (list byte)) : list (list byte) :=
  match ps with
  | [] => []
  | p :: ps => plain_wire n f mx sq p :: plain_wires n f mx (next_seq sq) ps
  end.

Record plain (n f mx : Z) (e : FECEncoder) : Prop := {
  pl_ok : enc_ok e;
  pl_in : m_in_blocks e = [];
  pl_off : f = 0 \/ n = 0;
  pl_n : m_num_blocks e = n;
  pl_f : m_num_fec_blocks e = f;
  pl_max : m_max_block_size e = mx
}.

Section encoder.
Context (T : fec_state) (n f mx : Z).
Context (Hmx : mx + 4 < 65536).

Lemma plain_ranges e : plain n f mx e -> 0 <= m_seq_num e < 256 /\ 0 <= n < 256 /\ 0 <= f < 256.
Proof. intros [Hok _ _ <- <- _]. by destruct (enc_ok_ranges e Hok) as (? & ? & ? & _). Qed.

(** A payload goes to the output at once; a flush has nothing to do. *)
Lemma send_plain e p :
  plain n f mx e -> plen p + 2 <= mx ->
  exists b e', FecEncoder.send T e p = Some e' /\ plain n f mx e' /\ m_seq_num e' = next_seq (m_seq_num e) /\
    FecEncoder.m_out_blocks e' = FecEncoder.m_out_blocks e ++ [b] /\
    wire b = Some (plain_wire n f mx (m_seq_num e) p).
Proof.
  intros He Hp. pose proof (plain_ranges e He) as (Hs & Hn & Hf). destruct He as [Hok Hin Hoff En Ef Em].
  unfold plen in Hp. unfold FecEncoder.send, get_next_block. rewrite FECBlock_new_mk by lia. cbn [mbind option_bind].
  rewrite copy_to_data_mk by (rewrite length_replicate; lia). cbn [mbind option_bind].
  unfold FecEncoder.add_block. rewrite Hin. cbn [length]. change (wrap 8 (Z.of_nat 0)) with 0.
  rewrite with_header_mk by (repeat split; cbn; unfold plen; lia). cbn [mbind option_bind].
  assert ((m_num_fec_blocks e =? 0) || (m_num_blocks e =? 0) = true) as ->.
  { apply orb_true_iff. rewrite !Z.eqb_eq. destruct Hoff; [left|right]; congruence. }
  eexists _, _. split; [reflexivity|]. split; [|split; [reflexivity|split; [reflexivity|]]].
  - pose proof (next_seq_range _ Hs). destruct Hok as [_ ? ? ? ?]. split; try done. split; try done. cbn. lia.
  - unfold wire, mk_block, pkt_length, pkt_data. cbn [m_data m_data_length set_h_block h_seq_num h_n_blocks h_n_fec_blocks h_length].
    rewrite !length_app, length_header_bytes, length_drop, length_replicate.
    rewrite (proj2 (Nat.leb_le _ _)) by lia. f_equal. rewrite take_ge.
    + unfold plain_wire. by rewrite drop_replicate, En, Ef, Em.
    + rewrite !length_app, length_header_bytes, length_drop, length_replicate. lia.
Qed.

(** Any number of payloads. *)
Lemma send_all_plain ps : forall e,
  plain n f mx e -> (forall p, p ∈ ps -> plen p + 2 <= mx) ->
  exists e' outs, send_all T e ps = Some e' /\ plain n f mx e' /\
    FecEncoder.m_out_blocks e' = FecEncoder.m_out_blocks e ++ outs /\
    mapM wire outs = Some (plain_wires n f mx (m_seq_num e) ps).
Proof.
  induction ps as [|p ps IH]; intros e He Hps.
  { exists e, []. by rewrite app_nil_r. }
  destruct (send_plain e p He (Hps p ltac:(left))) as (b & e1 & E1 & He1 & Es & Eo & Ew).
  cbn [send_all]. rewrite E1. cbn [mbind option_bind].
  destruct (IH e1 He1) as (e' & outs & -> & He' & Eo' & Ew'); [intros q Hq; apply Hps; by right|].
  exists e', (b :: outs). split; [done|]. split; [done|]. split; [by rewrite Eo', Eo, <-app_assoc|].
  cbn [mapM plain_wires]. by rewrite Ew, <-Es, Ew'.
Qed.

Lemma flush_plain e : plain n f mx e -> flush T e = Some e.
Proof. intros He. apply encode_blocks_nil. apply He. Qed.
End encoder.

Lemma length_plain_wire n f mx sq p : plen p + 2 <= mx -> length (plain_wire n f mx sq p) = Z.to_nat (mx + 4).
Proof.
  unfold plen. intros H. unfold plain_wire. rewrite !length_app, length_header_bytes, length_replicate. lia.
Qed.
