(* ===== verification/FecDecoder.v ===== *)
(** * [FECDecoder] of src/src/fec.cc

    A received data block is shared between [m_blocks] and the output queue;
    [fec_decode] only writes to freshly allocated blocks and to FEC blocks that
    are dropped afterwards, so blocks are values. [None] is an access outside
    a packet, a block or a vector. [size_t] has 64 bits. *)

From S2P Require Import Prelude Gf256 GfField GfVec FecCode FecBlock FecWire.

Record FECDecoderStats := MkStats {
  total_blocks : Z;
  total_packets : Z;
  dropped_blocks : Z;
  dropped_packets : Z;
  lost_sync : Z;
  bytes : Z
}.

Definition stats_zero : FECDecoderStats := MkStats 0 0 0 0 0 0.

Definition add64 (a b : Z) : Z := wrap 64 (a + b).
Definition sub64 (a b : Z) : Z := wrap 64 (a - b).

Definition stats_sub (s1 s2 : FECDecoderStats) : FECDecoderStats :=
  MkStats (sub64 (total_blocks s1) (total_blocks s2)) (sub64 (total_packets s1) (total_packets s2))
    (sub64 (dropped_blocks s1) (dropped_blocks s2)) (sub64 (dropped_packets s1) (dropped_packets s2))
    (sub64 (lost_sync s1) (lost_sync s2)) (sub64 (bytes s1) (bytes s2)).
Definition stats_add (s1 s2 : FECDecoderStats) : FECDecoderStats :=
  MkStats (add64 (total_blocks s1) (total_blocks s2)) (add64 (total_packets s1) (total_packets s2))
    (add64 (dropped_blocks s1) (dropped_blocks s2)) (add64 (dropped_packets s1) (dropped_packets s2))
    (add64 (lost_sync s1) (lost_sync s2)) (add64 (bytes s1) (bytes s2)).

Record FECDecoder := MkFECDecoder {
  m_block_size : Z;
  m_prev_header : FECHeader;
  m_blocks : list FECBlock;
  m_fec_blocks : list FECBlock;
  m_out_blocks : list FECBlock;    (* front first *)
  m_stats : FECDecoderStats
}.

Definition FECDecoder_new (T : fec_state) : fec_state * FECDecoder :=
  (fec_init T, MkFECDecoder 0 FECHeader_default [] [] [] stats_zero).

(** Updates of one field. *)
Definition set_prev (h : FECHeader) (d : FECDecoder) : FECDecoder :=
  MkFECDecoder (m_block_size d) h (m_blocks d) (m_fec_blocks d) (m_out_blocks d) (m_stats d).
Definition set_size (s : Z) (d : FECDecoder) : FECDecoder :=
  MkFECDecoder s (m_prev_header d) (m_blocks d) (m_fec_blocks d) (m_out_blocks d) (m_stats d).
Definition push_data (b : FECBlock) (d : FECDecoder) : FECDecoder :=
  MkFECDecoder (m_block_size d) (m_prev_header d) (m_blocks d ++ [b]) (m_fec_blocks d)
    (m_out_blocks d) (m_stats d).
Definition push_fec (b : FECBlock) (d : FECDecoder) : FECDecoder :=
  MkFECDecoder (m_block_size d) (m_prev_header d) (m_blocks d) (m_fec_blocks d ++ [b])
    (m_out_blocks d) (m_stats d).
Definition push_out (b : FECBlock) (d : FECDecoder) : FECDecoder :=
  MkFECDecoder (m_block_size d) (m_prev_header d) (m_blocks d) (m_fec_blocks d)
    (m_out_blocks d ++ [b]) (m_stats d).
Definition set_fec (l : list FECBlock) (d : FECDecoder) : FECDecoder :=
  MkFECDecoder (m_block_size d) (m_prev_header d) (m_blocks d) l (m_out_blocks d) (m_stats d).
Definition on_stats (f : FECDecoderStats -> FECDecoderStats) (d : FECDecoder) : FECDecoder :=
  MkFECDecoder (m_block_size d) (m_prev_header d) (m_blocks d) (m_fec_blocks d) (m_out_blocks d)
    (f (m_stats d)).

(** [m_block_size = 0; m_blocks.clear(); m_fec_blocks.clear();] *)
Definition reset (d : FECDecoder) : FECDecoder :=
  MkFECDecoder 0 (m_prev_header d) [] [] (m_out_blocks d) (m_stats d).

Definition add_dropped_blocks (n : Z) (s : FECDecoderStats) : FECDecoderStats :=
  MkStats (total_blocks s) (total_packets s) (add64 (dropped_blocks s) n) (dropped_packets s)
    (lost_sync s) (bytes s).
Definition add_dropped_packets (n : Z) (s : FECDecoderStats) : FECDecoderStats :=
  MkStats (total_blocks s) (total_packets s) (dropped_blocks s) (add64 (dropped_packets s) n)
    (lost_sync s) (bytes s).
Definition add_lost_sync (s : FECDecoderStats) : FECDecoderStats :=
  MkStats (total_blocks s) (total_packets s) (dropped_blocks s) (dropped_packets s)
    (add64 (lost_sync s) 1) (bytes s).
Definition add_total_block (s : FECDecoderStats) : FECDecoderStats :=
  MkStats (add64 (total_blocks s) 1) (total_packets s) (dropped_blocks s) (dropped_packets s)
    (lost_sync s) (bytes s).
Definition count_packet (len : Z) (s : FECDecoderStats) : FECDecoderStats :=
  MkStats (total_blocks s) (add64 (total_packets s) 1) (dropped_blocks s) (dropped_packets s)
    (lost_sync s) (add64 (bytes s) len).

(** ** [decode] *)

(** [blocks[block->header()->block] = block] for all received data blocks. *)
Fixpoint place_blocks (received : list FECBlock) (blocks : list (option FECBlock))
  : option (list (option FECBlock)) :=
  match received with
  | [] => Some blocks
  | b :: received =>
      h ← header b;
      let i := Z.to_nat (h_block h) in
      if (i <? length blocks)%nat then place_blocks received (<[i := Some b]> blocks) else None
  end.

(** A new block for every missing one; the state is [(erased_block_idxs, blocks)]. *)
Definition fill_erased (h : FECHeader) (block_size : Z) (i : nat)
    (s : list nat * list (option FECBlock)) : option (list nat * list (option FECBlock)) :=
  let '(erased, blocks) := s in
  match blocks !! i with
  | None => None
  | Some (Some _) => Some (erased, blocks)
  | Some None =>
      blk ← FECBlock_of_header h block_size;
      Some (erased ++ [i], <[i := Some blk]> blocks)
  end.

Definition fec_block_idx (b : FECBlock) : option nat :=
  h ← header b; Some (Z.to_nat (wrap 8 (h_block h - h_n_blocks h))).

(** The body of the last loop: release block [i] if its length is reasonable. *)
Definition release (blocks : list FECBlock) (i : nat) (d : FECDecoder) : option FECDecoder :=
  b ← blocks !! i;
  len ← data_length b;
  Some (if len <=? m_block_size d then push_out b d else on_stats (add_dropped_blocks 1) d).

Definition decode (T : fec_state) (d : FECDecoder) : option FECDecoder :=
  match m_blocks d with
  | [] => Some d
  | b0 :: _ =>
      h ← header b0;
      let n := Z.to_nat (h_n_blocks h) in
      if (length (m_blocks d) + length (m_fec_blocks d) <? n)%nat then Some (on_stats add_lost_sync d)
      else if (h_n_blocks h =? 0) || (h_n_fec_blocks h =? 0) then Some d
      else
        placed ← place_blocks (m_blocks d) (replicate n None);
        '(erased, placed) ← for_opt 0 n (fill_erased h (m_block_size d)) ([], placed);
        blocks ← mapM id placed;
        idxs ← mapM fec_block_idx (m_fec_blocks d);
        '(datas, fecs) ← fec_decode T (Z.to_nat (m_block_size d)) (fec_data <$> blocks) n
            (fec_data <$> m_fec_blocks d) idxs erased (length erased);
        let blocks := zip_with put_fec_data datas blocks in
        let d := set_fec (zip_with put_fec_data fecs (m_fec_blocks d)) d in
        e0 ← erased !! 0%nat;
        for_opt e0 (n - e0) (release blocks) d
  end.

(** ** [add_block] *)

(** [unrolled_seq] *)
Definition unroll (prev seq : Z) : Z := if seq <? prev then seq + 256 else seq.

(** The first packet of another sequence while one is being received. *)
Definition sequence_break (h : FECHeader) (d : FECDecoder) : FECDecoder :=
  let ph := m_prev_header d in
  let uprev := h_seq_num ph in
  let useq := unroll uprev (h_seq_num h) in
  let d :=
    if useq <? uprev then on_stats add_lost_sync d
    else
      let db := wrap 32 (useq - uprev) in
      let d := if 0 <? db then on_stats (add_dropped_blocks db) d else d in
      let per_seq := h_n_blocks h + h_n_fec_blocks h in
      let pbn := wrap 64 (uprev * per_seq + h_block ph) in
      let bn := wrap 64 (useq * per_seq + h_block h) in
      if pbn <? bn then on_stats (add_dropped_packets (wrap 64 (bn - pbn))) d else d in
  reset d.

(** Another packet of the sequence being received. *)
Definition sequence_continue (h : FECHeader) (d : FECDecoder) : FECDecoder :=
  let ph := m_prev_header d in
  if h_block h <=? h_block ph then on_stats (add_dropped_packets 1) d
  else
    let dropped := wrap 32 (h_block h - h_block ph - 1) in
    if 0 <? dropped then on_stats (add_dropped_packets dropped) d else d.

Definition accept_data (h : FECHeader) (blk : FECBlock) (d : FECDecoder) : option FECDecoder :=
  bs ← block_size blk;
  let d := set_size (Z.max (m_block_size d) bs) d in
  let d := push_data blk d in
  let d := if Z.of_nat (length (m_blocks d)) - 1 =? h_block h then push_out blk d else d in
  Some (if Z.of_nat (length (m_blocks d)) =? h_n_blocks h then on_stats add_total_block (reset d) else d).

Definition accept_fec (T : fec_state) (h : FECHeader) (blk : FECBlock) (d : FECDecoder)
  : option FECDecoder :=
  let d := push_fec blk d in
  if Z.of_nat (length (m_blocks d) + length (m_fec_blocks d)) =? h_n_blocks h then
    d ← decode T d; Some (on_stats add_total_block (reset d))
  else Some d.

(** From [ph = h] on. *)
Definition accept (T : fec_state) (h : FECHeader) (blk : FECBlock) (d : FECDecoder) : option FECDecoder :=
  let d := set_prev h d in
  let d := if (m_block_size d =? 0) && (0 <? h_block h)
           then on_stats (add_dropped_packets (h_block h)) d else d in
  data ← is_data_block blk;
  if data : bool then accept_data h blk d else accept_fec T h blk d.

Definition add_block (T : fec_state) (d : FECDecoder) (buf : list byte) (block_length : Z)
  : option FECDecoder :=
  blk ← FECBlock_of_packet buf block_length;
  h ← header blk;
  let uprev := h_seq_num (m_prev_header d) in
  let useq := unroll uprev (h_seq_num h) in
  let d := on_stats (count_packet block_length) d in
  if (h_n_blocks h =? 0) || (h_n_fec_blocks h =? 0) then
    let db := wrap 16 (useq - uprev - 1) in
    let d := on_stats (fun s => add_dropped_blocks db (add_dropped_packets db s)) d in
    Some (push_out blk (set_prev h d))
  else if negb (m_block_size d =? 0) then
    let d := if negb (uprev =? useq) then sequence_break h d else sequence_continue h d in
    accept T h blk d
  else if uprev =? useq then Some (set_prev h d)
  else accept T h blk d.

Definition get_block (d : FECDecoder) : option FECBlock * FECDecoder :=
  match m_out_blocks d with
  | [] => (None, d)
  | b :: out =>
      (Some b, MkFECDecoder (m_block_size d) (m_prev_header d) (m_blocks d) (m_fec_blocks d) out (m_stats d))
  end.

(** Receive a packet whose buffer is exactly its bytes. *)
Definition receive (T : fec_state) (d : FECDecoder) (pkt : list byte) : option FECDecoder :=
  add_block T d pkt (Z.of_nat (length pkt)).

Fixpoint receive_all (T : fec_state) (d : FECDecoder) (pkts : list (list byte)) : option FECDecoder :=
  match pkts with
  | [] => Some d
  | p :: pkts => d ← receive T d p; receive_all T d pkts
  end.

(** ** The output queue is only appended to

    What is in the output queue already has no influence. *)

Definition prepend_out (o : list FECBlock) (d : FECDecoder) : FECDecoder :=
  MkFECDecoder (m_block_size d) (m_prev_header d) (m_blocks d) (m_fec_blocks d) (o ++ m_out_blocks d) (m_stats d).

Lemma push_out_prepend o b d : push_out b (prepend_out o d) = prepend_out o (push_out b d).
Proof. unfold push_out, prepend_out. cbn. by rewrite app_assoc. Qed.

Lemma release_prepend o blocks i d : release blocks i (prepend_out o d) = prepend_out o <$> release blocks i d.
Proof.
  unfold release. destruct (blocks !! i) as [b|]; [|done]. cbn [mbind option_bind].
  destruct (data_length b) as [len|]; [|done]. cbn [mbind option_bind fmap option_fmap option_map].
  change (m_block_size (prepend_out o d)) with (m_block_size d).
  destruct (len <=? _); [by rewrite push_out_prepend|done].
Qed.

Lemma decode_prepend T o d : decode T (prepend_out o d) = prepend_out o <$> decode T d.
Proof.
  unfold decode. change (m_blocks (prepend_out o d)) with (m_blocks d).
  change (m_fec_blocks (prepend_out o d)) with (m_fec_blocks d).
  change (m_block_size (prepend_out o d)) with (m_block_size d).
  destruct (m_blocks d) as [|b0 bl]; [done|]. destruct (header b0) as [h|]; [|done]. cbn [mbind option_bind].
  destruct (_ <? _)%nat; [done|]. destruct (_ || _); [done|].
  destruct (place_blocks _ _) as [pl|]; [|done]. cbn [mbind option_bind].
  destruct (for_opt 0 _ _ _) as [[er pl2]|]; [|done]. cbn [mbind option_bind].
  destruct (mapM id pl2) as [bs|]; [|done]. cbn [mbind option_bind].
  destruct (mapM fec_block_idx _) as [ix|]; [|done]. cbn [mbind option_bind].
  destruct (fec_decode _ _ _ _ _ _ _ _) as [[da fe]|]; [|done]. cbn [mbind option_bind].
  destruct (er !! 0%nat) as [e0|]; [|done]. cbn [mbind option_bind].
  match goal with |- context [ set_fec ?l (prepend_out o d) ] =>
    change (set_fec l (prepend_out o d)) with (prepend_out o (set_fec l d)) end.
  apply (for_opt_fmap (prepend_out o)). intros i a. apply release_prepend.
Qed.

Lemma accept_prepend T o h blk d : accept T h blk (prepend_out o d) = prepend_out o <$> accept T h blk d.
Proof.
  unfold accept. change (m_block_size (set_prev h (prepend_out o d))) with (m_block_size (set_prev h d)).
  assert ((if (m_block_size (set_prev h d) =? 0) && (0 <? h_block h)
           then on_stats (add_dropped_packets (h_block h)) (set_prev h (prepend_out o d)) else set_prev h (prepend_out o d))
    = prepend_out o (if (m_block_size (set_prev h d) =? 0) && (0 <? h_block h)
           then on_stats (add_dropped_packets (h_block h)) (set_prev h d) else set_prev h d)) as ->
    by (by destruct (_ && _)).
  generalize (if (m_block_size (set_prev h d) =? 0) && (0 <? h_block h)
           then on_stats (add_dropped_packets (h_block h)) (set_prev h d) else set_prev h d). clear d. intros d.
  destruct (is_data_block blk) as [[]|]; [..|done]; cbn [mbind option_bind].
  - unfold accept_data. destruct (block_size blk) as [bs|]; [|done]. cbn [mbind option_bind fmap option_fmap option_map].
    f_equal. set (d1 := push_data blk (set_size (Z.max (m_block_size d) bs) d)).
    change (push_data blk (set_size (Z.max (m_block_size (prepend_out o d)) bs) (prepend_out o d))) with (prepend_out o d1).
    change (m_blocks (prepend_out o d1)) with (m_blocks d1).
    destruct (_ =? h_block h).
    + rewrite push_out_prepend. change (m_blocks (prepend_out o (push_out blk d1))) with (m_blocks (push_out blk d1)).
      by destruct (_ =? h_n_blocks h).
    + change (m_blocks (prepend_out o d1)) with (m_blocks d1). by destruct (_ =? h_n_blocks h).
  - unfold accept_fec. change (push_fec blk (prepend_out o d)) with (prepend_out o (push_fec blk d)).
    generalize (push_fec blk d). clear d. intros d.
    change (m_blocks (prepend_out o d)) with (m_blocks d). change (m_fec_blocks (prepend_out o d)) with (m_fec_blocks d).
    destruct (_ =? h_n_blocks h); [|done]. rewrite decode_prepend. by destruct (decode T d).
Qed.

Lemma sequence_prepend o h d :
  sequence_break h (prepend_out o d) = prepend_out o (sequence_break h d) /\
  sequence_continue h (prepend_out o d) = prepend_out o (sequence_continue h d).
Proof.
  unfold sequence_break, sequence_continue. change (m_prev_header (prepend_out o d)) with (m_prev_header d). split.
  - destruct (_ <? _); [done|]. by destruct (0 <? _), (_ <? _).
  - destruct (_ <=? _); [done|]. by destruct (0 <? _).
Qed.

Lemma add_block_prepend T o d buf len :
  add_block T (prepend_out o d) buf len = prepend_out o <$> add_block T d buf len.
Proof.
  unfold add_block. destruct (FECBlock_of_packet buf len) as [blk|]; [|done]. cbn [mbind option_bind].
  destruct (header blk) as [h|]; [|done]. cbn [mbind option_bind].
  change (m_prev_header (prepend_out o d)) with (m_prev_header d).
  change (on_stats (count_packet len) (prepend_out o d)) with (prepend_out o (on_stats (count_packet len) d)).
  generalize (on_stats (count_packet len) d). intros d1.
  destruct (_ || _).
  { cbn [fmap option_fmap option_map]. f_equal. rewrite <-push_out_prepend. done. }
  change (m_block_size (prepend_out o d1)) with (m_block_size d1).
  destruct (sequence_prepend o h d1) as [Hb Hc].
  destruct (negb (m_block_size d1 =? 0)).
  - destruct (negb _); rewrite ?Hb, ?Hc; apply accept_prepend.
  - destruct (_ =? _); [done|]. apply accept_prepend.
Qed.

Lemma receive_all_prepend T o d pkts :
  receive_all T (prepend_out o d) pkts = prepend_out o <$> receive_all T d pkts.
Proof.
  revert d. induction pkts as [|p pkts IH]; intros d; [done|]. cbn [receive_all]. unfold receive.
  rewrite add_block_prepend. destruct (add_block T d p _) as [d1|]; [|done].
  cbn [mbind option_bind fmap option_fmap option_map]. apply IH.
Qed.

(** ** What every packet does to the counters and the queue *)

(** [d'] continues [d]: the queue only grew, and [n] packets of [len] bytes
    in total were counted. *)
Definition continues (n len : Z) (d d' : FECDecoder) : Prop :=
  total_packets (m_stats d') = add64 (total_packets (m_stats d)) n /\
  bytes (m_stats d') = add64 (bytes (m_stats d)) len /\
  m_out_blocks d `prefix_of` m_out_blocks d'.

(** The same without counting: what the steps after the first lines keep. *)
Definition keeps (d d' : FECDecoder) : Prop :=
  total_packets (m_stats d') = total_packets (m_stats d) /\ bytes (m_stats d') = bytes (m_stats d) /\
  m_out_blocks d `prefix_of` m_out_blocks d'.

Lemma keeps_refl d : keeps d d.
Proof. by repeat split. Qed.

Lemma keeps_trans d1 d2 d3 : keeps d1 d2 -> keeps d2 d3 -> keeps d1 d3.
Proof. intros (? & ? & ?) (? & ? & ?). split; [congruence|]. split; [congruence|]. by etransitivity. Qed.

Lemma decode_keeps T d d' : decode T d = Some d' -> keeps d d' /\ m_prev_header d' = m_prev_header d.
Proof.
  unfold decode. destruct (m_blocks d) as [|b0 bl]; [by intros [= <-]|]. intros E. obind E.
  destruct (_ <? _)%nat; [by injection E as <-|]. destruct (_ || _); [by injection E as <-|].
  obind E. destruct (for_opt 0 _ _ _) as [[er pl]|] in E; [|done]. cbn [mbind option_bind] in E.
  obind E. obind E. destruct (fec_decode _ _ _ _ _ _ _ _) as [[da fe]|] in E; [|done].
  cbn [mbind option_bind] in E. obind E.
  eapply (for_opt_preserves (fun a => keeps d a /\ m_prev_header a = m_prev_header d)); [|exact E|done].
  intros i b b' Eb [Hk Hp]. unfold release in Eb. obind Eb. obind Eb. injection Eb as <-.
  destruct (_ <=? _); [|done]. split; [|done]. eapply keeps_trans; [exact Hk|].
  repeat split. cbn. by eexists [_].
Qed.

Lemma accept_keeps T h blk d d' : accept T h blk d = Some d' -> keeps d d' /\ m_prev_header d' = h.
Proof.
  unfold accept. set (d1 := if _ && _ then _ else _). assert (keeps d d1 /\ m_prev_header d1 = h) as [Hk Hp].
  { unfold d1. by destruct (_ && _). }
  clearbody d1. intros E. destruct (is_data_block blk) as [[]|]; cbn [mbind option_bind] in E; [| |done].
  - unfold accept_data in E. obind E. injection E as <-. destruct (_ =? _), (_ =? _); cbn; split; try done;
      (eapply keeps_trans; [exact Hk|]; repeat split; cbn; done || by exists [blk]).
  - unfold accept_fec in E. destruct (_ =? _).
    + obind E. injection E as <-. apply decode_keeps in E0 as [Hk' Hp']. cbn in *. split; [|congruence].
      eapply keeps_trans; [exact Hk|]. exact Hk'.
    + by injection E as <-.
Qed.

Lemma break_keeps h d : keeps d (sequence_break h d).
Proof. unfold sequence_break. by repeat case_match. Qed.

Lemma continue_keeps h d : keeps d (sequence_continue h d).
Proof. unfold sequence_continue. by repeat case_match. Qed.

(** The header of every packet is remembered. *)
Lemma add_block_prev T d buf len d' :
  add_block T d buf len = Some d' -> header_of (take (Z.to_nat len) buf) = Some (m_prev_header d').
Proof.
  unfold add_block, FECBlock_of_packet. destruct (_ <=? _)%nat; [|done]. cbn [mbind option_bind header m_data].
  intros E. unfold header in E. cbn [m_data] in E.
  destruct (header_of (take (Z.to_nat len) buf)) as [h|]; cbn [mbind option_bind] in E; [|done]. f_equal.
  destruct (_ || _); [by injection E as <-|]. destruct (negb _) in E.
  - symmetry. by eapply accept_keeps.
  - destruct (_ =? _); [by injection E as <-|]. symmetry. by eapply accept_keeps.
Qed.

Lemma add_block_continues T d buf len d' : add_block T d buf len = Some d' -> continues 1 len d d'.
Proof.
  unfold add_block. intros E. obind E. obind E.
  assert (forall d1, keeps (on_stats (count_packet len) d) d1 -> continues 1 len d d1) as Hc by done.
  apply Hc. clear Hc. destruct (_ || _).
  - injection E as <-. repeat split; try done. cbn. by exists [f].
  - destruct (negb (m_block_size _ =? 0)).
    + eapply keeps_trans; [|by eapply accept_keeps].
      destruct (negb _); [apply break_keeps|apply continue_keeps].
    + destruct (_ =? _); [by injection E as <-|by eapply accept_keeps].
Qed.

(** ** Packets without FEC *)

(** Such a packet is released whatever the state. *)
Lemma receive_plain (T : fec_state) (d : FECDecoder) (pkt : list byte) (h : FECHeader) :
  header_of pkt = Some h -> h_n_blocks h = 0 \/ h_n_fec_blocks h = 0 ->
  let db := wrap 16 (unroll (h_seq_num (m_prev_header d)) (h_seq_num h) - h_seq_num (m_prev_header d) - 1) in
  receive T d pkt = Some (push_out (MkFECBlock pkt (Z.of_nat (length pkt))) (set_prev h
    (on_stats (fun s => add_dropped_blocks db (add_dropped_packets db s))
      (on_stats (count_packet (Z.of_nat (length pkt))) d)))).
Proof.
  intros Eh Hoff. unfold receive, add_block, FECBlock_of_packet. rewrite Nat2Z.id, Nat.leb_refl, firstn_all.
  cbn [mbind option_bind]. unfold header. cbn [m_data]. rewrite Eh. cbn [mbind option_bind].
  assert ((h_n_blocks h =? 0) || (h_n_fec_blocks h =? 0) = true) as ->; [|done].
  apply orb_true_iff. destruct Hoff; [left|right]; by apply Z.eqb_eq.
Qed.

(** ** Properties *)

(** Every packet is accounted for exactly once, whatever it holds: the
    number of packets and of bytes grow by this packet, blocks already released
    stay in the queue in their order, and the header is remembered for the
    comparison with the next one. *)
Theorem add_block_accounting (T : fec_state) (d d' : FECDecoder) (buf : list byte) (len : Z) :
  add_block T d buf len = Some d' ->
  continues 1 len d d' /\ header_of (take (Z.to_nat len) buf) = Some (m_prev_header d').
Proof.
  intros E. split; [by eapply add_block_continues|by eapply add_block_prev].
Qed.

(** Two packets used by the examples: a data packet of a group of two, and a
    packet of a channel without FEC. *)
Definition demo_data : list byte := [x01; x00; x02; x01; x01; x00; xaa].
Definition demo_plain : list byte := [x07; x00; x00; x00; x01; x00; xaa].
Definition demo_decoder : FECDecoder := MkFECDecoder 0 FECHeader_default [] [] [] stats_zero.

Lemma add_block_accounting_witness :
  exists d', add_block fec_static demo_decoder demo_data 7 = Some d' /\
    continues 1 7 demo_decoder d' /\ header_of (take (Z.to_nat 7) demo_data) = Some (m_prev_header d').
Proof.
  destruct (add_block fec_static demo_decoder demo_data 7) as [d'|] eqn:E; [|vm_compute in E; discriminate E].
  exists d'. split; [reflexivity|]. exact (add_block_accounting fec_static demo_decoder d' demo_data 7 E).
Defined.

(** A packet shorter than a header is not rejected: its header is read
    (and remembered) past the end of the allocation, in every state. *)
Theorem short_packet_overread (T : fec_state) (d : FECDecoder) (pkt : list byte) :
  (length pkt < 6)%nat -> receive T d pkt = None.
Proof.
  intros Hl. unfold receive, add_block, FECBlock_of_packet. rewrite Nat2Z.id, Nat.leb_refl, firstn_all.
  cbn [mbind option_bind]. unfold header. cbn [m_data]. by rewrite header_of_None.
Qed.

Lemma short_packet_overread_witness : receive fec_static demo_decoder [x01; x02] = None.
Proof. apply (short_packet_overread fec_static demo_decoder [x01; x02]). simpl. lia. Defined.

(** Sequence numbers are unrolled before they are compared, so the branch
    that reports lost synchronisation is never taken: a new sequence is always
    counted as dropped blocks, one per step of the sequence number modulo 256
    (the number 0, which the encoder skips, included). *)
Theorem sequence_break_counts (h : FECHeader) (d : FECDecoder) :
  header_ok h -> header_ok (m_prev_header d) ->
  let d' := sequence_break h d in
  lost_sync (m_stats d') = lost_sync (m_stats d) /\
  (h_seq_num h <> h_seq_num (m_prev_header d) ->
   dropped_blocks (m_stats d')
     = add64 (dropped_blocks (m_stats d)) ((h_seq_num h - h_seq_num (m_prev_header d)) mod 256)) /\
  m_block_size d' = 0 /\ m_blocks d' = [] /\ m_fec_blocks d' = [].
Proof.
  intros (Hs & _) (Hp & _). cbv zeta. unfold sequence_break, unroll.
  set (s := h_seq_num h) in *. set (p := h_seq_num (m_prev_header d)) in *.
  assert (((if s <? p then s + 256 else s) <? p) = false) as ->.
  { apply Z.ltb_ge. destruct (Z.ltb_spec s p); lia. }
  split; [by repeat case_match|]. split; [|by repeat case_match]. intros Hne.
  assert (wrap 32 ((if s <? p then s + 256 else s) - p) = (s - p) mod 256) as ->.
  { unfold wrap. destruct (Z.ltb_spec s p).
    - rewrite Z.mod_small by lia. apply (Z.mod_unique _ _ (-1)); lia.
    - rewrite Z.mod_small by lia. symmetry. apply Z.mod_small. lia. }
  assert (0 < (s - p) mod 256) as Hpos.
  { destruct (decide ((s - p) mod 256 = 0)) as [E|]; [|pose proof (Z.mod_pos_bound (s - p) 256); lia].
    apply Z.div_exact in E; [|lia]. pose proof (Z.mod_pos_bound (s - p) 256). nia. }
  rewrite (proj2 (Z.ltb_lt 0 _)) by done. by repeat case_match.
Qed.

Lemma sequence_break_counts_witness :
  let d' := sequence_break (MkFECHeader 1 0 2 1 1)
    (MkFECDecoder 3 (MkFECHeader 255 0 2 1 1) [] [] [] stats_zero) in
  lost_sync (m_stats d') = 0 /\ (1 <> 255 -> dropped_blocks (m_stats d') = add64 0 ((1 - 255) mod 256)) /\
  m_block_size d' = 0 /\ m_blocks d' = [] /\ m_fec_blocks d' = [].
Proof.
  apply (sequence_break_counts (MkFECHeader 1 0 2 1 1)
    (MkFECDecoder 3 (MkFECHeader 255 0 2 1 1) [] [] [] stats_zero)); repeat split; simpl; lia.
Defined.

(** On a channel without FEC every packet is released at once, and the
    gap in the sequence numbers is counted as lost packets and blocks; a
    repeated sequence number counts as 65535 of each. *)
Theorem plain_packet_released (T : fec_state) (d : FECDecoder) (pkt : list byte) (h : FECHeader) :
  header_of pkt = Some h -> h_n_blocks h = 0 \/ h_n_fec_blocks h = 0 ->
  0 <= h_seq_num (m_prev_header d) < 256 ->
  exists d', receive T d pkt = Some d' /\
    m_out_blocks d' = m_out_blocks d ++ [MkFECBlock pkt (Z.of_nat (length pkt))] /\
    m_block_size d' = m_block_size d /\ m_blocks d' = m_blocks d /\ m_fec_blocks d' = m_fec_blocks d /\
    let gap := (h_seq_num h - h_seq_num (m_prev_header d)) mod 256 in
    let lost := if gap =? 0 then 65535 else gap - 1 in
    dropped_packets (m_stats d') = add64 (dropped_packets (m_stats d)) lost /\
    dropped_blocks (m_stats d') = add64 (dropped_blocks (m_stats d)) lost.
Proof.
  intros Eh Hoff Hp. destruct (header_of_split _ _ Eh) as [(Hs & _) _].
  rewrite (receive_plain _ _ _ h) by done. eexists. split; [done|]. cbn. split; [done|]. split; [done|]. split; [done|]. split; [done|].
  set (s := h_seq_num h) in *. set (p := h_seq_num (m_prev_header d)) in *.
  assert (wrap 16 (unroll p s - p - 1) = if (s - p) mod 256 =? 0 then 65535 else (s - p) mod 256 - 1) as ->;
    [|done].
  unfold unroll, wrap. change (2 ^ 16) with 65536. destruct (Z.ltb_spec s p).
  - assert ((s - p) mod 256 = s + 256 - p) as -> by (symmetry; apply (Z.mod_unique _ _ (-1)); lia).
    rewrite (proj2 (Z.eqb_neq _ _)) by lia. by rewrite Z.mod_small by lia.
  - rewrite (Z.mod_small (s - p)) by lia. destruct (Z.eqb_spec (s - p) 0) as [->|]; [done|].
    by rewrite Z.mod_small by lia.
Qed.

Lemma plain_packet_released_witness :
  exists d', receive fec_static demo_decoder demo_plain = Some d' /\
    m_out_blocks d' = [MkFECBlock demo_plain 7] /\
    m_block_size d' = 0 /\ m_blocks d' = [] /\ m_fec_blocks d' = [] /\
    dropped_packets (m_stats d') = 6 /\ dropped_blocks (m_stats d') = 6.
Proof.
  exact (plain_packet_released fec_static demo_decoder demo_plain (MkFECHeader 7 0 0 0 1) eq_refl
    (or_introl eq_refl) ltac:(simpl; lia)).
Defined.
