(* ===== verification/FecRecover.v ===== *)
(** * The decoder on the packets of one group

    The packets of a group reach the decoder in order, some of them lost. This
    file follows the decoder through such a sequence: the state after each
    packet, the decoding step, and the payloads released. *)

From S2P Require Import Prelude Gf256 GfField GfVec FecCode FecBlock FecWire FecDecoder.
Local Open Scope nat_scope.

Section group.
Context (T : fec_state) `{!GfTables T}.
Context (sq : Z) (f : nat) (mx : Z) (ps : list (list byte)).
Context (Hg : group_ok sq f mx ps).

Local Abbreviation n := (length ps).
Local Abbreviation bs := (group_size ps).

(** Packet [x] of the group, and the block the decoder makes of it. *)
Definition pkt (x : nat) : list byte := group_wires sq f ps !!! x.
Definition rblk (x : nat) : FECBlock := MkFECBlock (pkt x) (Z.of_nat (length (pkt x))).

Lemma group_bounds : (0 < n <= 128) /\ (0 < f <= 128) /\ 2 <= bs /\ (Z.of_nat bs + 4 < 65536)%Z.
Proof.
  destruct (ok_size _ _ _ _ Hg). pose proof (ok_n _ _ _ _ Hg). pose proof (ok_f _ _ _ _ Hg).
  pose proof (ok_max _ _ _ _ Hg). repeat split; lia.
Qed.

Lemma payload_in i : i < n -> (ps !!! i) ∈ ps.
Proof. intros Hi. eapply list_elem_of_lookup_2. by apply list_lookup_lookup_total_lt. Qed.

Lemma payload_size i : i < n -> length (ps !!! i) + 2 <= bs.
Proof. intros Hi. by apply group_size_ge, payload_in. Qed.

Lemma pkt_data_eq i : i < n -> pkt i = data_wire sq n f bs i (ps !!! i).
Proof.
  intros Hi. unfold pkt, group_wires. rewrite lookup_total_app_l by (by rewrite length_imap).
  apply list_lookup_total_correct. rewrite list_lookup_imap.
  by rewrite (list_lookup_lookup_total_lt ps i).
Qed.

Lemma pkt_fec_eq j : j < f -> pkt (n + j) = fec_wire sq f bs ps j.
Proof.
  intros Hj. unfold pkt, group_wires. rewrite lookup_total_app_r by (rewrite length_imap; lia).
  rewrite length_imap. replace (n + j - n) with j by lia.
  apply list_lookup_total_correct. by apply (fmap_seq_lookup (fec_wire sq f bs ps)).
Qed.

Lemma header_data i : i < n -> header (rblk i) = Some (data_header sq n f i (ps !!! i)).
Proof.
  intros Hi. unfold rblk, header. cbn [m_data]. rewrite pkt_data_eq by done.
  apply header_of_bytes. destruct group_bounds as (? & ? & ? & ?).
  eapply ok_header; [done|by apply payload_in|lia|lia].
Qed.

Lemma fec_data_data i : i < n -> FecBlock.fec_data (rblk i) = fec_src bs (ps !!! i).
Proof. intros Hi. unfold rblk, FecBlock.fec_data. cbn [m_data]. by rewrite pkt_data_eq. Qed.

Lemma fec_data_fec j : j < f -> FecBlock.fec_data (rblk (n + j)) = fec_bytes bs ps j.
Proof. intros Hj. unfold rblk, FecBlock.fec_data. cbn [m_data]. by rewrite pkt_fec_eq. Qed.

(** The fields the decoder uses of any packet of the group. *)
Definition group_header (x : nat) (h : FECHeader) : Prop :=
  header_ok h /\ h_seq_num h = sq /\ h_block h = Z.of_nat x /\ h_n_blocks h = Z.of_nat n /\
  h_n_fec_blocks h = Z.of_nat f.

Lemma header_rblk x : x < n + f -> exists h, header (rblk x) = Some h /\ group_header x h.
Proof.
  intros Hx. destruct group_bounds as (Hn & Hf & Hb & _). destruct (decide (x < n)) as [Hlt|Hge].
  - exists (data_header sq n f x (ps !!! x)). split; [by apply header_data|].
    split; [|done]. eapply ok_header; [done|by apply payload_in|lia|lia].
  - replace x with (n + (x - n)) by lia. set (j := x - n). assert (j < f) as Hj by lia.
    unfold rblk, header. cbn [m_data]. rewrite pkt_fec_eq by done. unfold fec_wire.
    destruct (fec_bytes bs ps j) as [|lo [|hi l]] eqn:E.
    1, 2: pose proof (length_fec_bytes bs ps j) as Hl; rewrite E in Hl; simpl in Hl; lia.
    cbn [app header_of]. eexists. split; [done|]. pose proof (ok_seq _ _ _ _ Hg).
    rewrite !u8_byte_of_small by lia. split; [|done].
    pose proof (of_le16_range lo hi). repeat split; cbn; lia.
Qed.

Lemma length_pkt x : x < n + f -> length (pkt x) = bs + 4.
Proof.
  intros Hx. destruct (decide (x < n)) as [Hlt|Hge].
  - rewrite pkt_data_eq, data_wire_split, length_app, length_fec_src by (done || by apply payload_size).
    simpl. lia.
  - replace x with (n + (x - n)) by lia. rewrite pkt_fec_eq by lia. unfold fec_wire.
    rewrite length_app, length_fec_bytes. simpl. lia.
Qed.

Lemma packet_rblk x : FECBlock_of_packet (pkt x) (Z.of_nat (length (pkt x))) = Some (rblk x).
Proof.
  unfold FECBlock_of_packet. rewrite Nat2Z.id, Nat.leb_refl. by rewrite firstn_all.
Qed.

(** ** The sequence of packets received *)

Definition datas (r : list nat) : list nat := filter (fun x => x < n) r.
Definition fecs (r : list nat) : list nat := filter (fun x => ~ x < n) r.

(** The blocks released so far: the initial run [0, 1, ..., g-1]. *)
Definition run (l : list nat) (g : nat) : Prop :=
  g <= length l /\ (forall i, i < g -> l !!! i = i) /\
  (forall i, g <= i -> i < length l -> i < l !!! i).

(** The state after the packets [r]; [st] are the counters of blocks. *)
Definition block_stats (d : FECDecoder) : Z * Z * Z :=
  (total_blocks (m_stats d), dropped_blocks (m_stats d), lost_sync (m_stats d)).

Record core (q0 : list FECBlock) (st : Z * Z * Z) (r : list nat) (d : FECDecoder) : Prop := {
  core_inc : increasing r;
  core_lt : forall x, x ∈ r -> x < n + f;
  core_size : m_block_size d = Z.of_nat (group_size ((fun i => ps !!! i) <$> datas r));
  core_blocks : m_blocks d = rblk <$> datas r;
  core_fec : m_fec_blocks d = rblk <$> fecs r;
  core_out : exists g, run (datas r) g /\ m_out_blocks d = q0 ++ (rblk <$> seq 0 g);
  core_stats : block_stats d = st
}.

Record mid (q0 : list FECBlock) (st : Z * Z * Z) (r : list nat) (d : FECDecoder) : Prop := {
  mid_core : core q0 st r d;
  mid_prev : exists x, last r = Some x /\ group_header x (m_prev_header d);
  mid_first : datas r <> []
}.

(** The group is complete: its payloads have been released, in order. *)
Record complete (q0 : list FECBlock) (st : Z * Z * Z) (d : FECDecoder) : Prop := {
  complete_idle : m_block_size d = 0%Z /\ m_blocks d = [] /\ m_fec_blocks d = [];
  complete_prev : exists x, group_header x (m_prev_header d);
  complete_out : exists outs, m_out_blocks d = q0 ++ outs /\ mapM payload outs = Some ps;
  complete_stats : block_stats d = (add64 st.1.1 1, st.1.2, st.2)
}.

Lemma increasing_snoc r x : increasing r -> (forall y, y ∈ r -> y < x) -> increasing (r ++ [x]).
Proof.
  intros Hr Hx i j Hij Hj. rewrite length_app in Hj. simpl in Hj.
  destruct (decide (j < length r)) as [Hjl|Hjl].
  - rewrite !lookup_total_app_l by lia. by apply Hr.
  - assert (j = length r) as -> by lia. rewrite lookup_total_app_l by lia.
    rewrite lookup_total_app_r, Nat.sub_diag by lia. apply Hx, elem_of_total. eauto.
Qed.

Lemma increasing_last r x y : increasing r -> last r = Some x -> y ∈ r -> y <= x.
Proof.
  intros Hr Hl Hy. apply last_Some in Hl as [l ->]. apply elem_of_total in Hy as (t & Ht & <-).
  rewrite length_app in Ht. simpl in Ht. destruct (decide (t = length l)) as [->|Hne].
  - by rewrite lookup_total_app_r, Nat.sub_diag by lia.
  - specialize (Hr t (length l) ltac:(lia) ltac:(rewrite length_app; simpl; lia)).
    rewrite (lookup_total_app_r l [x] (length l)), Nat.sub_diag in Hr by lia. simpl in Hr. lia.
Qed.

Lemma increasing_filter P `{!forall x, Decision (P x)} r : increasing r -> increasing (filter P r).
Proof.
  induction r as [|x r IH] using rev_ind; intros Hr; [done|].
  assert (increasing r) as Hr'.
  { intros i j Hij Hj. specialize (Hr i j Hij). rewrite !lookup_total_app_l in Hr by lia.
    apply Hr. rewrite length_app. lia. }
  rewrite filter_app, filter_cons, filter_nil. destruct (decide (P x)).
  - apply increasing_snoc; [by apply IH|]. intros y Hy. apply list_elem_of_filter in Hy as [_ Hy].
    apply elem_of_total in Hy as (t & Ht & <-). specialize (Hr t (length r) Ht).
    rewrite lookup_total_app_l, lookup_total_app_r, Nat.sub_diag in Hr by lia.
    apply Hr. rewrite length_app. simpl. lia.
  - rewrite app_nil_r. by apply IH.
Qed.

Lemma run_snoc l g x :
  run l g -> (forall y, y ∈ l -> y < x) ->
  run (l ++ [x]) (if decide (x = length l) then S (length l) else g) /\ (x = length l -> g = length l).
Proof.
  intros (Hg1 & Hg2 & Hg3) Hx.
  assert (forall i, i < length l -> i <= l !!! i) as Hge.
  { intros i Hi. destruct (decide (i < g)) as [Hig|Hig]; [by rewrite Hg2|].
    specialize (Hg3 i ltac:(lia) Hi). lia. }
  assert (length l <= x) as Hlx.
  { destruct (length l) as [|k] eqn:E; [lia|]. specialize (Hge k ltac:(lia)).
    specialize (Hx (l !!! k)). apply Nat.le_lt_trans with (l !!! k); [done|].
    apply Hx, elem_of_total. exists k. split; [lia|done]. }
  assert (x = length l -> g = length l) as Hgl.
  { intros ->. destruct (decide (g = length l)) as [|Hne]; [done|].
    specialize (Hg3 (length l - 1) ltac:(lia) ltac:(lia)).
    specialize (Hx (l !!! (length l - 1))).
    assert (l !!! (length l - 1) < length l); [|lia].
    apply Hx, elem_of_total. exists (length l - 1). split; [lia|done]. }
  split; [|done]. destruct (decide (x = length l)) as [E|Hne].
  - pose proof (Hgl E) as ->. split; [rewrite length_app; simpl; lia|]. split.
    + intros i Hi. destruct (decide (i = length l)) as [->|].
      * by rewrite lookup_total_app_r, Nat.sub_diag by lia.
      * rewrite lookup_total_app_l by lia. apply Hg2. lia.
    + intros i Hi. rewrite length_app. simpl. lia.
  - split; [rewrite length_app; simpl; lia|]. split.
    + intros i Hi. rewrite lookup_total_app_l by lia. by apply Hg2.
    + intros i Hi Hil. rewrite length_app in Hil. simpl in Hil.
      destruct (decide (i = length l)) as [->|].
      * rewrite lookup_total_app_r, Nat.sub_diag by lia. simpl. lia.
      * rewrite lookup_total_app_l by lia. apply Hg3; lia.
Qed.

Lemma datas_app r x : datas (r ++ [x]) = datas r ++ (if decide (x < n) then [x] else []).
Proof. unfold datas. rewrite filter_app, filter_cons, filter_nil. done. Qed.

Lemma fecs_app r x : fecs (r ++ [x]) = fecs r ++ (if decide (x < n) then [] else [x]).
Proof.
  unfold fecs. rewrite filter_app, filter_cons, filter_nil.
  destruct (decide (x < n)); [by rewrite decide_False by auto|by rewrite decide_True].
Qed.

Lemma length_datas_fecs r : length (datas r) + length (fecs r) = length r.
Proof.
  induction r as [|x r IH] using rev_ind; [done|].
  rewrite datas_app, fecs_app, !length_app. destruct (decide (x < n)); simpl; lia.
Qed.

Lemma datas_all r : (forall y, y ∈ r -> y < n) -> datas r = r /\ fecs r = [].
Proof.
  induction r as [|x r IH] using rev_ind; intros Hr; [done|].
  destruct IH as [E1 E2]; [intros y Hy; apply Hr, elem_of_app; by left|].
  rewrite datas_app, fecs_app, E1, E2. by rewrite !decide_True by (apply Hr, elem_of_app; right; left).
Qed.

Lemma elem_datas r x : x ∈ datas r <-> x ∈ r /\ x < n.
Proof. unfold datas. rewrite list_elem_of_filter. tauto. Qed.

Lemma elem_fecs r x : x ∈ fecs r <-> x ∈ r /\ n <= x.
Proof. unfold fecs. rewrite list_elem_of_filter. split; intros []; split; done || lia. Qed.

(** ** Accepting a packet *)

Lemma payload_rblk i : i < n -> payload (rblk i) = Some (ps !!! i).
Proof.
  intros Hi. pose proof (payload_size i Hi). destruct group_bounds as (? & ? & ? & ?).
  unfold rblk. rewrite (pkt_data_eq i Hi) at 1. unfold data_wire.
  change (MkFECBlock (header_bytes ?h ++ ?p) ?l) with (mk_block h p l).
  rewrite payload_mk.
  - cbn [h_length data_header]. unfold plen, padded. rewrite Nat2Z.id. by rewrite take_app_length.
  - eapply ok_header; [done|by apply payload_in|lia|lia].
  - cbn [h_length data_header]. unfold plen. rewrite Nat2Z.id, length_padded by done. lia.
Qed.

Lemma block_size_rblk i :
  i < n -> block_size (rblk i) = Some (Z.of_nat (length (ps !!! i) + 2)).
Proof.
  intros Hi. pose proof (payload_size i Hi). destruct group_bounds as (? & ? & ? & ?).
  unfold block_size, data_length. rewrite header_data by done. cbn [mbind option_bind].
  cbn [h_length data_header]. unfold plen. rewrite wrap_small; [f_equal; lia|].
  change (2 ^ 16)%Z with 65536%Z. lia.
Qed.

Lemma is_data_rblk x : x < n + f -> is_data_block (rblk x) = Some (bool_decide (x < n)).
Proof.
  intros Hx. destruct (header_rblk x Hx) as (h & Eh & _ & _ & Hb & Hn & _).
  unfold is_data_block. rewrite Eh. cbn [mbind option_bind]. rewrite Hb, Hn. f_equal.
  destruct (Z.ltb_spec (Z.of_nat x) (Z.of_nat n)).
  - by rewrite bool_decide_true by lia.
  - by rewrite bool_decide_false by lia.
Qed.

(** What [accept] does before it looks at the kind of block. *)
Definition noted (h : FECHeader) (d : FECDecoder) : FECDecoder :=
  let d := set_prev h d in
  if (m_block_size d =? 0)%Z && (0 <? h_block h)%Z
  then on_stats (add_dropped_packets (h_block h)) d else d.

Lemma noted_core q0 st r d h : core q0 st r d -> core q0 st r (noted h d) /\ m_prev_header (noted h d) = h.
Proof. intros []. unfold noted. destruct (_ && _); by repeat split. Qed.

Lemma increasing_below r x : (forall y, y ∈ r -> y < x) -> x < n -> datas r = r /\ fecs r = [].
Proof. intros Hr Hx. apply datas_all. intros y Hy. specialize (Hr y Hy). lia. Qed.

Lemma elem_seq_0 k y : y ∈ seq 0 k <-> y < k.
Proof. rewrite elem_of_seq. lia. Qed.

(** A data block is stored, and released if all blocks before it have been. *)
Lemma push_data_core q0 st r d x :
  core q0 st r d -> (forall y, y ∈ r -> y < x) -> x < n ->
  let d1 := push_data (rblk x) (set_size (Z.max (m_block_size d) (Z.of_nat (length (ps !!! x) + 2))) d) in
  let d2 := if (Z.of_nat (length r + 1) - 1 =? Z.of_nat x)%Z then push_out (rblk x) d1 else d1 in
  core q0 st (r ++ [x]) d2 /\ m_prev_header d2 = m_prev_header d /\ length (m_blocks d2) = length r + 1 /\
  exists g, run (r ++ [x]) g /\ m_out_blocks d2 = q0 ++ (rblk <$> seq 0 g).
Proof.
  intros [Hinc Hlt Hsz Hb Hf (g & Hrun & Hout) Hst] Hx Hxn d1 d2.
  destruct (increasing_below r x Hx Hxn) as [Ed Ef]. rewrite Ed in *. rewrite Ef in Hf.
  destruct (run_snoc r g x Hrun Hx) as [Hrun' Hgx].
  assert (datas (r ++ [x]) = r ++ [x] /\ fecs (r ++ [x]) = []) as [Ed' Ef'].
  { rewrite datas_app, fecs_app, Ed, Ef. by rewrite !decide_True. }
  assert (m_block_size d1 = Z.of_nat (group_size ((fun i => ps !!! i) <$> r ++ [x]))) as Hs1.
  { cbn. rewrite Hsz, fmap_app. cbn [fmap list_fmap]. rewrite group_size_app. lia. }
  assert (m_blocks d1 = rblk <$> r ++ [x]) as Hb1 by (cbn; by rewrite Hb, fmap_app).
  assert (m_out_blocks d2 = q0 ++ (rblk <$> seq 0 (if decide (x = length r) then S (length r) else g))) as Ho.
  { unfold d2. destruct (decide (x = length r)) as [E|Hne].
    - rewrite (proj2 (Z.eqb_eq _ _)) by lia. cbn [push_out m_out_blocks d1 push_data set_size].
      rewrite Hout, (Hgx E), seq_S, fmap_app, E, app_assoc. done.
    - rewrite (proj2 (Z.eqb_neq _ _)) by lia. cbn [m_out_blocks d1 push_data set_size]. done. }
  assert (m_block_size d2 = m_block_size d1 /\ m_blocks d2 = m_blocks d1 /\
    m_fec_blocks d2 = m_fec_blocks d /\ m_stats d2 = m_stats d /\ m_prev_header d2 = m_prev_header d)
    as (E1 & E2 & E3 & E4 & E5) by (unfold d2; by destruct (_ =? _)%Z).
  split; [|split; [done|split; [rewrite E2, Hb1, length_fmap, length_app; simpl; lia|by eexists]]].
  split.
  - by apply increasing_snoc.
  - intros y Hy. apply elem_of_app in Hy as [Hy|Hy]; [by apply Hlt|].
    apply list_elem_of_singleton in Hy as ->. lia.
  - by rewrite E1, Hs1, Ed'.
  - by rewrite E2, Hb1, Ed'.
  - by rewrite E3, Hf, Ef'.
  - eexists. rewrite Ed'. split; [exact Hrun'|exact Ho].
  - unfold block_stats in *. by rewrite E4.
Qed.

Lemma accept_data_step q0 st r d h x :
  core q0 st r d -> (forall y, y ∈ r -> y < x) -> x < n -> header (rblk x) = Some h -> group_header x h ->
  exists d', accept_data h (rblk x) d = Some d' /\ m_prev_header d' = m_prev_header d /\
    if decide (length r + 1 = n)
    then m_block_size d' = 0%Z /\ m_blocks d' = [] /\ m_fec_blocks d' = [] /\
      m_out_blocks d' = q0 ++ (rblk <$> seq 0 n) /\ block_stats d' = (add64 st.1.1 1, st.1.2, st.2)
    else core q0 st (r ++ [x]) d'.
Proof.
  intros Hc Hx Hxn Eh (_ & _ & Hhb & Hhn & _). destruct (push_data_core q0 st r d x Hc Hx Hxn)
    as (Hcore & Hprev & Hlen & g & Hrun & Hout). destruct Hc as [_ _ _ Hb _ _ _].
  destruct (increasing_below r x Hx Hxn) as [Ed _]. rewrite Ed in Hb.
  unfold accept_data. rewrite block_size_rblk by done. cbn [mbind option_bind].
  cbv zeta. cbn [m_block_size m_blocks set_size push_data].
  rewrite !Hb, !length_app, !length_fmap, Hhb, Hhn. simpl length.
  set (d2 := if (_ =? _)%Z then push_out _ _ else _) in *.
  replace (if (Z.of_nat (length r + 1) - 1 =? Z.of_nat x)%Z then _ else _) with d2 by done.
  rewrite Hlen. destruct (decide (length r + 1 = n)) as [E|Hne].
  - rewrite (proj2 (Z.eqb_eq _ _)) by lia. eexists. split; [done|]. split; [exact Hprev|].
    cbn. split; [done|]. split; [done|]. split; [done|]. split.
    + rewrite Hout. f_equal. f_equal. f_equal. destruct Hrun as (H1 & H2 & H3). rewrite length_app in *. simpl in *.
      destruct (decide (g = length r + 1)); [lia|].
      specialize (H3 (length r) ltac:(lia) ltac:(lia)).
      rewrite lookup_total_app_r, Nat.sub_diag in H3 by lia. simpl in H3. lia.
    + destruct Hcore as [_ _ _ _ _ _ Hst2]. unfold block_stats in *. cbn. by rewrite <-Hst2.
  - rewrite (proj2 (Z.eqb_neq _ _)) by lia. eexists. split; [done|]. split; [exact Hprev|exact Hcore].
Qed.

(** ** Decoding *)

Section decoding.
Context (D : list nat) (HD : forall x, x ∈ D -> x < n) (h : FECHeader) (Hh : header_ok h).

(** The block allocated for a missing index, before decoding. *)
Definition eblk : FECBlock :=
  mk_block (set_h_length (Z.of_nat bs - 2) h) (replicate (bs - 2) x00) (Z.of_nat bs + 4).

Definition missing (k : nat) : list nat := filter (fun x => x ∉ D) (seq 0 k).

Lemma place_blocks_tbl D' (g : nat -> option FECBlock) :
  (forall x, x ∈ D' -> x < n) ->
  place_blocks (rblk <$> D') (g <$> seq 0 n)
    = Some ((fun j => if decide (j ∈ D') then Some (rblk j) else g j) <$> seq 0 n).
Proof.
  revert g. induction D' as [|x D' IH]; intros g HD'.
  - done.
  - cbn [fmap list_fmap place_blocks]. assert (x < n) as Hx by (apply HD'; left).
    rewrite header_data by done. cbn [mbind option_bind h_block data_header]. rewrite Nat2Z.id.
    rewrite length_fmap, length_seq, (proj2 (Nat.ltb_lt _ _)) by done.
    rewrite insert_fmap_seq by done. rewrite IH by (intros y Hy; apply HD'; by right).
    f_equal. apply fmap_seq_ext. intros j Hj.
    destruct (decide (j ∈ D')) as [Hin|Hin].
    + by rewrite decide_True by (by right).
    + destruct (decide (j = x)) as [->|Hne].
      * by rewrite decide_True by left.
      * rewrite decide_False; [done|]. intros Hj'. by apply elem_of_cons in Hj' as [?|?].
Qed.

Definition filled (k j : nat) : option FECBlock :=
  if decide (j ∈ D) then Some (rblk j) else if decide (j < k) then Some eblk else None.

Lemma fill_erased_loop :
  for_opt 0 n (fill_erased h (Z.of_nat bs)) ([], filled 0 <$> seq 0 n)
    = Some (missing n, filled n <$> seq 0 n).
Proof.
  destruct group_bounds as (? & ? & ? & ?).
  destruct (for_opt_inv (fun i s => s = (missing i, filled i <$> seq 0 n)) 0 n
    (fill_erased h (Z.of_nat bs)) ([], filled 0 <$> seq 0 n)) as (s & E & Es).
  - done.
  - intros i s Hi ->. unfold fill_erased. rewrite (fmap_seq_lookup (filled i)) by lia.
    unfold missing. rewrite seq_S, filter_app, filter_cons, filter_nil. cbn [Nat.add].
    unfold filled at 1. destruct (decide (i ∈ D)) as [Hin|Hin].
    + eexists. split; [done|]. rewrite decide_False by auto. rewrite app_nil_r. f_equal.
      apply fmap_seq_ext. intros j Hj. unfold filled. destruct (decide (j ∈ D)); [done|].
      destruct (decide (j < i)), (decide (j < S i)); try done; [lia|].
      assert (j = i) as -> by lia. done.
    + rewrite decide_False by lia. rewrite FECBlock_of_header_mk by (done || lia).
      replace (Z.to_nat (Z.of_nat bs - 2)) with (bs - 2) by lia. fold eblk.
      cbn [mbind option_bind]. eexists. split; [done|]. rewrite decide_True by done. f_equal.
      rewrite insert_fmap_seq by lia. apply fmap_seq_ext. intros j Hj. unfold filled.
      destruct (decide (j = i)) as [->|Hne].
      * rewrite decide_False, decide_True by (done || lia). done.
      * destruct (decide (j ∈ D)); [done|].
        destruct (decide (j < i)), (decide (j < S i)); done || lia.
  - rewrite E. f_equal. exact Es.
Qed.

Definition dblk (j : nat) : FECBlock := if decide (j ∈ D) then rblk j else eblk.

Lemma filled_all : mapM id (filled n <$> seq 0 n) = Some (dblk <$> seq 0 n).
Proof.
  apply (mapM_fmap_Some id (filled n) dblk). intros j Hj. apply elem_seq_0 in Hj.
  unfold filled, dblk, id. destruct (decide (j ∈ D)); [done|]. by rewrite decide_True.
Qed.

Lemma elem_missing k x : x ∈ missing k <-> x < k /\ x ∉ D.
Proof. unfold missing. rewrite list_elem_of_filter, elem_seq_0. tauto. Qed.

Lemma increasing_seq a k : increasing (seq a k).
Proof.
  intros i j Hij Hj. rewrite length_seq in Hj. rewrite !lookup_total_seq_lt by lia. lia.
Qed.

Lemma missing_increasing k : increasing (missing k).
Proof. apply increasing_filter. apply increasing_seq. Qed.

(** The first missing index is the length of the initial run. *)
Lemma missing_first g :
  run D g -> g < n -> missing n !! 0 = Some g.
Proof.
  intros (Hg1 & Hg2 & Hg3) Hgn.
  assert (forall i, i < g -> i ∈ D) as Hin.
  { intros i Hi. apply elem_of_total. exists i. split; [lia|by apply Hg2]. }
  assert (g ∉ D) as Hnot.
  { intros H. apply elem_of_total in H as (t & Ht & E). destruct (decide (t < g)) as [Hlt|Hge].
    - rewrite Hg2 in E by done. lia.
    - specialize (Hg3 t ltac:(lia) Ht). lia. }
  unfold missing. replace n with (g + S (n - S g)) by lia.
  rewrite seq_app, filter_app. cbn [seq]. rewrite filter_cons, decide_True by done.
  replace (filter (fun x => x ∉ D) (seq 0 g)) with (@nil nat); [done|].
  symmetry. destruct (filter _ (seq 0 g)) as [|i l] eqn:E; [done|]. exfalso.
  assert (i ∈ filter (fun x => x ∉ D) (seq 0 g)) as Hi by (rewrite E; left).
  apply list_elem_of_filter in Hi as [Hni Hi]. apply elem_seq_0 in Hi. auto.
Qed.

Lemma length_missing : NoDup D -> length (missing n) + length D = n.
Proof.
  intros Hnd. rewrite Nat.add_comm, <-length_app. rewrite <-(length_seq n 0) at 2.
  apply Permutation_length. apply NoDup_Permutation.
  - apply NoDup_app. split; [done|]. split.
    + intros x Hx Hm. by apply elem_missing in Hm as [_ ?].
    + apply increasing_NoDup, missing_increasing.
  - apply NoDup_seq.
  - intros x. rewrite elem_of_app, elem_missing, elem_seq_0. split.
    + intros [Hx|[Hx _]]; [by apply HD|done].
    + intros Hx. destruct (decide (x ∈ D)); [by left|by right].
Qed.

Lemma length_fec_data_dblk j : j < n -> length (FecBlock.fec_data (dblk j)) = bs.
Proof.
  intros Hj. destruct group_bounds as (? & ? & ? & ?). unfold dblk. destruct (decide (j ∈ D)).
  - rewrite fec_data_data by done. apply length_fec_src. by apply payload_size.
  - unfold eblk. rewrite fec_data_mk, length_app, length_replicate. simpl. lia.
Qed.

(** Block [j] after decoding. *)
Definition rec_blk (j : nat) : FECBlock := put_fec_data (fec_src bs (ps !!! j)) (dblk j).

Lemma rec_blk_payload j :
  j < n -> payload (rec_blk j) = Some (ps !!! j) /\ data_length (rec_blk j) = Some (plen (ps !!! j)).
Proof.
  intros Hj. pose proof (payload_size j Hj) as Hp. destruct group_bounds as (? & ? & ? & ?).
  assert (exists h', header_ok h' /\ h_length h' = plen (ps !!! j) /\
            rec_blk j = mk_block h' (padded bs (ps !!! j)) (m_data_length (dblk j)))
    as (h' & Hh' & Hl' & ->).
  { unfold rec_blk, dblk. destruct (decide (j ∈ D)).
    - exists (data_header sq n f j (ps !!! j)).
      split; [eapply ok_header; [done|by apply payload_in|lia|lia]|]. split; [done|].
      unfold put_fec_data, rblk. cbn [m_data m_data_length]. by rewrite !pkt_data_eq by done.
    - exists (set_h_length (plen (ps !!! j)) h). unfold plen.
      split; [destruct Hh as (? & ? & ? & ? & ?); repeat split; cbn; lia|]. split; done. }
  unfold data_length. rewrite header_mk by done. cbn [mbind option_bind]. rewrite Hl'. split; [|done].
  rewrite payload_mk by (rewrite ?Hl', ?length_padded; unfold plen; rewrite ?Nat2Z.id; done || lia).
  rewrite Hl'. unfold plen, padded. rewrite Nat2Z.id. by rewrite take_app_length.
Qed.

Lemma release_loop g d :
  g <= n -> m_block_size d = Z.of_nat bs ->
  exists d', for_opt g (n - g) (release (rec_blk <$> seq 0 n)) d = Some d' /\
    m_out_blocks d' = m_out_blocks d ++ (rec_blk <$> seq g (n - g)) /\
    m_prev_header d' = m_prev_header d /\ m_stats d' = m_stats d.
Proof.
  intros Hgn Hs. destruct (for_opt_inv (fun i d1 => m_block_size d1 = m_block_size d /\
    m_out_blocks d1 = m_out_blocks d ++ (rec_blk <$> seq g (i - g)) /\
    m_prev_header d1 = m_prev_header d /\ m_stats d1 = m_stats d) g (n - g)
    (release (rec_blk <$> seq 0 n)) d) as (d' & -> & _ & E).
  - rewrite Nat.sub_diag, app_nil_r. done.
  - intros i d1 Hi (E1 & E2 & E3 & E4). unfold release.
    rewrite (fmap_seq_lookup rec_blk) by lia. cbn [mbind option_bind].
    destruct (rec_blk_payload i) as [_ ->]; [lia|]. cbn [mbind option_bind].
    pose proof (payload_size i ltac:(lia)). unfold plen.
    rewrite (proj2 (Z.leb_le _ _)) by (rewrite E1, Hs; lia).
    eexists. split; [done|]. cbn. split; [done|]. split; [|done].
    rewrite E2, <-app_assoc. f_equal. replace (S i - g) with (S (i - g)) by lia.
    rewrite seq_S, fmap_app. cbn. by replace (g + (i - g)) with i by lia.
  - exists d'. replace (g + (n - g) - g) with (n - g) in E by lia. done.
Qed.
End decoding.

Lemma fec_idx_rblk F :
  (forall x, x ∈ F -> n <= x < n + f) ->
  mapM fec_block_idx (rblk <$> F) = Some ((fun x => x - n) <$> F).
Proof.
  intros HF. apply (mapM_fmap_Some _ rblk). intros x Hx. specialize (HF x Hx).
  destruct (header_rblk x) as (h & Eh & _ & _ & Hb & Hn & _); [lia|].
  destruct group_bounds as (? & ? & ? & ?).
  unfold fec_block_idx. rewrite Eh. cbn [mbind option_bind]. rewrite Hb, Hn. f_equal.
  rewrite wrap_small by (change (2 ^ 8)%Z with 256%Z; lia). lia.
Qed.

(** What [fec_decode] is given: the memory of a block from its length field on. *)
Lemma dblk_memory D h j : j < n -> (FecBlock.fec_data <$> (dblk D h <$> seq 0 n)) !!! j = FecBlock.fec_data (dblk D h j).
Proof.
  intros Hj. rewrite <-list_fmap_compose. apply list_lookup_total_correct.
  by rewrite (fmap_seq_lookup (FecBlock.fec_data ∘ dblk D h)).
Qed.

Lemma rblk_memory F t :
  t < length F -> n <= F !!! t < n + f -> (FecBlock.fec_data <$> (rblk <$> F)) !!! t = fec_bytes bs ps (F !!! t - n).
Proof.
  intros Ht HF. apply list_lookup_total_correct.
  rewrite !list_lookup_fmap, (list_lookup_lookup_total_lt F t) by done. cbn. f_equal.
  replace (F !!! t) with (n + (F !!! t - n)) at 1 by lia. apply fec_data_fec. lia.
Qed.

(** Blocks that hold the protected bytes are the blocks of the sender. *)
Lemma blocks_are_sources data :
  length data = n -> (forall j, j < n -> length (data !!! j) = bs) ->
  (forall j i, j < n -> i < bs -> (data !!! j) !!! i = src_byte bs ps j i) ->
  data = (fun j => fec_src bs (ps !!! j)) <$> seq 0 n.
Proof.
  intros Hl Hw Hx. apply list_eq_same_length with n; [by rewrite length_fmap, length_seq|done|].
  intros j b b' Hj Hb Hb'. rewrite fmap_seq_lookup in Hb' by done. injection Hb' as <-.
  specialize (Hw j Hj). rewrite (list_lookup_total_correct _ _ _ Hb) in Hw.
  apply list_eq_total; [by rewrite Hw, length_fec_src by (by apply payload_size)|].
  intros i Hi. rewrite Hw in Hi. specialize (Hx j i Hj Hi).
  by rewrite (list_lookup_total_correct _ _ _ Hb) in Hx.
Qed.

(** [fec_decode] on the blocks of the decoder recovers the protected bytes. *)
Lemma decode_blocks D F h :
  (forall x, x ∈ D -> x < n) -> increasing D ->
  (forall x, x ∈ F -> n <= x < n + f) -> increasing F ->
  length D + length F = n -> header_ok h ->
  exists fec', fec_decode T bs (FecBlock.fec_data <$> (dblk D h <$> seq 0 n)) n
      (FecBlock.fec_data <$> (rblk <$> F)) ((fun x => x - n) <$> F) (missing D n) (length (missing D n))
    = Some ((fun j => fec_src bs (ps !!! j)) <$> seq 0 n, fec').
Proof.
  intros HD HDi HF HFi Hlen Hh. destruct group_bounds as (? & ? & ? & ?).
  pose proof (length_missing D HD (increasing_NoDup D HDi)) as Hml.
  assert (forall t, t < length F -> ((fun x => x - n) <$> F) !!! t = F !!! t - n) as Hnol.
  { intros t Ht. apply list_lookup_total_correct.
    by rewrite list_lookup_fmap, (list_lookup_lookup_total_lt F t). }
  assert (forall t, t < length F -> n <= F !!! t < n + f) as HFt.
  { intros t Ht. apply HF, elem_of_total. eauto. }
  destruct (fec_decode_spec T bs n (length F) (src_byte bs ps)
    ((fun x => x - n) <$> F) (missing D n)) with (data := FecBlock.fec_data <$> (dblk D h <$> seq 0 n))
    (fec := FecBlock.fec_data <$> (rblk <$> F)) as (data' & fec' & E & [Hl Hw] & _ & Hx).
  - lia.
  - by rewrite length_fmap.
  - lia.
  - intros t Ht. rewrite Hnol by done. specialize (HFt t Ht). lia.
  - apply increasing_NoDup. intros i j Hij Hj. rewrite length_fmap in Hj.
    rewrite !Hnol by lia. specialize (HFi i j Hij Hj). pose proof (HFt i ltac:(lia)). lia.
  - intros t Ht. assert (missing D n !!! t ∈ missing D n) as Hin by (apply elem_of_total; exists t; split; [lia|done]).
    by apply elem_missing in Hin as [? _].
  - apply missing_increasing.
  - split; [by rewrite !length_fmap, length_seq|]. split.
    + intros j Hj. rewrite dblk_memory, length_fec_data_dblk by done. done.
    + intros j i Hj Hi Hnm. rewrite dblk_memory by done. unfold dblk.
      rewrite decide_True by (destruct (decide (j ∈ D)); [done|]; exfalso; apply Hnm, elem_missing; done).
      by rewrite fec_data_data.
  - by rewrite !length_fmap.
  - intros t Ht. rewrite rblk_memory by auto. by rewrite length_fec_bytes.
  - intros t i Ht Hi. rewrite rblk_memory, fec_bytes_lookup, Hnol by auto. done.
  - replace (length (missing D n)) with (length F) by lia. exists fec'. rewrite E. f_equal. f_equal.
    apply blocks_are_sources; [by rewrite Hl, !length_fmap, length_seq| |exact Hx].
    intros j Hj. by rewrite Hw, dblk_memory, length_fec_data_dblk.
Qed.

(** The longest payload is among the data packets [r]. *)
Definition longest_received (r : list nat) : Prop :=
  exists i, i ∈ datas r /\ length (ps !!! i) + 2 = bs.

Lemma longest_size r : longest_received r -> group_size ((fun i => ps !!! i) <$> datas r) = bs.
Proof.
  intros (i & Hi & El). apply Nat.le_antisymm.
  - apply group_size_le. intros p Hp. apply list_elem_of_fmap in Hp as (j & -> & Hj).
    apply elem_datas in Hj as [_ Hj]. by apply payload_size.
  - rewrite <-El. apply group_size_ge. apply list_elem_of_fmap. by exists i.
Qed.

Lemma payloads_eq : ps = (fun i => ps !!! i) <$> seq 0 n.
Proof.
  apply list_eq. intros i. destruct (decide (i < n)) as [Hi|Hi].
  - by rewrite (fmap_seq_lookup (fun i => ps !!! i)), (list_lookup_lookup_total_lt ps i).
  - rewrite !lookup_ge_None_2; [done| |lia]. rewrite length_fmap, length_seq. lia.
Qed.

Lemma decode_step q0 st r d :
  core q0 st r d -> length r = n -> datas r <> [] -> fecs r <> [] -> longest_received r ->
  exists d' outs, decode T d = Some d' /\ m_prev_header d' = m_prev_header d /\
    m_stats d' = m_stats d /\ m_out_blocks d' = q0 ++ outs /\ mapM payload outs = Some ps.
Proof.
  intros [Hinc Hlt Hsz Hb Hf (g & Hrun & Hout) Hst] Hlen Hd0 Hf0 Hmax.
  rewrite (longest_size r Hmax) in Hsz. destruct group_bounds as (? & ? & ? & ?).
  pose proof (length_datas_fecs r) as Hdf. set (D := datas r) in *. set (F := fecs r) in *.
  assert (forall x, x ∈ D -> x < n) as HD by (intros x Hx; by apply elem_datas in Hx as [_ ?]).
  assert (forall x, x ∈ F -> n <= x < n + f) as HF.
  { intros x Hx. apply elem_fecs in Hx as [Hx ?]. split; [done|by apply Hlt]. }
  assert (increasing D) as HDi by by apply increasing_filter.
  assert (increasing F) as HFi by by apply increasing_filter.
  assert (g < n) as Hgn.
  { destruct Hrun as [Hg1 _]. assert (length F <> 0) by (by destruct F). lia. }
  unfold decode. destruct (m_blocks d) as [|b0 bl] eqn:Eb; [by destruct D|].
  destruct D as [|x0 D0] eqn:ED; [done|]. rewrite <-ED in *. rewrite ED in Hb at 1.
  cbn [fmap list_fmap] in Hb. injection Hb as Hb0 Hbl. rewrite Hb0.
  assert (x0 < n) as Hx0 by (apply HD; rewrite ED; left).
  set (h := data_header sq n f x0 (ps !!! x0)).
  assert (header_ok h) as Hh by (eapply ok_header; [done|by apply payload_in|lia|lia]).
  rewrite header_data by done. cbn [mbind option_bind]. fold h.
  change (h_n_blocks h) with (Z.of_nat n). change (h_n_fec_blocks h) with (Z.of_nat f).
  rewrite Nat2Z.id. rewrite <-Hb0, Hbl. rewrite Hb0.
  replace (rblk x0 :: (rblk <$> D0)) with (rblk <$> D) by (by rewrite ED).
  rewrite Hf, !length_fmap. rewrite (proj2 (Nat.ltb_ge _ _)) by lia.
  rewrite !(proj2 (Z.eqb_neq _ 0)) by lia. cbn [orb].
  rewrite replicate_fmap_seq, place_blocks_tbl by done. cbn [mbind option_bind].
  rewrite Hsz.
  rewrite (fmap_seq_ext _ (filled D h 0)) by (intros j _; unfold filled; by destruct (decide (j ∈ D))).
  rewrite (fill_erased_loop D h Hh). cbn [mbind option_bind]. rewrite filled_all. cbn [mbind option_bind].
  rewrite fec_idx_rblk by done. cbn [mbind option_bind]. rewrite Nat2Z.id.
  destruct (decode_blocks D F h) as (fec' & ->); [done|done|done|done|lia|done|]. cbn [mbind option_bind].
  rewrite (missing_first D g Hrun Hgn). cbn [mbind option_bind].
  rewrite zip_with_fmap_l, zip_with_fmap_r, zip_with_diag.
  change (fun z => put_fec_data (fec_src bs (ps !!! z)) (dblk D h z)) with (rec_blk D h).
  destruct (release_loop D h Hh g (set_fec (zip_with put_fec_data fec' (rblk <$> F)) d))
    as (d' & -> & Eo & Ep & Es); [lia|done|].
  eexists d', _. split; [done|]. split; [done|]. split; [done|]. rewrite Eo. cbn [m_out_blocks set_fec].
  rewrite Hout, <-app_assoc. split; [done|].
  transitivity (Some ((fun i => ps !!! i) <$> seq 0 n)); [|f_equal; symmetry; apply payloads_eq].
  replace n with (g + (n - g)) at 2 by lia. rewrite seq_app, fmap_app. apply mapM_app_Some.
  - apply mapM_fmap_Some. intros i Hi. apply elem_seq_0 in Hi. apply payload_rblk. lia.
  - apply mapM_fmap_Some. intros i Hi. apply elem_of_seq in Hi.
    by apply rec_blk_payload; [|lia].
Qed.

(** ** One packet *)

Lemma core_push_fec q0 st r d x :
  core q0 st r d -> (forall y, y ∈ r -> y < x) -> n <= x < n + f ->
  core q0 st (r ++ [x]) (push_fec (rblk x) d).
Proof.
  intros [Hinc Hlt Hsz Hb Hf Hout Hst] Hx Hxn.
  assert (datas (r ++ [x]) = datas r) as Ed by (rewrite datas_app, decide_False, app_nil_r by lia; done).
  assert (fecs (r ++ [x]) = fecs r ++ [x]) as Ef by (rewrite fecs_app, decide_False by lia; done).
  split; cbn [push_fec m_block_size m_blocks m_fec_blocks m_out_blocks]; rewrite ?Ed, ?Ef; try done.
  - by apply increasing_snoc.
  - intros y Hy. apply elem_of_app in Hy as [Hy|Hy]; [by apply Hlt|].
    apply list_elem_of_singleton in Hy as ->. lia.
  - by rewrite Hf, fmap_app.
Qed.

Lemma accept_step q0 st r d h x :
  core q0 st r d -> (forall y, y ∈ r -> y < x) -> x < n + f -> length r < n ->
  (n <= x -> datas r <> []) ->
  (length r + 1 = n -> n <= x -> longest_received r) ->
  header (rblk x) = Some h -> group_header x h ->
  exists d', accept T h (rblk x) d = Some d' /\
    if decide (length r + 1 = n) then complete q0 st d' else mid q0 st (r ++ [x]) d'.
Proof.
  intros Hcore Hx Hxlt Hr Hfirst Hmax Eh Hh. unfold accept. fold (noted h d).
  destruct (noted_core q0 st r d h Hcore) as [Hc' Hp]. rewrite is_data_rblk by done.
  cbn [mbind option_bind]. set (d1 := noted h d) in *. clearbody d1. clear d Hcore.
  destruct (decide (x < n)) as [Hxn|Hxn].
  - rewrite bool_decide_true by done.
    destruct (accept_data_step q0 st r d1 h x Hc' Hx Hxn Eh Hh) as (d' & -> & Hp' & Hres).
    exists d'. split; [done|]. destruct (decide (length r + 1 = n)).
    + destruct Hres as (E1 & E2 & E3 & E4 & E5). split; [done| | |done].
      * exists x. by rewrite Hp', Hp.
      * eexists. split; [exact E4|].
        transitivity (Some ((fun i => ps !!! i) <$> seq 0 n)); [|f_equal; symmetry; apply payloads_eq].
        apply mapM_fmap_Some. intros i Hi. apply elem_seq_0 in Hi. by apply payload_rblk.
    + split; [done| |].
      * exists x. split; [apply last_snoc|by rewrite Hp', Hp].
      * rewrite datas_app, decide_True by done. by destruct (datas r).
  - rewrite bool_decide_false by done. unfold accept_fec.
    destruct (core_push_fec q0 st r d1 x) as [Hinc Hlt Hsz Hb Hf Hout Hst]; [done..|lia|].
    pose proof (length_datas_fecs (r ++ [x])) as Hdf. rewrite length_app in Hdf. simpl length in Hdf.
    assert (datas (r ++ [x]) = datas r) as Ed by (rewrite datas_app, decide_False, app_nil_r by lia; done).
    rewrite Hb, Hf, !length_fmap, Hdf. destruct Hh as (Hok & Hs & Hhb & Hhn & Hhf). rewrite Hhn.
    destruct (decide (length r + 1 = n)) as [E|Hne].
    + rewrite (proj2 (Z.eqb_eq _ _)) by lia.
      destruct (decode_step q0 st (r ++ [x]) (push_fec (rblk x) d1)) as (d' & outs & -> & Ep & Es & Eo & Hpay).
      * by split.
      * rewrite length_app. simpl. lia.
      * rewrite Ed. apply Hfirst. lia.
      * rewrite fecs_app, decide_False by lia. by destruct (fecs r).
      * destruct Hmax as (i & Hi & El); [done|lia|]. exists i. by rewrite Ed.
      * cbn [mbind option_bind]. eexists. split; [done|]. split; cbn.
        -- done.
        -- exists x. rewrite Ep. cbn. by rewrite Hp.
        -- exists outs. done.
        -- unfold block_stats in *. cbn in *. by rewrite Es, <-Hst.
    + rewrite (proj2 (Z.eqb_neq _ _)) by lia. eexists. split; [done|]. split; [by split| |].
      * exists x. split; [apply last_snoc|]. cbn. by rewrite Hp.
      * rewrite Ed. apply Hfirst. lia.
Qed.

(** The three ways a packet of the group meets the decoder. *)
Definition counted (d : FECDecoder) (x : nat) : FECDecoder :=
  on_stats (count_packet (Z.of_nat (length (pkt x)))) d.

Lemma receive_unfold d x h :
  header (rblk x) = Some h -> group_header x h ->
  receive T d (pkt x) =
    let uprev := h_seq_num (m_prev_header d) in
    let useq := unroll uprev sq in
    if negb (m_block_size d =? 0)%Z then
      accept T h (rblk x) (if negb (uprev =? useq)%Z then sequence_break h (counted d x)
                           else sequence_continue h (counted d x))
    else if (uprev =? useq)%Z then Some (set_prev h (counted d x))
    else accept T h (rblk x) (counted d x).
Proof.
  intros Eh (Hok & Hs & Hb & Hn & Hf). unfold receive, FecDecoder.add_block. rewrite packet_rblk.
  cbn [mbind option_bind]. rewrite Eh. cbn [mbind option_bind]. rewrite Hs, Hn, Hf.
  destruct group_bounds as (? & ? & ? & ?). rewrite !(proj2 (Z.eqb_neq _ 0)) by lia. cbn [orb]. done.
Qed.

Lemma unroll_same s : unroll s s = s.
Proof. unfold unroll. by rewrite Z.ltb_irrefl. Qed.

Lemma unroll_neq p s : (0 <= p < 256)%Z -> (0 <= s < 256)%Z -> p <> s -> p <> unroll p s.
Proof. unfold unroll. destruct (Z.ltb_spec s p); lia. Qed.

Lemma core_stats_eq q0 st r d g :
  core q0 st r d -> (forall s, (total_blocks (g s), dropped_blocks (g s), lost_sync (g s))
                      = (total_blocks s, dropped_blocks s, lost_sync s)) -> core q0 st r (on_stats g d).
Proof. intros [] Hs. split; try done. unfold block_stats in *. cbn. by rewrite Hs. Qed.

Lemma counted_core q0 st r d x : core q0 st r d -> core q0 st r (counted d x).
Proof. intros H. by apply core_stats_eq. Qed.

Lemma continue_core q0 st r d h : core q0 st r d -> core q0 st r (sequence_continue h d).
Proof.
  intros H. unfold sequence_continue. destruct (_ <=? _)%Z; [by apply core_stats_eq|].
  destruct (_ <? _)%Z; [by apply core_stats_eq|done].
Qed.

(** Later packets of a completed group only update the counters. *)
Lemma complete_ignores q0 st d x :
  complete q0 st d -> x < n + f ->
  exists d', receive T d (pkt x) = Some d' /\ complete q0 st d'.
Proof.
  intros [(E1 & E2 & E3) (x0 & Hx0) Hout Hst] Hx. destruct (header_rblk x Hx) as (h & Eh & Hh).
  rewrite (receive_unfold d x h Eh Hh). cbv zeta. rewrite E1. cbn [Z.eqb negb].
  destruct Hx0 as (_ & -> & _). rewrite unroll_same, Z.eqb_refl.
  eexists. split; [done|]. split; cbn; try done. by exists x.
Qed.

Lemma complete_ignores_all q0 st d xs :
  complete q0 st d -> (forall x, x ∈ xs -> x < n + f) ->
  exists d', receive_all T d (pkt <$> xs) = Some d' /\ complete q0 st d'.
Proof.
  revert d. induction xs as [|x xs IH]; intros d Hd Hxs; [by exists d|].
  cbn [fmap list_fmap receive_all].
  destruct (complete_ignores q0 st d x Hd) as (d1 & -> & Hd1); [apply Hxs; left|].
  cbn [mbind option_bind]. apply IH; [done|]. intros y Hy. apply Hxs. by right.
Qed.

Lemma mid_receive q0 st r d x :
  mid q0 st r d -> (forall y, y ∈ r -> y < x) -> x < n + f -> length r < n ->
  (length r + 1 = n -> n <= x -> longest_received r) ->
  exists d', receive T d (pkt x) = Some d' /\
    if decide (length r + 1 = n) then complete q0 st d' else mid q0 st (r ++ [x]) d'.
Proof.
  intros [Hcore (x0 & Hl & Hx0) Hfirst] Hx Hxlt Hr Hmax.
  destruct (header_rblk x Hxlt) as (h & Eh & Hh).
  rewrite (receive_unfold d x h Eh Hh). cbv zeta.
  assert (m_block_size d <> 0%Z) as Hnz.
  { rewrite (core_size _ _ _ _ Hcore). destruct (datas r) as [|y l]; [done|]. simpl. lia. }
  rewrite (proj2 (Z.eqb_neq _ 0)) by done. cbn [negb].
  destruct Hx0 as (_ & -> & _). rewrite unroll_same, Z.eqb_refl. cbn [negb].
  apply accept_step; try done. by apply continue_core, counted_core.
Qed.

Lemma increasing_above r x xs y : increasing (r ++ x :: xs) -> y ∈ r -> y < x.
Proof.
  intros Hinc Hy. apply elem_of_total in Hy as (t & Ht & <-).
  specialize (Hinc t (length r) Ht). rewrite lookup_total_app_l, lookup_total_app_r, Nat.sub_diag in Hinc by lia.
  apply Hinc. rewrite length_app. simpl. lia.
Qed.

Lemma mid_receive_all q0 st xs r d :
  mid q0 st r d -> increasing (r ++ xs) -> (forall x, x ∈ xs -> x < n + f) ->
  length r < n -> n <= length r + length xs -> longest_received (r ++ xs) ->
  exists d', receive_all T d (pkt <$> xs) = Some d' /\ complete q0 st d'.
Proof.
  revert r d. induction xs as [|x xs IH]; intros r d Hmid Hinc Hlt Hr Hn Hmax; [simpl in Hn; lia|].
  assert (forall y, y ∈ r -> y < x) as Hx by (intros y; by apply (increasing_above r x xs)).
  cbn [fmap list_fmap receive_all].
  destruct (mid_receive q0 st r d x Hmid Hx) as (d1 & -> & Hd1); [apply Hlt; left|done| |].
  { intros _ Hnx. destruct Hmax as (i & Hi & El). exists i. split; [|done].
    apply elem_datas in Hi as [Hi Hin]. apply elem_datas. split; [|done].
    apply elem_of_app in Hi as [Hi|Hi]; [done|]. exfalso.
    apply elem_of_total in Hi as (t & Ht & <-).
    destruct t as [|t]; [simpl in Hin; lia|].
    specialize (Hinc (length r) (length r + S t) ltac:(lia) ltac:(rewrite length_app; lia)).
    rewrite !lookup_total_app_r in Hinc by lia. rewrite Nat.sub_diag in Hinc.
    replace (length r + S t - length r) with (S t) in Hinc by lia. simpl in Hinc, Hin. lia. }
  cbn [mbind option_bind]. destruct (decide (length r + 1 = n)) as [E|Hne].
  - apply complete_ignores_all; [done|]. intros y Hy. apply Hlt. by right.
  - apply (IH (r ++ [x])); try done.
    + by rewrite <-app_assoc.
    + intros y Hy. apply Hlt. by right.
    + rewrite length_app. simpl. lia.
    + rewrite length_app. simpl in *. lia.
    + by rewrite <-app_assoc.
Qed.

(** A decoder that has not seen this group: idle, or in the middle of a
    group with another sequence number. *)
Record fresh (d : FECDecoder) : Prop := {
  fresh_prev : (0 <= h_seq_num (m_prev_header d) < 256)%Z /\ h_seq_num (m_prev_header d) <> sq;
  fresh_idle : m_block_size d = 0%Z -> m_blocks d = [] /\ m_fec_blocks d = []
}.

Lemma core_nil d :
  m_block_size d = 0%Z -> m_blocks d = [] -> m_fec_blocks d = [] ->
  core (m_out_blocks d) (block_stats d) [] d.
Proof.
  intros E1 E2 E3. split; try done.
  - intros i j _ Hj. simpl in Hj. lia.
  - intros x Hx. by apply not_elem_of_nil in Hx.
  - exists 0. split; [|by rewrite app_nil_r]. split; [simpl; lia|]. split; simpl; intros; lia.
Qed.

Lemma fresh_receive d x :
  fresh d -> x < n ->
  exists st d', receive T d (pkt x) = Some d' /\ (m_block_size d = 0%Z -> st = block_stats d) /\
    if decide (1 = n) then complete (m_out_blocks d) st d' else mid (m_out_blocks d) st [x] d'.
Proof.
  intros [[Hp Hne] Hidle] Hx. destruct (header_rblk x) as (h & Eh & Hh); [lia|].
  rewrite (receive_unfold d x h Eh Hh). cbv zeta.
  pose proof (unroll_neq _ sq Hp (ok_seq _ _ _ _ Hg) Hne) as Hu.
  rewrite !(proj2 (Z.eqb_neq _ (unroll _ _))) by done. cbn [negb].
  destruct group_bounds as (? & ? & ? & ?).
  assert (forall d1, core (m_out_blocks d) (block_stats d1) [] d1 ->
    exists d', accept T h (rblk x) d1 = Some d' /\
      if decide (1 = n) then complete (m_out_blocks d) (block_stats d1) d'
      else mid (m_out_blocks d) (block_stats d1) [x] d') as Hacc.
  { intros d1 Hc. destruct (accept_step _ _ [] d1 h x Hc) as (d' & E & Hd'); try done.
    - intros y Hy. by apply not_elem_of_nil in Hy.
    - lia.
    - simpl. lia.
    - lia.
    - lia.
    - by exists d'. }
  destruct (Z.eqb_spec (m_block_size d) 0) as [E|Hnz]; cbn [negb].
  - destruct (Hidle E) as [E2 E3]. destruct (Hacc (counted d x)) as (d' & -> & Hd').
    { exact (core_nil (counted d x) E E2 E3). }
    exists (block_stats d), d'. split; [done|]. by split.
  - destruct (Hacc (sequence_break h (counted d x))) as (d' & -> & Hd').
    { pose proof (core_nil (sequence_break h (counted d x)) eq_refl eq_refl eq_refl) as Hc.
      replace (m_out_blocks (sequence_break h (counted d x))) with (m_out_blocks d) in Hc; [done|].
      unfold sequence_break. cbn. by repeat case_match. }
    exists (block_stats (sequence_break h (counted d x))), d'. split; [done|]. by split.
Qed.

(** Too few packets: the group stays open. *)
Lemma mid_receive_few q0 st xs : forall r d,
  mid q0 st r d -> increasing (r ++ xs) -> (forall x, x ∈ xs -> x < n + f) -> length (r ++ xs) < n ->
  exists d', receive_all T d (pkt <$> xs) = Some d' /\ mid q0 st (r ++ xs) d'.
Proof.
  induction xs as [|x xs IH]; intros r d Hmid Hinc Hlt Hn; [exists d; by rewrite app_nil_r|].
  rewrite length_app in Hn. simpl in Hn. cbn [fmap list_fmap receive_all].
  destruct (mid_receive q0 st r d x Hmid) as (d1 & -> & Hd1); [intros y; by apply (increasing_above r x xs)|apply Hlt; left|lia|lia|].
  cbn [mbind option_bind]. rewrite decide_False in Hd1 by lia.
  replace (r ++ x :: xs) with ((r ++ [x]) ++ xs) in * by (by rewrite <-app_assoc).
  apply IH; [done|done| |rewrite !length_app; simpl; lia]. intros y Hy. apply Hlt. by right.
Qed.

(** Fewer than [n] packets of the group that begin with a data packet bring out
    a proper front of the payloads, and the decoder is ready for another group. *)
Lemma group_interrupted d x xs :
  fresh d -> x < n -> increasing (x :: xs) -> (forall y, y ∈ xs -> y < n + f) -> length (x :: xs) < n ->
  exists d' g outs, receive_all T d (pkt <$> x :: xs) = Some d' /\ g < n /\
    m_out_blocks d' = m_out_blocks d ++ outs /\ mapM payload outs = Some (take g ps) /\
    h_seq_num (m_prev_header d') = sq /\ m_block_size d' <> 0%Z.
Proof.
  intros Hfr Hx Hinc Hlt Hn. cbn [fmap list_fmap receive_all].
  destruct (fresh_receive d x Hfr Hx) as (st & d1 & -> & _ & Hd1). cbn [mbind option_bind].
  simpl in Hn. rewrite decide_False in Hd1 by lia.
  destruct (mid_receive_few _ _ xs [x] d1 Hd1) as (d' & -> & [Hcore (y & _ & (_ & Hs & _)) Hne]); try done.
  pose proof (length_datas_fecs ([x] ++ xs)) as Hdf. rewrite length_app in Hdf. simpl in Hdf.
  destruct Hcore as [_ _ Hsz _ _ (g & (Hg1 & _ & _) & Hout) _]. cbn [app] in Hg1.
  exists d', g, (rblk <$> seq 0 g). split; [done|]. split; [lia|]. split; [done|]. split.
  - transitivity (Some ((fun i => ps !!! i) <$> seq 0 g)).
    + apply mapM_fmap_Some. intros i Hi. apply elem_seq_0 in Hi. apply payload_rblk. lia.
    + f_equal. transitivity (take g ((fun i => ps !!! i) <$> seq 0 n)); [|f_equal; symmetry; apply payloads_eq].
      rewrite <-fmap_take, take_seq. do 2 f_equal. lia.
  - split; [done|]. rewrite Hsz. destruct (datas _) as [|z l]; [done|]. simpl. lia.
Qed.

(** Any [n] or more packets of the group that begin with a data packet and
    include a data packet of the largest size give back all the payloads. *)
Lemma group_recovered d x xs :
  fresh d -> x < n -> increasing (x :: xs) -> (forall y, y ∈ xs -> y < n + f) ->
  n <= length (x :: xs) -> longest_received (x :: xs) ->
  exists st d', receive_all T d (pkt <$> x :: xs) = Some d' /\ complete (m_out_blocks d) st d' /\
    (m_block_size d = 0%Z -> st = block_stats d).
Proof.
  intros Hfr Hx Hinc Hlt Hn Hmax. cbn [fmap list_fmap receive_all].
  destruct (fresh_receive d x Hfr Hx) as (st & d1 & -> & Hst & Hd1). cbn [mbind option_bind].
  exists st. destruct (decide (1 = n)) as [E|Hne].
  - destruct (complete_ignores_all _ _ d1 xs Hd1 Hlt) as (d' & E' & Hd'). by exists d'.
  - destruct (mid_receive_all _ _ xs [x] d1 Hd1) as (d' & E' & Hd'); try done.
    + simpl. destruct group_bounds as (? & ? & ? & ?). lia.
    + by exists d'.
Qed.
End group.

(** ** Properties *)

(** C14: one group. From any decoder that has not seen the group (idle, or
    given up in the middle of another one), any of its packets that arrive in
    order, the first a data packet, as many as there are payloads and with a
    payload of the greatest length among the data packets, bring out all payloads,
    in order; the decoder is idle again, and for an idle start exactly one block
    has been counted and none dropped. *)
Theorem decoder_recovers_group (s : fec_state) (sq : Z) (f : nat) (mx : Z) (ps : list (list byte))
    (d : FECDecoder) (x : nat) (xs : list nat) :
  fec_reachable s -> group_ok sq f mx ps -> fresh sq d -> x < length ps ->
  increasing (x :: xs) -> (forall y, y ∈ xs -> y < length ps + f) ->
  length ps <= length (x :: xs) -> longest_received ps (x :: xs) ->
  exists st d', receive_all (fec_init s) d (pkt sq f ps <$> x :: xs) = Some d' /\
    complete sq f ps (m_out_blocks d) st d' /\ (m_block_size d = 0%Z -> st = block_stats d).
Proof.
  intros Hs. pose proof (fec_init_tables s Hs) as HT. generalize dependent (fec_init s). intros T HT. intros.
  by apply (group_recovered T sq f mx ps).
Qed.

Lemma decoder_recovers_group_witness :
  exists st d', receive_all (fec_init fec_static) demo_decoder (pkt 9 1 [[x01]; [x02; x03]] <$> [1; 2]) = Some d' /\
    complete 9 1 [[x01]; [x02; x03]] [] st d' /\ (0%Z = 0%Z -> st = (0, 0, 0)%Z).
Proof.
  apply (decoder_recovers_group fec_static 9 1 100 [[x01]; [x02; x03]] demo_decoder 1 [2] reach_static).
  - split; simpl; try lia. intros p Hp.
    apply elem_of_cons in Hp as [->|Hp]; [done|]. by apply list_elem_of_singleton in Hp as ->.
  - split; [split; cbn; lia|done].
  - simpl. lia.
  - intros [|i] [|[|j]] Hij Hj; simpl in *; lia.
  - intros y Hy. apply list_elem_of_singleton in Hy. simpl. lia.
  - simpl. lia.
  - exists 1. split; [|done]. apply elem_datas. split; [left|simpl; lia].
Defined.

(** Without any data packet a group is never decoded, however many of its
    FEC packets arrive, and the FEC packets are not dropped either: they stay
    pending, so that a later group starts with them. *)
Theorem fec_only_group_stays (T : fec_state) (sq : Z) (f : nat) (mx : Z) (ps : list (list byte))
    (d : FECDecoder) (x : nat) :
  group_ok sq f mx ps -> fresh sq d -> m_block_size d = 0%Z -> length ps <= x < length ps + f ->
  length ps <> 1 ->
  exists d', receive T d (pkt sq f ps x) = Some d' /\ m_out_blocks d' = m_out_blocks d /\
    m_block_size d' = 0%Z /\ m_blocks d' = [] /\ m_fec_blocks d' = [rblk sq f ps x].
Proof.
  intros Hg [[Hp Hne] Hidle] Hz Hx Hn1. destruct (Hidle Hz) as [E2 E3].
  pose proof (ok_n _ _ _ _ Hg). destruct (header_rblk sq f mx ps Hg x) as (h & Eh & Hh); [lia|].
  rewrite (receive_unfold T sq f mx ps Hg d x h Eh Hh). cbv zeta. rewrite Hz. cbn [Z.eqb negb].
  rewrite (proj2 (Z.eqb_neq _ _)) by (by apply unroll_neq; [|apply Hg|]).
  unfold accept. rewrite (is_data_rblk sq f mx ps Hg) by lia. cbn [mbind option_bind].
  rewrite bool_decide_false by lia. set (d1 := if _ && _ then _ else _).
  assert (m_block_size d1 = 0%Z /\ m_blocks d1 = [] /\ m_fec_blocks d1 = [] /\ m_out_blocks d1 = m_out_blocks d)
    as (F1 & F2 & F3 & F4) by (unfold d1; by destruct (_ && _)).
  clearbody d1. unfold accept_fec. cbn [push_fec m_blocks m_fec_blocks]. rewrite F2, F3.
  destruct Hh as (_ & _ & _ & Hhn & _). rewrite Hhn. simpl length.
  rewrite (proj2 (Z.eqb_neq _ _)) by lia. eexists. split; [done|]. cbn. by rewrite F3.
Qed.

Lemma fec_only_group_stays_witness :
  exists d', receive fec_static demo_decoder (pkt 9 1 [[x01]; [x02; x03]] 2) = Some d' /\
    m_out_blocks d' = [] /\
    m_block_size d' = 0%Z /\ m_blocks d' = [] /\ m_fec_blocks d' = [rblk 9 1 [[x01]; [x02; x03]] 2].
Proof.
  apply (fec_only_group_stays fec_static 9 1 100 [[x01]; [x02; x03]] demo_decoder 2).
  - split; simpl; try lia. intros p Hp.
    apply elem_of_cons in Hp as [->|Hp]; [done|]. by apply list_elem_of_singleton in Hp as ->.
  - split; [split; cbn; lia|done].
  - reflexivity.
  - simpl. lia.
  - simpl. lia.
Defined.
