(* ===== verification/FecLink.v ===== *)
(** * End to end: encoder, lossy channel, decoder

    Packets and flushes go to [FECEncoder], which cuts them into groups; the
    channel loses packets but keeps the order; [FECDecoder] gets the rest. *)

From S2P Require Import Prelude Gf256 GfField GfVec FecCode FecBlock FecWire.
From S2P Require Import FecEncoder FecDecoder FecRecover.
Local Open Scope nat_scope.

(** What the channel delivers of the packets [ws], which come in groups of the
    sizes [ks]: of every group those with the indices of the next list of [rs]. *)
Fixpoint deliver (ks : list nat) (ws : list (list byte)) (rs : list (list nat)) : list (list byte) :=
  match ks, rs with
  | k :: ks, r :: rs => ((fun i => ws !!! i) <$> r) ++ deliver ks (drop k ws) rs
  | _, _ => []
  end.

(** The losses the code can repair: at least as many packets arrive as the
    group has data packets, the first is a data packet, and one of the data
    packets that arrive has the largest size. *)
Definition enough (f : nat) (ps : list (list byte)) (r : list nat) : Prop :=
  increasing r /\ (forall y, y ∈ r -> y < length ps + f) /\ length ps <= length r /\
  (exists x, r !! 0 = Some x /\ x < length ps) /\ longest_received ps r.

(** The packets of a stream of groups, and how many each group has. *)
Fixpoint stream_wires (sq : Z) (f : nat) (pss : list (list (list byte))) : list (list byte) :=
  match pss with
  | [] => []
  | ps :: pss => group_wires sq f ps ++ stream_wires (next_seq sq) f pss
  end.

Definition group_sizes (f : nat) (pss : list (list (list byte))) : list nat :=
  (fun ps => length ps + f) <$> pss.

(** The sequence number after [n] groups. *)
Definition seq_after (n : nat) (sq : Z) : Z := Nat.iter n next_seq sq.

Lemma stream_wires_app f pss1 : forall sq pss2,
  stream_wires sq f (pss1 ++ pss2) = stream_wires sq f pss1 ++ stream_wires (seq_after (length pss1) sq) f pss2.
Proof.
  induction pss1 as [|ps pss1 IH]; intros sq pss2; [done|].
  cbn [app stream_wires length]. rewrite IH, <-app_assoc. unfold seq_after. by rewrite Nat.iter_succ_r.
Qed.

Lemma length_group_wires sq f ps : length (group_wires sq f ps) = length ps + f.
Proof. unfold group_wires. by rewrite length_app, length_imap, length_map, length_seq. Qed.

Lemma length_stream_wires f pss : forall sq, length (stream_wires sq f pss) = sum_list (group_sizes f pss).
Proof.
  induction pss as [|ps pss IH]; intros sq; [done|].
  cbn [stream_wires group_sizes fmap list_fmap sum_list]. by rewrite length_app, length_group_wires, IH.
Qed.

(** ** Cutting a stream into groups

    The caller of an encoder gives it packets, [Some p], and flushes, [None]. A
    group ends when it has [nb] packets, or with a flush if it has any. *)

Definition event : Type := option (list byte).

(** An event with the packets [ps] pending: the group it ends, if any, and the
    packets pending afterwards. *)
Definition cut_event (nb : nat) (ps : list (list byte)) (ev : event) : list (list (list byte)) * list (list byte) :=
  match ev with
  | Some p => if length ps + 1 =? nb then ([ps ++ [p]], []) else ([], ps ++ [p])
  | None => match ps with [] => ([], []) | _ => ([ps], []) end
  end.

Fixpoint cut (nb : nat) (ps : list (list byte)) (evs : list event) : list (list (list byte)) * list (list byte) :=
  match evs with
  | [] => ([], ps)
  | ev :: evs =>
      let '(g, ps) := cut_event nb ps ev in
      let '(gs, ps) := cut nb ps evs in
      (g ++ gs, ps)
  end.

(** Nothing is lost by cutting, and a final flush leaves nothing pending. *)
Lemma cut_concat nb evs : forall ps, concat (cut nb ps evs).1 ++ (cut nb ps evs).2 = ps ++ omap id evs.
Proof.
  induction evs as [|ev evs IH]; intros ps; [cbn; by rewrite app_nil_r|]. cbn [cut].
  destruct (cut_event nb ps ev) as [g ps1] eqn:E. specialize (IH ps1).
  destruct (cut nb ps1 evs) as [gs ps2]. cbn [fst snd] in *.
  rewrite concat_app, <-app_assoc, IH. unfold cut_event in E. destruct ev as [p|].
  - destruct (_ =? _); injection E as <- <-; cbn; by rewrite ?app_nil_r, <-app_assoc.
  - destruct ps; injection E as <- <-; cbn; by rewrite ?app_nil_r.
Qed.

Lemma cut_flushed nb evs : forall ps, (cut nb ps (evs ++ [None])).2 = [].
Proof.
  induction evs as [|ev evs IH]; intros ps.
  { cbn. by destruct ps. }
  cbn [app cut]. destruct (cut_event nb ps ev) as [g ps1]. specialize (IH ps1).
  by destruct (cut nb ps1 (evs ++ [None])).
Qed.

Section encoder.
Context (T : fec_state) `{!GfTables T} (nb f : nat) (mx : Z).
Context (Hnb : 0 < nb <= 128) (Hf : 0 < f <= 128) (Hmx : (mx + 4 < 65536)%Z).

(** A payload that fits a block, and a group of them. *)
Definition fits (p : list byte) : Prop := (plen p + 2 <= mx)%Z.
Definition event_fits (ev : event) : Prop := forall p, ev = Some p -> fits p.
Definition group_fits (ps : list (list byte)) : Prop := 0 < length ps <= nb /\ forall p, p ∈ ps -> fits p.

Lemma group_fits_ok sq ps : (0 <= sq < 256)%Z -> group_fits ps -> group_ok sq f mx ps.
Proof. intros Hs [Hl Hp]. split; try done. lia. Qed.

(** An encoder with these parameters and the packets [ps] pending. *)
Record filling (ps : list (list byte)) (e : FECEncoder) : Prop := {
  fill_ok : enc_ok e;
  fill_in : pending e ps;
  fill_len : length ps < nb;
  fill_fits : forall p, p ∈ ps -> fits p;
  fill_num : m_num_blocks e = Z.of_nat nb;
  fill_fec : m_num_fec_blocks e = Z.of_nat f;
  fill_max : m_max_block_size e = mx
}.

Definition encode_event (e : FECEncoder) (ev : event) : option FECEncoder :=
  match ev with Some p => send T e p | None => flush T e end.

Fixpoint encode_all (e : FECEncoder) (evs : list event) : option FECEncoder :=
  match evs with
  | [] => Some e
  | ev :: evs => e ← encode_event e ev; encode_all e evs
  end.

(** [e'] has the groups [gs] in its output queue on top of what [e] has. *)
Definition emits (e : FECEncoder) (gs : list (list (list byte))) (e' : FECEncoder) : Prop :=
  m_seq_num e' = seq_after (length gs) (m_seq_num e) /\
  exists outs, FecEncoder.m_out_blocks e' = FecEncoder.m_out_blocks e ++ outs /\
    mapM wire outs = Some (stream_wires (m_seq_num e) f gs).

Lemma emits_nil e : emits e [] e.
Proof. split; [done|]. exists []. by rewrite app_nil_r. Qed.

Lemma emits_trans e gs1 e1 gs2 e2 : emits e gs1 e1 -> emits e1 gs2 e2 -> emits e (gs1 ++ gs2) e2.
Proof.
  intros (Hs1 & o1 & Eo1 & Ew1) (Hs2 & o2 & Eo2 & Ew2). split.
  - rewrite Hs2, Hs1, length_app, Nat.add_comm. unfold seq_after. by rewrite Nat.iter_add.
  - exists (o1 ++ o2). split; [by rewrite Eo2, Eo1, app_assoc|].
    rewrite stream_wires_app, <-Hs1. by apply mapM_app_Some.
Qed.

(** A pending group goes out. *)
Lemma close_group e ps :
  enc_ranges e -> pending e ps -> group_fits ps -> m_num_blocks e = Z.of_nat nb ->
  m_num_fec_blocks e = Z.of_nat f -> m_max_block_size e = mx ->
  exists e', encode_blocks T e = Some e' /\ filling [] e' /\ emits e [ps] e'.
Proof.
  intros Hr Hp Hg En Ef Em. pose proof Hr as (Hs & Hn & Hfe & Hm).
  destruct (encode_blocks_pending T e ps f) as (e' & outs & E & E1 & E2 & E3 & E4 & E5 & E6 & E7); try done.
  - rewrite Em. by apply group_fits_ok.
  - destruct Hg. lia.
  - exists e'. split; [done|]. split.
    + pose proof (next_seq_range _ Hs).
      split; [|exact E1|cbn; lia|by intros p ?%elem_of_nil|congruence..].
      split; rewrite ?E2, ?E3, ?E4, ?E5; try done; [lia|by left].
    + split; [done|]. exists outs. cbn [stream_wires]. by rewrite app_nil_r.
Qed.

Lemma encode_event_spec e ps ev :
  filling ps e -> event_fits ev ->
  exists e', encode_event e ev = Some e' /\ filling (cut_event nb ps ev).2 e' /\
    emits e (cut_event nb ps ev).1 e' /\ Forall group_fits (cut_event nb ps ev).1.
Proof.
  intros [Hok Hp Hl Hfit En Ef Em] Hev. pose proof (enc_ok_ranges e Hok) as Hr.
  assert (length (m_in_blocks e) = length ps) as Hld by (by rewrite Hp, length_imap).
  destruct ev as [p|]; cbn [encode_event cut_event].
  - specialize (Hev p eq_refl). unfold fits in Hev.
    rewrite send_pending; [|done|lia|lia|lia|lia|by rewrite Em].
    set (e1 := set_in e _).
    assert (pending e1 (ps ++ [p])) as Hp1.
    { unfold pending, e1. cbn. rewrite Hp, imap_app, length_imap. cbn. by rewrite Nat.add_0_r. }
    assert (forall q, q ∈ ps ++ [p] -> fits q) as Hfit1.
    { intros q [Hq|Hq]%elem_of_app; [by apply Hfit|]. by apply list_elem_of_singleton in Hq as ->. }
    destruct (Nat.eqb_spec (length ps + 1) nb) as [Hfull|Hfull]; cbn [fst snd].
    + rewrite (proj2 (Z.eqb_eq _ _)) by lia.
      assert (group_fits (ps ++ [p])) as Hg by (split; [rewrite length_app; simpl; lia|done]).
      destruct (close_group e1 (ps ++ [p])) as (e' & E & Hfl & Hem); try done.
      exists e'. split; [done|]. split; [done|]. split; [done|]. by apply Forall_singleton.
    + rewrite (proj2 (Z.eqb_neq _ _)) by lia. exists e1. split; [done|]. split.
      * split; try done; [|rewrite length_app; simpl; lia]. destruct Hok as [? ? ? ? _]. split; try done.
        right. cbn. rewrite length_app, Hld. simpl. lia.
      * split; [apply (emits_nil e)|constructor].
  - unfold flush. destruct ps as [|p ps]; cbn [fst snd].
    + exists e. rewrite encode_blocks_nil by done. split; [done|]. split; [by split|].
      split; [apply emits_nil|constructor].
    + assert (group_fits (p :: ps)) as Hg by (split; [simpl in *; lia|done]).
      destruct (close_group e (p :: ps)) as (e' & E & Hfl & Hem); try done.
      exists e'. split; [done|]. split; [done|]. split; [done|]. by apply Forall_singleton.
Qed.

(** Any sequence of packets and flushes: the groups it is cut into go out. *)
Lemma stream_sent evs : forall e ps,
  filling ps e -> Forall event_fits evs ->
  exists e', encode_all e evs = Some e' /\ filling (cut nb ps evs).2 e' /\
    emits e (cut nb ps evs).1 e' /\ Forall group_fits (cut nb ps evs).1.
Proof.
  induction evs as [|ev evs IH]; intros e ps He Hevs.
  { exists e. split; [done|]. split; [done|]. split; [apply emits_nil|constructor]. }
  apply Forall_cons in Hevs as [Hev Hevs]. cbn [encode_all cut].
  destruct (encode_event_spec e ps ev He Hev) as (e1 & -> & He1 & Hem1 & Hg1). cbn [mbind option_bind].
  destruct (cut_event nb ps ev) as [g ps1]. cbn [fst snd] in *.
  destruct (IH e1 ps1 He1 Hevs) as (e' & E & He' & Hem & Hg). destruct (cut nb ps1 evs) as [gs ps2].
  cbn [fst snd] in *. exists e'. split; [done|]. split; [done|].
  split; [by eapply emits_trans|by apply Forall_app].
Qed.
End encoder.

Section decoder.
Context (T : fec_state) `{!GfTables T} (nb f : nat) (mx : Z).
Context (Hnb : 0 < nb <= 128) (Hf : 0 < f <= 128) (Hmx : (mx + 4 < 65536)%Z).

Lemma receive_all_app d xs ys :
  receive_all T d (xs ++ ys) = receive_all T d xs ≫= fun d => receive_all T d ys.
Proof.
  revert d. induction xs as [|x xs IH]; intros d; [done|]. cbn [app receive_all].
  destruct (receive T d x); cbn [mbind option_bind]; [apply IH|done].
Qed.

Lemma complete_fresh sq ps q0 st d :
  (0 <= sq < 256)%Z -> complete sq f ps q0 st d -> fresh (next_seq sq) d.
Proof.
  intros Hs [(E1 & E2 & E3) (x & _ & Hx & _) _ _]. split; [|done]. rewrite Hx. split; [done|].
  apply not_eq_sym, next_seq_neq. done.
Qed.

Lemma stream_received sq pss rs d :
  (0 <= sq < 256)%Z -> fresh sq d -> Forall (group_fits nb mx) pss -> Forall2 (enough f) pss rs ->
  exists d' outs, receive_all T d (deliver (group_sizes f pss) (stream_wires sq f pss) rs) = Some d' /\
    FecDecoder.m_out_blocks d' = FecDecoder.m_out_blocks d ++ outs /\ mapM payload outs = Some (concat pss).
Proof.
  intros Hs Hd Hpss H2. revert sq d Hs Hd Hpss.
  induction H2 as [|ps r pss rs (Hinc & Hlt & Hn & (x & Hx0 & Hx) & Hmax) _ IH]; intros sq d Hs Hd Hpss.
  { exists d, []. by rewrite app_nil_r. }
  apply Forall_cons in Hpss as [Hps Hpss]. cbn [stream_wires].
  change (group_sizes f (ps :: pss)) with (length ps + f :: group_sizes f pss). cbn [deliver].
  assert (drop (length ps + f) (group_wires sq f ps ++ stream_wires (next_seq sq) f pss)
            = stream_wires (next_seq sq) f pss) as -> by (apply drop_app_length'; by rewrite length_group_wires).
  rewrite receive_all_app.
  assert ((fun i => (group_wires sq f ps ++ stream_wires (next_seq sq) f pss) !!! i) <$> r
            = pkt sq f ps <$> r) as ->.
  { apply list_fmap_ext. intros i y Hy. unfold pkt. apply lookup_total_app_l. rewrite length_group_wires.
    apply Hlt. by eapply list_elem_of_lookup_2. }
  destruct r as [|x' xs]; [done|]. injection Hx0 as ->.
  destruct (group_recovered T sq f mx ps (group_fits_ok nb f mx Hnb Hf Hmx sq ps Hs Hps) d x xs)
    as (st & d1 & -> & Hc & _); try done.
  { intros y Hy. apply Hlt. by right. }
  cbn [mbind option_bind]. pose proof (next_seq_range sq Hs).
  destruct (IH (next_seq sq) d1) as (d' & outs & -> & Eo & Ep); try done; [lia|by eapply complete_fresh|].
  destruct (complete_out _ _ _ _ _ _ Hc) as (outs1 & Eo1 & Ep1).
  exists d', (outs1 ++ outs). split; [done|]. split; [by rewrite Eo, Eo1, app_assoc|].
  cbn [concat]. by apply mapM_app_Some.
Qed.
End decoder.

(** C5: a fresh encoder and a fresh decoder, each in its process with the
    tables set up by [fec_init], transport any sequence of packets and flushes:
    whatever the channel drops, as long as [enough] of every group arrives, all
    the packets of the groups come out of the decoder, in order and unchanged.
    The groups hold all the packets but the ones still pending, none after a
    flush, and have 1 to [nb] packets. *)
Theorem fec_link_recovers (se sd : fec_state) (nb f : nat) (mx sq : Z) (evs : list event) (rs : list (list nat)) :
  fec_reachable se -> fec_reachable sd ->
  0 < nb <= 128 -> 0 < f <= 128 -> (0 <= mx)%Z -> (mx + 4 < 65536)%Z -> (0 < sq < 256)%Z ->
  Forall (event_fits mx) evs ->
  let '(pss, rest) := cut nb [] evs in
  Forall2 (enough f) pss rs ->
  let '(Te, e) := FECEncoder_new se (Z.of_nat nb) (Z.of_nat f) mx sq in
  let '(Td, d) := FECDecoder_new sd in
  (exists e' ws d',
    encode_all Te e evs = Some e' /\
    mapM wire (FecEncoder.m_out_blocks e') = Some ws /\
    receive_all Td d (deliver (group_sizes f pss) ws rs) = Some d' /\
    mapM payload (FecDecoder.m_out_blocks d') = Some (concat pss)) /\
  concat pss ++ rest = omap id evs /\ (last evs = Some None -> rest = []) /\
  Forall (fun ps => 0 < length ps <= nb) pss.
Proof.
  intros Hse Hsd Hnb Hf Hmx2 Hmx Hsq Hevs. unfold FECEncoder_new, FECDecoder_new.
  pose proof (fec_init_tables se Hse) as HTe. pose proof (fec_init_tables sd Hsd) as HTd.
  generalize dependent (fec_init se). generalize dependent (fec_init sd). clear se sd Hse Hsd.
  intros Td HTd Te HTe. set (e := MkFECEncoder sq (Z.of_nat nb) (Z.of_nat f) mx [] []).
  pose proof (cut_concat nb evs []) as Hcat.
  assert (last evs = Some None -> (cut nb [] evs).2 = []) as Hlast.
  { intros (evs' & ->)%last_Some. apply cut_flushed. }
  destruct (stream_sent Te nb f mx Hnb Hf Hmx evs e []) as (e' & E & _ & (_ & outs & Eo & Ew) & Hg); [|done|].
  { split; try done; [split; cbn; auto; lia|cbn; lia|by intros p ?%elem_of_nil]. }
  destruct (cut nb [] evs) as [pss rest]. cbn [fst snd] in *. intros Hrs.
  destruct (stream_received Td nb f mx Hnb Hf Hmx sq pss rs
    (MkFECDecoder 0 FECHeader_default [] [] [] stats_zero)) as (d' & outd & Ed & Eod & Ep); try done; [lia| |].
  { split; [cbn; lia|done]. }
  split.
  - exists e', (stream_wires sq f pss), d'. split; [exact E|]. rewrite Eo. split; [exact Ew|].
    split; [exact Ed|]. rewrite Eod. exact Ep.
  - split; [done|]. split; [done|]. eapply Forall_impl; [exact Hg|]. by intros ps [? _].
Qed.

(** Groups of two: a full one that loses its first packet, and one of a single
    packet ended by a flush that loses its FEC packet. *)
Lemma fec_link_recovers_witness :
  exists e' ws d',
    encode_all (fec_init fec_static) (MkFECEncoder 1 2 1 100 [] []) [Some [x01]; Some [x02; x03]; Some [x04]; None]
      = Some e' /\
    mapM wire (FecEncoder.m_out_blocks e') = Some ws /\
    receive_all (fec_init fec_static) (MkFECDecoder 0 FECHeader_default [] [] [] stats_zero)
      (deliver [3; 2] ws [[1; 2]; [0]]) = Some d' /\
    mapM payload (FecDecoder.m_out_blocks d') = Some [[x01]; [x02; x03]; [x04]].
Proof.
  apply (fec_link_recovers fec_static fec_static 2 1 100 1 [Some [x01]; Some [x02; x03]; Some [x04]; None]
    [[1; 2]; [0]] reach_static reach_static); try lia.
  - repeat first [apply Forall_nil_2 | apply Forall_cons_2; [intros p Hp|]];
      (discriminate Hp || (injection Hp as <-; unfold fits, plen; simpl; lia)).
  - apply Forall2_cons_2; [|apply Forall2_cons_2; [|apply Forall2_nil_2]].
    + split.
      { intros [|i] [|[|j]] Hij Hj; simpl in *; lia. }
      split.
      { intros y Hy. simpl. apply elem_of_cons in Hy as [->|Hy]; [lia|].
        apply list_elem_of_singleton in Hy. lia. }
      split; [simpl; lia|]. split; [exists 1; simpl; split; [done|lia]|].
      exists 1. split; [|done]. apply elem_datas. split; [left|simpl; lia].
    + split; [intros [|i] [|j] H1 H2; simpl in *; lia|].
      split; [intros y Hy; apply list_elem_of_singleton in Hy; simpl; lia|]. split; [simpl; lia|].
      split; [exists 0; simpl; split; [done|lia]|]. exists 0. split; [|done].
      apply elem_datas. split; [left|simpl; lia].
Defined.
