(* ===== verification/Radiotap.v ===== *)
(** * The radiotap iterator of src/src/radiotap/radiotap.c

    Pointers into the packet are offsets from the radiotap header, [mem] is
    the memory from there to the end of the capture. [None] is a read outside
    [mem] or of an indeterminate field. The overrides, which the caller sets
    before the walk, are an argument: the bridge compiles the file without
    RADIOTAP_SUPPORT_OVERRIDES, which is the empty list. *)

From S2P Require Import Prelude.

(** Little-endian reads at an offset. *)
Definition rd8 (mem : list byte) (off : Z) : option Z :=
  if 0 <=? off then u8 <$> mem !! Z.to_nat off else None.
Definition rd16 (mem : list byte) (off : Z) : option Z :=
  lo ← rd8 mem off; hi ← rd8 mem (off + 1); Some (lo + 256 * hi).
Definition rd32 (mem : list byte) (off : Z) : option Z :=
  lo ← rd16 mem off; hi ← rd16 mem (off + 2); Some (lo + 65536 * hi).

(** Error codes. *)
Definition ENOENT : Z := 2.
Definition EINVAL : Z := 22.

(** Bits that are valid in every bitmap word. *)
Definition IEEE80211_RADIOTAP_RADIOTAP_NAMESPACE : Z := 29.
Definition IEEE80211_RADIOTAP_VENDOR_NAMESPACE : Z := 30.
Definition IEEE80211_RADIOTAP_EXT : Z := 31.

(** [(align, size)] of the fields; bit 18 is not initialised, hence zero. *)
Definition rtap_namespace_sizes : list (Z * Z) :=
  [(8, 8); (1, 1); (1, 1); (2, 4); (2, 2); (1, 1); (1, 1); (2, 2); (2, 2); (2, 2); (1, 1); (1, 1);
   (1, 1); (1, 1); (2, 2); (2, 2); (1, 1); (1, 1); (0, 0); (1, 3); (4, 8); (2, 12); (8, 12)].

Record radiotap_namespace := MkNs {
  align_size : list (Z * Z);
  n_bits : Z;
  oui : Z;
  subns : Z
}.

Definition radiotap_ns : radiotap_namespace := MkNs rtap_namespace_sizes 23 0 0.

(** The pointer [current_namespace]: [&radiotap_ns], a vendor namespace, or NULL. *)
Inductive ns_ref := RadiotapNs | VendorNs (ns : radiotap_namespace) | NullNs.

Definition ns_of (r : ns_ref) : option radiotap_namespace :=
  match r with
  | RadiotapNs => Some radiotap_ns
  | VendorNs ns => Some ns
  | NullNs => None
  end.

Record radiotap_iterator := MkIter {
  _vns : option (list radiotap_namespace);
  current_namespace : ns_ref;
  _arg : Z;
  _next_ns_data : option Z;      (* indeterminate after init *)
  _next_bitmap : Z;
  this_arg : Z;
  this_arg_index : Z;            (* set before every return of 0 *)
  this_arg_size : Z;
  is_radiotap_ns : Z;
  _max_length : Z;
  _arg_index : Z;
  _bitmap_shifter : Z;           (* uint32_t *)
  _reset_on_ext : bool
}.

(** [word & (1 << IEEE80211_RADIOTAP_EXT)] *)
Definition ext_bit (word : Z) : bool := Z.testbit word IEEE80211_RADIOTAP_EXT.

(** The loop over the extended bitmaps: [inl] the error code, [inr] the final
    [_arg]. Every iteration moves four bytes, so [fuel] words suffice. *)
Fixpoint skip_bitmaps (fuel : nat) (mem : list byte) (max_length arg : Z) : option (Z + Z) :=
  match fuel with
  | O => None
  | S fuel' =>
      w ← rd32 mem arg;
      if ext_bit w then
        let arg := arg + 4 in
        if max_length <? arg + 4 then Some (inl (- EINVAL))
        else skip_bitmaps fuel' mem max_length arg
      else Some (inr arg)
  end.

Definition iterator_init (mem : list byte) (max_length : Z) (vns : option (list radiotap_namespace))
  : option (Z * option radiotap_iterator) :=
  if max_length <? 8 then Some (- EINVAL, None)
  else
    version ← rd8 mem 0;
    if negb (version =? 0) then Some (- EINVAL, None)
    else
      it_len ← rd16 mem 2;
      if max_length <? it_len then Some (- EINVAL, None)
      else
        present ← rd32 mem 4;
        let finish arg :=
          Some (0, Some (MkIter vns RadiotapNs arg None 8 arg 0 0 1 it_len 0 present false)) in
        if ext_bit present then
          if it_len <? 8 + 4 then Some (- EINVAL, None)
          else
            r ← skip_bitmaps (S (Z.to_nat it_len)) mem it_len 8;
            match r with
            | inl e => Some (e, None)
            | inr arg => finish (arg + 4)
            end
        else finish 8.

(** [find_ns]: the first registered namespace with this identifier. *)
Definition find_ns (vns : option (list radiotap_namespace)) (o s : Z) : ns_ref :=
  match vns with
  | None => NullNs
  | Some l => match List.find (fun ns => (oui ns =? o) && (subns ns =? s)) l with
              | Some ns => VendorNs ns
              | None => NullNs
              end
  end.

(** [struct radiotap_override], and the override of a field, if it has one. *)
Record radiotap_override := MkOverride { o_field : Z; o_align : Z; o_size : Z }.

Fixpoint find_override (overrides : list radiotap_override) (arg_index : Z) : option (Z * Z) :=
  match overrides with
  | [] => None
  | o :: overrides =>
      if arg_index =? o_field o then (if o_align o =? 0 then None else Some (o_align o, o_size o))
      else find_override overrides arg_index
  end.

(** What the first [switch] decides about the current bit. *)
Inductive field := Stop | Skip | Known (align size : Z).

Definition lookup_field (overrides : list radiotap_override) (it : radiotap_iterator) : option field :=
  let b := _arg_index it mod 32 in
  if (b =? IEEE80211_RADIOTAP_RADIOTAP_NAMESPACE) || (b =? IEEE80211_RADIOTAP_EXT) then Some (Known 1 0)
  else if b =? IEEE80211_RADIOTAP_VENDOR_NAMESPACE then Some (Known 2 6)
  else
    match find_override overrides (_arg_index it) with
    | Some (align, size) => Some (Known align size)
    | None =>
        match ns_of (current_namespace it) with
        | None => Some Skip
        | Some ns =>
            if n_bits ns <=? _arg_index it then
              Some (match current_namespace it with RadiotapNs => Stop | _ => Skip end)
            else
              '(align, size) ← align_size ns !! Z.to_nat (_arg_index it);
              Some (if align =? 0 then Skip else Known align size)
        end
    end.

(** [next_entry]: the next bit of the bitmap. *)
Definition next_entry (it : radiotap_iterator) : radiotap_iterator :=
  MkIter (_vns it) (current_namespace it) (_arg it) (_next_ns_data it) (_next_bitmap it) (this_arg it)
    (this_arg_index it) (this_arg_size it) (is_radiotap_ns it) (_max_length it) (_arg_index it + 1)
    (Z.shiftr (_bitmap_shifter it) 1) (_reset_on_ext it).

(** [_arg] moved forward to a multiple of [align]. *)
Definition align_arg (arg align : Z) : Z :=
  let pad := Z.land arg (align - 1) in
  if pad =? 0 then arg else arg + (align - pad).

(** Entering a vendor namespace: its identifier, its data, and the size. *)
Definition vendor_entry (mem : list byte) (it : radiotap_iterator) (arg size : Z)
  : option (ns_ref * Z * Z) :=
  b0 ← rd8 mem arg; b1 ← rd8 mem (arg + 1); b2 ← rd8 mem (arg + 2);
  sub ← rd8 mem (arg + 3);
  let ns := find_ns (_vns it) (Z.lor (Z.lor (Z.shiftl b0 16) (Z.shiftl b1 8)) b2) sub in
  vnslen ← rd16 mem (arg + 4);
  Some (ns, arg + size + vnslen, match ns with NullNs => size + vnslen | _ => size end).

(** One iteration of the [while (1)] loop. *)
Inductive outcome := Return (r : Z) (it : radiotap_iterator) | Again (it : radiotap_iterator).

(** The iterator after the argument has been recorded and stepped over. *)
Definition take_arg (it : radiotap_iterator) (ns : ns_ref) (nsd : option Z) (arg size : Z) : radiotap_iterator :=
  MkIter (_vns it) ns (arg + size) nsd (_next_bitmap it) arg (_arg_index it) size (is_radiotap_ns it)
    (_max_length it) (_arg_index it) (_bitmap_shifter it) (_reset_on_ext it).

Definition set_ns (it : radiotap_iterator) (ns : ns_ref) (is_rt idx : Z) : radiotap_iterator :=
  MkIter (_vns it) ns (_arg it) (_next_ns_data it) (_next_bitmap it) (this_arg it) idx
    (this_arg_size it) is_rt (_max_length it) (_arg_index it) (_bitmap_shifter it) true.

Definition set_arg (it : radiotap_iterator) (arg : Z) : radiotap_iterator :=
  MkIter (_vns it) (current_namespace it) arg (_next_ns_data it) (_next_bitmap it) (this_arg it)
    (this_arg_index it) (this_arg_size it) (is_radiotap_ns it) (_max_length it) (_arg_index it)
    (_bitmap_shifter it) (_reset_on_ext it).

Definition give_up_ns (it : radiotap_iterator) : radiotap_iterator :=
  MkIter (_vns it) NullNs (_arg it) (_next_ns_data it) (_next_bitmap it) (this_arg it)
    (this_arg_index it) (this_arg_size it) (is_radiotap_ns it) (_max_length it) (_arg_index it)
    (_bitmap_shifter it) (_reset_on_ext it).

(** The last [switch]. *)
Definition finish_arg (mem : list byte) (it : radiotap_iterator) : option outcome :=
  let b := _arg_index it mod 32 in
  if b =? IEEE80211_RADIOTAP_VENDOR_NAMESPACE then
    let hit := match current_namespace it with NullNs => true | _ => false end in
    let it := next_entry (set_ns it (current_namespace it) 0 IEEE80211_RADIOTAP_VENDOR_NAMESPACE) in
    Some (if hit then Return 0 it else Again it)
  else if b =? IEEE80211_RADIOTAP_RADIOTAP_NAMESPACE then
    Some (Again (next_entry (set_ns it RadiotapNs 1 (this_arg_index it))))
  else if b =? IEEE80211_RADIOTAP_EXT then
    w ← rd32 mem (_next_bitmap it);
    Some (Again (MkIter (_vns it) (current_namespace it) (_arg it) (_next_ns_data it) (_next_bitmap it + 4)
      (this_arg it) (this_arg_index it) (this_arg_size it) (is_radiotap_ns it) (_max_length it)
      (if _reset_on_ext it then 0 else _arg_index it + 1) w false))
  else Some (Return 0 (next_entry it)).

Definition next_body (overrides : list radiotap_override) (mem : list byte) (it : radiotap_iterator) : option outcome :=
  let present := Z.testbit (_bitmap_shifter it) 0 in
  if (_arg_index it mod 32 =? IEEE80211_RADIOTAP_EXT) && negb present then Some (Return (- ENOENT) it)
  else if negb present then Some (Again (next_entry it))
  else
    fld ← lookup_field overrides it;
    match fld with
    | Stop => Some (Return (- ENOENT) it)
    | Skip =>
        arg ← _next_ns_data it;
        Some (Again (next_entry (give_up_ns (set_arg it arg))))
    | Known align size =>
        let arg := align_arg (_arg it) align in
        if _arg_index it mod 32 =? IEEE80211_RADIOTAP_VENDOR_NAMESPACE then
          if _max_length it <? arg + size then Some (Return (- EINVAL) (set_arg it arg))
          else
            '(ns, nsd, size) ← vendor_entry mem it arg size;
            let it := take_arg it ns (Some nsd) arg size in
            if _max_length it <? _arg it then Some (Return (- EINVAL) it) else finish_arg mem it
        else
          let it := take_arg it (current_namespace it) (_next_ns_data it) arg size in
          if _max_length it <? _arg it then Some (Return (- EINVAL) it) else finish_arg mem it
    end.

Fixpoint iterator_next (overrides : list radiotap_override) (fuel : nat) (mem : list byte) (it : radiotap_iterator)
  : option (Z * radiotap_iterator) :=
  match fuel with
  | O => None
  | S fuel' =>
      o ← next_body overrides mem it;
      match o with
      | Return r it' => Some (r, it')
      | Again it' => iterator_next overrides fuel' mem it'
      end
  end.

(** ** Reads within the capture *)

Lemma rd8_Some mem o : 0 <= o < Z.of_nat (length mem) -> exists v, rd8 mem o = Some v /\ 0 <= v < 256.
Proof.
  intros Ho. unfold rd8. rewrite (proj2 (Z.leb_le 0 o)) by lia.
  destruct (lookup_lt_is_Some_2 mem (Z.to_nat o)) as [b ->]; [lia|]. exists (u8 b). split; [done|apply u8_range].
Qed.

Lemma rd16_Some mem o : 0 <= o -> o + 2 <= Z.of_nat (length mem) -> exists v, rd16 mem o = Some v /\ 0 <= v < 65536.
Proof.
  intros H1 H2. unfold rd16. destruct (rd8_Some mem o) as (lo & -> & ?); [lia|].
  destruct (rd8_Some mem (o + 1)) as (hi & -> & ?); [lia|]. cbn. eexists. split; [done|lia].
Qed.

Lemma rd32_Some mem o : 0 <= o -> o + 4 <= Z.of_nat (length mem) -> exists v, rd32 mem o = Some v /\ 0 <= v < 2 ^ 32.
Proof.
  intros H1 H2. unfold rd32. destruct (rd16_Some mem o) as (lo & -> & ?); [lia..|].
  destruct (rd16_Some mem (o + 2)) as (hi & -> & ?); [lia..|]. cbn. eexists. split; [done|lia].
Qed.

(** The bitmap word at an offset. *)
Definition word (mem : list byte) (o : Z) : Z := default 0 (rd32 mem o).

(** The bitmaps occupy [4 .. stop): all of them but the last have the
    extension bit, and every word can be read. *)
Record bitmaps (mem : list byte) (stop : Z) : Prop := {
  bm_stop : 8 <= stop /\ stop mod 4 = 0;
  bm_ext : forall o, 4 <= o -> o + 4 < stop -> o mod 4 = 0 -> ext_bit (word mem o) = true;
  bm_last : ext_bit (word mem (stop - 4)) = false;
  bm_in : stop <= Z.of_nat (length mem)
}.

Lemma bitmaps_word mem stop o :
  bitmaps mem stop -> 4 <= o -> o + 4 <= stop -> rd32 mem o = Some (word mem o).
Proof.
  intros [_ _ _ Hin] H1 H2. unfold word. by destruct (rd32_Some mem o) as (w & -> & _); [lia..|].
Qed.

Lemma skip_bitmaps_spec mem max arg fuel :
  max <= Z.of_nat (length mem) -> 8 <= arg -> arg mod 4 = 0 -> arg + 4 <= max ->
  (forall o, 4 <= o -> o < arg -> o mod 4 = 0 -> ext_bit (word mem o) = true) ->
  max - arg < 4 * Z.of_nat fuel ->
  exists r, skip_bitmaps fuel mem max arg = Some r /\
    match r with
    | inl e => e = - EINVAL
    | inr arg' => bitmaps mem (arg' + 4) /\ arg' + 4 <= max
    end.
Proof.
  intros Hmax. revert arg. induction fuel as [|fuel IH]; intros arg H8 Hm4 Hle Hext Hf; [lia|].
  cbn [skip_bitmaps]. destruct (rd32_Some mem arg) as (w & E & Hw); [lia..|].
  assert (word mem arg = w) as Ew by (unfold word; by rewrite E). rewrite E. cbn [mbind option_bind].
  destruct (ext_bit w) eqn:Ex.
  - destruct (Z.ltb_spec max (arg + 4 + 4)); [by eexists|]. apply IH; try lia.
    + rewrite Z.add_mod, Hm4 by lia. done.
    + intros o Ho1 Ho2 Ho4. destruct (decide (o < arg)); [by apply Hext|].
      assert (o = arg) as -> by (pose proof (Z.div_mod o 4); pose proof (Z.div_mod arg 4); lia).
      by rewrite Ew.
  - eexists. split; [done|]. split; [|done]. split.
    + split; [lia|]. rewrite Z.add_mod, Hm4 by lia. done.
    + intros o Ho1 Ho2 Ho4. apply Hext; [done|lia|done].
    + replace (arg + 4 - 4) with arg by lia. by rewrite Ew.
    + lia.
Qed.

(** ** The invariant of the iterator *)

(** Tables that the caller may give: alignments are powers of two, or zero for a
    field that is not known, and there is an entry for every bit. *)
Definition entry_ok (e : Z * Z) : Prop := 0 <= e.2 /\ (e.1 = 0 \/ exists k, 0 <= k /\ e.1 = 2 ^ k).
Definition ns_ok (ns : radiotap_namespace) : Prop :=
  n_bits ns <= Z.of_nat (length (align_size ns)) /\ Forall entry_ok (align_size ns).
Definition vns_ok (vns : option (list radiotap_namespace)) : Prop := Forall ns_ok (default [] vns).
Definition overrides_ok (overrides : list radiotap_override) : Prop :=
  Forall (fun o => entry_ok (o_align o, o_size o)) overrides.

Lemma no_vns_ok : vns_ok None.
Proof. apply Forall_nil_2. Qed.

(** [vns] are the vendor namespaces that are registered. *)
Record it_ok (mem : list byte) (vns : option (list radiotap_namespace)) (stop : Z) (it : radiotap_iterator) : Prop := {
  ok_bitmaps : bitmaps mem stop;
  ok_max : 0 <= _max_length it <= Z.of_nat (length mem);
  ok_vns : _vns it = vns /\ vns_ok vns;
  ok_next : 8 <= _next_bitmap it <= stop /\ _next_bitmap it mod 4 = 0;
  ok_index : 0 <= _arg_index it;
  ok_shifter : _bitmap_shifter it = Z.shiftr (word mem (_next_bitmap it - 4)) (_arg_index it mod 32);
  ok_arg : 0 <= _arg it;
  ok_ns : current_namespace it = RadiotapNs \/
          (current_namespace it = NullNs \/ exists ns, current_namespace it = VendorNs ns /\ ns ∈ default [] vns) /\
          exists v, _next_ns_data it = Some v /\ 0 <= v;
  ok_flag : forall ns, current_namespace it = VendorNs ns -> is_radiotap_ns it = 0
}.

(** No bitmap announces the undefined field 18 of the default namespace. *)
Definition no_field_18 (mem : list byte) (stop : Z) : Prop :=
  forall o, 4 <= o -> o + 4 <= stop -> o mod 4 = 0 -> Z.testbit (word mem o) 18 = false.

(** What is left to visit: bitmap words, then bits of the current word. *)
Definition remaining (stop : Z) (it : radiotap_iterator) : Z :=
  (stop - _next_bitmap it) / 4 * 33 + (32 - _arg_index it mod 32).

Lemma remaining_nonneg mem vns stop it : it_ok mem vns stop it -> 0 < remaining stop it.
Proof.
  intros H. unfold remaining. destruct (ok_next _ _ _ _ H) as [? _].
  pose proof (Z.mod_pos_bound (_arg_index it) 32). assert (0 <= (stop - _next_bitmap it) / 4) by (apply Z.div_pos; lia).
  lia.
Qed.

(** An argument handed to the caller: inside the header, aligned and of the
    size of its field, or vendor data that begin with their identifier. *)
Definition sound_arg (ovr : list radiotap_override) (it : radiotap_iterator) : Prop :=
  0 <= this_arg it /\ 0 <= this_arg_size it /\ this_arg it + this_arg_size it <= _max_length it /\
  ((this_arg_index it = IEEE80211_RADIOTAP_VENDOR_NAMESPACE /\ 6 <= this_arg_size it) \/
   exists align, 0 <= this_arg_index it /\ 0 < align /\ this_arg it mod align = 0 /\
     match find_override ovr (this_arg_index it) with
     | Some e => e = (align, this_arg_size it)
     | None => exists ns, ns_of (current_namespace it) = Some ns /\ this_arg_index it < n_bits ns /\
         align_size ns !! Z.to_nat (this_arg_index it) = Some (align, this_arg_size it)
     end).

(** The same for a caller without vendor namespaces and overrides. *)
Definition good_arg (it : radiotap_iterator) : Prop :=
  0 <= this_arg it /\ 0 <= this_arg_size it /\ this_arg it + this_arg_size it <= _max_length it /\
  (this_arg_index it = IEEE80211_RADIOTAP_VENDOR_NAMESPACE \/
   exists align, 0 <= this_arg_index it /\ 0 < align /\ this_arg it mod align = 0 /\
     rtap_namespace_sizes !! Z.to_nat (this_arg_index it) = Some (align, this_arg_size it)).

Lemma good_default mem stop it : it_ok mem None stop it -> sound_arg [] it -> good_arg it.
Proof.
  intros Hok (H1 & H2 & H3 & H4). split; [done|]. split; [done|]. split; [done|].
  destruct H4 as [[? _]|(al & ? & ? & ? & ns & Ens & _ & Et)]; [by left|]. right. exists al.
  split; [done|]. split; [done|]. split; [done|].
  destruct (ok_ns _ _ _ _ Hok) as [E|[[E|(ns' & _ & Hin)] _]]; [|by rewrite E in Ens|by apply elem_of_nil in Hin].
  rewrite E in Ens. by injection Ens as <-.
Qed.

Lemma mod32_succ i : 0 <= i -> i mod 32 <> 31 -> (i + 1) mod 32 = i mod 32 + 1.
Proof.
  intros Hi Hne. pose proof (Z.mod_pos_bound i 32). pose proof (Z.div_mod i 32).
  symmetry. apply (Z.mod_unique _ _ (i / 32)); lia.
Qed.

Lemma shifter_bit mem vns stop it :
  it_ok mem vns stop it ->
  Z.testbit (_bitmap_shifter it) 0 = Z.testbit (word mem (_next_bitmap it - 4)) (_arg_index it mod 32).
Proof.
  intros H. rewrite (ok_shifter _ _ _ _ H). pose proof (Z.mod_pos_bound (_arg_index it) 32).
  rewrite Z.shiftr_spec by lia. f_equal.
Qed.

Lemma next_entry_ok mem vns stop it :
  it_ok mem vns stop it -> _arg_index it mod 32 <> 31 ->
  it_ok mem vns stop (next_entry it) /\ remaining stop (next_entry it) < remaining stop it.
Proof.
  intros [] Hne. split.
  - split; cbn; try done; [lia|]. rewrite mod32_succ, ok_shifter0 by done.
    pose proof (Z.mod_pos_bound (_arg_index it) 32). by rewrite Z.shiftr_shiftr by lia.
  - unfold remaining. cbn. rewrite mod32_succ by done. lia.
Qed.

(** Alignment is to a power of two. *)
Lemma align_arg_spec arg k :
  0 <= arg -> 0 <= k -> arg <= align_arg arg (2 ^ k) /\ align_arg arg (2 ^ k) mod 2 ^ k = 0.
Proof.
  intros Ha Hk. unfold align_arg. replace (2 ^ k - 1) with (Z.ones k) by (rewrite Z.ones_equiv; lia).
  rewrite Z.land_ones by done. pose proof (Z.pow_pos_nonneg 2 k ltac:(lia) Hk).
  pose proof (Z.mod_pos_bound arg (2 ^ k)). pose proof (Z.div_mod arg (2 ^ k)).
  destruct (Z.eqb_spec (arg mod 2 ^ k) 0); [done|]. split; [lia|].
  symmetry. apply (Z.mod_unique _ _ (arg / 2 ^ k + 1)); lia.
Qed.

Lemma namespace_sizes_entry i a s :
  rtap_namespace_sizes !! i = Some (a, s) -> i <> 18%nat -> 0 <= s /\ exists k, 0 <= k /\ a = 2 ^ k.
Proof.
  intros E Hi.
  do 23 (destruct i as [|i];
    [cbn in E; injection E as <- <-; split; [lia|];
     first [by exists 0|by exists 1|by exists 2|by exists 3|done]|]).
  done.
Qed.

(** The state once the argument is taken: everything but the namespace. *)
Lemma take_arg_ok mem vns stop it arg size :
  it_ok mem vns stop it -> 0 <= arg + size ->
  it_ok mem vns stop (take_arg it (current_namespace it) (_next_ns_data it) arg size).
Proof. intros [] Ha. by split. Qed.

Lemma radiotap_ns_ok mem vns stop it idx : it_ok mem vns stop it -> it_ok mem vns stop (set_ns it RadiotapNs 1 idx).
Proof. intros []. split; cbn; try done. by left. Qed.

(** Entering a vendor namespace, registered or not. *)
Lemma enter_vendor_ok mem vns stop it ns nsd arg size idx :
  it_ok mem vns stop it -> 0 <= arg + size -> 0 <= nsd ->
  (ns = NullNs \/ exists ns', ns = VendorNs ns' /\ ns' ∈ default [] vns) ->
  it_ok mem vns stop (set_ns (take_arg it ns (Some nsd) arg size) ns 0 idx).
Proof. intros [] Ha Hd Hns. split; cbn; try done. right. eauto. Qed.

(** Moving to the next bitmap word. *)
Lemma ext_ok mem vns stop it :
  it_ok mem vns stop it -> Z.testbit (_bitmap_shifter it) 0 = true -> _arg_index it mod 32 = 31 ->
  exists it', finish_arg mem it = Some (Again it') /\ it_ok mem vns stop it' /\ remaining stop it' < remaining stop it.
Proof.
  intros Hok Hbit H31. pose proof (shifter_bit _ _ _ _ Hok) as Hb. rewrite Hbit, H31 in Hb.
  destruct Hok as [Hbm Hmax Hvns [Hn Hn4] Hi Hsh Harg Hns Hfl].
  assert (_next_bitmap it + 4 <= stop) as Hle.
  { destruct Hbm as [[_ Hs4] Hext Hlast _]. destruct (decide (_next_bitmap it = stop)) as [E|].
    - rewrite E in Hb. unfold ext_bit, IEEE80211_RADIOTAP_EXT in Hlast. congruence.
    - pose proof (Z.div_mod (_next_bitmap it) 4). pose proof (Z.div_mod stop 4). lia. }
  unfold finish_arg. rewrite H31. cbn [Z.eqb IEEE80211_RADIOTAP_VENDOR_NAMESPACE
    IEEE80211_RADIOTAP_RADIOTAP_NAMESPACE IEEE80211_RADIOTAP_EXT Pos.eqb].
  rewrite (bitmaps_word mem stop) by (done || lia). cbn [mbind option_bind].
  assert ((if _reset_on_ext it then 0 else _arg_index it + 1) mod 32 = 0) as Hm.
  { destruct (_reset_on_ext it); [done|]. pose proof (Z.div_mod (_arg_index it) 32).
    symmetry. apply (Z.mod_unique _ _ (_arg_index it / 32 + 1)); lia. }
  eexists. split; [done|]. split.
  - split; cbn; try done.
    + split; [lia|]. rewrite Z.add_mod, Hn4 by lia. done.
    + destruct (_reset_on_ext it); lia.
    + rewrite Hm. by replace (_next_bitmap it + 4 - 4) with (_next_bitmap it) by lia.
  - unfold remaining. cbn. rewrite Hm, H31.
    replace (stop - (_next_bitmap it + 4)) with (stop - _next_bitmap it + (-1) * 4) by lia.
    rewrite Z.div_add by lia. lia.
Qed.

(** What one iteration may do. *)
Definition good_outcome (ovr : list radiotap_override) (vns : option (list radiotap_namespace)) (mem : list byte) (stop : Z) (it : radiotap_iterator) (o : outcome) : Prop :=
  match o with
  | Again it' => it_ok mem vns stop it' /\ remaining stop it' < remaining stop it /\ _max_length it' = _max_length it
  | Return r it' =>
      r = - ENOENT \/ r = - EINVAL \/
      (r = 0 /\ it_ok mem vns stop it' /\ remaining stop it' < remaining stop it /\
       _max_length it' = _max_length it /\ sound_arg ovr it')
  end.

(** The vendor entry: the namespace is registered, or all data are skipped. *)
Lemma vendor_ok mem vns stop it arg :
  it_ok mem vns stop it -> 0 <= arg -> arg + 6 <= _max_length it ->
  exists ns nsd size, vendor_entry mem it arg 6 = Some (ns, nsd, size) /\ 0 <= nsd /\ 6 <= size /\
    (ns = NullNs \/ exists ns', ns = VendorNs ns' /\ ns' ∈ default [] vns).
Proof.
  intros Hok Ha Hle. destruct (ok_max _ _ _ _ Hok) as [_ Hmax]. unfold vendor_entry.
  destruct (rd8_Some mem arg) as (b0 & -> & ?); [lia|]. destruct (rd8_Some mem (arg + 1)) as (b1 & -> & ?); [lia|].
  destruct (rd8_Some mem (arg + 2)) as (b2 & -> & ?); [lia|]. destruct (rd8_Some mem (arg + 3)) as (sb & -> & ?); [lia|].
  destruct (rd16_Some mem (arg + 4)) as (vl & -> & ?); [lia..|].
  cbn [mbind option_bind]. destruct (ok_vns _ _ _ _ Hok) as [-> _]. eexists _, _, _. split; [done|]. split; [lia|].
  unfold find_ns. destruct vns as [l|]; [|split; [lia|by left]].
  destruct (List.find _ l) as [ns|] eqn:Ef; [|split; [lia|by left]]. split; [lia|]. right. exists ns. split; [done|].
  apply List.find_some in Ef as [Hin _]. by apply list_elem_of_In.
Qed.

Lemma good_again ovr vns mem stop it it' :
  it_ok mem vns stop it -> it_ok mem vns stop it' -> _arg_index it' = _arg_index it ->
  _next_bitmap it' = _next_bitmap it -> _max_length it' = _max_length it -> _arg_index it mod 32 <> 31 ->
  good_outcome ovr vns mem stop it (Again (next_entry it')).
Proof.
  intros H H' Ei En Em Hne. destruct (next_entry_ok mem vns stop it' H') as [Hok Hr]; [by rewrite Ei|].
  split; [done|]. split; [|done]. revert Hr. unfold remaining at 2 3. by rewrite Ei, En.
Qed.

Lemma good_return ovr vns mem stop it it' :
  it_ok mem vns stop it -> it_ok mem vns stop it' -> _arg_index it' = _arg_index it ->
  _next_bitmap it' = _next_bitmap it -> _max_length it' = _max_length it -> _arg_index it mod 32 <> 31 ->
  sound_arg ovr it' -> good_outcome ovr vns mem stop it (Return 0 (next_entry it')).
Proof.
  intros H H' Ei En Em Hne Hg. destruct (next_entry_ok mem vns stop it' H') as [Hok Hr]; [by rewrite Ei|].
  right. right. split; [done|]. split; [done|]. split; [|done].
  revert Hr. unfold remaining at 2 3. by rewrite Ei, En.
Qed.

(** Bits 29 to 31: they are valid in every namespace. *)
Lemma align_one arg : 0 <= arg -> align_arg arg 1 = arg.
Proof. intros H. unfold align_arg. change (1 - 1) with (Z.ones 0). by rewrite Z.land_ones, Z.mod_1_r by lia. Qed.

Lemma bit_29_good ovr vns mem stop it :
  it_ok mem vns stop it -> Z.testbit (_bitmap_shifter it) 0 = true -> _arg_index it mod 32 = 29 ->
  exists o, next_body ovr mem it = Some o /\ good_outcome ovr vns mem stop it o.
Proof.
  intros Hok Hbit Hb. unfold next_body. rewrite Hbit, Hb. cbn [negb andb]. rewrite andb_false_r.
  pose proof (ok_arg _ _ _ _ Hok) as Ha0. unfold lookup_field. rewrite Hb.
  cbn [Z.eqb IEEE80211_RADIOTAP_VENDOR_NAMESPACE IEEE80211_RADIOTAP_RADIOTAP_NAMESPACE
    IEEE80211_RADIOTAP_EXT Pos.eqb orb mbind option_bind]. rewrite align_one by done.
  destruct (_ <? _); [eexists; split; [done|]; by right; left|].
  unfold finish_arg. cbn [_arg_index take_arg]. rewrite Hb.
  cbn [Z.eqb IEEE80211_RADIOTAP_VENDOR_NAMESPACE IEEE80211_RADIOTAP_RADIOTAP_NAMESPACE Pos.eqb].
  eexists. split; [done|]. apply good_again; try done; [|by rewrite Hb].
  apply radiotap_ns_ok, take_arg_ok; [done|lia].
Qed.

Lemma bit_30_good ovr vns mem stop it :
  it_ok mem vns stop it -> Z.testbit (_bitmap_shifter it) 0 = true -> _arg_index it mod 32 = 30 ->
  exists o, next_body ovr mem it = Some o /\ good_outcome ovr vns mem stop it o.
Proof.
  intros Hok Hbit Hb. unfold next_body. rewrite Hbit, Hb. cbn [negb andb]. rewrite andb_false_r.
  pose proof (ok_arg _ _ _ _ Hok) as Ha0. unfold lookup_field. rewrite Hb.
  cbn [Z.eqb IEEE80211_RADIOTAP_VENDOR_NAMESPACE IEEE80211_RADIOTAP_RADIOTAP_NAMESPACE
    IEEE80211_RADIOTAP_EXT Pos.eqb orb mbind option_bind].
  change (align_arg (_arg it) 2) with (align_arg (_arg it) (2 ^ 1)).
  destruct (align_arg_spec (_arg it) 1 Ha0) as [Hle _]; [lia|]. set (arg := align_arg _ _) in *.
  destruct (Z.ltb_spec (_max_length it) (arg + 6)) as [|Hfit]; [eexists; split; [done|]; by right; left|].
  destruct (vendor_ok mem vns stop it arg Hok ltac:(lia) Hfit) as (ns & nsd & size & -> & Hnsd & Hsize & Hns).
  cbn [mbind option_bind].
  destruct (Z.ltb_spec (_max_length (take_arg it ns (Some nsd) arg size))
    (_arg (take_arg it ns (Some nsd) arg size))) as [|Hin]; [eexists; split; [done|]; by right; left|].
  unfold finish_arg. cbn [_arg_index take_arg current_namespace]. rewrite Hb.
  cbn [Z.eqb IEEE80211_RADIOTAP_VENDOR_NAMESPACE Pos.eqb].
  pose proof (enter_vendor_ok mem vns stop it ns nsd arg size IEEE80211_RADIOTAP_VENDOR_NAMESPACE Hok ltac:(lia) Hnsd Hns) as He.
  eexists. split; [done|]. destruct Hns as [->|(ns' & -> & _)]; [|by apply good_again; rewrite ?Hb].
  apply good_return; try done; [by rewrite Hb|].
  cbn in *. split; [cbn; lia|]. split; [cbn; lia|]. split; [cbn; lia|]. left. split; [done|cbn; lia].
Qed.

Lemma bit_31_good ovr vns mem stop it :
  it_ok mem vns stop it -> Z.testbit (_bitmap_shifter it) 0 = true -> _arg_index it mod 32 = 31 ->
  exists o, next_body ovr mem it = Some o /\ good_outcome ovr vns mem stop it o.
Proof.
  intros Hok Hbit Hb. unfold next_body. rewrite Hbit, Hb. cbn [negb andb]. rewrite andb_false_r.
  pose proof (ok_arg _ _ _ _ Hok) as Ha0. unfold lookup_field. rewrite Hb.
  cbn [Z.eqb IEEE80211_RADIOTAP_VENDOR_NAMESPACE IEEE80211_RADIOTAP_RADIOTAP_NAMESPACE
    IEEE80211_RADIOTAP_EXT Pos.eqb orb mbind option_bind]. rewrite align_one by done.
  destruct (_ <? _); [eexists; split; [done|]; by right; left|].
  set (it1 := take_arg it (current_namespace it) (_next_ns_data it) (_arg it) 0).
  assert (it_ok mem vns stop it1) as Hok1 by (apply take_arg_ok; [done|lia]).
  destruct (ext_ok mem vns stop it1 Hok1 Hbit Hb) as (it' & E & Hok' & Hr). exists (Again it'). split; [done|].
  split; [done|]. split; [exact Hr|]. revert E. unfold finish_arg. cbn [it1 _arg_index take_arg]. rewrite Hb.
  cbn [Z.eqb IEEE80211_RADIOTAP_VENDOR_NAMESPACE IEEE80211_RADIOTAP_RADIOTAP_NAMESPACE
    IEEE80211_RADIOTAP_EXT Pos.eqb]. intros E. obind E. by injection E as <-.
Qed.

(** A field that is present and known is taken, unless it leaves the header. *)
Lemma take_field_good ovr vns mem stop it a s :
  it_ok mem vns stop it -> _arg_index it mod 32 < 29 -> entry_ok (a, s) -> a <> 0 ->
  match find_override ovr (_arg_index it) with
  | Some e => e = (a, s)
  | None => exists ns, ns_of (current_namespace it) = Some ns /\ _arg_index it < n_bits ns /\
      align_size ns !! Z.to_nat (_arg_index it) = Some (a, s)
  end ->
  exists o,
    (let it' := take_arg it (current_namespace it) (_next_ns_data it) (align_arg (_arg it) a) s in
     if _max_length it' <? _arg it' then Some (Return (- EINVAL) it') else finish_arg mem it') = Some o /\
    good_outcome ovr vns mem stop it o.
Proof.
  intros Hok Hlt [Hs [?|(k & Hk & Ea)]] Hne Hsrc; [done|]. cbn [fst snd] in *. subst a. cbv zeta.
  pose proof (ok_arg _ _ _ _ Hok) as Ha0. pose proof (Z.pow_pos_nonneg 2 k ltac:(lia) Hk).
  destruct (align_arg_spec (_arg it) k Ha0 Hk) as [Hle Hal]. set (arg := align_arg _ _) in *.
  set (it' := take_arg _ _ _ _ _). destruct (Z.ltb_spec (_max_length it') (_arg it')) as [|Hin];
    [eexists; split; [done|]; by right; left|].
  unfold finish_arg, IEEE80211_RADIOTAP_VENDOR_NAMESPACE, IEEE80211_RADIOTAP_RADIOTAP_NAMESPACE,
    IEEE80211_RADIOTAP_EXT. change (_arg_index it') with (_arg_index it).
  rewrite !(proj2 (Z.eqb_neq (_arg_index it mod 32) _)) by lia.
  eexists. split; [done|]. apply good_return; try done; [|lia|].
  - apply take_arg_ok; [done|lia].
  - pose proof (ok_index _ _ _ _ Hok). cbn in Hin.
    split; [cbn; lia|]. split; [done|]. split; [cbn; lia|]. right. exists (2 ^ k). by cbn.
Qed.

(** A field that is not known ends the namespace: its data are skipped. *)
Lemma skip_field_good ovr vns mem stop it :
  it_ok mem vns stop it -> _arg_index it mod 32 < 29 -> current_namespace it <> RadiotapNs ->
  exists o, (arg ← _next_ns_data it; Some (Again (next_entry (give_up_ns (set_arg it arg))))) = Some o /\
    good_outcome ovr vns mem stop it o.
Proof.
  intros Hok Hlt Hne. destruct (ok_ns _ _ _ _ Hok) as [?|[_ (v & Ev & Hv)]]; [done|]. rewrite Ev.
  cbn [mbind option_bind]. eexists. split; [done|].
  apply good_again; try done; [|lia]. destruct Hok. split; cbn; try done. right. eauto.
Qed.

Lemma find_override_ok ovr idx e : overrides_ok ovr -> find_override ovr idx = Some e -> entry_ok e /\ e.1 <> 0.
Proof.
  induction ovr as [|o ovr IH]; intros Hok E; [done|]. apply Forall_cons in Hok as [Ho Hok]. cbn [find_override] in E.
  destruct (idx =? o_field o); [|by apply IH]. destruct (Z.eqb_spec (o_align o) 0); [done|]. by injection E as <-.
Qed.

(** The other bits: fields of a namespace, or data to skip. *)
Lemma field_bits_good ovr vns mem stop it :
  overrides_ok ovr -> it_ok mem vns stop it -> no_field_18 mem stop -> Z.testbit (_bitmap_shifter it) 0 = true ->
  _arg_index it mod 32 < 29 ->
  exists o, next_body ovr mem it = Some o /\ good_outcome ovr vns mem stop it o.
Proof.
  intros Hovr Hok H18 Hbit Hlt. pose proof (Z.mod_pos_bound (_arg_index it) 32) as Hm.
  pose proof (ok_index _ _ _ _ Hok) as Hi0. pose proof (take_field_good ovr vns mem stop it) as Ht.
  unfold next_body. rewrite Hbit. cbn [negb andb]. rewrite andb_false_r. unfold lookup_field.
  unfold IEEE80211_RADIOTAP_VENDOR_NAMESPACE, IEEE80211_RADIOTAP_RADIOTAP_NAMESPACE, IEEE80211_RADIOTAP_EXT.
  rewrite !(proj2 (Z.eqb_neq (_arg_index it mod 32) _)) by lia. cbn [orb].
  destruct (find_override ovr (_arg_index it)) as [[a s]|] eqn:Eo.
  { destruct (find_override_ok _ _ _ Hovr Eo). cbn [mbind option_bind]. by apply Ht. }
  destruct (current_namespace it) as [|ns|] eqn:Ens; cbn [ns_of] in *.
  - cbn [n_bits radiotap_ns]. destruct (Z.leb_spec 23 (_arg_index it)) as [|Hi23].
    { cbn [mbind option_bind]. eexists. split; [done|]. by left. }
    change (align_size radiotap_ns) with rtap_namespace_sizes.
    assert (_arg_index it mod 32 = _arg_index it) as Emod by (apply Z.mod_small; lia).
    destruct (lookup_lt_is_Some_2 rtap_namespace_sizes (Z.to_nat (_arg_index it))) as [[a s] Et]; [cbn; lia|].
    assert (_arg_index it <> 18) as Hn18.
    { intros E. pose proof (shifter_bit _ _ _ _ Hok) as Hb. rewrite Hbit, Emod, E in Hb.
      destruct (ok_next _ _ _ _ Hok) as [Hn Hn4]. rewrite (H18 (_next_bitmap it - 4)) in Hb; [done|lia|lia|].
      replace (_next_bitmap it - 4) with (_next_bitmap it + (-1) * 4) by lia. by rewrite Z.mod_add by lia. }
    destruct (namespace_sizes_entry _ a s Et) as (Hs & k & Hk & ->); [lia|]. pose proof (Z.pow_pos_nonneg 2 k ltac:(lia) Hk).
    rewrite Et. cbn [mbind option_bind]. rewrite (proj2 (Z.eqb_neq (2 ^ k) 0)) by lia. cbn [mbind option_bind].
    apply Ht; try done; [|lia|by exists radiotap_ns]. split; [done|]. right. by exists k.
  - destruct (Z.leb_spec (n_bits ns) (_arg_index it)) as [|Hib]; cbn [mbind option_bind].
    { apply skip_field_good; [done|done|congruence]. }
    assert (ns_ok ns) as [Hnb Hent].
    { destruct (ok_ns _ _ _ _ Hok) as [E|[[E|(ns' & E & Hin)] _]]; [congruence..|]. rewrite Ens in E. injection E as <-.
      destruct (ok_vns _ _ _ _ Hok) as [_ Hv]. unfold vns_ok in Hv. rewrite Forall_forall in Hv. by apply Hv. }
    destruct (lookup_lt_is_Some_2 (align_size ns) (Z.to_nat (_arg_index it))) as [[a s] Et]; [lia|].
    rewrite Et. cbn [mbind option_bind]. destruct (Z.eqb_spec a 0); cbn [mbind option_bind].
    { apply skip_field_good; [done|done|congruence]. }
    apply Ht; try done; [|by exists ns]. rewrite Forall_forall in Hent. eapply Hent, list_elem_of_lookup_2, Et.
  - cbn [mbind option_bind]. apply skip_field_good; [done|done|congruence].
Qed.

Lemma next_body_good ovr vns mem stop it :
  overrides_ok ovr -> it_ok mem vns stop it -> no_field_18 mem stop ->
  exists o, next_body ovr mem it = Some o /\ good_outcome ovr vns mem stop it o.
Proof.
  intros Hovr Hok H18. pose proof (Z.mod_pos_bound (_arg_index it) 32) as Hm.
  destruct (Z.testbit (_bitmap_shifter it) 0) eqn:Hbit.
  - destruct (decide (_arg_index it mod 32 < 29)); [by apply field_bits_good|].
    destruct (decide (_arg_index it mod 32 = 29)); [by apply bit_29_good|].
    destruct (decide (_arg_index it mod 32 = 30)); [by apply bit_30_good|]. apply bit_31_good; [done|done|lia].
  - unfold next_body. rewrite Hbit. cbn [negb andb]. rewrite andb_true_r.
    destruct (Z.eqb_spec (_arg_index it mod 32) IEEE80211_RADIOTAP_EXT) as [|Hne].
    + eexists. split; [done|]. by left.
    + eexists. split; [done|]. by apply good_again.
Qed.

Lemma iterator_next_sound ovr vns mem stop fuel it :
  overrides_ok ovr -> it_ok mem vns stop it -> no_field_18 mem stop -> remaining stop it <= Z.of_nat fuel ->
  exists r it', iterator_next ovr fuel mem it = Some (r, it') /\ good_outcome ovr vns mem stop it (Return r it').
Proof.
  intros Hovr Hok H18. revert it Hok. induction fuel as [|fuel IH]; intros it Hok Hf.
  { pose proof (remaining_nonneg _ _ _ _ Hok). lia. }
  cbn [iterator_next]. destruct (next_body_good ovr vns mem stop it Hovr Hok H18) as ([r it'|it'] & -> & Ho);
    cbn [mbind option_bind].
  - eexists _, _. split; [done|exact Ho].
  - destruct Ho as (Hok' & Hr & Em). destruct (IH it' Hok') as (r & it2 & E & Ho2); [lia|].
    eexists _, _. split; [exact E|]. destruct Ho2 as [?|[?|(-> & ? & ? & ? & ?)]]; [by left|by right; left|].
    right. right. split; [done|]. split; [done|]. split; [lia|]. split; [congruence|done].
Qed.

(** Without vendor namespaces and overrides. *)
Lemma iterator_next_good mem stop fuel it :
  it_ok mem None stop it -> no_field_18 mem stop -> remaining stop it <= Z.of_nat fuel ->
  exists r it', iterator_next [] fuel mem it = Some (r, it') /\
    (r = - ENOENT \/ r = - EINVAL \/
     (r = 0 /\ it_ok mem None stop it' /\ remaining stop it' < remaining stop it /\
      _max_length it' = _max_length it /\ good_arg it')).
Proof.
  intros Hok H18 Hf. destruct (iterator_next_sound [] None mem stop fuel it) as (r & it' & E & Ho); try done; [by constructor|].
  exists r, it'. split; [done|]. destruct Ho as [?|[?|(-> & Hok' & ? & ? & Hs)]]; [by left|by right; left|].
  right. right. split; [done|]. split; [done|]. split; [done|]. split; [done|]. by eapply good_default.
Qed.

(** ** Initialisation *)

(** The bitmap words of a header, from offset [off] on. *)
Fixpoint bitmap_words (fuel : nat) (mem : list byte) (off : Z) : list Z :=
  match fuel with
  | O => []
  | S fuel' =>
      let w := word mem off in
      w :: (if ext_bit w then bitmap_words fuel' mem (off + 4) else [])
  end.

Definition words_of (mem : list byte) : list Z := bitmap_words (S (length mem)) mem 4.

(** No bitmap word has bit 18. *)
Definition defined_fields (mem : list byte) : Prop :=
  Forall (fun w => Z.testbit w 18 = false) (words_of mem).

Lemma bitmap_words_all mem stop fuel off o :
  bitmaps mem stop -> 4 <= off -> off mod 4 = 0 -> off <= o -> o + 4 <= stop -> o mod 4 = 0 ->
  o - off < 4 * Z.of_nat fuel -> word mem o ∈ bitmap_words fuel mem off.
Proof.
  intros Hbm. revert off. induction fuel as [|fuel IH]; intros off H4 Hm Hle Hst Ho Hf; [lia|].
  cbn [bitmap_words]. destruct (decide (o = off)) as [->|Hne]; [left|right].
  rewrite (bm_ext _ _ Hbm) by lia.
  pose proof (Z.div_mod o 4). pose proof (Z.div_mod off 4).
  apply IH; try lia. rewrite Z.add_mod, Hm by lia. done.
Qed.

Lemma defined_no_field mem stop : bitmaps mem stop -> defined_fields mem -> no_field_18 mem stop.
Proof.
  intros Hbm Hd o Ho1 Ho2 Ho4. unfold defined_fields in Hd. rewrite Forall_forall in Hd. apply Hd.
  apply (bitmap_words_all mem stop); try done; try lia.
  destruct Hbm as [_ _ _ Hin]. lia.
Qed.

Lemma iterator_init_good mem max vns :
  max <= Z.of_nat (length mem) -> vns_ok vns ->
  exists r oit, iterator_init mem max vns = Some (r, oit) /\
    ((r = - EINVAL /\ oit = None) \/
     (r = 0 /\ exists it stop it_len, oit = Some it /\ it_ok mem vns stop it /\ rd16 mem 2 = Some it_len /\
        _max_length it = it_len /\ it_len <= max /\ stop <= Z.max 8 it_len)).
Proof.
  intros Hmax Hvns. unfold iterator_init. destruct (Z.ltb_spec max 8); [eexists _, _; split; [done|by left]|].
  destruct (rd8_Some mem 0) as (v & -> & _); [lia|]. cbn [mbind option_bind].
  destruct (negb (v =? 0)); [eexists _, _; split; [done|by left]|].
  destruct (rd16_Some mem 2) as (it_len & E2 & Hl); [lia..|]. rewrite E2. cbn [mbind option_bind].
  destruct (Z.ltb_spec max it_len); [eexists _, _; split; [done|by left]|].
  destruct (rd32_Some mem 4) as (w & E4 & Hw); [lia..|]. rewrite E4. cbn [mbind option_bind].
  assert (word mem 4 = w) as Ew by (unfold word; by rewrite E4).
  assert (forall stop, bitmaps mem stop -> it_ok mem vns stop
    (MkIter vns RadiotapNs stop None 8 stop 0 0 1 it_len 0 w false)) as Hinit.
  { intros stop Hbm. pose proof (bm_stop _ _ Hbm). pose proof (bm_in _ _ Hbm).
    split; cbn; try done; try lia; [split; [lia|done]|by left]. }
  destruct (ext_bit w) eqn:Ex.
  - destruct (Z.ltb_spec it_len (8 + 4)); [eexists _, _; split; [done|by left]|].
    destruct (skip_bitmaps_spec mem it_len 8 (S (Z.to_nat it_len))) as ([e|arg] & -> & Hr); try lia; try done.
    { intros o Ho1 Ho2 Ho4. pose proof (Z.div_mod o 4). assert (o = 4) as -> by lia. by rewrite Ew. }
    + cbn [mbind option_bind]. subst e. eexists _, _. split; [done|by left].
    + cbn [mbind option_bind]. destruct Hr as [Hbm Hle]. eexists _, _. split; [done|]. right. split; [done|].
      eexists _, (arg + 4), it_len. split; [done|]. split; [by apply Hinit|]. split; [done|]. split; [done|].
      split; [lia|]. lia.
  - eexists _, _. split; [done|]. right. split; [done|]. eexists _, 8, it_len. split; [done|].
    split; [apply Hinit|split; [done|split; [done|split; lia]]].
    split; [done| | |lia].
    + intros o Ho1 Ho2. lia.
    + change (8 - 4) with 4. by rewrite Ew.
Qed.

Lemma remaining_bound mem vns stop it :
  it_ok mem vns stop it -> remaining stop it <= 9 * Z.of_nat (length mem) + 32.
Proof.
  intros H. unfold remaining. destruct (ok_next _ _ _ _ H) as [? _]. pose proof (bm_in _ _ (ok_bitmaps _ _ _ _ H)).
  pose proof (Z.mod_pos_bound (_arg_index it) 32).
  pose proof (Z.mul_div_le (stop - _next_bitmap it) 4). lia.
Qed.

(** The fuel every caller in the library gives to [iterator_next]. *)
Definition next_fuel (mem : list byte) : nat := (9 * length mem + 32)%nat.

(** [it] is reached by the loop of a caller: [init], then [next] while it
    returns 0. *)
Inductive visited (ovr : list radiotap_override) (vns : option (list radiotap_namespace)) (mem : list byte) (max : Z)
  : radiotap_iterator -> Prop :=
  | visited_init it : iterator_init mem max vns = Some (0, Some it) -> visited ovr vns mem max it
  | visited_next it it' :
      visited ovr vns mem max it -> iterator_next ovr (next_fuel mem) mem it = Some (0, it') -> visited ovr vns mem max it'.

Lemma visited_ok ovr vns mem max it :
  overrides_ok ovr -> vns_ok vns -> max <= Z.of_nat (length mem) -> defined_fields mem -> visited ovr vns mem max it ->
  exists stop, it_ok mem vns stop it /\ no_field_18 mem stop /\ _max_length it <= max.
Proof.
  intros Hovr Hvns Hmax Hd. induction 1 as [it E|it it' _ (stop & Hok & H18 & Hm) E].
  - destruct (iterator_init_good mem max vns Hmax Hvns) as (r & oit & E' & Hr). rewrite E in E'. injection E' as <- <-.
    destruct Hr as [[? _]|(_ & it1 & stop & l & [= <-] & Hok & _ & El & Hl & _)]; [done|].
    exists stop. split; [done|]. split; [by apply defined_no_field; [apply Hok|]|lia].
  - destruct (iterator_next_sound ovr vns mem stop (next_fuel mem) it Hovr Hok H18) as (r & it2 & E2 & Ho).
    { pose proof (remaining_bound _ _ _ _ Hok). unfold next_fuel. lia. }
    rewrite E in E2. injection E2 as <- <-. destruct Ho as [?|[?|(_ & Hok' & _ & Em & _)]]; [done..|].
    exists stop. split; [done|]. split; [done|lia].
Qed.

(** ** The whole walk *)

(** The loop of a caller: [next] while it returns 0; the iterators that it
    returned, and the code that ended the loop. *)
Fixpoint each_arg (ovr : list radiotap_override) (fuel : nat) (mem : list byte) (it : radiotap_iterator)
  : option (list radiotap_iterator * Z) :=
  match fuel with
  | O => None
  | S fuel =>
      '(r, it) ← iterator_next ovr (next_fuel mem) mem it;
      if negb (r =? 0) then Some ([], r)
      else '(args, r) ← each_arg ovr fuel mem it; Some (it :: args, r)
  end.

(** With [init]: a packet that it refuses has no arguments. *)
Definition each_packet (ovr : list radiotap_override) (vns : option (list radiotap_namespace)) (fuel : nat)
    (mem : list byte) (max : Z) : option (list radiotap_iterator * Z) :=
  '(r, oit) ← iterator_init mem max vns;
  match oit with
  | None => Some ([], r)
  | Some it => each_arg ovr fuel mem it
  end.

(** The loop ends: every argument leaves fewer bits to visit. *)
Lemma each_arg_ends ovr vns mem stop max fuel : forall it,
  overrides_ok ovr -> it_ok mem vns stop it -> no_field_18 mem stop -> _max_length it <= max ->
  remaining stop it <= Z.of_nat fuel ->
  exists args r, each_arg ovr fuel mem it = Some (args, r) /\ (r = - ENOENT \/ r = - EINVAL) /\
    Z.of_nat (length args) < remaining stop it /\
    Forall (fun it => sound_arg ovr it /\ _max_length it <= max) args.
Proof.
  induction fuel as [|fuel IH]; intros it Hovr Hok H18 Hm Hf; pose proof (remaining_nonneg _ _ _ _ Hok); [lia|].
  destruct (iterator_next_sound ovr vns mem stop (next_fuel mem) it Hovr Hok H18) as (r & it' & E & Ho).
  { pose proof (remaining_bound _ _ _ _ Hok). unfold next_fuel. lia. }
  cbn [each_arg]. rewrite E. cbn [mbind option_bind].
  destruct Ho as [->|[->|(-> & Hok' & Hr & Em & Hs)]]; cbn [Z.eqb negb Z.opp ENOENT EINVAL].
  - exists [], (- ENOENT). split; [done|]. split; [by left|]. by split.
  - exists [], (- EINVAL). split; [done|]. split; [by right|]. by split.
  - destruct (IH it' Hovr Hok' H18) as (args & r & -> & Hc & Hl & Ha); [lia..|]. cbn [mbind option_bind].
    exists (it' :: args), r. split; [done|]. split; [done|]. split; [cbn [length]; lia|].
    constructor; [|done]. split; [done|lia].
Qed.

Lemma each_packet_ends ovr vns mem max :
  overrides_ok ovr -> vns_ok vns -> max <= Z.of_nat (length mem) -> defined_fields mem ->
  exists args r, each_packet ovr vns (next_fuel mem) mem max = Some (args, r) /\ (r = - ENOENT \/ r = - EINVAL) /\
    Forall (fun it => sound_arg ovr it /\ _max_length it <= max) args.
Proof.
  intros Hovr Hvns Hmax Hd. unfold each_packet.
  destruct (iterator_init_good mem max vns Hmax Hvns) as (r & oit & -> & Hr). cbn [mbind option_bind].
  destruct Hr as [[-> ->]|(_ & it & stop & l & -> & Hok & _ & El & Hl & _)].
  - exists [], (- EINVAL). split; [done|]. by split; [right|].
  - destruct (each_arg_ends ovr vns mem stop max (next_fuel mem) it Hovr Hok) as (args & r' & E & Hc & _ & Ha); [|lia| |].
    + by apply defined_no_field; [apply Hok|].
    + pose proof (remaining_bound _ _ _ _ Hok). unfold next_fuel. lia.
    + by exists args, r'.
Qed.

(** ** Properties *)

(** C40: the iterator never reads outside a packet that is as long as the
    caller says, whatever its bytes, the vendor namespaces that are registered
    and the overrides, and it terminates. [init] returns -EINVAL or 0, and 0 only
    if all bitmap words lie within the header length, which lies within the
    packet. As long as no bitmap announces the undefined field 18, for which the
    code would read a pointer that was never set, every call of [next] returns
    -ENOENT, -EINVAL or 0, and 0 only for an argument that lies inside the
    radiotap header, aligned and of the size of its field in the namespace it
    belongs to, or for all the data of an unknown vendor; and the whole walk
    ends: a caller that calls [next] for as long as it returns 0 comes to
    -ENOENT or -EINVAL after finitely many arguments, all of them such. *)
Theorem iterator_safe (ovr : list radiotap_override) (vns : option (list radiotap_namespace)) (mem : list byte) (max : Z) :
  overrides_ok ovr -> vns_ok vns -> max <= Z.of_nat (length mem) ->
  (exists r oit, iterator_init mem max vns = Some (r, oit) /\
    ((r = - EINVAL /\ oit = None) \/
     (r = 0 /\ exists it stop it_len, oit = Some it /\ it_ok mem vns stop it /\ rd16 mem 2 = Some it_len /\
        _max_length it = it_len /\ it_len <= max /\ stop <= Z.max 8 it_len))) /\
  (defined_fields mem ->
    (forall it, visited ovr vns mem max it ->
      exists r it', iterator_next ovr (next_fuel mem) mem it = Some (r, it') /\
        (r = - ENOENT \/ r = - EINVAL \/ r = 0) /\
        (r = 0 -> sound_arg ovr it' /\ _max_length it' <= max)) /\
    exists args r, each_packet ovr vns (next_fuel mem) mem max = Some (args, r) /\ (r = - ENOENT \/ r = - EINVAL) /\
      Forall (fun it => sound_arg ovr it /\ _max_length it <= max) args).
Proof.
  intros Hovr Hvns Hmax. split; [by apply iterator_init_good|]. intros Hd.
  split; [|by apply each_packet_ends]. intros it Hv.
  destruct (visited_ok ovr vns mem max it Hovr Hvns Hmax Hd Hv) as (stop & Hok & H18 & Hm).
  destruct (iterator_next_sound ovr vns mem stop (next_fuel mem) it Hovr Hok H18) as (r & it' & E & Ho).
  { pose proof (remaining_bound _ _ _ _ Hok). unfold next_fuel. lia. }
  exists r, it'. split; [exact E|]. destruct Ho as [->|[->|(-> & _ & _ & Em & Hg)]]; split; auto; try done.
  intros _. split; [done|lia].
Qed.

(** A header with the fields RATE and CHANNEL. *)
Definition demo_header : list byte :=
  [x00; x00; x0e; x00; x0c; x00; x00; x00; x02; x00; x6c; x09; xa0; x00].

Definition demo_iterator : radiotap_iterator :=
  MkIter None RadiotapNs 8 None 8 8 0 0 1 14 0 12 false.

(** The walk over it, with an override of the rate: two arguments. *)
Lemma iterator_safe_witness :
  (exists r oit, iterator_init demo_header 14 None = Some (r, oit)) /\
  (exists r it', iterator_next [MkOverride 2 4 2] (next_fuel demo_header) demo_header demo_iterator = Some (r, it') /\
    (r = - ENOENT \/ r = - EINVAL \/ r = 0) /\
    (r = 0 -> sound_arg [MkOverride 2 4 2] it' /\ _max_length it' <= 14)) /\
  exists a b, each_packet [MkOverride 2 4 2] None (next_fuel demo_header) demo_header 14 = Some ([a; b], - ENOENT) /\
    (this_arg_index a, this_arg a, this_arg_size a) = (2, 8, 2) /\
    (this_arg_index b, this_arg b, this_arg_size b) = (3, 10, 4) /\
    Forall (fun it => sound_arg [MkOverride 2 4 2] it /\ _max_length it <= 14) [a; b].
Proof.
  assert (defined_fields demo_header) as Hd by (unfold defined_fields; vm_compute; by apply Forall_singleton).
  destruct (iterator_safe [MkOverride 2 4 2] None demo_header 14) as [(r & oit & E & _) H].
  - apply Forall_singleton. split; [done|]. right. by exists 2.
  - exact no_vns_ok.
  - simpl; lia.
  - destruct (H Hd) as [Hnext (args & code & Eall & _ & Hargs)].
    split; [exists r, oit; exact E|]. split.
    + apply Hnext, visited_init. vm_compute. reflexivity.
    + vm_compute in Eall. injection Eall as <- <-. eexists _, _. split; [vm_compute; reflexivity|].
      split; [reflexivity|]. split; [reflexivity|]. exact Hargs.
Defined.

(** Field 18 has no entry in the table: a packet that announces it makes
    the iterator continue at a pointer that was never set. *)
Theorem field_18_indeterminate (mem : list byte) (max : Z) (it : radiotap_iterator) :
  iterator_init mem max None = Some (0, Some it) -> rd32 mem 4 = Some (2 ^ 18) ->
  iterator_next [] 32 mem it = None.
Proof.
  intros E Ep. unfold iterator_init in E. destruct (_ <? _); [done|].
  destruct (rd8 mem 0) as [v|]; cbn [mbind option_bind] in E; [|done]. destruct (negb _); [done|].
  destruct (rd16 mem 2) as [l|]; cbn [mbind option_bind] in E; [|done]. destruct (_ <? _); [done|].
  rewrite Ep in E. cbn [mbind option_bind] in E. change (ext_bit (2 ^ 18)) with false in E.
  injection E as <-. reflexivity.
Qed.

Definition header_18 : list byte := [x00; x00; x08; x00; x00; x00; x04; x00].

Lemma field_18_indeterminate_witness :
  iterator_next [] 32 header_18 (MkIter None RadiotapNs 8 None 8 8 0 0 1 8 0 (2 ^ 18) false) = None.
Proof. apply (field_18_indeterminate header_18 8); vm_compute; reflexivity. Defined.
