(* ===== verification/RawSend.v ===== *)
(** * [RawSendSocket] of src/src/raw_socket.cc

    Framing of a message: radiotap header, 802.11 header, data. The clock, the
    indeterminate padding byte of the legacy header and the answer of the
    kernel to [send] are arguments. [None] is an access outside [m_send_buf]
    or outside the message. *)

From S2P Require Import Prelude FecBlock.

Definition RAW_SOCKET_OVERHEAD : Z := 24.

Inductive LinkType := DATA_LINK | FEC_LINK | WFB_LINK | SHORT_DATA_LINK | RTS_DATA_LINK.

Record RawSendSocket := MkRawSend {
  m_ground : bool;
  m_mcs : bool;
  m_stbc : bool;
  m_ldpc : bool;
  m_mtu : Z;
  m_sock : Z;
  m_send_buf : list byte
}.

Definition le32 (z : Z) : list byte := le16 z ++ le16 (Z.shiftr z 16).

Definition RADIOTAP_RATE_PRESENT_FLAG : Z := Z.shiftl 1 2.
Definition RADIOTAP_TX_PRESENT_FLAG : Z := Z.shiftl 1 15.
Definition RADIOTAP_MCS_PRESENT_FLAG : Z := Z.shiftl 1 19.
Definition RADIOTAP_TX_FLAG_NO_ACK : Z := 8.

(** [struct radiotap_header_legacy] with its padding byte, 12 bytes. *)
Definition radiotap_header_legacy (pad2 : byte) (datarate : Z) : list byte :=
  [x00; x00] ++ le16 12 ++ le32 (Z.lor RADIOTAP_RATE_PRESENT_FLAG RADIOTAP_TX_PRESENT_FLAG)
  ++ [byte_of datarate; pad2] ++ le16 RADIOTAP_TX_FLAG_NO_ACK.

(** [struct radiotap_header_mcs], 13 bytes. *)
Definition radiotap_header_mcs (mcs_known mcs_flags mcs_rate : Z) : list byte :=
  [x00; x00] ++ le16 13 ++ le32 (Z.lor RADIOTAP_TX_PRESENT_FLAG RADIOTAP_MCS_PRESENT_FLAG)
  ++ le16 RADIOTAP_TX_FLAG_NO_ACK ++ [byte_of mcs_known; byte_of mcs_flags; byte_of mcs_rate].

Definition ieee_header_data_short : list byte := [x08; x01; x00; x00; xff].
Definition ieee_header_data : list byte :=
  [x08; x02; x00; x00; x01; x00; x00; x00; x00; x00; x13; x22; x33; x44; x55; x66;
   x00; x00; x00; x00; x00; x00; x00; x00].
Definition ieee_header_rts : list byte := [xb4; x01; x00; x00; xff].

Definition RawSendSocket_new (ground : bool) (mtu : Z) (sock : Z) : RawSendSocket :=
  MkRawSend ground false false false mtu sock (replicate (Z.to_nat (13 + mtu)) x00).

(** [memcpy(m_send_buf.data() + off, bs, bs.size())] *)
Definition write_at (off : nat) (bs buf : list byte) : option (list byte) :=
  if (off + length bs <=? length buf)%nat
  then Some (take off buf ++ bs ++ drop (off + length bs) buf) else None.

Definition mcs_flags (s : RawSendSocket) : Z :=
  Z.lor (if m_stbc s then 0x20 else 0) (if m_ldpc s then 0x10 else 0).

(** The table of the legacy data rates. *)
Definition legacy_rate (datarate : Z) : Z :=
  match datarate with
  | 0 => 11 | 1 => 22 | 2 => 36 | 3 => 48 | 4 => 72 | 5 => 108 | _ => 22
  end.

Definition rt_header (s : RawSendSocket) (pad2 : byte) (datarate : Z) : list byte :=
  if m_mcs s then radiotap_header_mcs 0x37 (mcs_flags s) datarate
  else radiotap_header_legacy pad2 (legacy_rate datarate).

Definition ieee_header (type : LinkType) : list byte :=
  match type with
  | SHORT_DATA_LINK => ieee_header_data_short
  | RTS_DATA_LINK => ieee_header_rts
  | _ => ieee_header_data
  end.

(** Data packets carry the low byte of the clock. *)
Definition stamp_time (type : LinkType) (rt_hlen : nat) (now : Z) (buf : list byte) : option (list byte) :=
  match type with
  | SHORT_DATA_LINK | RTS_DATA_LINK => Some buf
  | _ => write_at (rt_hlen + 5) [byte_of (now mod 256)] buf
  end.

(** The port and the direction, in the first byte of the receiver address. *)
Definition port_byte (ground : bool) (port : Z) : byte :=
  byte_of (Z.lor (Z.shiftl (Z.land port 0xf) 4) (if ground then 0xd else 0x5)).

Definition with_buf (s : RawSendSocket) (buf : list byte) : RawSendSocket :=
  MkRawSend (m_ground s) (m_mcs s) (m_stbc s) (m_ldpc s) (m_mtu s) (m_sock s) buf.

(** [send(msg, msglen, port, type, datarate)]: the result, the frame given to
    the kernel if it got that far, and the socket. [msglen] is the length of
    [msg]. *)
Definition send (s : RawSendSocket) (now : Z) (pad2 : byte) (kernel : list byte -> bool)
    (msg : list byte) (port : Z) (type : LinkType) (datarate : Z)
  : option (bool * option (list byte) * RawSendSocket) :=
  let head := rt_header s pad2 datarate in
  let rt_hlen := length head in
  buf ← write_at 0 head (m_send_buf s);
  let ieee_hlen := length (ieee_header type) in
  buf ← write_at rt_hlen (ieee_header type) buf;
  buf ← stamp_time type rt_hlen now buf;
  if m_mtu s <? Z.of_nat (length msg + ieee_hlen) then Some (false, None, with_buf s buf)
  else
    buf ← write_at (rt_hlen + 4) [port_byte (m_ground s) port] buf;
    buf ← write_at (rt_hlen + ieee_hlen) msg buf;
    let frame := take (rt_hlen + ieee_hlen + length msg) buf in
    Some (kernel frame, Some frame, with_buf s buf).

(** ** Opening the device

    The answers of the system calls are given; the result is what [add_device]
    returns and the descriptor it leaves in [m_sock]. *)

Record send_calls := MkSendCalls {
  c_socket : Z;            (* socket() *)
  c_ifindex : Z;           (* ioctl(SIOCGIFINDEX) *)
  c_hwaddr : Z;            (* ioctl(SIOCGIFHWADDR) *)
  c_bind : Z;
  c_sndtimeo : Z;          (* setsockopt(SO_SNDTIMEO) *)
  c_sndbuf : Z             (* setsockopt(SO_SNDBUF) *)
}.

Definition with_device (s : RawSendSocket) (mcs stbc ldpc : bool) (sock : Z) : RawSendSocket :=
  MkRawSend (m_ground s) mcs stbc ldpc (m_mtu s) sock (m_send_buf s).

Definition add_device (s : RawSendSocket) (c : send_calls) (mcs stbc ldpc : bool) : bool * RawSendSocket :=
  if c_socket c =? -1 then (false, with_device s mcs stbc ldpc (-1))
  else if c_ifindex c <? 0 then (false, with_device s mcs stbc ldpc (-1))
  else if c_hwaddr c <? 0 then (false, with_device s mcs stbc ldpc (-1))
  else if c_bind c =? -1 then (false, with_device s mcs stbc ldpc (-1))
  else
    let s := with_device s mcs stbc ldpc (c_socket c) in
    if c_sndtimeo c <? 0 then (false, s)
    else if c_sndbuf c <? 0 then (false, s)
    else (true, s).

Definition error (s : RawSendSocket) : bool := m_sock s <? 0.

(** ** Frames *)

(** The number back from its four bytes. *)
Lemma le32_value z :
  0 <= z < 2 ^ 32 ->
  u8 (byte_of z) + 256 * u8 (byte_of (Z.shiftr z 8)) +
  65536 * (u8 (byte_of (Z.shiftr z 16)) + 256 * u8 (byte_of (Z.shiftr (Z.shiftr z 16) 8))) = z.
Proof.
  intros Hz. autorewrite with wfb_bytes. unfold wrap. rewrite !Z.shiftr_div_pow2 by lia.
  change (2 ^ 8) with 256. change (2 ^ 16) with 65536.
  rewrite (Z.div_div z 65536 256) by lia. change (65536 * 256) with 16777216.
  rewrite (Z.mod_small (z / 16777216)) by (split; [apply Z.div_pos|apply Z.div_lt_upper_bound]; lia).
  pose proof (Z.div_mod z 256 ltac:(lia)). pose proof (Z.div_mod (z / 256) 256 ltac:(lia)).
  pose proof (Z.div_mod (z / 65536) 256 ltac:(lia)).
  assert (z / 256 / 256 = z / 65536) by (rewrite Z.div_div by lia; done).
  assert (z / 65536 / 256 = z / 16777216) by (rewrite Z.div_div by lia; done). lia.
Qed.

Lemma length_rt_header s pad2 rate :
  length (rt_header s pad2 rate) = if m_mcs s then 13%nat else 12%nat.
Proof. unfold rt_header. by destruct (m_mcs s). Qed.

Lemma length_ieee_header type :
  length (ieee_header type) = match type with SHORT_DATA_LINK | RTS_DATA_LINK => 5%nat | _ => 24%nat end.
Proof. by destruct type. Qed.

Lemma write_at_Some off bs buf :
  (off + length bs <= length buf)%nat ->
  exists buf', write_at off bs buf = Some buf' /\ length buf' = length buf /\
    buf' = take off buf ++ bs ++ drop (off + length bs) buf.
Proof.
  intros H. unfold write_at. rewrite (proj2 (Nat.leb_le _ _)) by done. eexists. split; [done|]. split; [|done].
  rewrite !length_app, length_take, length_drop. lia.
Qed.

Lemma write_at_length off bs buf b : write_at off bs buf = Some b -> length b = length buf.
Proof.
  unfold write_at. destruct (Nat.leb_spec (off + length bs) (length buf)); [|done].
  intros E. apply (inj Some) in E as <-. rewrite !length_app, length_take, length_drop. lia.
Qed.

(** Writing [bs] right after a prefix [pre] of the buffer. *)
Lemma write_at_prefix pre bs buf rest :
  buf = pre ++ rest -> (length bs <= length rest)%nat ->
  write_at (length pre) bs buf = Some ((pre ++ bs) ++ drop (length bs) rest).
Proof.
  intros -> H. unfold write_at. rewrite (proj2 (Nat.leb_le _ _)) by (rewrite length_app; lia).
  by rewrite take_app_length, drop_app_add, <-app_assoc.
Qed.

(** The 802.11 header as it is sent: port byte at 4, clock byte at 5. *)
Definition sent_header (s : RawSendSocket) (type : LinkType) (port now : Z) : list byte :=
  let h := <[4%nat := port_byte (m_ground s) port]> (ieee_header type) in
  match type with
  | SHORT_DATA_LINK | RTS_DATA_LINK => h
  | _ => <[5%nat := byte_of (now mod 256)]> h
  end.

Lemma length_sent_header s type port now : length (sent_header s type port now) = length (ieee_header type).
Proof. by destruct type. Qed.

(** What the wifi chip makes of the frame: it may write a sequence number over
    the last two bytes of the 802.11 header of a data frame, as the comment at
    [ieee_header_data] says. *)
Definition renumber (lo hi : byte) (frame : list byte) : list byte := take 22 frame ++ [lo; hi] ++ drop 24 frame.
Definition renumbered (frame frame' : list byte) : Prop :=
  frame' = frame \/ (frame !! 1%nat = Some x02 /\ exists lo hi, frame' = renumber lo hi frame).

Lemma renumbered_header s type port now hdr :
  renumbered (sent_header s type port now) hdr -> length hdr = length (ieee_header type) /\ take 6 hdr = take 6 (sent_header s type port now).
Proof. by destruct type; intros [->|(E & lo & hi & ->)]. Qed.

Lemma renumbered_app s type port now msg frame :
  renumbered (sent_header s type port now ++ msg) frame ->
  exists hdr, frame = hdr ++ msg /\ renumbered (sent_header s type port now) hdr.
Proof.
  intros [->|(E & lo & hi & ->)]; [eexists; split; [done|by left]|].
  exists (renumber lo hi (sent_header s type port now)). destruct type; try discriminate E;
    (split; [reflexivity|right; split; [reflexivity|by exists lo, hi]]).
Qed.

Record socket_ok (s : RawSendSocket) : Prop := {
  sock_mtu : 24 <= m_mtu s < 65536;
  sock_buf : length (m_send_buf s) = Z.to_nat (13 + m_mtu s)
}.

(** Changing one byte of the middle part. *)
Lemma write_at_middle pre mid rest i b :
  (i < length mid)%nat ->
  write_at (length pre + i) [b] (pre ++ mid ++ rest) = Some (pre ++ <[i := b]> mid ++ rest).
Proof.
  intros Hi. unfold write_at. cbn [length].
  rewrite (proj2 (Nat.leb_le _ _)) by (rewrite !length_app; lia). f_equal.
  rewrite take_app_add, <-app_assoc. f_equal. rewrite take_app_le by lia.
  replace (length pre + i + 1)%nat with (length pre + (S i))%nat by lia. rewrite drop_app_add.
  rewrite drop_app_le by lia. rewrite insert_take_drop by done. by rewrite <-app_assoc.
Qed.

(** The buffer after both headers have been stamped. *)
Lemma send_headers s pad2 rate type now port :
  socket_ok s ->
  let head := rt_header s pad2 rate in
  exists rest,
    (buf ← write_at 0 head (m_send_buf s);
     buf ← write_at (length head) (ieee_header type) buf;
     stamp_time type (length head) now buf)
    = Some (head ++ match type with
                    | SHORT_DATA_LINK | RTS_DATA_LINK => ieee_header type
                    | _ => <[5%nat := byte_of (now mod 256)]> (ieee_header type)
                    end ++ rest) /\
    (length head + length (ieee_header type) + length rest)%nat = length (m_send_buf s) /\
    (forall mid, length mid = length (ieee_header type) ->
       write_at (length head + 4) [port_byte (m_ground s) port] (head ++ mid ++ rest)
       = Some (head ++ <[4%nat := port_byte (m_ground s) port]> mid ++ rest)).
Proof.
  intros [Hm Hb] head. assert (length head <= 13)%nat as Hh.
  { unfold head. rewrite length_rt_header. destruct (m_mcs s); lia. }
  assert (length (ieee_header type) <= 24)%nat as Hi by (rewrite length_ieee_header; destruct type; lia).
  assert (5 <= length (ieee_header type))%nat as Hi5 by (rewrite length_ieee_header; destruct type; lia).
  assert (write_at 0 head (m_send_buf s) = Some (head ++ drop (length head) (m_send_buf s))) as ->
    by (apply (write_at_prefix []); [done|lia]).
  cbn [mbind option_bind].
  rewrite (write_at_prefix head (ieee_header type) _ (drop (length head) (m_send_buf s)))
    by (done || (rewrite length_drop; lia)).
  cbn [mbind option_bind]. rewrite <-app_assoc. exists (drop (length (ieee_header type)) (drop (length head) (m_send_buf s))).
  split; [|split].
  - unfold stamp_time. destruct type; try done; apply write_at_middle; simpl; lia.
  - rewrite !length_drop. lia.
  - intros mid Hmid. apply write_at_middle. lia.
Qed.

Lemma send_spec s now pad2 kernel msg port type rate :
  socket_ok s ->
  let head := rt_header s pad2 rate in
  let frame := head ++ sent_header s type port now ++ msg in
  exists s', send s now pad2 kernel msg port type rate =
      (if m_mtu s <? Z.of_nat (length msg + length (ieee_header type))
       then Some (false, None, s') else Some (kernel frame, Some frame, s')) /\
    length (m_send_buf s') = length (m_send_buf s) /\ m_mtu s' = m_mtu s.
Proof.
  intros Hs head frame. destruct (send_headers s pad2 rate type now port Hs) as (rest & E & Hl & Hport).
  fold head in E, Hl, Hport. unfold send. fold head.
  destruct (write_at 0 head (m_send_buf s)) as [b1|] eqn:E1; cbn [mbind option_bind] in *; [|done].
  destruct (write_at (length head) (ieee_header type) b1) as [b2|] eqn:E2; cbn [mbind option_bind] in *; [|done].
  rewrite E. cbn [mbind option_bind]. set (mid := match type with SHORT_DATA_LINK => _ | _ => _ end) in *.
  assert (length mid = length (ieee_header type)) as Hmid by (unfold mid; by destruct type).
  destruct (Z.ltb_spec (m_mtu s) (Z.of_nat (length msg + length (ieee_header type)))) as [Hbig|Hfit].
  { eexists. split; [done|]. cbn. split; [|done]. rewrite !length_app. lia. }
  rewrite (Hport mid Hmid). cbn [mbind option_bind]. set (mid2 := <[4%nat := _]> mid).
  assert (length mid2 = length (ieee_header type)) as Hmid2 by (unfold mid2; by rewrite length_insert).
  assert (length msg <= length rest)%nat as Hmsg.
  { destruct Hs as [Hm Hb]. unfold head in Hl. rewrite length_rt_header in Hl. destruct (m_mcs s); lia. }
  rewrite app_assoc. rewrite <-Hmid2, <-length_app.
  rewrite (write_at_prefix (head ++ mid2) msg _ rest) by done. cbn [mbind option_bind].
  assert (sent_header s type port now = mid2) as Es.
  { unfold sent_header, mid2, mid. destruct type; try done; rewrite list_insert_commute by lia; done. }
  eexists. split.
  - rewrite <-(length_app _ msg), take_app_length. unfold frame. rewrite Es, app_assoc. done.
  - cbn. split; [|done]. rewrite !length_app, length_drop. lia.
Qed.

(** Nothing but the buffer of the socket changes. *)
Lemma send_with_buf s now pad2 kernel msg port type rate r f s' :
  send s now pad2 kernel msg port type rate = Some (r, f, s') -> exists b, s' = with_buf s b.
Proof.
  unfold send. intros E. obind E. obind E. obind E. destruct (m_mtu s <? _).
  { apply (inj Some) in E as [= _ _ <-]. eauto. }
  obind E. obind E. apply (inj Some) in E as [= _ _ <-]. eauto.
Qed.

(** ** Properties *)

(** A message that fits the MTU with its 802.11 header is handed to the
    kernel as radiotap header, 802.11 header with port, direction and clock,
    and the message, unchanged; a longer one is refused and nothing is sent.
    The buffer is never overrun. *)
Theorem send_frames (s : RawSendSocket) (now : Z) (pad2 : byte) (kernel : list byte -> bool)
    (msg : list byte) (port : Z) (type : LinkType) (rate : Z) :
  socket_ok s ->
  let frame := rt_header s pad2 rate ++ sent_header s type port now ++ msg in
  exists s', send s now pad2 kernel msg port type rate =
      (if m_mtu s <? Z.of_nat (length msg + length (ieee_header type))
       then Some (false, None, s') else Some (kernel frame, Some frame, s')) /\
    socket_ok s'.
Proof.
  intros Hs frame. destruct (send_spec s now pad2 kernel msg port type rate Hs) as (s' & E & Hl & Hm).
  exists s'. split; [exact E|]. destruct Hs as [H1 H2]. split; [by rewrite Hm|by rewrite Hm, Hl].
Qed.

Lemma send_frames_witness :
  exists s', send (RawSendSocket_new true 100 3) 7 x00 (fun _ => true) [xaa; xbb] 2 DATA_LINK 1 =
      Some (true, Some (rt_header (RawSendSocket_new true 100 3) x00 1
                        ++ sent_header (RawSendSocket_new true 100 3) DATA_LINK 2 7 ++ [xaa; xbb]), s') /\
    socket_ok s'.
Proof.
  apply (send_frames (RawSendSocket_new true 100 3) 7 x00 (fun _ => true) [xaa; xbb] 2 DATA_LINK 1).
  split; [cbn; lia|reflexivity].
Defined.

(** The headers are written before the length is checked: with an MTU too
    small for the data header even an empty message overruns the buffer. *)
Theorem send_small_mtu (ground : bool) (mtu sock now : Z) (pad2 : byte) (kernel : list byte -> bool)
    (msg : list byte) (port rate : Z) :
  0 <= mtu < 23 ->
  send (RawSendSocket_new ground mtu sock) now pad2 kernel msg port DATA_LINK rate = None.
Proof.
  intros Hm. unfold send. set (s := RawSendSocket_new ground mtu sock).
  assert (length (m_send_buf s) = Z.to_nat (13 + mtu)) as Hb by apply length_replicate.
  destruct (write_at 0 _ (m_send_buf s)) as [b|] eqn:E; cbn [mbind option_bind]; [|done].
  apply write_at_length in E as Hl.
  assert (write_at (length (rt_header s pad2 rate)) (ieee_header DATA_LINK) b = None) as ->; [|done].
  unfold write_at. rewrite (proj2 (Nat.leb_gt _ _)); [done|].
  change (length (rt_header s pad2 rate)) with 12%nat. change (length (ieee_header DATA_LINK)) with 24%nat. lia.
Qed.

Lemma send_small_mtu_witness :
  send (RawSendSocket_new true 10 3) 0 x00 (fun _ => true) [] 0 DATA_LINK 0 = None.
Proof. apply (send_small_mtu true 10 3). lia. Defined.

(** Opening the device. It succeeds exactly when all system calls do;
    a failure up to [bind] leaves the socket in the error state, but after a
    failed [setsockopt] [error()] does not report it. *)
Theorem add_device_outcome (s : RawSendSocket) (c : send_calls) (mcs stbc ldpc : bool) :
  let '(ok, s') := add_device s c mcs stbc ldpc in
  0 <= c_socket c ->
  (ok = true <-> 0 <= c_ifindex c /\ 0 <= c_hwaddr c /\ c_bind c <> -1 /\ 0 <= c_sndtimeo c /\ 0 <= c_sndbuf c) /\
  (ok = true -> error s' = false) /\
  (error s' = true <-> c_ifindex c < 0 \/ c_hwaddr c < 0 \/ c_bind c = -1) /\
  (m_mcs s', m_stbc s', m_ldpc s') = (mcs, stbc, ldpc).
Proof.
  unfold add_device, error. destruct (Z.eqb_spec (c_socket c) (-1)); cbn; [lia|].
  destruct (Z.ltb_spec (c_ifindex c) 0); cbn; [intuition (lia || done)|].
  destruct (Z.ltb_spec (c_hwaddr c) 0); cbn; [intuition (lia || done)|].
  destruct (Z.eqb_spec (c_bind c) (-1)); cbn; [intuition (lia || done)|].
  destruct (Z.ltb_spec (c_sndtimeo c) 0), (Z.ltb_spec (c_sndbuf c) 0); cbn; intros Hs;
    rewrite (proj2 (Z.ltb_ge (c_socket c) 0)) by done; intuition (lia || done).
Qed.

Lemma add_device_outcome_witness :
  (true = true <-> 0 <= 0 /\ 0 <= 0 /\ 0 <> -1 /\ 0 <= 0 /\ 0 <= 0) /\ (true = true -> false = false) /\
  (false = true <-> 0 < 0 \/ 0 < 0 \/ 0 = -1) /\ (true, false, true) = (true, false, true).
Proof.
  exact (add_device_outcome (RawSendSocket_new true 100 (-1)) (MkSendCalls 5 0 0 0 0 0) true false true ltac:(cbn; lia)).
Defined.
