(* ===== verification/RawReceive.v ===== *)
(** * [RawReceiveSocket] of src/src/raw_socket.cc

    A captured packet is the memory [mem] pcap hands out and the length [len]
    of the packet header; the clock is an argument. [None] is a read outside
    the capture. *)

From S2P Require Import Prelude FecBlock Radiotap RawSend.

Record monitor_message := MkMsg {
  msg_data : list byte;
  msg_port : Z;
  msg_link_type : LinkType;
  msg_rate : Z;
  msg_channel : Z;
  msg_channel_flag : Z;
  msg_radiotap_flags : Z;
  msg_rssi : Z;                 (* int8_t *)
  msg_lock_quality : Z;
  msg_latency_ms : Z;
  msg_recv_time : Z;
  msg_rssis : list Z
}.

(** The constructor. It does not initialise the last members: [lock_quality],
    which nobody reads, [recv_time], which [receive] sets, and [latency_ms], which
    [receive] sets for data packets only and the decode thread reads for all:
    [stale] is what the memory of that member happens to hold. *)
Definition monitor_message_new (stale : Z) (data_size : nat) : monitor_message :=
  MkMsg (replicate data_size x00) 0 DATA_LINK 0 0 0 0 0 0 stale 0 [].

(** Assignments to single members. *)
Definition set_data (d : list byte) (m : monitor_message) : monitor_message :=
  MkMsg d (msg_port m) (msg_link_type m) (msg_rate m) (msg_channel m) (msg_channel_flag m)
    (msg_radiotap_flags m) (msg_rssi m) (msg_lock_quality m) (msg_latency_ms m) (msg_recv_time m) (msg_rssis m).
Definition set_link (t : LinkType) (m : monitor_message) : monitor_message :=
  MkMsg (msg_data m) (msg_port m) t (msg_rate m) (msg_channel m) (msg_channel_flag m)
    (msg_radiotap_flags m) (msg_rssi m) (msg_lock_quality m) (msg_latency_ms m) (msg_recv_time m) (msg_rssis m).
Definition set_port (p : Z) (m : monitor_message) : monitor_message :=
  MkMsg (msg_data m) p (msg_link_type m) (msg_rate m) (msg_channel m) (msg_channel_flag m)
    (msg_radiotap_flags m) (msg_rssi m) (msg_lock_quality m) (msg_latency_ms m) (msg_recv_time m) (msg_rssis m).
Definition set_times (latency recv : Z) (m : monitor_message) : monitor_message :=
  MkMsg (msg_data m) (msg_port m) (msg_link_type m) (msg_rate m) (msg_channel m) (msg_channel_flag m)
    (msg_radiotap_flags m) (msg_rssi m) (msg_lock_quality m) latency recv (msg_rssis m).
Definition set_rate (r : Z) (m : monitor_message) : monitor_message :=
  MkMsg (msg_data m) (msg_port m) (msg_link_type m) r (msg_channel m) (msg_channel_flag m)
    (msg_radiotap_flags m) (msg_rssi m) (msg_lock_quality m) (msg_latency_ms m) (msg_recv_time m) (msg_rssis m).
Definition set_channel (c f : Z) (m : monitor_message) : monitor_message :=
  MkMsg (msg_data m) (msg_port m) (msg_link_type m) (msg_rate m) c f
    (msg_radiotap_flags m) (msg_rssi m) (msg_lock_quality m) (msg_latency_ms m) (msg_recv_time m) (msg_rssis m).
Definition set_flags (f : Z) (m : monitor_message) : monitor_message :=
  MkMsg (msg_data m) (msg_port m) (msg_link_type m) (msg_rate m) (msg_channel m) (msg_channel_flag m)
    f (msg_rssi m) (msg_lock_quality m) (msg_latency_ms m) (msg_recv_time m) (msg_rssis m).
Definition set_rssi (r : Z) (m : monitor_message) : monitor_message :=
  MkMsg (msg_data m) (msg_port m) (msg_link_type m) (msg_rate m) (msg_channel m) (msg_channel_flag m)
    (msg_radiotap_flags m) r (msg_lock_quality m) (msg_latency_ms m) (msg_recv_time m) (msg_rssis m).
Definition set_lock (q : Z) (m : monitor_message) : monitor_message :=
  MkMsg (msg_data m) (msg_port m) (msg_link_type m) (msg_rate m) (msg_channel m) (msg_channel_flag m)
    (msg_radiotap_flags m) (msg_rssi m) q (msg_latency_ms m) (msg_recv_time m) (msg_rssis m).
Definition set_rssis (l : list Z) (m : monitor_message) : monitor_message :=
  MkMsg (msg_data m) (msg_port m) (msg_link_type m) (msg_rate m) (msg_channel m) (msg_channel_flag m)
    (msg_radiotap_flags m) (msg_rssi m) (msg_lock_quality m) (msg_latency_ms m) (msg_recv_time m) l.

(** [while (rssis.size() <= antenna) rssis.push_back(-100); rssis[antenna] = v] *)
Definition store_rssi (antenna v : Z) (l : list Z) : list Z :=
  let n := Z.to_nat antenna in
  let l := l ++ replicate (S n - length l) (-100) in
  <[n := v]> l.

(** The [switch] on the argument of the iterator. *)
Definition handle_arg (mem : list byte) (it : radiotap_iterator) (s : Z * monitor_message)
  : option (Z * monitor_message) :=
  let '(antenna, msg) := s in
  let arg := this_arg it in
  match this_arg_index it with
  | 2 => v ← rd8 mem arg; Some (antenna, set_rate v msg)
  | 3 => c ← rd16 mem arg; f ← rd16 mem (arg + 2); Some (antenna, set_channel c f msg)
  | 11 => a ← rd8 mem arg; Some (a, msg)
  | 1 => v ← rd8 mem arg; Some (antenna, set_flags v msg)
  | 5 => v ← rd8 mem arg; Some (antenna, set_rssis (store_rssi antenna (swrap 8 v) (msg_rssis msg)) msg)
  | 7 => v ← rd16 mem arg; Some (antenna, set_lock v msg)
  | _ => Some (antenna, msg)
  end.

(** [while ((n = ieee80211_radiotap_iterator_next(&rti)) == 0) ...] *)
Fixpoint radiotap_loop (fuel : nat) (mem : list byte) (it : radiotap_iterator) (s : Z * monitor_message)
  : option (Z * monitor_message) :=
  match fuel with
  | O => None
  | S fuel' =>
      '(n, it) ← iterator_next [] (next_fuel mem) mem it;
      if negb (n =? 0) then Some s
      else s ← handle_arg mem it s; radiotap_loop fuel' mem it s
  end.

(** [*std::max_element(...)], or -100 when there is none. *)
Definition best_rssi (l : list Z) : Z :=
  match l with
  | [] => -100
  | v :: l => foldl Z.max v l
  end.

(** The bytes [mem[off .. off+n)]. *)
Definition slice (mem : list byte) (off n : Z) : option (list byte) :=
  if (0 <=? off) && (0 <=? n) && (off + n <=? Z.of_nat (length mem))
  then Some (take (Z.to_nat n) (drop (Z.to_nat off) mem)) else None.

(** [receive] once pcap has a packet; [cur_time] is [cur_milliseconds()]. The
    result is the return value and the message. *)
Definition receive (mem : list byte) (len cur_time : Z) (msg : monitor_message)
  : option (bool * monitor_message) :=
  b3 ← rd8 mem 3; b2 ← rd8 mem 2;
  let rt_header_len := wrap 16 (Z.shiftl b3 8 + b2) in
  ptype ← rd8 mem (rt_header_len + 1);
  let go n80211HeaderLength link :=
    let msg := set_link link msg in
    p ← rd8 mem (rt_header_len + 4);
    let msg := set_port (Z.shiftr p 4) msg in
    msg ← (if 5 <? n80211HeaderLength then
             send_time ← rd8 mem (rt_header_len + 5);
             let latency := if send_time <? cur_time then cur_time - send_time else cur_time + 256 - send_time in
             Some (set_times (wrap 16 latency) cur_time msg)
           else Some (set_times (msg_latency_ms msg) cur_time msg));
    if len <? rt_header_len + n80211HeaderLength then Some (false, msg)
    else
      '(r, oit) ← iterator_init mem len None;
      match oit with
      | None => Some (false, msg)
      | Some it =>
          '(_, msg) ← radiotap_loop (next_fuel mem) mem it (0, set_rssis [] msg);
          let msg := set_rssi (best_rssi (msg_rssis msg)) msg in
          let header_len := rt_header_len + n80211HeaderLength in
          let packet_len := wrap 32 (len - header_len - 4) in
          d ← slice mem header_len packet_len;
          Some (true, set_data d msg)
      end in
  match ptype with
  | 1 => go 5 SHORT_DATA_LINK
  | 2 => go 24 DATA_LINK
  | _ => Some (false, msg)
  end.

(** What [pcap_next_ex] answers: no packet yet (with the timeout over or not),
    an error, or a packet with the clock at that time. *)
Inductive pcap_answer :=
| NoPacket (timed_out : bool)
| PcapError
| Packet (mem : list byte) (len cur_time : Z).

Inductive received :=
| Waiting
| Returned (ok : bool) (m : monitor_message) (rest : list pcap_answer).

(** The whole of [receive]. After a timeout the message is empty. *)
Fixpoint receive_call (answers : list pcap_answer) (msg : monitor_message) : option received :=
  match answers with
  | [] => Some Waiting
  | NoPacket false :: answers => receive_call answers msg
  | NoPacket true :: answers => Some (Returned true (set_data [] msg) answers)
  | PcapError :: answers => Some (Returned false msg answers)
  | Packet mem len cur_time :: answers =>
      '(ok, msg) ← receive mem len cur_time msg; Some (Returned ok msg answers)
  end.

(** The receive thread of src/src/wfb_bridge.cc: the messages pushed to the
    queues, and whether the thread has asked for a reset. Every call uses up an
    answer, so [S (length answers)] rounds are enough; [stale n] is in the
    uninitialised member of the message that is created when [n] rounds are left. *)
Fixpoint receive_thread (stale : nat -> Z) (fuel : nat) (answers : list pcap_answer) : option (list monitor_message * bool) :=
  match fuel with
  | O => Some ([], false)
  | S fuel =>
      r ← receive_call answers (monitor_message_new (stale fuel) 0);
      match r with
      | Waiting => Some ([], false)
      | Returned true msg answers =>
          '(ms, reset) ← receive_thread stale fuel answers;
          Some (match msg_data msg with [] => ms | _ => msg :: ms end, reset)
      | Returned false _ _ => Some ([], true)
      end
  end.

(** ** The radiotap loop *)

(** The members the loop does not touch. *)
Definition same_link (m m' : monitor_message) : Prop :=
  msg_port m' = msg_port m /\ msg_link_type m' = msg_link_type m /\ msg_data m' = msg_data m /\
  msg_latency_ms m' = msg_latency_ms m /\ msg_recv_time m' = msg_recv_time m.

(** An argument of the iterator can be read as its field says. *)
Lemma handle_arg_total mem it antenna msg :
  good_arg it -> _max_length it <= Z.of_nat (length mem) ->
  exists antenna' msg', handle_arg mem it (antenna, msg) = Some (antenna', msg') /\ same_link msg msg'.
Proof.
  intros (Ha & Hs & Hle & Hidx) Hm. unfold handle_arg.
  destruct Hidx as [->|(al & Hi0 & _ & _ & Et)]; [by eexists _, _|].
  assert (forall off, 0 <= off -> off + 1 <= this_arg_size it ->
    exists v, rd8 mem (this_arg it + off) = Some v) as R8.
  { intros off H1 H2. destruct (rd8_Some mem (this_arg it + off)) as (v & E & _); [lia|]. eauto. }
  assert (forall off, 0 <= off -> off + 2 <= this_arg_size it ->
    exists v, rd16 mem (this_arg it + off) = Some v) as R16.
  { intros off H1 H2. destruct (rd16_Some mem (this_arg it + off)) as (v & E & _); [lia..|]. eauto. }
  specialize (R8 0) as R8'. specialize (R16 0) as R16'. rewrite Z.add_0_r in R8', R16'.
  rewrite <-(Z2Nat.id _ Hi0). destruct (Z.to_nat (this_arg_index it)) as [|k]; [by eexists _, _|].
  do 22 (destruct k as [|k];
    [cbn in Et; injection Et as _ Esz; rewrite <-Esz in *;
     first [by eexists _, _
       | destruct (R16 2) as (w & Ew); [lia..|]; destruct R16' as (v & Ev); [lia..|]; cbn; rewrite Ev, Ew; by eexists _, _
       | destruct R16' as (v & Ev); [lia..|]; cbn; rewrite Ev; by eexists _, _
       | destruct R8' as (v & Ev); [lia..|]; cbn; rewrite Ev; by eexists _, _]|]).
  done.
Qed.

Lemma same_link_refl m : same_link m m.
Proof. done. Qed.

Lemma same_link_trans a b c : same_link a b -> same_link b c -> same_link a c.
Proof. intros (? & ? & ? & ? & ?) (? & ? & ? & ? & ?). repeat split; congruence. Qed.

Lemma radiotap_loop_total mem stop fuel it antenna msg :
  it_ok mem None stop it -> no_field_18 mem stop -> remaining stop it <= Z.of_nat fuel ->
  exists antenna' msg', radiotap_loop fuel mem it (antenna, msg) = Some (antenna', msg') /\ same_link msg msg'.
Proof.
  intros Hok H18. revert it antenna msg Hok. induction fuel as [|fuel IH]; intros it antenna msg Hok Hf.
  { pose proof (remaining_nonneg _ _ _ _ Hok). lia. }
  cbn [radiotap_loop].
  destruct (iterator_next_good mem stop (next_fuel mem) it Hok H18) as (r & it' & -> & Ho).
  { pose proof (remaining_bound _ _ _ _ Hok). unfold next_fuel. lia. }
  cbn [mbind option_bind]. destruct Ho as [->|[->|(-> & Hok' & Hr & Em & Hg)]]; [by eexists _, _..|].
  cbn [Z.eqb negb]. destruct (handle_arg_total mem it' antenna msg Hg) as (a' & m' & -> & Hs).
  { apply (ok_max _ _ _ _ Hok'). }
  cbn [mbind option_bind]. destruct (IH it' a' m' Hok') as (a2 & m2 & -> & Hs2); [lia|].
  eexists _, _. split; [done|by eapply same_link_trans].
Qed.

Lemma rd8_app (rt rest : list byte) i :
  0 <= i -> rd8 (rt ++ rest) (Z.of_nat (length rt) + i) = u8 <$> rest !! Z.to_nat i.
Proof.
  intros Hi. unfold rd8. rewrite (proj2 (Z.leb_le 0 _)) by lia.
  rewrite lookup_app_r by lia. do 2 f_equal. lia.
Qed.

Lemma rd16_bytes mem off v :
  rd16 mem off = Some v -> exists lo hi, rd8 mem off = Some lo /\ rd8 mem (off + 1) = Some hi /\
    v = lo + 256 * hi /\ 0 <= lo < 256 /\ 0 <= hi < 256.
Proof.
  unfold rd16, rd8. intros E. destruct (if 0 <=? off then _ else _) as [lo|] eqn:E1; cbn in E; [|done].
  destruct (if 0 <=? off + 1 then _ else _) as [hi|] eqn:E2; cbn in E; [|done]. injection E as <-.
  exists lo, hi. split; [done|]. split; [done|]. split; [done|].
  destruct (0 <=? off); [|done]. destruct (0 <=? off + 1); [|done].
  apply fmap_Some in E1 as (b1 & _ & ->). apply fmap_Some in E2 as (b2 & _ & ->).
  auto with wfb.
Qed.

(** The kinds of link a receiver can tell apart. *)
Definition received_link (type : LinkType) : LinkType :=
  match type with SHORT_DATA_LINK | RTS_DATA_LINK => SHORT_DATA_LINK | _ => DATA_LINK end.

Lemma port_byte_port ground port : Z.shiftr (u8 (port_byte ground port)) 4 = Z.land port 15.
Proof.
  unfold port_byte. change 0xf with (Z.ones 4). rewrite Z.land_ones by lia.
  pose proof (Z.mod_pos_bound port (2 ^ 4) ltac:(lia)) as H. revert H. generalize (port mod 2 ^ 4).
  intros p Hp. change (2 ^ 4) with 16 in Hp.
  assert (forallb (fun p => Z.shiftr (u8 (byte_of (Z.lor (Z.shiftl p 4) (if ground then 0xd else 0x5)))) 4 =? p)
            (seqZ 0 16) = true) as Hall by (destruct ground; vm_compute; reflexivity).
  rewrite forallb_forall in Hall. apply Z.eqb_eq, Hall, list_elem_of_In, elem_of_seqZ. lia.
Qed.

Section frame.
Context (rt hdr msg crc : list byte) (type : LinkType) (s : RawSendSocket) (port now : Z).
Context (Hrt : rd16 (rt ++ hdr ++ msg ++ crc) 2 = Some (Z.of_nat (length rt))).
Context (Hhdr : renumbered (sent_header s type port now) hdr).

Local Abbreviation mem := (rt ++ hdr ++ msg ++ crc).

Lemma frame_header_byte i b :
  hdr !! i = Some b -> rd8 mem (Z.of_nat (length rt) + Z.of_nat i) = Some (u8 b).
Proof.
  intros H. rewrite rd8_app by lia. rewrite Nat2Z.id, lookup_app_l; [by rewrite H|].
  by eapply lookup_lt_Some.
Qed.

Lemma frame_bytes :
  hdr !! 4%nat = Some (port_byte (m_ground s) port) /\
  match received_link type with
  | SHORT_DATA_LINK => hdr !! 1%nat = Some x01 /\ length hdr = 5%nat
  | _ => hdr !! 1%nat = Some x02 /\ length hdr = 24%nat /\ hdr !! 5%nat = Some (byte_of (now mod 256))
  end.
Proof.
  destruct (renumbered_header _ _ _ _ _ Hhdr) as [Hl Ht].
  assert (forall i, (i < 6)%nat -> hdr !! i = sent_header s type port now !! i) as Hb.
  { intros i Hi. by rewrite <-(lookup_take_lt _ 6), Ht, lookup_take_lt. }
  rewrite !Hb, Hl by lia. by destruct type.
Qed.

Local Abbreviation header_len := (Z.of_nat (length rt) + Z.of_nat (length hdr)).

(** The message before the walk over the radiotap header. *)
Definition addressed (t : LinkType) (p latency now : Z) (m : monitor_message) : monitor_message :=
  set_rssis [] (set_times latency now (set_port p (set_link t m))).

(** The latency of a data packet is from its stamp, the others have none. *)
Definition stamp_latency (stamp cur_time : Z) : Z :=
  wrap 16 (if stamp <? cur_time then cur_time - stamp else cur_time + 256 - stamp).

Definition frame_latency (old cur_time : Z) : Z :=
  match received_link type with SHORT_DATA_LINK => old | _ => stamp_latency (now mod 256) cur_time end.

(** The way of a well-formed frame through [receive], given what the walk over
    its radiotap header does, up to the copy. *)
Lemma frame_walked cur_time m0 it antenna m' :
  iterator_init mem (Z.of_nat (length mem)) None = Some (0, Some it) ->
  radiotap_loop (next_fuel mem) mem it
    (0, addressed (received_link type) (Z.land port 15) (frame_latency (msg_latency_ms m0) cur_time) cur_time m0)
    = Some (antenna, m') ->
  receive mem (Z.of_nat (length mem)) cur_time m0
    = (d ← slice mem header_len (wrap 32 (Z.of_nat (length mem) - header_len - 4));
       Some (true, set_data d (set_rssi (best_rssi (msg_rssis m')) m'))).
Proof.
  intros Hinit Hloop. destruct frame_bytes as [H4 Hb].
  destruct (rd16_bytes _ _ _ Hrt) as (lo & hi & E2 & E3 & Erl & Hlo & Hhi).
  unfold receive. change (2 + 1) with 3 in E3. rewrite E3, E2. cbn [mbind option_bind].
  assert (wrap 16 (Z.shiftl hi 8 + lo) = Z.of_nat (length rt)) as ->.
  { rewrite Z.shiftl_mul_pow2 by lia. change (2 ^ 8) with 256. rewrite wrap_small; [lia|].
    change (2 ^ 16) with 65536. lia. }
  cbv zeta. unfold frame_latency in Hloop. pose proof (frame_header_byte 4 _ H4) as F4. change (Z.of_nat 4) with 4 in F4.
  destruct (received_link type) eqn:El; try (destruct type; done).
  - destruct Hb as (H1 & Hl & H5). pose proof (frame_header_byte 1 _ H1) as F1. change (Z.of_nat 1) with 1 in F1. rewrite F1. cbn [mbind option_bind].
    change (u8 x02) with 2. cbv iota beta.
    rewrite F4. cbn [mbind option_bind Z.ltb Z.compare Pos.compare Pos.compare_cont].
    pose proof (frame_header_byte 5 _ H5) as F5. change (Z.of_nat 5) with 5 in F5. rewrite F5. cbn [mbind option_bind].
    rewrite (proj2 (Z.ltb_ge _ _)) by (rewrite !length_app, Hl; lia). rewrite Hinit. cbn [mbind option_bind].
    assert (u8 (byte_of (now mod 256)) = now mod 256) as ->.
    { autorewrite with wfb_bytes. apply wrap_small. change (2 ^ 8) with 256. by apply Z.mod_pos_bound. }
    rewrite port_byte_port. unfold addressed, stamp_latency in Hloop.
    rewrite Hloop. cbn [mbind option_bind]. rewrite Hl. by change (Z.of_nat 24) with 24.
  - destruct Hb as (H1 & Hl). pose proof (frame_header_byte 1 _ H1) as F1. change (Z.of_nat 1) with 1 in F1. rewrite F1. cbn [mbind option_bind].
    change (u8 x01) with 1. cbv iota beta. rewrite F4. cbn [mbind option_bind Z.ltb Z.compare Pos.compare Pos.compare_cont].
    rewrite (proj2 (Z.ltb_ge _ _)) by (rewrite !length_app, Hl; lia). rewrite Hinit. cbn [mbind option_bind].
    rewrite port_byte_port. unfold addressed in Hloop.
    cbn [msg_latency_ms set_port set_link]. rewrite Hloop. cbn [mbind option_bind]. rewrite Hl. by change (Z.of_nat 5) with 5.
Qed.

Lemma frame_received cur_time m0 it :
  defined_fields mem ->
  iterator_init mem (Z.of_nat (length mem)) None = Some (0, Some it) ->
  exists m', receive mem (Z.of_nat (length mem)) cur_time m0
      = (d ← slice mem header_len (wrap 32 (Z.of_nat (length mem) - header_len - 4)); Some (true, set_data d m')) /\
    msg_port m' = Z.land port 15 /\ msg_link_type m' = received_link type.
Proof.
  intros Hdef Hinit.
  destruct (visited_ok [] None mem (Z.of_nat (length mem)) it) as (stop & Hok & H18 & _);
    [by constructor|exact no_vns_ok|lia|done|by apply visited_init|].
  pose proof (remaining_bound _ _ _ _ Hok) as Hb.
  destruct (radiotap_loop_total mem stop (next_fuel mem) it 0
    (addressed (received_link type) (Z.land port 15) (frame_latency (msg_latency_ms m0) cur_time) cur_time m0) Hok H18)
    as (a & m' & E & Hs); [unfold next_fuel; lia|].
  rewrite (frame_walked cur_time m0 it a m' Hinit E). destruct Hs as (Hp & Hl & _). eexists. split; [done|].
  split; [exact Hp|exact Hl].
Qed.

Lemma frame_slice :
  length crc = 4%nat -> Z.of_nat (length mem) < 2 ^ 32 ->
  slice mem header_len (wrap 32 (Z.of_nat (length mem) - header_len - 4)) = Some msg.
Proof.
  intros Hcrc Hsz. rewrite !length_app in *.
  rewrite wrap_small by lia. unfold slice. rewrite !length_app.
  rewrite !(proj2 (Z.leb_le _ _)) by lia. cbn [andb]. f_equal.
  replace (Z.to_nat (Z.of_nat (length rt) + Z.of_nat (length hdr))) with (length rt + length hdr)%nat by lia.
  rewrite drop_app_add, drop_app_length.
  replace (Z.to_nat _) with (length msg) by lia. by rewrite take_app_length.
Qed.

(** Fewer bytes than a checksum after the header: the length wraps around. *)
Lemma frame_slice_short :
  (length (msg ++ crc) < 4)%nat -> Z.of_nat (length mem) < 2 ^ 31 ->
  slice mem header_len (wrap 32 (Z.of_nat (length mem) - header_len - 4)) = None.
Proof.
  intros Hs Hsz. unfold slice.
  assert (wrap 32 (Z.of_nat (length mem) - header_len - 4) = Z.of_nat (length (msg ++ crc)) - 4 + 2 ^ 32) as ->.
  { unfold wrap. symmetry. apply (Z.mod_unique _ _ (-1)); rewrite !length_app in *; lia. }
  rewrite (proj2 (Z.leb_gt _ (Z.of_nat (length mem)))) by (rewrite !length_app in *; lia).
  by rewrite andb_false_r.
Qed.
End frame.

(** A capture of the frame body [body], which the chip may have renumbered: the
    receiver's own radiotap header in front, which the iterator accepts, and a
    checksum behind. *)
Definition captured (body mem : list byte) : Prop :=
  exists body' rt crc it, renumbered body body' /\ mem = rt ++ body' ++ crc /\ length crc = 4%nat /\
    rd16 mem 2 = Some (Z.of_nat (length rt)) /\ defined_fields mem /\
    iterator_init mem (Z.of_nat (length mem)) None = Some (0, Some it).

Lemma receive_captured s now cur_time port msg type m0 mem :
  socket_ok s -> Z.of_nat (length msg + length (ieee_header type)) <= m_mtu s ->
  captured (sent_header s type port now ++ msg) mem ->
  exists m', receive mem (Z.of_nat (length mem)) cur_time m0 = Some (true, m') /\
    msg_data m' = msg /\ msg_port m' = Z.land port 15 /\ msg_link_type m' = received_link type.
Proof.
  intros Hs Hfit (body & rt & crc & it & Hbody & -> & Hcrc & Hrt & Hdef & Hinit).
  apply renumbered_app in Hbody as (hdr & -> & Hhdr). rewrite <-app_assoc in *.
  destruct (frame_received rt hdr msg crc type s port now Hrt Hhdr
    cur_time m0 it Hdef Hinit) as (m' & Er & Hp & Hl). apply renumbered_header in Hhdr as [Hlh _].
  destruct (rd16_bytes _ _ _ Hrt) as (lo & hi & _ & _ & Erl & Hlo & Hhi).
  assert (Z.of_nat (length (rt ++ hdr ++ msg ++ crc)) < 2 ^ 32) as Hsz.
  { destruct Hs as [Hm _]. rewrite !length_app, Hlh, Hcrc. lia. }
  rewrite frame_slice in Er by done. cbn [mbind option_bind] in Er. eexists. split; [exact Er|].
  split; [done|]. split; [exact Hp|exact Hl].
Qed.

(** ** Properties *)

(** The framing round trip. What [RawSendSocket::send] hands to the kernel
    arrives at the other side with another radiotap header in front and a
    checksum behind; for any such radiotap header the iterator accepts,
    [RawReceiveSocket::receive] returns the message, its port (four bits of it)
    and the kind of link. *)
Theorem raw_link_roundtrip (s : RawSendSocket) (now cur_time rate port : Z) (pad2 : byte)
    (kernel : list byte -> bool) (msg rt crc : list byte) (type : LinkType) (m0 : monitor_message)
    (it : radiotap_iterator) :
  socket_ok s -> Z.of_nat (length msg + length (ieee_header type)) <= m_mtu s -> length crc = 4%nat ->
  let body := sent_header s type port now ++ msg in
  let mem := rt ++ body ++ crc in
  rd16 mem 2 = Some (Z.of_nat (length rt)) -> defined_fields mem ->
  iterator_init mem (Z.of_nat (length mem)) None = Some (0, Some it) ->
  exists s' frame m',
    send s now pad2 kernel msg port type rate = Some (kernel frame, Some frame, s') /\
    drop (length (rt_header s pad2 rate)) frame = body /\
    receive mem (Z.of_nat (length mem)) cur_time m0 = Some (true, m') /\
    msg_data m' = msg /\ msg_port m' = Z.land port 15 /\ msg_link_type m' = received_link type.
Proof.
  intros Hs Hfit Hcrc body mem Hrt Hdef Hinit.
  destruct (send_spec s now pad2 kernel msg port type rate Hs) as (s' & E & _).
  rewrite (proj2 (Z.ltb_ge _ _)) in E by done.
  destruct (receive_captured s now cur_time port msg type m0 mem Hs Hfit) as (m' & Er & Hd & Hp & Hl).
  { exists body, rt, crc, it. split; [by left|]. done. }
  exists s', (rt_header s pad2 rate ++ body), m'. split; [exact E|]. split; [apply drop_app_length|]. done.
Qed.

(** A radiotap header of a receiver, and a checksum. *)
Definition demo_crc : list byte := [x01; x02; x03; x04].

Lemma raw_link_roundtrip_witness :
  exists s' frame m',
    send (RawSendSocket_new true 100 3) 7 x00 (fun _ => true) [xaa; xbb] 2 DATA_LINK 1
      = Some (true, Some frame, s') /\
    drop 12 frame = sent_header (RawSendSocket_new true 100 3) DATA_LINK 2 7 ++ [xaa; xbb] /\
    receive (demo_header ++ (sent_header (RawSendSocket_new true 100 3) DATA_LINK 2 7 ++ [xaa; xbb]) ++ demo_crc)
      44 9 (monitor_message_new 0 0) = Some (true, m') /\
    msg_data m' = [xaa; xbb] /\ msg_port m' = 2 /\ msg_link_type m' = DATA_LINK.
Proof.
  apply (raw_link_roundtrip (RawSendSocket_new true 100 3) 7 9 1 2 x00 (fun _ => true) [xaa; xbb]
    demo_header demo_crc DATA_LINK (monitor_message_new 0 0) demo_iterator).
  - split; [cbn; lia|reflexivity].
  - cbn. lia.
  - reflexivity.
  - reflexivity.
  - unfold defined_fields. vm_compute. by apply Forall_singleton.
  - vm_compute. reflexivity.
Defined.

(** The checksum is assumed, not checked: a packet that passes the length
    check but has fewer than four bytes after its header makes the length of
    the data wrap around, and the copy runs past the capture. *)
Theorem receive_without_checksum (s : RawSendSocket) (now cur_time port : Z) (tail rt : list byte)
    (type : LinkType) (m0 : monitor_message) (it : radiotap_iterator) :
  (length tail < 4)%nat ->
  let mem := rt ++ sent_header s type port now ++ tail in
  rd16 mem 2 = Some (Z.of_nat (length rt)) -> defined_fields mem ->
  iterator_init mem (Z.of_nat (length mem)) None = Some (0, Some it) ->
  receive mem (Z.of_nat (length mem)) cur_time m0 = None.
Proof.
  intros Ht mem Hrt Hdef Hinit. unfold mem in *. rewrite <-(app_nil_r tail) in *.
  destruct (frame_received rt (sent_header s type port now) tail [] type s port now Hrt (or_introl eq_refl)
    cur_time m0 it Hdef Hinit) as (m' & -> & _).
  destruct (rd16_bytes _ _ _ Hrt) as (lo & hi & _ & _ & Erl & Hlo & Hhi).
  rewrite frame_slice_short; [done|done|].
  rewrite !length_app, length_sent_header, length_ieee_header in *. destruct type; lia.
Qed.

Lemma receive_without_checksum_witness :
  receive (demo_header ++ sent_header (RawSendSocket_new true 100 3) DATA_LINK 2 7 ++ [xaa]) 39 9
    (monitor_message_new 0 0) = None.
Proof.
  apply (receive_without_checksum (RawSendSocket_new true 100 3) 7 9 2 [xaa] demo_header DATA_LINK
    (monitor_message_new 0 0) demo_iterator).
  - simpl. lia.
  - reflexivity.
  - unfold defined_fields. vm_compute. by apply Forall_singleton.
  - vm_compute. reflexivity.
Defined.
