(* ===== verification/RadiotapFields.v ===== *)
(** * The fields of a radiotap header

    A specification of headers with one bitmap, the constants of
    src/src/radiotap/radiotap.h, and what the iterator, the receiver and the
    sender make of such headers. *)

From S2P Require Import Prelude FecBlock Radiotap RawSend RawReceive.

(** ** Constants *)

Inductive ieee80211_radiotap_presence :=
| IEEE80211_RADIOTAP_TSFT | IEEE80211_RADIOTAP_FLAGS | IEEE80211_RADIOTAP_RATE | IEEE80211_RADIOTAP_CHANNEL
| IEEE80211_RADIOTAP_FHSS | IEEE80211_RADIOTAP_DBM_ANTSIGNAL | IEEE80211_RADIOTAP_DBM_ANTNOISE
| IEEE80211_RADIOTAP_LOCK_QUALITY | IEEE80211_RADIOTAP_TX_ATTENUATION | IEEE80211_RADIOTAP_DB_TX_ATTENUATION
| IEEE80211_RADIOTAP_DBM_TX_POWER | IEEE80211_RADIOTAP_ANTENNA | IEEE80211_RADIOTAP_DB_ANTSIGNAL
| IEEE80211_RADIOTAP_DB_ANTNOISE | IEEE80211_RADIOTAP_RX_FLAGS | IEEE80211_RADIOTAP_TX_FLAGS
| IEEE80211_RADIOTAP_RTS_RETRIES | IEEE80211_RADIOTAP_DATA_RETRIES | IEEE80211_RADIOTAP_MCS
| IEEE80211_RADIOTAP_AMPDU_STATUS | IEEE80211_RADIOTAP_VHT | IEEE80211_RADIOTAP_TIMESTAMP.

#[export] Instance presence_eq_dec : EqDecision ieee80211_radiotap_presence.
Proof. solve_decision. Defined.

(** The bit of a field: 18 has no name. *)
Definition bit (f : ieee80211_radiotap_presence) : nat :=
  match f with
  | IEEE80211_RADIOTAP_TSFT => 0
  | IEEE80211_RADIOTAP_FLAGS => 1
  | IEEE80211_RADIOTAP_RATE => 2
  | IEEE80211_RADIOTAP_CHANNEL => 3
  | IEEE80211_RADIOTAP_FHSS => 4
  | IEEE80211_RADIOTAP_DBM_ANTSIGNAL => 5
  | IEEE80211_RADIOTAP_DBM_ANTNOISE => 6
  | IEEE80211_RADIOTAP_LOCK_QUALITY => 7
  | IEEE80211_RADIOTAP_TX_ATTENUATION => 8
  | IEEE80211_RADIOTAP_DB_TX_ATTENUATION => 9
  | IEEE80211_RADIOTAP_DBM_TX_POWER => 10
  | IEEE80211_RADIOTAP_ANTENNA => 11
  | IEEE80211_RADIOTAP_DB_ANTSIGNAL => 12
  | IEEE80211_RADIOTAP_DB_ANTNOISE => 13
  | IEEE80211_RADIOTAP_RX_FLAGS => 14
  | IEEE80211_RADIOTAP_TX_FLAGS => 15
  | IEEE80211_RADIOTAP_RTS_RETRIES => 16
  | IEEE80211_RADIOTAP_DATA_RETRIES => 17
  | IEEE80211_RADIOTAP_MCS => 19
  | IEEE80211_RADIOTAP_AMPDU_STATUS => 20
  | IEEE80211_RADIOTAP_VHT => 21
  | IEEE80211_RADIOTAP_TIMESTAMP => 22
  end.

(** ** Headers *)

(** A field with its bytes. *)
Definition rfield : Type := ieee80211_radiotap_presence * list byte.

(** The bytes of the fields from offset [off] on; [pad] is in between. *)
Fixpoint layout (pad : byte) (off : Z) (fs : list rfield) : list byte :=
  match fs with
  | [] => []
  | (f, b) :: fs =>
      let al := match rtap_namespace_sizes !! bit f with Some (al, _) => al | None => 1 end in
      let start := align_arg off al in
      replicate (Z.to_nat (start - off)) pad ++ b ++ layout pad (start + Z.of_nat (length b)) fs
  end.

Definition present (fs : list rfield) : Z := foldr (fun f w => Z.setbit w (Z.of_nat (bit f.1))) 0 fs.

Definition radiotap_header (pad : byte) (fs : list rfield) : list byte :=
  let body := layout pad 8 fs in
  [x00; x00] ++ le16 (8 + Z.of_nat (length body)) ++ le32 (present fs) ++ body.

(** The fields are in the order of their bits, from bit [k] on, and have their size. *)
Fixpoint fields_ok (k : nat) (fs : list rfield) : Prop :=
  match fs with
  | [] => True
  | (f, b) :: fs =>
      (k <= bit f)%nat /\ (exists al, rtap_namespace_sizes !! bit f = Some (al, Z.of_nat (length b))) /\
      fields_ok (S (bit f)) fs
  end.

(** ** Arithmetic of bitmaps *)

Lemma present_bit fs n :
  Z.testbit (present fs) n = existsb (fun f => Z.of_nat (bit f.1) =? n) fs.
Proof.
  induction fs as [|f fs IH]; [apply Z.testbit_0_l|]. cbn [present foldr existsb]. fold (present fs).
  rewrite Z.setbit_eqb by lia. by rewrite IH.
Qed.

Lemma bit_small f : (bit f < 23)%nat.
Proof. destruct f; cbn; lia. Qed.

Lemma setbit_range w i n : 0 <= w < 2 ^ n -> 0 <= i < n -> 0 <= Z.setbit w i < 2 ^ n.
Proof.
  intros Hw Hi. rewrite Z.setbit_spec'. assert (0 <= Z.lor w (2 ^ i)) as H0.
  { apply Z.lor_nonneg. split; [lia|apply Z.pow_nonneg; lia]. }
  split; [done|]. destruct (decide (Z.lor w (2 ^ i) = 0)) as [->|]; [apply Z.pow_pos_nonneg; lia|].
  apply Z.log2_lt_pow2; [lia|]. rewrite Z.log2_lor by (try apply Z.pow_nonneg; lia). rewrite Z.log2_pow2 by lia.
  apply Z.max_lub_lt; [|lia]. destruct (decide (w = 0)) as [->|]; [cbn; lia|]. apply Z.log2_lt_pow2; lia.
Qed.

Lemma present_range fs : 0 <= present fs < 2 ^ 23.
Proof.
  induction fs as [|f fs IH]; [done|]. apply setbit_range; [done|]. pose proof (bit_small f.1). lia.
Qed.

Lemma shiftr_bit w i : 0 <= i -> Z.testbit (Z.shiftr w i) 0 = Z.testbit w i.
Proof. intros Hi. by rewrite Z.shiftr_spec by lia. Qed.

(** No field before bit [k]. *)
Lemma fields_absent k fs n : fields_ok k fs -> n < Z.of_nat k -> Z.testbit (present fs) n = false.
Proof.
  rewrite present_bit. revert k. induction fs as [|[f b] fs IH]; intros k H Hn; [done|]. destruct H as (Hk & _ & H).
  cbn. rewrite (proj2 (Z.eqb_neq _ _)) by lia. apply (IH _ H). lia.
Qed.

Lemma fields_first k f b fs n :
  fields_ok k ((f, b) :: fs) -> n < Z.of_nat (bit f) -> Z.testbit (present ((f, b) :: fs)) n = false.
Proof.
  intros (_ & _ & H) Hn. rewrite present_bit. cbn. rewrite (proj2 (Z.eqb_neq _ _)) by lia. cbn.
  rewrite <-present_bit. apply (fields_absent _ _ _ H). lia.
Qed.

(** ** The iterator on one bitmap *)

(** Bit [i] of the bitmap [w] is next, the arguments go on at [off]. *)
Record at_bit (len w : Z) (i : nat) (off : Z) (it : radiotap_iterator) : Prop := {
  ab_ns : current_namespace it = RadiotapNs;
  ab_arg : _arg it = off;
  ab_max : _max_length it = len;
  ab_index : _arg_index it = Z.of_nat i;
  ab_shifter : _bitmap_shifter it = Z.shiftr w (Z.of_nat i);
  ab_flag : is_radiotap_ns it = 1
}.

Section one_bitmap.
Context (mem : list byte) (len w : Z).

Lemma at_bit_next i off it : at_bit len w i off it -> at_bit len w (S i) off (next_entry it).
Proof.
  intros []. split; cbn; try done; [lia|]. rewrite ab_shifter0, Z.shiftr_shiftr by lia. f_equal. lia.
Qed.

Lemma next_absent i off it :
  at_bit len w i off it -> (i < 31)%nat -> Z.testbit w (Z.of_nat i) = false ->
  next_body [] mem it = Some (Again (next_entry it)).
Proof.
  intros [_ _ _ Hi Hs _] Hlt Hb. unfold next_body. rewrite Hs, Hi, shiftr_bit, Hb by lia. cbn [negb].
  rewrite Z.mod_small by lia. by rewrite (proj2 (Z.eqb_neq _ _)) by (unfold IEEE80211_RADIOTAP_EXT; lia).
Qed.

Lemma next_end off it :
  at_bit len w 31 off it -> Z.testbit w 31 = false -> next_body [] mem it = Some (Return (- ENOENT) it).
Proof. intros [_ _ _ Hi Hs _] Hb. unfold next_body. rewrite Hs, Hi, shiftr_bit by lia. change (Z.of_nat 31) with 31. by rewrite Hb. Qed.

(** Bits that are not set are passed over. *)
Lemma next_skips n : forall i off it fuel,
  at_bit len w i off it -> (i + n <= 31)%nat -> (forall k, (i <= k < i + n)%nat -> Z.testbit w (Z.of_nat k) = false) ->
  exists it', at_bit len w (i + n) off it' /\ iterator_next [] (n + fuel) mem it = iterator_next [] fuel mem it'.
Proof.
  induction n as [|n IH]; intros i off it fuel H Hn Hb.
  { exists it. by rewrite Nat.add_0_r. }
  cbn [Nat.add iterator_next]. rewrite (next_absent i off it H) by (lia || (apply Hb; lia)). cbn [mbind option_bind].
  destruct (IH (S i) off (next_entry it) fuel) as (it' & H' & E); [by apply at_bit_next|lia|intros k Hk; apply Hb; lia|].
  exists it'. by rewrite <-Nat.add_succ_comm.
Qed.

(** A field is handed out at its place. *)
Lemma next_field f off al size it :
  at_bit len w (bit f) off it -> Z.testbit w (Z.of_nat (bit f)) = true ->
  rtap_namespace_sizes !! bit f = Some (al, size) -> align_arg off al + size <= len ->
  exists it', next_body [] mem it = Some (Return 0 it') /\ at_bit len w (S (bit f)) (align_arg off al + size) it' /\
    this_arg it' = align_arg off al /\ this_arg_index it' = Z.of_nat (bit f) /\ this_arg_size it' = size.
Proof.
  intros [Hns Ha Hm Hi Hs Hfl] Hb Hsz Hlen. pose proof (bit_small f) as Hf.
  assert (al <> 0) as Hal by (destruct f; cbn in Hsz; by injection Hsz as <- _).
  unfold next_body. rewrite Hs, Hi, shiftr_bit, Hb by lia. cbn [negb andb]. rewrite andb_false_r.
  unfold lookup_field. rewrite Hi, Hns. rewrite Z.mod_small by lia.
  unfold IEEE80211_RADIOTAP_VENDOR_NAMESPACE, IEEE80211_RADIOTAP_RADIOTAP_NAMESPACE, IEEE80211_RADIOTAP_EXT.
  rewrite !(proj2 (Z.eqb_neq (Z.of_nat (bit f)) _)) by lia. cbn [orb find_override ns_of n_bits radiotap_ns].
  rewrite (proj2 (Z.leb_gt _ _)) by lia. change (align_size radiotap_ns) with rtap_namespace_sizes.
  rewrite Nat2Z.id, Hsz. cbn [mbind option_bind]. rewrite (proj2 (Z.eqb_neq al 0)) by done. cbn [mbind option_bind find_override].
  rewrite Ha. cbn [_max_length _arg take_arg]. rewrite Hm, (proj2 (Z.ltb_ge _ _)) by lia.
  unfold finish_arg, IEEE80211_RADIOTAP_VENDOR_NAMESPACE, IEEE80211_RADIOTAP_RADIOTAP_NAMESPACE, IEEE80211_RADIOTAP_EXT.
  cbn [_arg_index take_arg]. rewrite Hi, Z.mod_small by lia.
  rewrite !(proj2 (Z.eqb_neq (Z.of_nat (bit f)) _)) by lia. eexists. split; [done|]. split; [|by split_and!].
  apply at_bit_next. by split.
Qed.
End one_bitmap.

(** The bits of [w] from [i] on are those of the fields. *)
Definition ahead (w : Z) (i : nat) (fs : list rfield) : Prop :=
  forall k, (i <= k)%nat -> Z.testbit w (Z.of_nat k) = Z.testbit (present fs) (Z.of_nat k).

Lemma ahead_tail w i f b fs : ahead w i ((f, b) :: fs) -> (i <= bit f)%nat -> ahead w (S (bit f)) fs.
Proof.
  intros H Hi k Hk. rewrite H, !present_bit by lia. cbn. by rewrite (proj2 (Z.eqb_neq _ _)) by lia.
Qed.

Lemma align_arg_le off f al size :
  0 <= off -> rtap_namespace_sizes !! bit f = Some (al, size) -> off <= align_arg off al.
Proof.
  intros Ho E. assert (bit f <> 18%nat) as Hf by (by destruct f).
  destruct (namespace_sizes_entry _ _ _ E Hf) as (_ & k & Hk & ->). by apply align_arg_spec.
Qed.

(** After the last field. *)
Lemma visit_end mem len w i off it fuel :
  at_bit len w i off it -> (i <= 31)%nat -> ahead w i [] -> (32 <= fuel)%nat ->
  exists it', iterator_next [] fuel mem it = Some (- ENOENT, it').
Proof.
  intros H Hi Ha Hf. assert (forall k, (i <= k)%nat -> Z.testbit w (Z.of_nat k) = false) as Hw.
  { intros k Hk. rewrite Ha by done. apply Z.testbit_0_l. }
  destruct (next_skips mem len w (31 - i) i off it (S (fuel - 32 + i)) H) as (it' & H' & E); [lia|intros k Hk; apply Hw; lia|].
  replace (31 - i + S (fuel - 32 + i))%nat with fuel in E by lia. rewrite E. exists it'. cbn [iterator_next].
  replace (i + (31 - i))%nat with 31%nat in H' by lia.
  by rewrite (next_end mem len w off it' H' ltac:(apply (Hw 31%nat); lia)).
Qed.

(** The next field: what the iterator points at is its bytes. *)
Lemma visit_field mem len w pad i off it f b fs pre rest fuel :
  at_bit len w i off it -> ahead w i ((f, b) :: fs) -> fields_ok i ((f, b) :: fs) -> (32 <= fuel)%nat ->
  mem = pre ++ layout pad off ((f, b) :: fs) ++ rest -> Z.of_nat (length pre) = off ->
  off + Z.of_nat (length (layout pad off ((f, b) :: fs))) <= len ->
  exists it' pre', let off' := Z.of_nat (length pre') + Z.of_nat (length b) in
    iterator_next [] fuel mem it = Some (0, it') /\ at_bit len w (S (bit f)) off' it' /\
    this_arg_index it' = Z.of_nat (bit f) /\ this_arg it' = Z.of_nat (length pre') /\ this_arg_size it' = Z.of_nat (length b) /\
    mem = pre' ++ b ++ layout pad off' fs ++ rest /\ off' + Z.of_nat (length (layout pad off' fs)) <= len.
Proof.
  intros H Ha Hok Hf Hmem Hpre Hlen. pose proof Hok as (Hi & (al & Esz) & _). pose proof (bit_small f) as Hb.
  cbn [layout] in Hmem, Hlen. rewrite Esz in Hmem, Hlen. set (start := align_arg off al) in *.
  assert (off <= start) as Hle by (eapply align_arg_le; [lia|exact Esz]).
  rewrite !length_app, length_replicate in Hlen.
  destruct (next_skips mem len w (bit f - i) i off it (S (fuel - S (bit f - i))) H) as (it1 & H1 & E1); [lia| |].
  { intros k Hk. rewrite Ha by lia. apply (fields_first i f b fs); [done|lia]. }
  replace (bit f - i + S (fuel - S (bit f - i)))%nat with fuel in E1 by lia.
  replace (i + (bit f - i))%nat with (bit f) in H1 by lia.
  destruct (next_field mem len w f off al (Z.of_nat (length b)) it1 H1) as (it2 & E2 & H2 & T1 & T2 & T3); [| exact Esz |lia|].
  { rewrite Ha, present_bit by lia. cbn. by rewrite Z.eqb_refl. }
  exists it2, (pre ++ replicate (Z.to_nat (start - off)) pad). cbn zeta.
  assert (Z.of_nat (length (pre ++ replicate (Z.to_nat (start - off)) pad)) = start) as ->
    by (rewrite length_app, length_replicate; lia).
  split_and!; [|done..| |lia].
  - rewrite E1. cbn [iterator_next]. rewrite E2. done.
  - rewrite Hmem, <-!app_assoc. done.
Qed.

(** ** The walk over a header *)

(** The loop of a caller that collects the arguments. *)
Fixpoint walk (fuel : nat) (mem : list byte) (it : radiotap_iterator) : option (list (Z * list byte) * Z) :=
  match fuel with
  | O => None
  | S fuel =>
      '(r, it) ← iterator_next [] (next_fuel mem) mem it;
      if negb (r =? 0) then Some ([], r)
      else
        b ← slice mem (this_arg it) (this_arg_size it);
        '(l, r) ← walk fuel mem it; Some ((this_arg_index it, b) :: l, r)
  end.

Definition shown (f : rfield) : Z * list byte := (Z.of_nat (bit f.1), f.2).

Lemma slice_middle (pre b rest : list byte) :
  slice (pre ++ b ++ rest) (Z.of_nat (length pre)) (Z.of_nat (length b)) = Some b.
Proof.
  unfold slice. rewrite !length_app, !(proj2 (Z.leb_le _ _)) by lia. cbn [andb]. f_equal.
  by rewrite !Nat2Z.id, drop_app_length, take_app_length.
Qed.

Lemma next_fuel_enough mem : (32 <= next_fuel mem)%nat.
Proof. unfold next_fuel. lia. Qed.

Lemma fields_count k fs : fields_ok k fs -> (k <= 23)%nat -> (k + length fs <= 23)%nat.
Proof.
  revert k. induction fs as [|[f b] fs IH]; intros k H Hk; [cbn; lia|]. destruct H as (H1 & _ & H).
  pose proof (bit_small f). specialize (IH _ H). cbn. lia.
Qed.

Lemma walk_fields mem len w pad rest fs : forall i off it pre fuel,
  at_bit len w i off it -> ahead w i fs -> fields_ok i fs -> (i <= 23)%nat -> (length fs < fuel)%nat ->
  mem = pre ++ layout pad off fs ++ rest -> Z.of_nat (length pre) = off ->
  off + Z.of_nat (length (layout pad off fs)) <= len ->
  walk fuel mem it = Some (map shown fs, - ENOENT).
Proof.
  pose proof (next_fuel_enough mem) as Hnf.
  induction fs as [|[f b] fs IH]; intros i off it pre fuel H Ha Hok Hi Hf Hmem Hpre Hlen; (destruct fuel; [cbn in Hf; lia|]).
  - cbn [walk]. destruct (visit_end mem len w i off it (next_fuel mem) H) as (it' & ->); [lia|done|done|done].
  - cbn [walk]. destruct (visit_field mem len w pad i off it f b fs pre rest (next_fuel mem)) as (it' & pre' & E & H' & T1 & T2 & T3 & Hm & Hl);
      try done.
    rewrite E. cbn [mbind option_bind Z.eqb negb]. rewrite T1, T2, T3.
    assert (slice mem (Z.of_nat (length pre')) (Z.of_nat (length b)) = Some b) as -> by (rewrite Hm; apply slice_middle).
    cbn [mbind option_bind].
    pose proof (bit_small f). set (off' := Z.of_nat (length pre') + Z.of_nat (length b)) in *.
    assert (walk fuel mem it' = Some (map shown fs, - ENOENT)) as ->; [|done].
    apply (IH (S (bit f)) off' it' (pre' ++ b)); try done.
    + by eapply ahead_tail; [|apply Hok].
    + apply Hok.
    + cbn in Hf. lia.
    + by rewrite <-app_assoc.
    + rewrite length_app. lia.
Qed.

Section header.
Context (pad : byte) (fs : list rfield) (rest : list byte).
Context (Hok : fields_ok 0 fs).

Local Abbreviation hdr := (radiotap_header pad fs).
Local Abbreviation mem := (hdr ++ rest).

Lemma layout_length : forall fs k off, 0 <= off -> fields_ok k fs -> Z.of_nat (length (layout pad off fs)) <= 20 * Z.of_nat (length fs).
Proof using.
  clear. induction fs as [|[f b] fs IH]; intros k off Ho H; [done|]. destruct H as (_ & (al & E) & H). cbn [layout]. rewrite E.
  pose proof (align_arg_le off f al _ Ho E). specialize (IH (S (bit f)) (align_arg off al + Z.of_nat (length b)) ltac:(lia) H).
  assert (align_arg off al <= off + 8 /\ Z.of_nat (length b) <= 12) as [H1 H2].
  { assert (0 < al <= 8 /\ Z.of_nat (length b) <= 12) as [Hal ?].
    { destruct f; cbn in E; injection E as <- <-; lia. }
    split; [|done]. unfold align_arg. destruct (_ =? 0); [lia|].
    assert (0 <= Z.land off (al - 1)) by (apply Z.land_nonneg; lia). lia. }
  rewrite !length_app, length_replicate. cbn [length]. lia.
Qed.

Lemma header_length : 8 <= Z.of_nat (length hdr) < 512 /\ Z.of_nat (length hdr) = 8 + Z.of_nat (length (layout pad 8 fs)).
Proof using Hok.
  pose proof (layout_length fs 0 8 ltac:(lia) Hok). pose proof (fields_count 0 fs Hok ltac:(lia)).
  unfold radiotap_header. rewrite !length_app. change (length (le16 _)) with 2%nat. change (length (le32 _)) with 4%nat.
  cbn [length] in *. lia.
Qed.

Lemma header_len : rd16 mem 2 = Some (Z.of_nat (length hdr)).
Proof using Hok.
  destruct header_length as [Hl E]. change (rd16 mem 2) with
    (Some (of_le16 (byte_of (8 + Z.of_nat (length (layout pad 8 fs)))) (byte_of (Z.shiftr (8 + Z.of_nat (length (layout pad 8 fs))) 8)))).
  rewrite of_le16_le16 by lia. by rewrite <-E.
Qed.

Lemma header_present : rd32 mem 4 = Some (present fs).
Proof using.
  assert (0 <= present fs < 2 ^ 32) as H by (pose proof (present_range fs); lia).
  etrans; [|apply (f_equal Some (le32_value _ H))]. reflexivity.
Qed.

Lemma header_ext : ext_bit (present fs) = false.
Proof using.
  unfold ext_bit, IEEE80211_RADIOTAP_EXT. rewrite present_bit. apply not_true_iff_false. intros H.
  apply existsb_exists in H as (f & _ & H). apply Z.eqb_eq in H. pose proof (bit_small f.1). lia.
Qed.

Lemma header_init vns :
  exists it, iterator_init mem (Z.of_nat (length mem)) vns = Some (0, Some it) /\ at_bit (Z.of_nat (length hdr)) (present fs) 0 8 it.
Proof using Hok.
  destruct header_length as [Hl E]. unfold iterator_init. rewrite (proj2 (Z.ltb_ge _ _)) by (rewrite length_app; lia).
  change (rd8 mem 0) with (Some 0). cbn [mbind option_bind Z.eqb negb]. rewrite header_len. cbn [mbind option_bind].
  rewrite (proj2 (Z.ltb_ge _ _)) by (rewrite length_app; lia). rewrite header_present. cbn [mbind option_bind].
  rewrite header_ext. eexists. split; [done|]. by split.
Qed.

Lemma header_fields_defined : defined_fields mem.
Proof using.
  unfold defined_fields, words_of. cbn [bitmap_words]. assert (word mem 4 = present fs) as -> by (unfold word; by rewrite header_present).
  rewrite header_ext. apply Forall_singleton. rewrite present_bit. apply not_true_iff_false. intros H.
  apply existsb_exists in H as ([f b] & _ & H). apply Z.eqb_eq in H. by destruct f.
Qed.

Lemma header_walk it fuel :
  at_bit (Z.of_nat (length hdr)) (present fs) 0 8 it -> (23 < fuel)%nat ->
  walk fuel mem it = Some (map shown fs, - ENOENT).
Proof using Hok.
  intros Hit Hf. destruct header_length as [Hl E]. pose proof (fields_count 0 fs Hok ltac:(lia)).
  apply (walk_fields mem (Z.of_nat (length hdr)) (present fs) pad rest fs 0 8 it ([x00; x00] ++ le16 (8 + Z.of_nat (length (layout pad 8 fs))) ++ le32 (present fs)));
    done || lia.
Qed.
End header.

(** ** What the receiver takes from a header *)

Definition note (s : Z * monitor_message) (f : rfield) : Z * monitor_message :=
  let '(antenna, msg) := s in
  match f with
  | (IEEE80211_RADIOTAP_RATE, [v]) => (antenna, set_rate (u8 v) msg)
  | (IEEE80211_RADIOTAP_CHANNEL, [c0; c1; f0; f1]) => (antenna, set_channel (of_le16 c0 c1) (of_le16 f0 f1) msg)
  | (IEEE80211_RADIOTAP_ANTENNA, [a]) => (u8 a, msg)
  | (IEEE80211_RADIOTAP_FLAGS, [v]) => (antenna, set_flags (u8 v) msg)
  | (IEEE80211_RADIOTAP_DBM_ANTSIGNAL, [v]) =>
      (antenna, set_rssis (store_rssi antenna (swrap 8 (u8 v)) (msg_rssis msg)) msg)
  | (IEEE80211_RADIOTAP_LOCK_QUALITY, [q0; q1]) => (antenna, set_lock (of_le16 q0 q1) msg)
  | _ => s
  end.

Lemma rd8_middle (pre rest : list byte) i : rd8 (pre ++ rest) (Z.of_nat (length pre) + Z.of_nat i) = u8 <$> rest !! i.
Proof. rewrite rd8_app by lia. by rewrite Nat2Z.id. Qed.

Lemma handle_note mem it pre f b al rest s :
  mem = pre ++ b ++ rest -> this_arg it = Z.of_nat (length pre) -> this_arg_index it = Z.of_nat (bit f) ->
  rtap_namespace_sizes !! bit f = Some (al, Z.of_nat (length b)) ->
  handle_arg mem it s = Some (note s (f, b)).
Proof.
  intros -> Ha Hi Esz. destruct s as [antenna msg]. unfold handle_arg. rewrite Ha, Hi.
  assert (forall i, rd8 (pre ++ b ++ rest) (Z.of_nat (length pre) + Z.of_nat i) = u8 <$> (b ++ rest) !! i) as R.
  { intros i. apply rd8_middle. }
  pose proof (R 0%nat) as R0. rewrite Z.add_0_r in R0. pose proof (R 1%nat) as R1. pose proof (R 2%nat) as R2.
  pose proof (R 3%nat) as R3. change (Z.of_nat 1) with 1 in R1. change (Z.of_nat 2) with 2 in R2.
  change (Z.of_nat 3) with 3 in R3. clear R.
  destruct f; cbn in Esz; injection Esz as _ Esz; try done;
    repeat (destruct b as [|? b]; [cbn in Esz; lia|]; cbn in Esz); (destruct b; [|cbn in Esz; lia]);
    match goal with |- context [Z.of_nat (bit ?f)] =>
      let v := eval vm_compute in (Z.of_nat (bit f)) in change (Z.of_nat (bit f)) with v end; cbv iota;
    unfold rd16; rewrite <-?Z.add_assoc; change (2 + 1) with 3; by rewrite ?R0, ?R1, ?R2, ?R3.
Qed.

Lemma radiotap_loop_fields mem len w pad rest fs : forall i off it pre fuel s,
  at_bit len w i off it -> ahead w i fs -> fields_ok i fs -> (i <= 23)%nat -> (length fs < fuel)%nat ->
  mem = pre ++ layout pad off fs ++ rest -> Z.of_nat (length pre) = off ->
  off + Z.of_nat (length (layout pad off fs)) <= len ->
  radiotap_loop fuel mem it s = Some (foldl note s fs).
Proof.
  pose proof (next_fuel_enough mem) as Hnf.
  induction fs as [|[f b] fs IH]; intros i off it pre fuel s H Ha Hok Hi Hf Hmem Hpre Hlen;
    (destruct fuel; [cbn in Hf; lia|]); cbn [radiotap_loop].
  - destruct (visit_end mem len w i off it (next_fuel mem) H) as (it' & ->); [lia|done|done|done].
  - destruct (visit_field mem len w pad i off it f b fs pre rest (next_fuel mem)) as (it' & pre' & E & H' & T1 & T2 & T3 & Hm & Hl);
      try done.
    rewrite E. cbn [mbind option_bind Z.eqb negb]. destruct Hok as (Hk & (al & Esz) & Hok).
    rewrite (handle_note mem it' pre' f b al (layout pad (Z.of_nat (length pre') + Z.of_nat (length b)) fs ++ rest) s Hm T2 T1 Esz).
    cbn [mbind option_bind foldl]. pose proof (bit_small f). set (off' := Z.of_nat (length pre') + Z.of_nat (length b)) in *.
    apply (IH (S (bit f)) off' it' (pre' ++ b)); try done.
    + by eapply ahead_tail.
    + cbn in Hf. lia.
    + by rewrite <-app_assoc.
    + rewrite length_app. lia.
Qed.

(** *** Member by member *)

Definition contents (f : ieee80211_radiotap_presence) (fs : list rfield) : option (list byte) :=
  snd <$> List.find (fun g => bool_decide (g.1 = f)) fs.

(** A number from its bytes, the lowest first. *)
Definition value (b : list byte) : Z := foldr (fun x z => u8 x + 256 * z) 0 b.

Lemma contents_cons f g b fs : contents f ((g, b) :: fs) = if decide (g = f) then Some b else contents f fs.
Proof. unfold contents. cbn. by repeat case_decide. Qed.

Lemma contents_absent f k fs : fields_ok k fs -> (bit f < k)%nat -> contents f fs = None.
Proof.
  revert k. induction fs as [|[g b] fs IH]; intros k H Hk; [done|]. destruct H as (H1 & _ & H).
  rewrite contents_cons, decide_False by (intros ->; lia). apply (IH _ H). lia.
Qed.

Lemma note_member {A} (get : monitor_message -> A) (F : ieee80211_radiotap_presence) (decode : list byte -> A) fs :
  (forall s f b, f <> F -> get (note s (f, b)).2 = get s.2) ->
  (forall s b al, rtap_namespace_sizes !! bit F = Some (al, Z.of_nat (length b)) -> get (note s (F, b)).2 = decode b) ->
  forall k s, fields_ok k fs -> get (foldl note s fs).2 = from_option decode (get s.2) (contents F fs).
Proof.
  intros Hne HF. induction fs as [|[f b] fs IH]; intros k s H; [done|]. destruct H as (Hk & (al & Esz) & H).
  cbn [foldl]. rewrite (IH _ _ H), contents_cons. case_decide as E.
  - subst f. rewrite (contents_absent F _ fs H) by lia. cbn. by eapply HF.
  - by rewrite Hne.
Qed.

Ltac one_member := repeat match goal with
  | |- forall s f b, f <> _ -> _ => intros [? ?] f b Hf; destruct f; try done; by repeat (destruct b as [|? b]; try done)
  | |- forall s b al, _ -> _ =>
      intros [? ?] b al E; cbn in E; injection E as _ E;
      repeat (destruct b as [|? b]; [cbn in E; lia|]; cbn in E); destruct b; [|cbn in E; lia]; cbn; unfold of_le16; try lia
  end.

Lemma note_rssis fs : forall k a m, fields_ok k fs ->
  msg_rssis (foldl note (a, m) fs).2 =
    from_option (fun b => store_rssi a (swrap 8 (value b)) (msg_rssis m)) (msg_rssis m) (contents IEEE80211_RADIOTAP_DBM_ANTSIGNAL fs).
Proof.
  induction fs as [|[f b] fs IH]; intros k a m H; [done|]. destruct H as (Hk & (al & Esz) & H). cbn [foldl].
  rewrite (surjective_pairing (note (a, m) (f, b))), (IH _ _ _ H), contents_cons. case_decide as E.
  - subst f. rewrite (contents_absent _ _ fs H) by (cbn; lia). cbn in Esz. injection Esz as _ Esz.
    destruct b as [|v [|]]; [cbn in Esz; lia| |cbn in Esz; lia]. cbn [note fst snd from_option msg_rssis set_rssis].
    do 3 f_equal. cbn. lia.
  - assert (msg_rssis (note (a, m) (f, b)).2 = msg_rssis m) as ->.
    { destruct f; try done; by repeat (destruct b as [|? b]; try done). }
    destruct (decide (f = IEEE80211_RADIOTAP_ANTENNA)) as [->|Hf].
    + by rewrite (contents_absent _ _ fs H) by (cbn; lia).
    + assert ((note (a, m) (f, b)).1 = a) as ->; [|done].
      destruct f; try done; by repeat (destruct b as [|? b]; try done).
Qed.

Lemma set_channel_fields fs k s : fields_ok k fs ->
  msg_channel (foldl note s fs).2 =
    from_option (fun b => value (take 2 b)) (msg_channel s.2) (contents IEEE80211_RADIOTAP_CHANNEL fs) /\
  msg_channel_flag (foldl note s fs).2 =
    from_option (fun b => value (drop 2 b)) (msg_channel_flag s.2) (contents IEEE80211_RADIOTAP_CHANNEL fs).
Proof. intros H. split; (eapply (note_member _ _ _ fs); [| |exact H]); one_member. Qed.

Definition signal (b : list byte) : Z := swrap 8 (value b).

(** A message with the radio members of a header; what is not in the header
    stays as it was in [m]. *)
Record heard (fs : list rfield) (m m' : monitor_message) : Prop := {
  heard_rate : msg_rate m' = from_option value (msg_rate m) (contents IEEE80211_RADIOTAP_RATE fs);
  heard_channel : msg_channel m' = from_option (fun b => value (take 2 b)) (msg_channel m) (contents IEEE80211_RADIOTAP_CHANNEL fs);
  heard_channel_flag :
    msg_channel_flag m' = from_option (fun b => value (drop 2 b)) (msg_channel_flag m) (contents IEEE80211_RADIOTAP_CHANNEL fs);
  heard_flags : msg_radiotap_flags m' = from_option value (msg_radiotap_flags m) (contents IEEE80211_RADIOTAP_FLAGS fs);
  heard_lock : msg_lock_quality m' = from_option value (msg_lock_quality m) (contents IEEE80211_RADIOTAP_LOCK_QUALITY fs);
  heard_rssis : msg_rssis m' = from_option (fun b => [signal b]) [] (contents IEEE80211_RADIOTAP_DBM_ANTSIGNAL fs);
  heard_rssi : msg_rssi m' = from_option signal (-100) (contents IEEE80211_RADIOTAP_DBM_ANTSIGNAL fs)
}.

Lemma notes_heard fs m p now la d t :
  fields_ok 0 fs ->
  let m2 := (foldl note (0, addressed t p la now m) fs).2 in
  heard fs m (set_data d (set_rssi (best_rssi (msg_rssis m2)) m2)).
Proof.
  intros H m2. set (m' := addressed t p la now m) in *.
  assert (msg_rssis m2 = from_option (fun b => [signal b]) [] (contents IEEE80211_RADIOTAP_DBM_ANTSIGNAL fs)) as Hs.
  { unfold m2. rewrite (note_rssis fs 0 0 m' H). by destruct (contents _ fs). }
  split; cbn [set_data set_rssi msg_rate msg_channel msg_channel_flag msg_radiotap_flags msg_lock_quality msg_rssis msg_rssi].
  - apply (note_member msg_rate _ _ fs) with (k := 0%nat) (s := (0, m')); [one_member..|done].
  - apply (set_channel_fields fs 0 (0, m') H).
  - apply (set_channel_fields fs 0 (0, m') H).
  - apply (note_member msg_radiotap_flags _ _ fs) with (k := 0%nat) (s := (0, m')); [one_member..|done].
  - apply (note_member msg_lock_quality _ _ fs) with (k := 0%nat) (s := (0, m')); [one_member..|done].
  - done.
  - rewrite Hs. by destruct (contents _ fs).
Qed.

(** The address of a frame is not touched by its radiotap header. *)
Lemma note_same s f : same_link s.2 (note s f).2.
Proof.
  destruct s as [a m], f as [f b]. destruct f; try (by split_and!); by repeat (destruct b as [|? b]; try (by split_and!)).
Qed.

Lemma notes_same fs s : same_link s.2 (foldl note s fs).2.
Proof.
  revert s. induction fs as [|f fs IH]; intros s; [by split_and!|]. cbn [foldl].
  eapply same_link_trans; [apply note_same|apply IH].
Qed.

(** A captured frame: the message, its address and what the header says. *)
Lemma receive_header s now cur_time port pad msg crc fs type m0 :
  socket_ok s -> Z.of_nat (length msg + length (ieee_header type)) <= m_mtu s -> length crc = 4%nat -> fields_ok 0 fs ->
  let mem := radiotap_header pad fs ++ sent_header s type port now ++ msg ++ crc in
  exists m', receive mem (Z.of_nat (length mem)) cur_time m0 = Some (true, m') /\
    msg_data m' = msg /\ msg_port m' = Z.land port 15 /\ msg_link_type m' = received_link type /\
    heard fs m0 m' /\ msg_recv_time m' = cur_time /\ msg_latency_ms m' = frame_latency type now (msg_latency_ms m0) cur_time.
Proof.
  intros [Hm Hb] Hfit Hcrc Hok mem. set (rest := sent_header s type port now ++ msg ++ crc).
  destruct (header_init pad fs rest Hok None) as (it & Ei & Hit).
  pose proof (header_length pad fs Hok) as [Hl Hll]. pose proof (fields_count 0 fs Hok ltac:(lia)) as Hc.
  set (m1 := addressed (received_link type) (Z.land port 15) (frame_latency type now (msg_latency_ms m0) cur_time) cur_time m0).
  assert (radiotap_loop (next_fuel mem) mem it (0, m1) = Some (foldl note (0, m1) fs)) as Hloop.
  { apply (radiotap_loop_fields mem (Z.of_nat (length (radiotap_header pad fs))) (present fs) pad rest fs 0 8 it
      ([x00; x00] ++ le16 (8 + Z.of_nat (length (layout pad 8 fs))) ++ le32 (present fs))); try done; try lia.
    unfold next_fuel. lia. }
  destruct (foldl note (0, m1) fs) as [a m2] eqn:E2.
  assert (m2 = (foldl note (0, m1) fs).2) as Em by (by rewrite E2).
  unfold mem. rewrite (frame_walked _ _ msg crc type s port now (header_len pad fs rest Hok) (or_introl eq_refl) cur_time m0 it a m2 Ei Hloop).
  rewrite frame_slice; [|done|unfold mem, rest in *; rewrite !length_app, length_sent_header in *; lia].
  cbn [mbind option_bind]. eexists. split; [done|]. subst m2. destruct (notes_same fs (0, m1)) as (Hp & Hk & _ & Hla & Ht).
  split; [done|]. split; [exact Hp|]. split; [exact Hk|]. split; [by apply notes_heard|]. split; [exact Ht|exact Hla].
Qed.

(** ** Properties *)

(** What the sender puts into its header. *)
Definition sender_fields (s : RawSendSocket) (rate : Z) : list rfield :=
  if m_mcs s then
    [(IEEE80211_RADIOTAP_TX_FLAGS, le16 RADIOTAP_TX_FLAG_NO_ACK);
     (IEEE80211_RADIOTAP_MCS, [byte_of 0x37; byte_of (mcs_flags s); byte_of rate])]
  else
    [(IEEE80211_RADIOTAP_RATE, [byte_of (legacy_rate rate)]);
     (IEEE80211_RADIOTAP_TX_FLAGS, le16 RADIOTAP_TX_FLAG_NO_ACK)].

(** C11: the iterator reads what a header says. A header with one bitmap that
    holds fields in the order of their bits, each aligned and of its size, is
    accepted, and the loop of a caller sees exactly these fields with their
    bytes, in order, and then -ENOENT, whatever follows the header; and the two
    headers that the sender writes are such headers: the rate and the flags of
    the transmission, or these flags and the MCS field. *)
Theorem radiotap_roundtrip (pad : byte) (fs : list rfield) (rest : list byte) :
  fields_ok 0 fs ->
  (let mem := radiotap_header pad fs ++ rest in
   defined_fields mem /\ exists it, iterator_init mem (Z.of_nat (length mem)) None = Some (0, Some it) /\
     walk (next_fuel mem) mem it = Some (map shown fs, - ENOENT)) /\
  forall s rate, fields_ok 0 (sender_fields s rate) /\ rt_header s pad rate = radiotap_header pad (sender_fields s rate).
Proof.
  intros H. split; [split|].
  - by apply header_fields_defined.
  - destruct (header_init pad fs rest H None) as (it & E & Hit). exists it. split; [done|].
    apply header_walk; [done|done|]. unfold next_fuel. lia.
  - intros s rate. unfold sender_fields, rt_header. destruct (m_mcs s); (split; [|reflexivity]); cbn.
    + split; [lia|]. split; [by eexists|]. split; [lia|]. split; [by eexists|done].
    + split; [lia|]. split; [by eexists|]. split; [lia|]. split; [by eexists|done].
Qed.

(** A received header: flags, rate, channel, signal and antenna. *)
Definition demo_fields : list rfield :=
  [(IEEE80211_RADIOTAP_FLAGS, [x10]); (IEEE80211_RADIOTAP_RATE, [x02]);
   (IEEE80211_RADIOTAP_CHANNEL, [x6c; x09; xa0; x00]); (IEEE80211_RADIOTAP_DBM_ANTSIGNAL, [xd8]);
   (IEEE80211_RADIOTAP_ANTENNA, [x01]); (IEEE80211_RADIOTAP_RX_FLAGS, [x00; x00])].

Lemma demo_fields_ok : fields_ok 0 demo_fields.
Proof. cbn. repeat (split; [lia|]; split; [by eexists|]). done. Qed.

Lemma radiotap_roundtrip_witness :
  fields_ok 0 demo_fields /\
  exists it, iterator_init (radiotap_header x00 demo_fields ++ [xaa]) 19 None = Some (0, Some it) /\
    walk (next_fuel (radiotap_header x00 demo_fields ++ [xaa])) (radiotap_header x00 demo_fields ++ [xaa]) it =
      Some ([(1, [x10]); (2, [x02]); (3, [x6c; x09; xa0; x00]); (5, [xd8]); (11, [x01]); (14, [x00; x00])], - ENOENT).
Proof.
  split; [exact demo_fields_ok|].
  destruct (radiotap_roundtrip x00 demo_fields [xaa] demo_fields_ok) as [[_ (it & E & W)] _]. by exists it.
Defined.

(** C10: the frame of a sender, as a card captures it with a radiotap header of
    its own in front and a checksum behind, is received as the message that was
    sent, with its port and kind of link and with what the header says: the
    rate, the channel, the flags and the quality of the lock, and one signal
    strength, whatever antenna the header names, because the antenna comes after
    the signal. The latency is taken from the clock byte of a data frame. *)
Theorem captured_frame (s : RawSendSocket) (now cur_time rate port : Z) (pad pad2 : byte) (kernel : list byte -> bool)
    (msg crc : list byte) (fs : list rfield) (type : LinkType) (m0 : monitor_message) :
  socket_ok s -> Z.of_nat (length msg + length (ieee_header type)) <= m_mtu s -> length crc = 4%nat -> fields_ok 0 fs ->
  let body := sent_header s type port now ++ msg in
  let mem := radiotap_header pad fs ++ body ++ crc in
  exists s' frame m',
    send s now pad2 kernel msg port type rate = Some (kernel frame, Some frame, s') /\
    drop (length (rt_header s pad2 rate)) frame = body /\
    receive mem (Z.of_nat (length mem)) cur_time m0 = Some (true, m') /\
    msg_data m' = msg /\ msg_port m' = Z.land port 15 /\ msg_link_type m' = received_link type /\
    heard fs m0 m' /\ msg_recv_time m' = cur_time /\
    msg_latency_ms m' = frame_latency type now (msg_latency_ms m0) cur_time.
Proof.
  intros Hs Hfit Hcrc Hok body mem. destruct (send_spec s now pad2 kernel msg port type rate Hs) as (s' & E & _).
  rewrite (proj2 (Z.ltb_ge _ _)) in E by done.
  destruct (receive_header s now cur_time port pad msg crc fs type m0 Hs Hfit Hcrc Hok) as (m' & Er & Hd & Hp & Hl & Hh & Ht & Hla).
  exists s', (rt_header s pad2 rate ++ body), m'. split; [exact E|]. split; [apply drop_app_length|].
  unfold mem, body. rewrite <-app_assoc. by split_and!.
Qed.

Lemma captured_frame_witness :
  let s := RawSendSocket_new true 100 3 in
  exists s' frame m',
    send s 7 x00 (fun _ => true) [xaa; xbb] 2 DATA_LINK 1 = Some (true, Some frame, s') /\
    receive (radiotap_header x00 demo_fields ++ (sent_header s DATA_LINK 2 7 ++ [xaa; xbb]) ++ demo_crc) 48 9
      (monitor_message_new 0 0) = Some (true, m') /\
    msg_data m' = [xaa; xbb] /\ msg_rate m' = 2 /\ msg_channel m' = 2412 /\ msg_rssi m' = -40 /\ msg_latency_ms m' = 2.
Proof.
  intros s. destruct (captured_frame s 7 9 1 2 x00 x00 (fun _ => true) [xaa; xbb] demo_crc demo_fields DATA_LINK
    (monitor_message_new 0 0)) as (s' & frame & m' & E & _ & Er & Hd & _ & _ & Hh & _ & Hl).
  - split; [cbn; lia|reflexivity].
  - cbn. lia.
  - reflexivity.
  - exact demo_fields_ok.
  - exists s', frame, m'. split; [exact E|]. split; [exact Er|]. split; [exact Hd|].
    split; [by rewrite (heard_rate _ _ _ Hh)|]. split; [by rewrite (heard_channel _ _ _ Hh)|].
    split; [by rewrite (heard_rssi _ _ _ Hh)|]. exact Hl.
Defined.

(** The stamp is the clock modulo 256, but it is compared with the whole clock,
    which counts up to 1000: within a second the latency is right only during
    its first 256 milliseconds, afterwards it is too large by the multiple of 256
    that the stamp lost; a frame of the same millisecond seems to take 256. *)
Theorem latency_within_a_second (now cur_time : Z) :
  0 <= now <= cur_time -> cur_time <= 1000 ->
  stamp_latency (now mod 256) cur_time =
    if cur_time <? 256 then (if now =? cur_time then 256 else cur_time - now)
    else cur_time - now + 256 * (now / 256).
Proof.
  intros Hn Hc. unfold stamp_latency. pose proof (Z.mod_pos_bound now 256 ltac:(lia)). pose proof (Z.div_mod now 256 ltac:(lia)).
  destruct (Z.ltb_spec cur_time 256).
  - rewrite (Z.mod_small now) by lia. destruct (Z.eqb_spec now cur_time) as [->|].
    + rewrite Z.ltb_irrefl, wrap_small by lia. lia.
    + rewrite (proj2 (Z.ltb_lt _ _)), wrap_small by lia. lia.
  - rewrite (proj2 (Z.ltb_lt _ _)), wrap_small by lia. lia.
Qed.

(** A card with two antennas: the signals are stored under the antenna of the
    signal before, so the second overwrites the first, and the best signal, the
    -40 of antenna 0, is lost. *)
Definition two_antennas : list byte :=
  [x00; x00; x15; x00; x20; x00; x00; xa0; x20; x08; x00; xa0; x20; x08; x00; x00; xd8; xd8; x00; xba; x01].

Theorem signal_of_previous_antenna :
  exists m, receive (two_antennas ++ sent_header (RawSendSocket_new true 100 3) SHORT_DATA_LINK 2 7 ++ [xaa] ++ demo_crc)
      31 9 (monitor_message_new 0 0) = Some (true, m) /\ msg_rssis m = [-70] /\ msg_rssi m = -70.
Proof. eexists. split; [vm_compute; reflexivity|by split]. Qed.
