(* ===== verification/RadiotapParse.v ===== *)
(** * The example program of the radiotap library, src/src/radiotap/parse.c

    It prints the fields of a header that it finds in a file, with a vendor
    namespace registered and, for the option "--fcshdr", an override of field 14.
    The file is mapped into memory; a mapping that fails is only considered for
    an empty file, which is not read. *)

From S2P Require Import Prelude FecBlock Text CmdParser Options Radiotap RawSend RawReceive RadiotapFields.
Local Open Scope Z_scope.

(** ** The tables of the program *)

Definition align_size_000000_00 : list (Z * Z) := <[52%nat := (1, 4)]> (<[0%nat := (1, 4)]> (replicate 53 (0, 0))).

Definition vns_array : list radiotap_namespace := [MkNs align_size_000000_00 53 0x000000 0].
Definition vns : option (list radiotap_namespace) := Some vns_array.

Definition overrides : list radiotap_override := [MkOverride 14 4 4].

(** ** Printing *)

Definition all_presences : list ieee80211_radiotap_presence :=
  [IEEE80211_RADIOTAP_TSFT; IEEE80211_RADIOTAP_FLAGS; IEEE80211_RADIOTAP_RATE; IEEE80211_RADIOTAP_CHANNEL;
   IEEE80211_RADIOTAP_FHSS; IEEE80211_RADIOTAP_DBM_ANTSIGNAL; IEEE80211_RADIOTAP_DBM_ANTNOISE;
   IEEE80211_RADIOTAP_LOCK_QUALITY; IEEE80211_RADIOTAP_TX_ATTENUATION; IEEE80211_RADIOTAP_DB_TX_ATTENUATION;
   IEEE80211_RADIOTAP_DBM_TX_POWER; IEEE80211_RADIOTAP_ANTENNA; IEEE80211_RADIOTAP_DB_ANTSIGNAL;
   IEEE80211_RADIOTAP_DB_ANTNOISE; IEEE80211_RADIOTAP_RX_FLAGS; IEEE80211_RADIOTAP_TX_FLAGS;
   IEEE80211_RADIOTAP_RTS_RETRIES; IEEE80211_RADIOTAP_DATA_RETRIES; IEEE80211_RADIOTAP_MCS;
   IEEE80211_RADIOTAP_AMPDU_STATUS; IEEE80211_RADIOTAP_VHT; IEEE80211_RADIOTAP_TIMESTAMP].

Definition presence_of (index : Z) : option ieee80211_radiotap_presence :=
  List.find (fun f => Z.of_nat (bit f) =? index) all_presences.

Definition rd64 (mem : list byte) (off : Z) : option Z :=
  lo ← rd32 mem off; hi ← rd32 mem (off + 4); Some (lo + 2 ^ 32 * hi).

(** ["%lf"] of half a byte, and ["%#.4x"]. *)
Definition show_half (v : Z) : string := (show (v / 2) ++ (if Z.even v then ".000000" else ".500000"))%string.
Definition hex_alternate (v : Z) : string := if v =? 0 then hex 4 0 else ("0x" ++ hex 4 v)%string.

Definition print_radiotap_namespace (fcshdr : bool) (mem : list byte) (iter : radiotap_iterator) : option string :=
  let arg := this_arg iter in
  match presence_of (this_arg_index iter) with
  | Some IEEE80211_RADIOTAP_TSFT => v ← rd64 mem arg; Some (tab ++ "TSFT: " ++ show v ++ nl)%string
  | Some IEEE80211_RADIOTAP_FLAGS => v ← rd8 mem arg; Some (tab ++ "flags: " ++ hex 2 v ++ nl)%string
  | Some IEEE80211_RADIOTAP_RATE => v ← rd8 mem arg; Some (tab ++ "rate: " ++ show_half v ++ nl)%string
  | Some (IEEE80211_RADIOTAP_CHANNEL | IEEE80211_RADIOTAP_FHSS | IEEE80211_RADIOTAP_DBM_ANTSIGNAL
         | IEEE80211_RADIOTAP_DBM_ANTNOISE | IEEE80211_RADIOTAP_LOCK_QUALITY | IEEE80211_RADIOTAP_TX_ATTENUATION
         | IEEE80211_RADIOTAP_DB_TX_ATTENUATION | IEEE80211_RADIOTAP_DBM_TX_POWER | IEEE80211_RADIOTAP_ANTENNA
         | IEEE80211_RADIOTAP_DB_ANTSIGNAL | IEEE80211_RADIOTAP_DB_ANTNOISE | IEEE80211_RADIOTAP_TX_FLAGS) => Some ""%string
  | Some IEEE80211_RADIOTAP_RX_FLAGS =>
      if fcshdr then v ← rd32 mem arg; Some (tab ++ "FCS in header: " ++ hex 8 v ++ nl)%string
      else v ← rd16 mem arg; Some (tab ++ "RX flags: " ++ hex_alternate v ++ nl)%string
  | Some (IEEE80211_RADIOTAP_RTS_RETRIES | IEEE80211_RADIOTAP_DATA_RETRIES) => Some ""%string
  | _ => Some (tab ++ "BOGUS DATA" ++ nl)%string
  end.

Definition print_test_namespace (mem : list byte) (iter : radiotap_iterator) : option string :=
  let index := this_arg_index iter in
  if (index =? 0) || (index =? 52) then
    b0 ← rd8 mem (this_arg iter); b1 ← rd8 mem (this_arg iter + 1);
    b2 ← rd8 mem (this_arg iter + 2); b3 ← rd8 mem (this_arg iter + 3);
    Some (tab ++ "00:00:00-00|" ++ print_d index ++ ": " ++ hex 2 b0 ++ "/" ++ hex 2 b1 ++ "/" ++ hex 2 b2 ++ "/"
          ++ hex 2 b3 ++ nl)%string
  else Some (tab ++ "BOGUS DATA - vendor ns " ++ print_d index ++ nl)%string.

(** The data of an unknown vendor, from byte [i] on. *)
Fixpoint print_bytes (i : nat) (l : list byte) : string :=
  match l with
  | [] => nl
  | b :: l => ((if Nat.eqb (i mod 8) 6 then tab ++ tab else " ") ++ hex 2 (u8 b) ++ print_bytes (S i) l)%string
  end.

Definition print_vendor (mem : list byte) (iter : radiotap_iterator) : option string :=
  b0 ← rd8 mem (this_arg iter); b1 ← rd8 mem (this_arg iter + 1);
  b2 ← rd8 mem (this_arg iter + 2); b3 ← rd8 mem (this_arg iter + 3);
  let size := this_arg_size iter in
  l ← slice mem (this_arg iter + 6) (Z.max 0 (size - 6));
  Some (tab ++ "vendor NS (" ++ hex 2 b0 ++ "-" ++ hex 2 b1 ++ "-" ++ hex 2 b2 ++ ":" ++ print_d b3 ++ ", "
        ++ print_d (size - 6) ++ " bytes)" ++ nl ++ print_bytes 6 l)%string.

(** What is printed for an argument; [vns_array] has one namespace. *)
Definition print_arg (fcshdr : bool) (mem : list byte) (iter : radiotap_iterator) : option string :=
  if this_arg_index iter =? IEEE80211_RADIOTAP_VENDOR_NAMESPACE then print_vendor mem iter
  else if negb (is_radiotap_ns iter =? 0) then print_radiotap_namespace fcshdr mem iter
  else match current_namespace iter with
       | VendorNs _ => print_test_namespace mem iter
       | _ => Some ""%string
       end.

(** ** The program *)

Fixpoint parse_loop (fuel : nat) (fcshdr : bool) (mem : list byte) (iter : radiotap_iterator) : prog Z :=
  match fuel with
  | O => undefined
  | S fuel =>
      '(err, iter) ← defined (iterator_next (if fcshdr then overrides else []) (next_fuel mem) mem iter);
      if negb (err =? 0) then mret err
      else
        text ← defined (print_arg fcshdr mem iter);
        print_out text;;
        parse_loop fuel fcshdr mem iter
  end.

(** A file that can be opened: what [fstat] returns, and the contents. *)
Record file := MkFile { fstat : Z; contents : list byte }.

(** [main]: the exit code. [fstat_error] is what [perror] prints. *)
Definition parse_main (argv : list string) (files : string -> option file) (fstat_error : string) : prog Z :=
  if negb (Nat.eqb (length argv) 2) && negb (Nat.eqb (length argv) 3) then
    print_err ("usage: parse [--fcshdr] <file>" ++ nl);;
    print_err (tab ++ "--fcshdr: read bit 14 as FCS" ++ nl);;
    mret 2
  else
    let fcshdr := String.eqb (nth 1 argv ""%string) "--fcshdr" in
    (* argv[argc] is a null pointer *)
    name ← defined (argv !! (if fcshdr then 2%nat else 1%nat));
    match files name with
    | None => print_err ("cannot open file " ++ name ++ nl);; mret 2
    | Some f =>
        if negb (fstat f =? 0) then print_err fstat_error;; mret 2
        else
          let mem := contents f in
          '(err, iter) ← defined (iterator_init mem (swrap 32 (Z.of_nat (length mem))) vns);
          match iter with
          | None => print_out ("malformed radiotap header (init returns " ++ print_d err ++ ")" ++ nl);; mret 3
          | Some iter =>
              err ← parse_loop (next_fuel mem) fcshdr mem iter;
              if negb (err =? - ENOENT) then print_out ("malformed radiotap data" ++ nl);; mret 3
              else mret 0
          end
    end.

(** ** Lemmas *)

Lemma append_assoc (a b c : string) : (a ++ (b ++ c) = (a ++ b) ++ c)%string.
Proof. induction a as [|x a IH]; [done|]. change (String x (a ++ (b ++ c)) = String x ((a ++ b) ++ c))%string. by rewrite IH. Qed.

Lemma append_nil (a : string) : (a ++ "" = a)%string.
Proof. induction a as [|x a IH]; [done|]. change (String x (a ++ "") = String x a)%string. by rewrite IH. Qed.

Lemma write_out s a b : write (write s a "") b "" = write s (a ++ b) "".
Proof. unfold write. cbn [output error]. by rewrite !append_nil, append_assoc. Qed.

Lemma write_nil s : write s "" "" = s.
Proof. unfold write. rewrite !append_nil. by destruct s. Qed.

Lemma vns_fine : vns_ok vns.
Proof.
  apply Forall_singleton. split; [done|]. change (align_size _) with align_size_000000_00.
  assert (forall l, forallb (fun e => (0 <=? e.2) && ((e.1 =? 0) || (e.1 =? 1))) l = true -> Forall entry_ok l) as H; [|by apply H].
  induction l as [|[a s] l IH]; [constructor|]. cbn. intros [[H1%Z.leb_le H2]%andb_true_iff H]%andb_true_iff.
  constructor; [|by apply IH]. split; [done|]. apply orb_true_iff in H2 as [H2%Z.eqb_eq|H2%Z.eqb_eq]; [by left|right; by exists 0].
Qed.

Lemma overrides_fine (fcshdr : bool) : overrides_ok (if fcshdr then overrides else []).
Proof. destruct fcshdr; [|constructor]. apply Forall_singleton. split; [done|]. right. by exists 2. Qed.

Lemma rd64_Some mem o : 0 <= o -> o + 8 <= Z.of_nat (length mem) -> exists v, rd64 mem o = Some v.
Proof.
  intros H1 H2. unfold rd64. destruct (rd32_Some mem o) as (lo & -> & ?); [lia..|].
  destruct (rd32_Some mem (o + 4)) as (hi & -> & ?); [lia..|]. by eexists.
Qed.

(** Reads in the argument. *)
Ltac read_some :=
  repeat match goal with
  | |- context [rd8 ?m ?o] => let v := fresh in let E := fresh in destruct (rd8_Some m o) as (v & E & _); [lia|]; rewrite E; clear E
  | |- context [rd16 ?m ?o] => let v := fresh in let E := fresh in destruct (rd16_Some m o) as (v & E & _); [lia..|]; rewrite E; clear E
  | |- context [rd32 ?m ?o] => let v := fresh in let E := fresh in destruct (rd32_Some m o) as (v & E & _); [lia..|]; rewrite E; clear E
  | |- context [rd64 ?m ?o] => let v := fresh in let E := fresh in destruct (rd64_Some m o) as (v & E); [lia..|]; rewrite E; clear E
  end.

(** Every index of a known field is that of a presence bit. *)
Lemma index_bit i al size : rtap_namespace_sizes !! i = Some (al, size) -> 0 < al -> exists f, i = bit f.
Proof.
  intros E Hal. assert (i < 23)%nat as Hi by by apply lookup_lt_Some in E.
  assert (forallb (fun i => Nat.eqb i 18 || existsb (fun f => Nat.eqb i (bit f)) all_presences) (seq 0 23) = true) as H by done.
  rewrite forallb_forall in H. specialize (H i ltac:(apply in_seq; lia)). apply orb_true_iff in H as [->%Nat.eqb_eq|H].
  - cbn in E. injection E as <- _. lia.
  - apply existsb_exists in H as (f & _ & ->%Nat.eqb_eq). by exists f.
Qed.

Lemma presence_bit f : presence_of (Z.of_nat (bit f)) = Some f.
Proof. by destruct f. Qed.

Section total.
Context (fcshdr : bool) (mem : list byte) (stop : Z) (it : radiotap_iterator).
Context (Hok : it_ok mem vns stop it) (Hs : sound_arg (if fcshdr then overrides else []) it).

Lemma print_vendor_total : this_arg_index it = IEEE80211_RADIOTAP_VENDOR_NAMESPACE -> exists text, print_vendor mem it = Some text.
Proof using Hok Hs.
  intros Hi. destruct Hs as (H1 & H2 & H3 & H4). destruct (ok_max _ _ _ _ Hok) as [_ Hm].
  assert (6 <= this_arg_size it) as H6.
  { destruct H4 as [[_ ?]|(al & _ & Hal & _ & H4)]; [done|]. exfalso. rewrite Hi in H4.
    assert (find_override (if fcshdr then overrides else []) IEEE80211_RADIOTAP_VENDOR_NAMESPACE = None) as E by by destruct fcshdr.
    rewrite E in H4. destruct H4 as (ns & Ens & Hlt & Et).
    destruct (ok_ns _ _ _ _ Hok) as [Ec|[[Ec|(ns' & Ec & Hin)] _]]; rewrite Ec in Ens; try done; injection Ens as <-.
    - by vm_compute in Hlt.
    - apply list_elem_of_singleton in Hin as ->. vm_compute in Et. injection Et as <- _. lia. }
  unfold print_vendor. read_some. cbn [mbind option_bind]. unfold slice.
  rewrite !(proj2 (Z.leb_le _ _)) by lia. cbn. by eexists.
Qed.

(** An argument of the default namespace is one of its fields, or the overridden
    field. *)
Lemma namespace_arg :
  is_radiotap_ns it <> 0 -> this_arg_index it <> IEEE80211_RADIOTAP_VENDOR_NAMESPACE ->
  exists f, this_arg_index it = Z.of_nat (bit f) /\
    (f = IEEE80211_RADIOTAP_RX_FLAGS -> this_arg_size it = if fcshdr then 4 else 2) /\
    (f <> IEEE80211_RADIOTAP_RX_FLAGS -> exists al, rtap_namespace_sizes !! bit f = Some (al, this_arg_size it)).
Proof using Hok Hs.
  intros Hrt Hne. destruct Hs as (_ & _ & _ & [[? _]|(al & H0 & Hal & _ & H4)]); [done|].
  destruct (find_override _ _) as [[a s]|] eqn:Eo.
  - destruct fcshdr; [|done]. cbn in Eo. destruct (Z.eqb_spec (this_arg_index it) 14) as [E|]; [|done].
    injection Eo as <- <-. injection H4 as _ <-. by exists IEEE80211_RADIOTAP_RX_FLAGS.
  - destruct H4 as (ns & Ens & Hlt & Et).
    destruct (ok_ns _ _ _ _ Hok) as [Ec|[[Ec|(ns' & Ec & Hin)] _]]; [|by rewrite Ec in Ens|].
    2: { by pose proof (ok_flag _ _ _ _ Hok _ Ec). }
    rewrite Ec in Ens. injection Ens as <-. change (align_size radiotap_ns) with rtap_namespace_sizes in Et.
    destruct (index_bit _ _ _ Et Hal) as [f Ef]. exists f. rewrite Ef in Et. split; [lia|]. split; [|by exists al].
    intros ->. destruct fcshdr; [|by injection Et as _ <-].
    assert (this_arg_index it = 14) as E14 by (cbn in Ef; lia). by rewrite E14 in Eo.
Qed.

Lemma print_radiotap_total :
  is_radiotap_ns it <> 0 -> this_arg_index it <> IEEE80211_RADIOTAP_VENDOR_NAMESPACE ->
  exists text, print_radiotap_namespace fcshdr mem it = Some text.
Proof using Hok Hs.
  intros Hrt Hne. destruct (namespace_arg Hrt Hne) as (f & Ef & Hrx & Hsz). unfold print_radiotap_namespace.
  rewrite Ef, presence_bit. destruct Hs as (H1 & _ & H3 & _). destruct (ok_max _ _ _ _ Hok) as [_ Hm].
  destruct f; try (by eexists); try (destruct (Hsz ltac:(done)) as (al & Et); cbn in Et; injection Et as _ Et);
    try specialize (Hrx eq_refl); try destruct fcshdr; read_some; by eexists.
Qed.

Lemma print_test_total ns : current_namespace it = VendorNs ns ->
  this_arg_index it <> IEEE80211_RADIOTAP_VENDOR_NAMESPACE -> exists text, print_test_namespace mem it = Some text.
Proof using Hok Hs.
  intros Ec Hne. unfold print_test_namespace. destruct (_ || _) eqn:Ei; [|by eexists].
  destruct Hs as (H1 & _ & H3 & [[? _]|(al & H0 & Hal & _ & H4)]); [done|]. destruct (ok_max _ _ _ _ Hok) as [_ Hm].
  assert (this_arg_index it = 0 \/ this_arg_index it = 52) as Hi by (apply orb_true_iff in Ei as [?%Z.eqb_eq|?%Z.eqb_eq]; auto).
  assert (find_override (if fcshdr then overrides else []) (this_arg_index it) = None) as Eo
    by (destruct Hi as [->| ->]; by destruct fcshdr).
  rewrite Eo, Ec in H4. destruct H4 as (ns' & [= <-] & _ & Et).
  assert (this_arg_size it = 4) as E4.
  { destruct (ok_ns _ _ _ _ Hok) as [E|[[E|(ns' & E & Hin)] _]]; [congruence..|]. rewrite Ec in E. injection E as <-.
    apply list_elem_of_singleton in Hin as ->. destruct Hi as [Hi|Hi]; rewrite Hi in Et; cbn in Et; by injection Et as _ <-. }
  read_some. by eexists.
Qed.

Lemma print_arg_total : exists text, print_arg fcshdr mem it = Some text.
Proof using Hok Hs.
  unfold print_arg. destruct (Z.eqb_spec (this_arg_index it) IEEE80211_RADIOTAP_VENDOR_NAMESPACE) as [|Hne];
    [by apply print_vendor_total|].
  destruct (Z.eqb_spec (is_radiotap_ns it) 0) as [|Hrt]; cbn [negb]; [|by apply print_radiotap_total].
  destruct (current_namespace it) as [|ns|] eqn:Ec; [by eexists|by eapply print_test_total|by eexists].
Qed.
End total.

Lemma parse_loop_total fcshdr mem stop fuel : forall it s,
  it_ok mem vns stop it -> no_field_18 mem stop -> remaining stop it <= Z.of_nat fuel ->
  exists err text, parse_loop fuel fcshdr mem it s = Running err (write s text "") /\ (err = - ENOENT \/ err = - EINVAL).
Proof.
  induction fuel as [|fuel IH]; intros it s Hok H18 Hf; [pose proof (remaining_nonneg _ _ _ _ Hok); lia|].
  destruct (iterator_next_sound (if fcshdr then overrides else []) vns mem stop (next_fuel mem) it) as (r & it' & E & Ho);
    [apply overrides_fine|done|done| |].
  { pose proof (remaining_bound _ _ _ _ Hok). unfold next_fuel. lia. }
  cbn [parse_loop]. rewrite (bind_defined _ _ _ _ E). cbv beta iota zeta.
  destruct Ho as [->|[->|(-> & Hok' & Hr & _ & Hs)]]; cbn [Z.eqb negb Z.opp ENOENT EINVAL].
  - exists (- ENOENT), ""%string. rewrite write_nil. auto.
  - exists (- EINVAL), ""%string. rewrite write_nil. auto.
  - destruct (print_arg_total fcshdr mem stop it' Hok' Hs) as (text & Et). rewrite (bind_defined _ _ _ _ Et), bind_print_out.
    destruct (IH it' (write s text "") Hok' H18) as (err & text' & E' & He); [lia|].
    exists err, (text ++ text')%string. by rewrite E', write_out.
Qed.

(** ** What is printed of a header with one bitmap *)

Definition le_value (b : list byte) : Z := foldr (fun x v => u8 x + 256 * v) 0 b.

(** The line of a field. *)
Definition field_line (f : rfield) : string :=
  let v := le_value f.2 in
  match f.1 with
  | IEEE80211_RADIOTAP_TSFT => tab ++ "TSFT: " ++ show v ++ nl
  | IEEE80211_RADIOTAP_FLAGS => tab ++ "flags: " ++ hex 2 v ++ nl
  | IEEE80211_RADIOTAP_RATE => tab ++ "rate: " ++ show_half v ++ nl
  | IEEE80211_RADIOTAP_RX_FLAGS => tab ++ "RX flags: " ++ hex_alternate v ++ nl
  | IEEE80211_RADIOTAP_MCS | IEEE80211_RADIOTAP_AMPDU_STATUS | IEEE80211_RADIOTAP_VHT | IEEE80211_RADIOTAP_TIMESTAMP =>
      tab ++ "BOGUS DATA" ++ nl
  | _ => ""
  end.

Definition lines (fs : list rfield) : string := foldr (fun f text => (field_line f ++ text)%string) ""%string fs.

Lemma rd8_at (pre b rest : list byte) i x :
  b !! i = Some x -> rd8 (pre ++ b ++ rest) (Z.of_nat (length pre) + Z.of_nat i) = Some (u8 x).
Proof.
  intros H. rewrite rd8_app by lia. rewrite Nat2Z.id, lookup_app_l by (by eapply lookup_lt_Some). by rewrite H.
Qed.

(** Both sides print the same number. *)
Ltac same_value g :=
  match goal with |- Some ?l = Some ?r =>
    match l with context [g ?a] => match r with context [g ?b] => replace b with a by lia; reflexivity end end
  end.

Lemma print_field it pre f b rest al :
  this_arg it = Z.of_nat (length pre) -> this_arg_index it = Z.of_nat (bit f) -> is_radiotap_ns it = 1 ->
  rtap_namespace_sizes !! bit f = Some (al, Z.of_nat (length b)) ->
  print_arg false (pre ++ b ++ rest) it = Some (field_line (f, b)).
Proof.
  intros Ha Hi Hrt Esz. unfold print_arg. rewrite Hi, Hrt. pose proof (bit_small f).
  rewrite (proj2 (Z.eqb_neq _ _)) by (unfold IEEE80211_RADIOTAP_VENDOR_NAMESPACE; lia). cbn [Z.eqb negb].
  unfold print_radiotap_namespace. rewrite Hi, presence_bit, Ha.
  assert (forall i x, b !! i = Some x -> rd8 (pre ++ b ++ rest) (Z.of_nat (length pre) + Z.of_nat i) = Some (u8 x)) as R
    by (intros i x; apply rd8_at).
  destruct f; try done; cbn in Esz; injection Esz as _ Esz;
    repeat (destruct b as [|? b]; [cbn in Esz; lia|]; cbn in Esz); (destruct b; [|cbn in Esz; lia]);
    pose proof (R 0%nat _ eq_refl) as R0; rewrite Z.add_0_r in R0;
    unfold rd64, rd32, rd16; rewrite <-?Z.add_assoc; change (2 + 1) with 3; change (4 + 1) with 5; change (4 + 2) with 6; change (4 + 3) with 7; rewrite R0;
    repeat (match goal with |- context [rd8 (pre ++ ?l ++ rest) (Z.of_nat (length pre) + Zpos ?p)] =>
      rewrite (R (Pos.to_nat p) _ eq_refl : rd8 (pre ++ l ++ rest) (Z.of_nat (length pre) + Zpos p) = _) end);
    cbn [mbind option_bind]; unfold field_line, le_value; cbn [fst snd foldr];
    [same_value show|same_value (hex 2)|same_value show_half|same_value hex_alternate].
Qed.

Lemma parse_loop_fields mem len w pad rest fs : forall i off it pre fuel s,
  at_bit len w i off it -> ahead w i fs -> fields_ok i fs -> (i <= 23)%nat -> (length fs < fuel)%nat ->
  mem = pre ++ layout pad off fs ++ rest -> Z.of_nat (length pre) = off ->
  off + Z.of_nat (length (layout pad off fs)) <= len ->
  parse_loop fuel false mem it s = Running (- ENOENT) (write s (lines fs) "").
Proof.
  pose proof (next_fuel_enough mem) as Hnf.
  induction fs as [|[f b] fs IH]; intros i off it pre fuel s H Ha Hok Hi Hf Hmem Hpre Hlen;
    (destruct fuel; [cbn in Hf; lia|]); cbn [parse_loop].
  - destruct (visit_end mem len w i off it (next_fuel mem) H) as (it' & E); [lia|done|done|].
    rewrite (bind_defined _ _ _ _ E). cbn. by rewrite write_nil.
  - destruct (visit_field mem len w pad i off it f b fs pre rest (next_fuel mem)) as (it' & pre' & E & H' & T1 & T2 & T3 & Hm & Hl);
      try done.
    rewrite (bind_defined _ _ _ _ E). cbv beta iota. cbn [Z.eqb negb].
    pose proof Hok as (_ & (al & Esz) & Hok').
    assert (print_arg false mem it' = Some (field_line (f, b))) as Et.
    { rewrite Hm. eapply print_field; [done|done|apply H'|exact Esz]. }
    rewrite (bind_defined _ _ _ _ Et), bind_print_out. pose proof (bit_small f).
    set (off' := Z.of_nat (length pre') + Z.of_nat (length b)) in *.
    rewrite (IH (S (bit f)) off' it' (pre' ++ b)); try done.
    + by rewrite write_out.
    + by eapply ahead_tail; [|apply Hok].
    + cbn in Hf. lia.
    + by rewrite <-app_assoc.
    + rewrite length_app. lia.
Qed.

(** ** Properties *)

(** The program has a file to read: not "--fcshdr" alone. *)
Definition named (argv : list string) : Prop := nth 1 argv ""%string = "--fcshdr"%string -> length argv <> 2%nat.

Lemma named_not (argv : list string) :
  ~ named argv -> nth 1 argv ""%string = "--fcshdr"%string /\ length argv = 2%nat.
Proof.
  unfold named. intros H. destruct (decide (nth 1 argv ""%string = "--fcshdr"%string)) as [E|]; [|by exfalso; apply H].
  split; [done|]. destruct (decide (length argv = 2%nat)); [done|]. exfalso. by apply H.
Qed.

(** C37: the example program of the radiotap library, on any file in which no
    bitmap announces the undefined field 18, and with any arguments but
    "--fcshdr" alone: it never reads outside the file, with its vendor namespace
    and its override, and it ends, with the code 0, 2 or 3. With "--fcshdr" alone
    it opens the null pointer at the end of [argv]. Of a file that begins with a
    header with one bitmap it prints, in the order of the fields, the values of
    TSFT, of the flags, of the rate and of the RX flags, "BOGUS DATA" for MCS,
    AMPDU status, VHT and TIMESTAMP, which it does not know, and nothing for the
    other fields, and it returns 0 ([lines], [field_line]). *)
Theorem parse_file (argv : list string) (files : string -> option file) (fstat_error : string) (s : streams) :
  (named argv -> (forall name f, files name = Some f -> defined_fields (contents f)) ->
   exists code s', parse_main argv files fstat_error s = Running code s' /\ (code = 0 \/ code = 2 \/ code = 3)) /\
  (~ named argv -> parse_main argv files fstat_error s = Undefined_behaviour) /\
  forall app name pad fs rest, argv = [app; name] -> name <> "--fcshdr"%string -> fields_ok 0 fs ->
    let mem := radiotap_header pad fs ++ rest in
    Z.of_nat (length mem) < 2 ^ 31 -> files name = Some (MkFile 0 mem) ->
    parse_main argv files fstat_error s = Running 0 (write s (lines fs) "").
Proof.
  split; [|split].
  - intros Hn Hdef. unfold parse_main. destruct (negb _ && negb _) eqn:Ea; [by eexists 2, _; auto|].
    set (fcshdr := String.eqb _ _).
    assert (exists name, argv !! (if fcshdr then 2%nat else 1%nat) = Some name) as [name En].
    { apply lookup_lt_is_Some_2. destruct (Nat.eqb_spec (length argv) 2) as [E2|], (Nat.eqb_spec (length argv) 3) as [E3|]; try done; try lia;
        destruct fcshdr eqn:Ef; try lia. exfalso. apply String.eqb_eq in Ef. by apply Hn. }
    rewrite (bind_defined _ _ _ _ En). destruct (files name) as [f|] eqn:Ef; [|by eexists 2, _; auto].
    destruct (negb (fstat f =? 0)); [by eexists 2, _; auto|]. set (mem := contents f).
    destruct (iterator_init_good mem (swrap 32 (Z.of_nat (length mem))) vns) as (r & oit & E & Hr); [|apply vns_fine|].
    { unfold swrap. pose proof (Z.mod_le (Z.of_nat (length mem) + 2 ^ (32 - 1)) (2 ^ 32)). lia. }
    rewrite (bind_defined _ _ _ _ E). cbv beta iota zeta.
    destruct Hr as [[-> ->]|(-> & it & stop & len & -> & Hok & _)]; [by eexists 3, _; auto|].
    destruct (parse_loop_total fcshdr mem stop (next_fuel mem) it s Hok) as (err & text & El & He).
    { apply defined_no_field; [apply Hok|]. by apply Hdef in Ef. }
    { pose proof (remaining_bound _ _ _ _ Hok). unfold next_fuel. lia. }
    rewrite (bind_running _ _ _ _ _ El). destruct (negb (err =? _)); eexists _, _; split; try reflexivity; auto.
  - intros [Ename El]%named_not. destruct argv as [|app [|name [|? ?]]]; try discriminate. cbn in Ename. by subst name.
  - intros app name pad fs rest -> Hne Hok mem Hlen Ef. unfold parse_main. cbn [length Nat.eqb negb andb nth].
    rewrite (proj2 (String.eqb_neq _ _) Hne). cbn [lookup list_lookup]. rewrite (bind_defined _ _ name) by done. rewrite Ef.
    cbn [fstat contents Z.eqb negb]. destruct (header_init pad fs rest Hok vns) as (it & E & Hit).
    replace (swrap 32 (Z.of_nat (length mem))) with (Z.of_nat (length mem)).
    2: { unfold swrap. rewrite Z.mod_small by lia. lia. }
    rewrite (bind_defined _ _ _ _ E). cbv beta iota zeta.
    pose proof (header_length pad fs Hok) as [Hl Hll]. pose proof (fields_count 0 fs Hok ltac:(lia)) as Hc.
    rewrite (bind_running _ _ _ (- ENOENT) (write s (lines fs) "")); [done|].
    apply (parse_loop_fields mem (Z.of_nat (length (radiotap_header pad fs))) (present fs) pad rest fs 0 8 it
      ([x00; x00] ++ le16 (8 + Z.of_nat (length (layout pad 8 fs))) ++ le32 (present fs))); try done; try lia.
    unfold next_fuel. lia.
Qed.

(** The header of RadiotapFields in front of a frame, read without and with the
    option, and the option alone. *)
Lemma parse_file_witness :
  let mem := radiotap_header x00 demo_fields ++ [xaa; xbb] in
  let files (name : string) := if String.eqb name "capture.bin" then Some (MkFile 0 mem) else None in
  let parse argv := parse_main argv files "fstat: " (MkStreams "" "") in
  parse ["parse"; "capture.bin"] =
    Running 0 (MkStreams (tab ++ "flags: 10" ++ nl ++ tab ++ "rate: 1.000000" ++ nl ++ tab ++ "RX flags: 0000" ++ nl) "") /\
  (exists code s', parse ["parse"; "--fcshdr"; "capture.bin"] = Running code s' /\ (code = 0 \/ code = 2 \/ code = 3)) /\
  parse ["parse"; "--fcshdr"] = Undefined_behaviour.
Proof.
  intros mem files parse. assert (defined_fields mem) as Hd by (unfold defined_fields; vm_compute; by apply Forall_singleton).
  split; [|split].
  - destruct (parse_file ["parse"; "capture.bin"] files "fstat: " (MkStreams "" "")) as [_ [_ H]].
    exact (H "parse" "capture.bin" x00 demo_fields [xaa; xbb] eq_refl ltac:(discriminate) demo_fields_ok eq_refl eq_refl).
  - destruct (parse_file ["parse"; "--fcshdr"; "capture.bin"] files "fstat: " (MkStreams "" "")) as [H _].
    apply H; [intros _; discriminate|].
    intros name f. unfold files. destruct (String.eqb name "capture.bin"); [|discriminate]. intros [= <-]. exact Hd.
  - destruct (parse_file ["parse"; "--fcshdr"] files "fstat: " (MkStreams "" "")) as [_ [H _]].
    apply H. intros Hn. by apply Hn.
Defined.
