(* ===== verification/RawCapture.v ===== *)
(** * [RawReceiveSocket] of src/src/raw_socket.cc: opening the capture

    [add_device] configures a pcap handle and installs the filter that keeps
    the packets of the other side's direction. The answers of libpcap are
    arguments; so is the filter engine, of which only the documented meaning
    of the two filter expressions of the program is assumed. *)

From S2P Require Import Prelude FecBlock RawSend.
From stdpp Require Import strings.
Local Open Scope string_scope.

Record RawReceiveSocket := MkRawReceive {
  r_ground : bool;
  r_mtu : Z;
  m_ppcap : option Z;            (* the handle; none before [add_device] *)
  r_filter : option string;      (* the filter installed on the handle *)
  m_selectable_fd : option Z     (* none before [add_device] succeeds *)
}.

Definition RawReceiveSocket_new (ground : bool) (mtu : Z) : RawReceiveSocket :=
  MkRawReceive ground mtu None None None.

Definition DLT_IEEE802_11_RADIO : Z := 127.
Definition PCAP_ERROR : Z := -1.

Definition filter_gnd : string :=
  "(ether[0x00:2] == 0x0801 || ether[0x00:2] == 0x0802 || ether[0x00:4] == 0xb4010000) && ((ether[0x04:1] & 0x0f) == 0x05)".
Definition filter_air : string :=
  "(ether[0x00:2] == 0x0801 || ether[0x00:2] == 0x0802 || ether[0x00:4] == 0xb4010000) && ((ether[0x04:1] & 0x0f) == 0x0d)".

(** The answers of libpcap. *)
Record pcap_calls := MkPcapCalls {
  c_create : option Z;
  c_snaplen : Z;
  c_promisc : Z;
  c_timeout : Z;
  c_immediate : Z;
  c_activate : Z;
  c_direction : Z;
  c_nonblock : Z;
  c_datalink : Z;
  c_compile : Z;
  c_setfilter : Z;
  c_selectable : Z
}.

(** [immediate] is HAVE_PCAP_IMMEDIATE_MODE of the build. *)
Definition add_device (immediate : bool) (s : RawReceiveSocket) (c : pcap_calls) : bool * RawReceiveSocket :=
  match c_create c with
  | None => (false, MkRawReceive (r_ground s) (r_mtu s) None (r_filter s) (m_selectable_fd s))
  | Some h =>
      let s := MkRawReceive (r_ground s) (r_mtu s) (Some h) None (m_selectable_fd s) in
      if negb (c_snaplen c =? 0)%Z then (false, s)
      else if negb (c_promisc c =? 0)%Z then (false, s)
      else if negb (c_timeout c =? 0)%Z then (false, s)
      else if immediate && (c_immediate c <? 0)%Z then (false, s)
      else if negb (c_activate c =? 0)%Z then (false, s)
      else if (c_direction c <? 0)%Z then (false, s)
      else if (c_nonblock c =? PCAP_ERROR)%Z then (false, s)
      else if negb (c_datalink c =? DLT_IEEE802_11_RADIO)%Z then (false, s)
      else
        let filter := if r_ground s then filter_gnd else filter_air in
        if (c_compile c =? -1)%Z then (false, s)
        else if (c_setfilter c =? -1)%Z then (false, s)
        else (true, MkRawReceive (r_ground s) (r_mtu s) (Some h) (Some filter) (Some (c_selectable c)))
  end.

(** All the calls give what [add_device] asks for. *)
Definition calls_ok (immediate : bool) (c : pcap_calls) : Prop :=
  is_Some (c_create c) /\ c_snaplen c = 0%Z /\ c_promisc c = 0%Z /\ c_timeout c = 0%Z /\
  (immediate = true -> (0 <= c_immediate c)%Z) /\ c_activate c = 0%Z /\ (0 <= c_direction c)%Z /\
  c_nonblock c <> PCAP_ERROR /\ c_datalink c = DLT_IEEE802_11_RADIO /\ c_compile c <> (-1)%Z /\
  c_setfilter c <> (-1)%Z.

(** ** The filter

    [ether[off:len]] is the big-endian number at an offset of the 802.11
    header, that is, behind the radiotap header. *)

Fixpoint big_endian (bs : list byte) (acc : Z) : Z :=
  match bs with
  | [] => acc
  | b :: bs => big_endian bs (acc * 256 + u8 b)
  end.

Definition ether (off len : nat) (body : list byte) : option Z :=
  if (off + len <=? length body)%nat then Some (big_endian (take len (drop off body)) 0) else None.

(** What the expression means for the direction [dir]; a load outside the
    packet rejects it. *)
Definition link_filter (dir : Z) (body : list byte) : bool :=
  match ether 0 2 body, ether 0 4 body, ether 4 1 body with
  | Some t, Some f, Some a =>
      ((t =? 0x0801)%Z || (t =? 0x0802)%Z || (f =? 0xb4010000)%Z) && (Z.land a 0x0f =? dir)%Z
  | _, _, _ => false
  end.

Definition documented (matches : string -> list byte -> bool) : Prop :=
  forall body, (5 <= length body)%nat ->
    matches filter_gnd body = link_filter 0x05 body /\ matches filter_air body = link_filter 0x0d body.

(** A packet the socket hands out: the filter matches what is behind the radiotap header. *)
Definition passes (matches : string -> list byte -> bool) (s : RawReceiveSocket) (body : list byte) : bool :=
  match r_filter s with
  | Some f => matches f body
  | None => true
  end.

Lemma add_device_true im s c s' :
  add_device im s c = (true, s') ->
  calls_ok im c /\ s' = MkRawReceive (r_ground s) (r_mtu s) (c_create c)
    (Some (if r_ground s then filter_gnd else filter_air)) (Some (c_selectable c)).
Proof.
  unfold add_device, calls_ok. destruct (c_create c) as [h|]; [|discriminate]. cbn [r_ground r_mtu].
  repeat match goal with
  | |- context [if ?b then _ else _] => destruct b eqn:?; [discriminate|]
  end.
  rewrite ?negb_false_iff, ?andb_false_iff, ?Z.eqb_eq, ?Z.eqb_neq, ?Z.ltb_ge in *.
  intros [= <-]. split; [|done]. repeat split; try (done || lia); try (by eexists).
  intros ->. destruct_or!; [done|lia].
Qed.

Lemma land_15_port_byte g p : Z.land (u8 (port_byte g p)) 15 = if g then 13%Z else 5%Z.
Proof.
  unfold port_byte. rewrite u8_byte_of. unfold wrap.
  rewrite <-(Z.land_ones _ 8), <-Z.land_assoc by lia. change (Z.land (Z.ones 8) 15) with 15%Z.
  rewrite Z.land_lor_distr_l. change 15%Z with (Z.ones 4).
  rewrite (Z.land_ones (Z.shiftl _ _)), Z.shiftl_mul_pow2, Z.mod_mul by lia. by destruct g.
Qed.

(** What the filters see of a frame. *)
Lemma link_filter_frame dir s type port now hdr msg :
  renumbered (sent_header s type port now) hdr ->
  link_filter dir (hdr ++ msg) = Z.eqb (if m_ground s then 13 else 5) dir.
Proof.
  intros [Hl Ht]%renumbered_header. unfold link_filter, ether. rewrite length_app, Hl.
  assert (5 <= length (ieee_header type))%nat by (destruct type; cbn; lia).
  rewrite !(proj2 (Nat.leb_le _ _)) by lia.
  assert (exists h, hdr = (take 5 (sent_header s type port now) ++ h)%list) as [h ->].
  { exists (drop 5 hdr). rewrite <-(take_drop 5 hdr) at 1. f_equal. apply (f_equal (take 5)) in Ht. by rewrite !take_take in Ht. }
  assert (take 1 (drop 4 ((take 5 (sent_header s type port now) ++ h) ++ msg)) = [port_byte (m_ground s) port]) as E by (by destruct type).
  rewrite E. cbn [big_endian]. rewrite Z.mul_0_l, Z.add_0_l, land_15_port_byte. by destruct type.
Qed.

(** What a socket that opened its device hands out. *)
Lemma passes_frame matches im r c r' s type port now hdr msg :
  documented matches -> add_device im r c = (true, r') -> renumbered (sent_header s type port now) hdr ->
  passes matches r' (hdr ++ msg) = xorb (r_ground r) (m_ground s).
Proof.
  intros Hm E Hh. apply add_device_true in E as [_ ->]. unfold passes. cbn [r_filter].
  assert (5 <= length (hdr ++ msg))%nat as Hl.
  { destruct (renumbered_header _ _ _ _ _ Hh) as [Hlh _]. rewrite length_app, Hlh. destruct type; cbn; lia. }
  destruct (Hm _ Hl) as [Hg Ha].
  destruct (r_ground r); [rewrite Hg|rewrite Ha]; rewrite (link_filter_frame _ s type port now) by done; by destruct (m_ground s).
Qed.

(** ** Properties *)

(** Only the other side is heard. A receive socket that opened its device
    hands out a frame of a send socket exactly when the two are on different
    sides; [add_device] returns true exactly when libpcap gives everything it
    asks for, and otherwise no filter is installed. A handle that was created
    is kept open also when a later call fails. *)
Theorem direction_filter (matches : string -> list byte -> bool) (im : bool) (r : RawReceiveSocket) (c : pcap_calls) :
  documented matches ->
  let res := add_device im r c in
  (res.1 = true <-> calls_ok im c) /\ m_ppcap res.2 = c_create c /\
  (res.1 = false -> is_Some (c_create c) -> r_filter res.2 = None) /\
  (res.1 = true -> forall s type port now msg,
     passes matches res.2 (sent_header s type port now ++ msg) = xorb (r_ground r) (m_ground s)).
Proof.
  intros Hm res. subst res. split; [split|split; [|split]].
  - destruct (add_device im r c) as [[] s'] eqn:E; [|done]. intros _. by apply add_device_true in E as [? _].
  - intros ([h Eh] & H1 & H2 & H3 & H4 & H5 & H6 & H7 & H8 & H9 & H10). unfold add_device.
    rewrite Eh, H1, H2, H3, H5, H8, (proj2 (Z.ltb_ge _ _) H6), (proj2 (Z.eqb_neq _ _) H7),
      (proj2 (Z.eqb_neq _ _) H9), (proj2 (Z.eqb_neq _ _) H10).
    destruct im; [|done]. by rewrite (proj2 (Z.ltb_ge _ _) (H4 eq_refl)).
  - unfold add_device. destruct (c_create c); [|done]. by repeat case_match.
  - intros Hf [h Eh]. unfold add_device in *. rewrite Eh in *. revert Hf. by repeat case_match.
  - destruct (add_device im r c) as [[] s'] eqn:E; [|done]. intros _ s type port now msg. eapply (passes_frame _ _ _ _ _ s type port now); [done|exact E|by left].
Qed.

Definition demo_matches (f : string) (body : list byte) : bool :=
  if String.eqb f filter_gnd then link_filter 0x05 body else link_filter 0x0d body.

Definition demo_calls : pcap_calls := MkPcapCalls (Some 7%Z) 0 0 0 0 0 0 0 127 0 0 4.

Lemma direction_filter_witness :
  documented demo_matches /\
  passes demo_matches (add_device true (RawReceiveSocket_new true 1466) demo_calls).2
    (sent_header (RawSendSocket_new false 1466 3) DATA_LINK 2 7 ++ [xaa]) = true /\
  passes demo_matches (add_device true (RawReceiveSocket_new true 1466) demo_calls).2
    (sent_header (RawSendSocket_new true 1466 3) DATA_LINK 2 7 ++ [xaa]) = false.
Proof.
  assert (documented demo_matches) as Hm by (intros body _; split; reflexivity).
  destruct (direction_filter demo_matches true (RawReceiveSocket_new true 1466) demo_calls Hm) as (_ & _ & _ & H).
  split; [exact Hm|]. split; apply (H eq_refl).
Defined.
