(* ===== verification/SharedQueue.v ===== *)
(** * [SharedQueue] of src/include/shared_queue.hh

    The bounded queue between the threads. The operations of the class are
    functions on its members; [monitor] adds the threads blocked in [pop] and
    the notifications on their way, and a run is a sequence of the atomic
    steps that the mutex leaves: a critical section, a notification, or the
    return of a waiting thread. [size] takes no lock and is a plain read. *)

From S2P Require Import Prelude.

Record SharedQueue (A : Type) := MkQueue {
  m_max_size : nat;
  m_clear_on_full : bool;
  m_queue : list A                (* front first *)
}.
Arguments MkQueue {A}.
Arguments m_max_size {A}.
Arguments m_clear_on_full {A}.
Arguments m_queue {A}.

Section queue.
Context {A : Type}.
Implicit Types (q : SharedQueue A) (x : A).

Definition SharedQueue_new (max_size : nat) (clear_on_full : bool) : SharedQueue A :=
  MkQueue max_size clear_on_full [].

Definition with_queue q (l : list A) : SharedQueue A :=
  MkQueue (m_max_size q) (m_clear_on_full q) l.

Definition push q x : SharedQueue A :=
  let q := if (m_max_size q <=? length (m_queue q))%nat && m_clear_on_full q
           then with_queue q [] else q in
  if (length (m_queue q) <? m_max_size q)%nat then with_queue q (m_queue q ++ [x]) else q.

(** The result and the assignment to [v] are one option. *)
Definition try_pop q : option A * SharedQueue A :=
  match m_queue q with
  | [] => (None, q)
  | x :: l => (Some x, with_queue q l)
  end.

Definition size q : nat := length (m_queue q).

(** ** Threads

    [waiting] threads are blocked in [m_cond.wait]; [woken] ones have been
    notified and compete for the mutex; [pending] pushes have released the
    mutex and not yet called [notify_one]. *)

Record monitor := MkMonitor {
  mon_queue : SharedQueue A;
  waiting : nat;
  woken : nat;
  pending : nat
}.

Inductive label :=
| Push (x : A)       (* the critical section of push *)
| Notify             (* its notify_one *)
| PopEnter           (* a thread enters pop: the first test of the loop *)
| Resume             (* a woken thread gets the mutex and tests again *)
| Spurious           (* a wait returns without a notification *)
| TryPop.

(** The loop test of [pop] with the mutex held: take an item or wait. *)
Definition pop_test (s : monitor) : monitor * option A :=
  match try_pop (mon_queue s) with
  | (Some x, q) => (MkMonitor q (waiting s) (woken s) (pending s), Some x)
  | (None, q) => (MkMonitor q (S (waiting s)) (woken s) (pending s), None)
  end.

(** A step and the item it hands out; [None]: the step is not possible. *)
Definition mstep (s : monitor) (l : label) : option (monitor * option A) :=
  match l with
  | Push x => Some (MkMonitor (push (mon_queue s) x) (waiting s) (woken s) (S (pending s)), None)
  | Notify =>
      match pending s, waiting s with
      | O, _ => None
      | S p, O => Some (MkMonitor (mon_queue s) 0 (woken s) p, None)
      | S p, S w => Some (MkMonitor (mon_queue s) w (S (woken s)) p, None)
      end
  | PopEnter => Some (pop_test s)
  | Resume =>
      match woken s with
      | O => None
      | S k => Some (pop_test (MkMonitor (mon_queue s) (waiting s) k (pending s)))
      end
  | Spurious =>
      match waiting s with
      | O => None
      | S w => Some (MkMonitor (mon_queue s) w (S (woken s)) (pending s), None)
      end
  | TryPop =>
      let '(o, q) := try_pop (mon_queue s) in
      Some (MkMonitor q (waiting s) (woken s) (pending s), o)
  end.

(** A run, and the items handed out in order. *)
Fixpoint mrun (s : monitor) (ls : list label) : option (monitor * list A) :=
  match ls with
  | [] => Some (s, [])
  | l :: ls =>
      '(s, o) ← mstep s l;
      '(s, out) ← mrun s ls;
      Some (s, option_list o ++ out)
  end.

Definition monitor_new (max_size : nat) (clear_on_full : bool) : monitor :=
  MkMonitor (SharedQueue_new max_size clear_on_full) 0 0 0.

(** ** What is pushed, and whether anything is lost *)

Fixpoint pushes (ls : list label) : list A :=
  match ls with
  | [] => []
  | Push x :: ls => x :: pushes ls
  | _ :: ls => pushes ls
  end.

(** Some push of the run finds the queue full. *)
Fixpoint overflows (s : monitor) (ls : list label) : bool :=
  match ls with
  | [] => false
  | l :: ls =>
      match l with
      | Push _ => (m_max_size (mon_queue s) <=? size (mon_queue s))%nat
      | _ => false
      end || match mstep s l with Some (s', _) => overflows s' ls | None => false end
  end.

(** ** Lemmas *)

Lemma push_cases q x :
  (size q < m_max_size q)%nat /\ push q x = with_queue q (m_queue q ++ [x]) \/
  (m_max_size q <= size q)%nat /\ m_clear_on_full q = false /\ push q x = q \/
  (m_max_size q <= size q)%nat /\ m_clear_on_full q = true /\
    push q x = with_queue q (if (0 <? m_max_size q)%nat then [x] else []).
Proof.
  unfold push, size. destruct (Nat.leb_spec (m_max_size q) (length (m_queue q))) as [H|H]; cbn [andb].
  - right. destruct (m_clear_on_full q); [right|left]; (split; [done|]); (split; [done|]).
    + cbn. by destruct (m_max_size q).
    + by rewrite (proj2 (Nat.ltb_ge _ _)).
  - left. split; [done|]. by rewrite (proj2 (Nat.ltb_lt _ _)).
Qed.

Lemma push_length q x : (size q <= m_max_size q)%nat -> (size (push q x) <= m_max_size q)%nat.
Proof.
  intros H. destruct (push_cases q x) as [[? ->]|[(? & ? & ->)|(? & ? & ->)]]; unfold size in *; cbn; [|done|].
  - rewrite length_app. simpl. lia.
  - destruct (m_max_size q); simpl; lia.
Qed.

Lemma push_max q x : m_max_size (push q x) = m_max_size q.
Proof. by destruct (push_cases q x) as [[? ->]|[(? & ? & ->)|(? & ? & ->)]]. Qed.

Lemma push_sublist q x : m_queue (push q x) `sublist_of` m_queue q ++ [x].
Proof.
  destruct (push_cases q x) as [[? ->]|[(? & ? & ->)|(? & ? & ->)]]; cbn; [done|by apply sublist_inserts_r|].
  destruct (m_max_size q); cbn; [apply sublist_nil_l|by apply sublist_inserts_l].
Qed.

Lemma try_pop_spec q o q' :
  try_pop q = (o, q') -> m_queue q = option_list o ++ m_queue q' /\ m_max_size q' = m_max_size q.
Proof. unfold try_pop. destruct (m_queue q) eqn:E; intros [= <- <-]; [by rewrite E|done]. Qed.

Lemma pop_test_spec s s' o :
  pop_test s = (s', o) ->
  m_queue (mon_queue s) = option_list o ++ m_queue (mon_queue s') /\
  m_max_size (mon_queue s') = m_max_size (mon_queue s).
Proof.
  unfold pop_test. destruct (try_pop (mon_queue s)) as [o' q] eqn:E. apply try_pop_spec in E.
  destruct o'; intros [= <- <-]; done.
Qed.

(** Every step but a push takes items from the front only. *)
Lemma mstep_queue s l s' o :
  mstep s l = Some (s', o) ->
  m_max_size (mon_queue s') = m_max_size (mon_queue s) /\
  match l with
  | Push x => o = None /\ mon_queue s' = push (mon_queue s) x
  | _ => m_queue (mon_queue s) = option_list o ++ m_queue (mon_queue s')
  end.
Proof.
  destruct l; cbn.
  - intros [= <- <-]. cbn. by rewrite push_max.
  - destruct (pending s); [done|]. destruct (waiting s); by intros [= <- <-].
  - intros E. apply (inj Some), pop_test_spec in E as [??]. done.
  - destruct (woken s); [done|]. intros E. apply (inj Some), pop_test_spec in E as [??]. done.
  - destruct (waiting s); [done|]. by intros [= <- <-].
  - destruct (try_pop _) as [o' q] eqn:E. intros [= <- <-]. apply try_pop_spec in E as [??]. done.
Qed.

(** The three claims of a run, for a step that takes from the front. *)
Lemma take_step (o : option A) (mq l l2 out ps : list A) (ov : bool) (mx n : nat) :
  mq = option_list o ++ l ->
  out ++ l2 `sublist_of` l ++ ps ->
  (ov = false -> out ++ l2 = l ++ ps) -> ((length l <= mx)%nat -> (n <= mx)%nat) ->
  option_list o ++ out ++ l2 `sublist_of` mq ++ ps /\
  (ov = false -> option_list o ++ out ++ l2 = mq ++ ps) /\ ((length mq <= mx)%nat -> (n <= mx)%nat).
Proof.
  intros -> Hs Heq Hl. rewrite <-app_assoc. split; [by apply sublist_app|]. split; [intros Ho; by rewrite Heq|].
  intros H. apply Hl. rewrite length_app in H. lia.
Qed.

Lemma mrun_fifo ls : forall s s' out,
  mrun s ls = Some (s', out) ->
  out ++ m_queue (mon_queue s') `sublist_of` m_queue (mon_queue s) ++ pushes ls /\
  (overflows s ls = false -> out ++ m_queue (mon_queue s') = m_queue (mon_queue s) ++ pushes ls) /\
  ((size (mon_queue s) <= m_max_size (mon_queue s))%nat -> (size (mon_queue s') <= m_max_size (mon_queue s))%nat).
Proof.
  induction ls as [|l ls IH]; intros s s' out E.
  { apply (inj Some) in E as [= <- <-]. rewrite app_nil_r. done. }
  cbn [mrun] in E. ostep E as [s1 o] eqn E1.
  ostep E as [s2 out'] eqn E2.
  apply (inj Some) in E as [= <- <-]. destruct (IH _ _ _ E2) as (Hs & Heq & Hl).
  destruct (mstep_queue _ _ _ _ E1) as (Hm & Hq). rewrite Hm in Hl. rewrite <-app_assoc.
  cbn [overflows]. rewrite E1. destruct l as [x| | | | |]; cbn [pushes].
  - destruct Hq as [-> Hq]. cbn [option_list app]. rewrite Hq in *. split; [|split].
    + etrans; [exact Hs|]. change (x :: pushes ls) with ([x] ++ pushes ls).
      rewrite (app_assoc (m_queue (mon_queue s))). by apply sublist_app; [apply push_sublist|].
    + intros Ho. apply orb_false_iff in Ho as [Ho Hr]. apply Nat.leb_gt in Ho. rewrite (Heq Hr).
      destruct (push_cases (mon_queue s) x) as [[_ ->]|[(? & _)|(? & _)]]; [|lia..].
      cbn. by rewrite <-app_assoc.
    + intros. by apply Hl, push_length.
  - exact (take_step _ _ _ _ _ _ _ _ _ Hq Hs Heq Hl).
  - exact (take_step _ _ _ _ _ _ _ _ _ Hq Hs Heq Hl).
  - exact (take_step _ _ _ _ _ _ _ _ _ Hq Hs Heq Hl).
  - exact (take_step _ _ _ _ _ _ _ _ _ Hq Hs Heq Hl).
  - exact (take_step _ _ _ _ _ _ _ _ _ Hq Hs Heq Hl).
Qed.

(** ** No notification is lost

    While a thread waits, every item in the queue is matched by a thread that
    has been woken for it or a notification that will wake one. *)
Definition served (s : monitor) : Prop :=
  waiting s = 0%nat \/ (size (mon_queue s) <= woken s + pending s)%nat.

Lemma push_size_le q x : (size (push q x) <= S (size q))%nat.
Proof.
  unfold size. rewrite (sublist_length _ _ (push_sublist q x)), length_app. simpl. lia.
Qed.

Lemma pop_test_served w k p q :
  (w = 0%nat \/ size q <= S k + p)%nat -> served (pop_test (MkMonitor q w k p)).1.
Proof.
  unfold served, pop_test, try_pop, size. cbn. intros H.
  destruct (m_queue q) as [|x l] eqn:E; cbn; rewrite ?E; simpl in *; [right; lia|].
  destruct H; [by left|right; lia].
Qed.

Lemma mstep_served s l s' o : served s -> mstep s l = Some (s', o) -> served s'.
Proof.
  intros H. destruct l; cbn.
  - intros [= <- <-]. pose proof (push_size_le (mon_queue s) x). unfold served in *. cbn in *. lia.
  - unfold served in *. destruct (pending s), (waiting s); try done; intros [= <- <-]; cbn; lia.
  - intros E. apply (inj Some) in E. change s' with (s', o).1. rewrite <-E. destruct s as [q w k p].
    apply pop_test_served. unfold served in H. cbn in H. lia.
  - destruct (woken s) as [|k] eqn:Ek; [done|]. intros E. apply (inj Some) in E. change s' with (s', o).1.
    rewrite <-E. apply pop_test_served. unfold served in H. lia.
  - unfold served in *. destruct (waiting s); [done|]. intros [= <- <-]; cbn; lia.
  - destruct (try_pop _) as [o' q] eqn:E. intros [= <- <-]. apply try_pop_spec in E as [E _].
    unfold served, size in *. cbn. rewrite E, length_app in H. lia.
Qed.

Lemma mrun_served ls : forall s s' out, served s -> mrun s ls = Some (s', out) -> served s'.
Proof.
  induction ls as [|l ls IH]; intros s s' out H E; [by apply (inj Some) in E as [= <- <-]|].
  cbn [mrun] in E. ostep E as [s1 o] eqn E1.
  ostep E as [s2 out'] eqn E2.
  apply (inj Some) in E as [= <- <-]. eapply IH; [|done]. by eapply mstep_served.
Qed.
End queue.
Arguments label : clear implicits.
Arguments monitor : clear implicits.

(** ** Properties *)

(** C27: first in, first out under any interleaving. In every run of any
    number of producers and consumers the items handed out, followed by those
    still queued, are a subsequence of the items pushed, in order: nothing is
    invented, duplicated or reordered, and the queue never exceeds its bound.
    If no push finds the queue full, nothing is lost either. *)
Theorem queue_fifo {A} (max : nat) (clear : bool) (ls : list (label A)) (s : monitor A) (out : list A) :
  mrun (monitor_new max clear) ls = Some (s, out) ->
  out ++ m_queue (mon_queue s) `sublist_of` pushes ls /\
  (overflows (monitor_new max clear) ls = false -> out ++ m_queue (mon_queue s) = pushes ls) /\
  (size (mon_queue s) <= max)%nat.
Proof.
  intros E. destruct (mrun_fifo _ _ _ _ E) as (Hs & Heq & Hl). split; [done|]. split; [done|].
  apply Hl. unfold size. cbn. lia.
Qed.

(** Two producers, a consumer that waits, and an item left in the queue. *)
Lemma queue_fifo_witness :
  [1; 2] ++ [3] `sublist_of` [1; 2; 3] /\
  (false = false -> [1; 2] ++ [3] = [1; 2; 3]) /\ (1 <= 3)%nat.
Proof.
  exact (queue_fifo 3 false [PopEnter; Push 1; Push 2; Notify; Resume; Push 3; Notify; PopEnter]
    (MkMonitor (MkQueue 3 false [3]) 0 0 1) [1; 2] ltac:(vm_compute; reflexivity)).
Defined.

(** C26: no lost wake-up. In every reachable state in which a thread is
    blocked in [pop] although the queue is not empty, a woken thread, or the
    one the next notification wakes, returns with the item at the front. *)
Theorem no_lost_wakeup {A} (max : nat) (clear : bool) (ls : list (label A)) (s : monitor A)
    (out : list A) (x : A) (l : list A) :
  mrun (monitor_new max clear) ls = Some (s, out) ->
  (0 < waiting s)%nat -> m_queue (mon_queue s) = x :: l ->
  exists ls' s', (ls' = [Resume] \/ ls' = [Notify; Resume]) /\ mrun s ls' = Some (s', [x]) /\
    m_queue (mon_queue s') = l.
Proof.
  intros E Hw Hq. assert (served s) as [?|Hs] by (eapply mrun_served; [|exact E]; by left); [lia|].
  unfold size in Hs. rewrite Hq in Hs. destruct s as [q w k p]. cbn in *.
  assert (forall w k p, pop_test (MkMonitor q w k p) = (MkMonitor (with_queue q l) w k p, Some x)) as Hp.
  { intros. unfold pop_test, try_pop. cbn. by rewrite Hq. }
  destruct k as [|k].
  - destruct p as [|p]; [lia|]. destruct w as [|w]; [lia|].
    exists [Notify; Resume]. eexists. split; [by right|]. cbn. rewrite Hp. done.
  - exists [Resume]. eexists. split; [by left|]. cbn. rewrite Hp. done.
Qed.

Lemma no_lost_wakeup_witness :
  exists ls' s', (ls' = [Resume] \/ ls' = [Notify; Resume]) /\
    mrun (MkMonitor (MkQueue 2 false [7]) 1 0 1) ls' = Some (s', [7]) /\ m_queue (mon_queue s') = [].
Proof.
  apply (no_lost_wakeup 2 false [PopEnter; Push 7] (MkMonitor (MkQueue 2 false [7]) 1 0 1) [] 7 []).
  - vm_compute. reflexivity.
  - simpl. lia.
  - reflexivity.
Defined.
