(* ===== verification/Worker.v ===== *)
(** * The transmit and relay threads and how they are stopped

    [raw_send_thread] and [raw_relay_thread] (src/src/raw_send_thread.cc) are
    loops that test [terminate], pop a message and handle it. The main loop
    (src/src/wfb_bridge.cc) stops them by setting the flag, pushing an empty
    message and joining the thread. The system is the queue's [monitor] with
    this one consumer, the main thread, and any number of producers; its steps
    are those of [SharedQueue] and the accesses to the flag. *)

From S2P Require Import Prelude SharedQueue.

Section worker.
Context {A : Type} (empty : A).

(** The thread: before the test of [terminate], before [pop], blocked in
    [pop], handling a message, returned. *)
Inductive worker := Testing | Calling | Blocked | Handling (x : A) | Exited.

(** The main thread: in its loop, having set the flag, having pushed the empty
    message, in [join]. *)
Inductive main_thread := Looping | Stopping | Pushed | Joining.

Record system := MkSystem {
  mon : monitor A;
  terminate : bool;
  wrk : worker;
  main : main_thread
}.

Inductive actor :=
| Work                (* a step of the thread *)
| Main                (* a step of the main thread on its way to join, and after it *)
| Clear_flag          (* reset_wifi = false at the top of the main loop *)
| Raise_flag          (* reset_wifi = true by the receive or the udev thread *)
| Produce (x : A)     (* push by another thread *)
| Notify_one          (* the notification of a push by another thread *)
| Wake_up.            (* a spurious wake-up *)

Definition with_mon (s : system) (m : monitor A) : system := MkSystem m (terminate s) (wrk s) (main s).
Definition with_wrk (s : system) (w : worker) : system := MkSystem (mon s) (terminate s) w (main s).

(** The outcome of the loop test in [pop]. *)
Definition popped (s : system) (r : monitor A * option A) : system :=
  MkSystem r.1 (terminate s) (match r.2 with Some x => Handling x | None => Blocked end) (main s).

Definition work (s : system) : option system :=
  match wrk s with
  | Testing => Some (with_wrk s (if terminate s then Exited else Calling))
  | Calling => popped s <$> mstep (mon s) PopEnter
  | Blocked => popped s <$> mstep (mon s) Resume
  | Handling _ => Some (with_wrk s Testing)
  | Exited => None
  end.

(** After [join] the main thread clears the flag and, where it finds a card for
    it again, starts a new thread. *)
Definition main_step (s : system) : option system :=
  match main s with
  | Looping => Some (MkSystem (mon s) true (wrk s) Stopping)
  | Stopping => '(m, _) ← mstep (mon s) (Push empty); Some (MkSystem m (terminate s) (wrk s) Pushed)
  | Pushed => '(m, _) ← mstep (mon s) Notify; Some (MkSystem m (terminate s) (wrk s) Joining)
  | Joining =>
      match wrk s with
      | Exited => Some (MkSystem (mon s) false Testing Looping)
      | _ => None
      end
  end.

Definition step (s : system) (a : actor) : option system :=
  match a with
  | Work => work s
  | Main => main_step s
  | Clear_flag => match main s with Looping => Some (MkSystem (mon s) false (wrk s) Looping) | _ => None end
  | Raise_flag => Some (MkSystem (mon s) true (wrk s) (main s))
  | Produce x => with_mon s ∘ fst <$> mstep (mon s) (Push x)
  | Notify_one =>
      if (pending (mon s) <=? match main s with Pushed => 1 | _ => 0 end)%nat then None
      else with_mon s ∘ fst <$> mstep (mon s) Notify
  | Wake_up => with_mon s ∘ fst <$> mstep (mon s) Spurious
  end.

Fixpoint run (s : system) (acts : list actor) : option system :=
  match acts with
  | [] => Some s
  | a :: acts => s ← step s a; run s acts
  end.

Definition system_new (max_size : nat) : system := MkSystem (monitor_new max_size false) false Testing Looping.

(** ** The invariant *)

Definition holds_message (s : system) : Prop := m_queue (mon_queue (mon s)) <> [].

Record inv (max : nat) (s : system) : Prop := {
  inv_max : m_max_size (mon_queue (mon s)) = max;
  inv_keep : m_clear_on_full (mon_queue (mon s)) = false;
  inv_served : served (mon s);
  inv_blocked : (waiting (mon s) + woken (mon s))%nat = match wrk s with Blocked => 1%nat | _ => 0%nat end;
  inv_pending : main s = Pushed -> (0 < pending (mon s))%nat;
  inv_flag : main s <> Looping -> terminate s = true;
  inv_message : main s = Pushed \/ main s = Joining -> wrk s = Calling \/ wrk s = Blocked -> holds_message s
}.

Lemma inv_new max : inv max (system_new max).
Proof. split; try done; [by left|by intros [|]]. Qed.

Lemma push_keep {B} (q : SharedQueue B) x : m_clear_on_full (push q x) = m_clear_on_full q.
Proof. unfold push. by repeat case_match. Qed.

Lemma push_holds {B} (q : SharedQueue B) x :
  m_clear_on_full q = false -> m_queue q <> [] \/ (0 < m_max_size q)%nat -> m_queue (push q x) <> [].
Proof.
  intros Hc H. destruct (push_cases q x) as [[Hs ->]|[(Hs & _ & ->)|(_ & Hc' & _)]]; [|unfold size in Hs|congruence].
  - cbn. by intros [_ ?]%app_nil.
  - intros E. rewrite E in *. cbn in *. destruct H; [done|lia].
Qed.

Lemma pop_test_shape (m : monitor A) :
  match m_queue (mon_queue m) with
  | [] => pop_test m = (MkMonitor (mon_queue m) (S (waiting m)) (woken m) (pending m), None)
  | x :: l => pop_test m = (MkMonitor (with_queue (mon_queue m) l) (waiting m) (woken m) (pending m), Some x)
  end.
Proof. unfold pop_test, try_pop. by destruct (m_queue (mon_queue m)). Qed.

(** The two ways of [pop] into its loop test. *)
Lemma inv_popped max s (m : monitor A) :
  inv max s -> wrk s = Calling \/ wrk s = Blocked -> mon_queue m = mon_queue (mon s) ->
  (waiting m + woken m)%nat = 0%nat -> pending m = pending (mon s) ->
  served (pop_test m).1 -> inv max (popped s (pop_test m)).
Proof.
  intros [H1 H2 _ _ H5 H6 H7] Hw Hq Hz Hp Hs. pose proof (pop_test_shape m) as Hm.
  unfold holds_message in *. rewrite Hq in Hm.
  destruct (m_queue (mon_queue (mon s))) as [|x l] eqn:E; rewrite Hm in *; split; cbn in *; try done; try lia.
  - by rewrite Hp.
  - intros Hmain. by destruct (H7 Hmain Hw).
  - by rewrite Hp.
  - by intros _ [|].
Qed.

Lemma inv_work max s s' : inv max s -> work s = Some s' -> inv max s'.
Proof.
  intros Hi. pose proof Hi as [H1 H2 H3 H4 H5 H6 H7]. unfold work. destruct (wrk s) as [| | |x|] eqn:Ew; [..|done].
  - intros [= <-]. split; try done; cbn; [destruct (terminate s); done|].
    intros Hm Hw. assert (main s <> Looping) as Hn by (by destruct Hm as [->| ->]).
    rewrite (H6 Hn) in Hw. by destruct Hw.
  - cbn. intros [= <-]. apply inv_popped; try done; [by left|].
    apply (mstep_served (mon s) PopEnter _ (pop_test (mon s)).2); [done|]. cbn. by destruct (pop_test _).
  - cbn. destruct (woken (mon s)) as [|k] eqn:Ek; cbn; [done|]. intros [= <-].
    apply inv_popped; try done; [by right|cbn; lia|]. 
    eapply (mstep_served (mon s) Resume _ (pop_test _).2); [done|]. cbn. rewrite Ek. f_equal. apply surjective_pairing.
  - intros [= <-]. split; try done. cbn. by intros _ [|].
Qed.

(** Steps of the queue that are not a pop. *)
Lemma inv_queue max s l m o :
  inv max s -> (main s = Pushed -> l = Notify -> (1 < pending (mon s))%nat) ->
  match l with Notify | Spurious | Push _ => True | _ => False end ->
  mstep (mon s) l = Some (m, o) -> inv max (with_mon s m).
Proof.
  intros [H1 H2 H3 H4 H5 H6 H7] Hn Hl E. pose proof (mstep_served _ _ _ _ H3 E) as Hs.
  destruct l as [x| | | | |]; try done; cbn in E.
  - injection E as <- <-. split; cbn in *; try done.
    + by rewrite push_max.
    + by rewrite push_keep.
    + lia.
    + intros Hm Hw. unfold holds_message in *. cbn. apply push_holds; [done|left]. by apply H7.
  - destruct (pending (mon s)) as [|p] eqn:Ep; [done|].
    destruct (waiting (mon s)) as [|w] eqn:Ew; injection E as <- <-;
      split; cbn in *; try done; try lia; intros Hp; specialize (Hn Hp eq_refl); lia.
  - destruct (waiting (mon s)) as [|w] eqn:Ew; [done|]. injection E as <- <-. split; cbn in *; try done; lia.
Qed.

Lemma inv_main max s s' : (0 < max)%nat -> inv max s -> main_step s = Some s' -> inv max s'.
Proof.
  intros Hmax Hi. pose proof Hi as [H1 H2 H3 H4 H5 H6 H7]. unfold main_step.
  destruct (main s) eqn:Em.
  - intros [= <-]. split; try done; cbn. by intros [|].
  - cbn. intros [= <-]. split; cbn; try done.
    + by rewrite push_max.
    + by rewrite push_keep.
    + by apply (mstep_served (mon s) (Push empty) _ None).
    + lia.
    + intros _. by apply H6.
    + intros _ _. unfold holds_message. cbn. apply push_holds; [done|right; lia].
  - destruct (mstep (mon s) Notify) as [[m o]|] eqn:E; cbn [mbind option_bind]; [|done]. intros [= <-].
    pose proof (mstep_served _ _ _ _ H3 E) as Hs. cbn in E.
    destruct (pending (mon s)) as [|p]; [done|].
    destruct (waiting (mon s)) as [|w] eqn:Ew; injection E as <- <-; split; cbn in *; try done; try lia;
      (intros _; by apply H6) || (intros _ Hw; apply H7; [by left|done]).
  - destruct (wrk s) eqn:Ew; try done. intros [= <-]. split; cbn in *; try done; try lia. by intros [|].
Qed.

Lemma inv_step max s a s' : (0 < max)%nat -> inv max s -> step s a = Some s' -> inv max s'.
Proof.
  intros Hmax Hi. destruct a; cbn [step].
  - by apply inv_work.
  - by apply inv_main.
  - destruct Hi, (main s); try done. intros [= <-]. by split.
  - intros [= <-]. destruct Hi. by split.
  - intros E. apply fmap_Some in E as ([m o] & E & ->). by apply (inv_queue max s (Push x) m o).
  - destruct (Nat.leb_spec (pending (mon s)) (match main s with Pushed => 1 | _ => 0 end)) as [|Hlt]; [done|].
    intros E. apply fmap_Some in E as ([m o] & E & ->). apply (inv_queue max s Notify m o); try done.
    intros Em _. by rewrite Em in Hlt.
  - intros E. apply fmap_Some in E as ([m o] & E & ->). by apply (inv_queue max s Spurious m o).
Qed.

Lemma inv_run max acts : forall s s', (0 < max)%nat -> inv max s -> run s acts = Some s' -> inv max s'.
Proof.
  induction acts as [|a acts IH]; intros s s' Hmax Hi E; [by injection E as <-|].
  cbn in E. destruct (step s a) as [s1|] eqn:E1; cbn in E; [|done]. eapply IH; [done| |exact E]. by eapply inv_step.
Qed.

(** ** The way out

    The steps the thread still needs once the main thread is in [join]. *)
Definition distance (s : system) : nat :=
  match wrk s with Exited => 0 | Testing => 1 | Handling _ => 2 | Calling | Blocked => 3 end.

Lemma work_distance max s s' :
  inv max s -> main s = Joining -> work s = Some s' -> distance s = S (distance s') /\ main s' = Joining.
Proof.
  intros [H1 H2 H3 H4 H5 H6 H7] Hm. unfold work, distance, holds_message in *.
  assert (terminate s = true) as Ht by (apply H6; congruence).
  destruct (wrk s) as [| | |x|] eqn:Ew; [..|done].
  - intros [= <-]. cbn. by rewrite Ht.
  - cbn. intros [= <-]. pose proof (pop_test_shape (mon s)) as Hs.
    destruct (m_queue (mon_queue (mon s))) as [|x l]; [by destruct (H7 (or_intror Hm) (or_introl eq_refl))|].
    by rewrite Hs.
  - cbn. destruct (woken (mon s)) as [|k]; cbn; [done|]. intros [= <-].
    pose proof (pop_test_shape (MkMonitor (mon_queue (mon s)) (waiting (mon s)) k (pending (mon s)))) as Hs. cbn in Hs.
    destruct (m_queue (mon_queue (mon s))) as [|x l]; [by destruct (H7 (or_intror Hm) (or_intror eq_refl))|].
    by rewrite Hs.
  - intros [= <-]. done.
Qed.

(** The other threads do not touch the worker. *)
Lemma other_distance s a s' :
  a <> Work -> a <> Main -> main s = Joining -> step s a = Some s' ->
  distance s' = distance s /\ main s' = Joining.
Proof.
  intros Ha Ha' Hm. destruct a; try done; cbn [step].
  - by rewrite Hm.
  - by intros [= <-].
  - intros E. by apply fmap_Some in E as ([m o] & E & ->).
  - destruct (_ <=? _)%nat; [done|]. intros E. by apply fmap_Some in E as ([m o] & E & ->).
  - intros E. by apply fmap_Some in E as ([m o] & E & ->).
Qed.

(** The thread, or a notification under way, can always go on. *)
Lemma join_progress max s :
  inv max s -> main s = Joining -> wrk s <> Exited ->
  is_Some (step s Work) \/ is_Some (step s Notify_one) /\ forall s', step s Notify_one = Some s' -> is_Some (step s' Work).
Proof.
  intros [H1 H2 H3 H4 H5 H6 H7] Hm Hw. cbn. unfold work. destruct (wrk s) as [| | |x|] eqn:Ew; [left; by eexists|left; by eexists| |left; by eexists|done].
  cbn. destruct (woken (mon s)) as [|k] eqn:Ek; [|left; by eexists]. right. rewrite Hm.
  assert (holds_message s) as Hq by (apply H7; auto). unfold holds_message, served, size in *.
  destruct (m_queue (mon_queue (mon s))) as [|y l] eqn:Eq; [done|]. cbn in H3.
  destruct (pending (mon s)) as [|p]; [lia|]. destruct (waiting (mon s)) as [|w]; [lia|]. cbn.
  split; [by eexists|]. intros s' [= <-]. cbn. rewrite Ew. cbn. by eexists.
Qed.
End worker.

(** ** Properties *)

Fixpoint work_steps {A} (acts : list (actor (A := A))) : nat :=
  match acts with
  | [] => 0
  | Work :: acts => S (work_steps acts)
  | _ :: acts => work_steps acts
  end.

Lemma run_distance {A} (empty : A) max acts : forall s s',
  (0 < max)%nat -> inv max s -> main s = Joining -> Forall (fun a => a <> Main) acts -> run empty s acts = Some s' ->
  distance s = (work_steps acts + distance s')%nat /\ main s' = Joining.
Proof.
  induction acts as [|a acts IH]; intros s s' Hmax Hi Hm Ha E; [by injection E as <-|].
  apply Forall_cons in Ha as [Ha Hacts]. cbn [run] in E.
  ostep E as s1 eqn E1.
  assert (inv max s1) as Hi1 by (by eapply inv_step).
  destruct a; [|done|..].
  1: { destruct (work_distance max s s1 Hi Hm E1) as [Hd Hm1].
       destruct (IH s1 s') as [Hd' Hm']; try done. rewrite Hd, Hd'. by split. }
  all: assert (distance s1 = distance s /\ main s1 = Joining) as [Hd Hm1] by (by eapply other_distance; [| | |exact E1]).
  all: destruct (IH s1 s') as [Hd' Hm']; try done; rewrite <-Hd, Hd'; done.
Qed.

(** C18: stopping a thread ends. In every state that any interleaving of the
    threads reaches, once the main thread is in [join] the worker returns
    after a fixed number of its own steps, at most three, whatever the others
    do meanwhile; and until then the worker can take a step, or a notification
    that some producer still owes lets it. (The queue must have room for one
    message.) *)
Theorem stop_worker {A} (empty : A) (max : nat) (acts : list actor) (s : system) :
  (0 < max)%nat -> run empty (system_new max) acts = Some s -> main s = Joining ->
  (distance s <= 3)%nat /\
  (forall acts' s', Forall (fun a => a <> Main) acts' -> run empty s acts' = Some s' ->
     main s' = Joining /\ (work_steps acts' <= distance s)%nat /\
     (wrk s' = Exited <-> work_steps acts' = distance s)) /\
  (wrk s <> Exited -> is_Some (step empty s Work) \/
     is_Some (step empty s Notify_one) /\ forall s', step empty s Notify_one = Some s' -> is_Some (step empty s' Work)).
Proof.
  intros Hmax E Hm. assert (inv max s) as Hi by (eapply inv_run; [done|apply inv_new|exact E]).
  split; [unfold distance; destruct (wrk s); lia|]. split; [|by apply (join_progress empty max)].
  intros acts' s' Ha E'. destruct (run_distance empty max acts' s s' Hmax Hi Hm Ha E') as [Hd Hm'].
  split; [done|]. split; [lia|]. unfold distance in Hd at 2. destruct (wrk s'); split; intros; try done; lia.
Qed.

(** The thread waits in [pop] when it is told to stop. *)
Definition demo_stop : list (actor (A := Z)) := [Work; Work; Main; Produce 5; Main; Main].

Lemma stop_worker_witness :
  exists s, run 0 (system_new 2) demo_stop = Some s /\ main s = Joining /\ wrk s = Blocked /\ (distance s <= 3)%nat /\
    forall acts' s', Forall (fun a => a <> Main) acts' -> run 0 s acts' = Some s' ->
     main s' = Joining /\ (work_steps acts' <= distance s)%nat /\
     (wrk s' = Exited <-> work_steps acts' = distance s).
Proof.
  eexists. split; [vm_compute; reflexivity|]. split; [reflexivity|]. split; [reflexivity|].
  edestruct (stop_worker 0 2 demo_stop) as (H1 & H2 & _); [lia|vm_compute; reflexivity|reflexivity|].
  split; [exact H1|exact H2].
Defined.

(** A thread can be lost. When the flag is raised while the main thread
    is in its loop, as the receive thread does after an error, the worker
    returns; from then on it stays so until the main thread finds other cards,
    also after the flag has been cleared again, while the producers go on
    pushing messages that nobody takes. *)
Theorem worker_lost {A} (empty : A) (max : nat) :
  exists acts s, ~ Main ∈ acts /\ run empty (system_new max) acts = Some s /\ terminate s = false /\
  forall acts' s', Forall (fun a => a <> Main) acts' -> run empty s acts' = Some s' ->
    wrk s' = Exited /\ work_steps acts' = 0%nat.
Proof.
  exists [Raise_flag; Work; Clear_flag]. eexists. split; [intros H%list_elem_of_In; cbn in H; by destruct_or!|].
  split; [reflexivity|]. split; [reflexivity|].
  set (s := MkSystem _ _ _ _). assert (wrk s = Exited) as Hs by done. clearbody s.
  intros acts'. revert s Hs. induction acts' as [|a acts' IH]; intros s Hs s' Ha E; [by injection E as <-|].
  apply Forall_cons in Ha as [Ha Hacts]. cbn [run] in E.
  ostep E as s1 eqn E1.
  assert (wrk s1 = Exited /\ a <> Work) as [Hs1 Hw]; [|destruct a; try done; by apply (IH s1)].
  destruct a; cbn [step] in E1; try done.
  - unfold work in E1. by rewrite Hs in E1.
  - destruct (main s); [|done..]. by injection E1 as <-.
  - by injection E1 as <-.
  - by apply fmap_Some in E1 as ([m o] & _ & ->).
  - destruct (_ <=? _)%nat; [done|]. by apply fmap_Some in E1 as ([m o] & _ & ->).
  - by apply fmap_Some in E1 as ([m o] & _ & ->).
Qed.
