(* ===== verification/TransferStats.v ===== *)
(** * [TransferStats] of src/src/transfer_stats.cc

    The counters a bridge keeps about its link. They are 32 bits wide and are
    fed differences of the decoders' 64-bit counters. The averages are
    [float]s, modelled with the IEEE 754 operations of the Standard Library
    ([binary32] members, [binary64] intermediate results). The mutex makes
    every operation atomic; [None] is an access outside [m_port_blocks]. *)

From S2P Require Import Prelude FecDecoder.
From Stdlib Require Import Floats.SpecFloat.

Definition RAW_SOCKET_NPORTS : Z := 16.

(** ** Floating point *)

Definition float := spec_float.
Definition double := spec_float.

(** Rounding to the nearest [float] or [double]. *)
Definition to_format (prec emax : Z) (f : spec_float) : spec_float :=
  match f with
  | S754_finite s m e => binary_normalize prec emax (if s then Zneg m else Zpos m) e s
  | _ => f
  end.
Definition to_float (f : spec_float) : float := to_format 24 128 f.
Definition to_double (f : spec_float) : double := to_format 53 1024 f.
Definition double_of_int (z : Z) : double := binary_normalize 53 1024 z 0 false.

Definition fmul (a b : float) : float := SFmul 24 128 a b.
Definition dadd (a b : double) : double := SFadd 53 1024 a b.
Definition dsub (a b : double) : double := SFsub 53 1024 a b.
Definition dmul (a b : double) : double := SFmul 53 1024 a b.

(** [0.02f] *)
Definition prev_weight : float := S754_finite false 10737418 (-29).
Definition float_zero : float := S754_zero false.

(** [prev_weight * avg + (1.0 - prev_weight) * v] *)
Definition average (avg : float) (v : double) : float :=
  to_float (dadd (to_double (fmul prev_weight avg))
                 (dmul (dsub (double_of_int 1) (to_double prev_weight)) v)).

(** [prev_weight * avg + 1e6 * (1.0 - prev_weight) * t] *)
Definition average_us (avg t : float) : float :=
  to_float (dadd (to_double (fmul prev_weight avg))
                 (dmul (dmul (double_of_int 1000000) (dsub (double_of_int 1) (to_double prev_weight)))
                       (to_double t))).

(** ** State *)

Record BlockBytes := MkBlockBytes { blocks : Z; bb_bytes : Z }.

Definition BlockBytes_sub (a b : BlockBytes) : BlockBytes :=
  MkBlockBytes (wrap 32 (blocks a - blocks b)) (wrap 64 (bb_bytes a - bb_bytes b)).
Definition BlockBytes_add (bb : BlockBytes) (by_ : Z) : BlockBytes :=
  MkBlockBytes (wrap 32 (blocks bb + 1)) (wrap 64 (bb_bytes bb + by_)).

Record counters := MkCounters {
  m_seq : Z;
  m_blocks : Z;
  m_bytes : Z;
  m_block_errors : Z;
  m_seq_errors : Z;
  m_send_bytes : Z;
  m_send_blocks : Z;
  m_inject_errors : Z;
  m_flushes : Z
}.

Record averages := MkAverages {
  m_queue_size : float;
  m_enc_time : float;
  m_send_time : float;
  m_pkt_time : float;
  m_rssi : float;
  m_latency : float
}.

Record TransferStats := MkTransferStats {
  m_name : string;
  m_counts : counters;
  m_avgs : averages;
  m_port_blocks : list Z;
  m_ip_port_blocks : gmap Z BlockBytes
}.

Definition TransferStats_new (name : string) : TransferStats :=
  MkTransferStats name (MkCounters 0 0 0 0 0 0 0 0 0)
    (MkAverages float_zero float_zero float_zero float_zero float_zero float_zero)
    (replicate (Z.to_nat RAW_SOCKET_NPORTS) 0) ∅.

Definition on_counts (f : counters -> counters) (s : TransferStats) : TransferStats :=
  MkTransferStats (m_name s) (f (m_counts s)) (m_avgs s) (m_port_blocks s) (m_ip_port_blocks s).
Definition on_avgs (f : averages -> averages) (s : TransferStats) : TransferStats :=
  MkTransferStats (m_name s) (m_counts s) (f (m_avgs s)) (m_port_blocks s) (m_ip_port_blocks s).

(** [m += cur - prev] for a 32-bit member and 64-bit counters. *)
Definition accumulate (m cur prev : Z) : Z := wrap 32 (m + sub64 cur prev).

Definition add_counts (cur prev : FECDecoderStats) (c : counters) : counters :=
  MkCounters (accumulate (m_seq c) (total_blocks cur) (total_blocks prev))
    (accumulate (m_blocks c) (total_packets cur) (total_packets prev))
    (accumulate (m_bytes c) (bytes cur) (bytes prev))
    (accumulate (m_block_errors c) (dropped_packets cur) (dropped_packets prev))
    (accumulate (m_seq_errors c) (dropped_blocks cur) (dropped_blocks prev))
    (m_send_bytes c) (m_send_blocks c) (m_inject_errors c) (m_flushes c).

Definition add (cur prev : FECDecoderStats) (s : TransferStats) : TransferStats :=
  on_counts (add_counts cur prev) s.

Definition add_rssi (rssi : Z) : TransferStats -> TransferStats :=
  on_avgs (fun a => MkAverages (m_queue_size a) (m_enc_time a) (m_send_time a) (m_pkt_time a)
                      (average (m_rssi a) (double_of_int rssi)) (m_latency a)).

(** The parameter is a [uint8_t]: the argument is converted. *)
Definition add_latency (t : Z) : TransferStats -> TransferStats :=
  on_avgs (fun a => MkAverages (m_queue_size a) (m_enc_time a) (m_send_time a) (m_pkt_time a)
                      (m_rssi a) (average (m_latency a) (double_of_int (wrap 8 t)))).

Definition add_encode_time (t : float) : TransferStats -> TransferStats :=
  on_avgs (fun a => MkAverages (m_queue_size a) (average_us (m_enc_time a) t) (m_send_time a)
                      (m_pkt_time a) (m_rssi a) (m_latency a)).

Definition add_loop_time (t : float) : TransferStats -> TransferStats :=
  on_avgs (fun a => MkAverages (m_queue_size a) (m_enc_time a) (m_send_time a)
                      (average_us (m_pkt_time a) t) (m_rssi a) (m_latency a)).

(** [++m_port_blocks[port]], or the error message. *)
Definition count_port (port : Z) (l : list Z) : option (list Z) :=
  if port <=? RAW_SOCKET_NPORTS then
    n ← l !! Z.to_nat port; Some (<[Z.to_nat port := wrap 32 (n + 1)]> l)
  else Some l.

Definition add_send_block (port ip_port nbytes : Z) (inject_error : bool) (queue_size : Z)
    (flush : bool) (send_time : float) (s : TransferStats) : option TransferStats :=
  ports ← count_port port (m_port_blocks s);
  let c := m_counts s in
  let a := m_avgs s in
  let bb := default (MkBlockBytes 0 0) (m_ip_port_blocks s !! ip_port) in
  Some (MkTransferStats (m_name s)
    (MkCounters (m_seq c) (m_blocks c) (m_bytes c) (m_block_errors c) (m_seq_errors c)
       (wrap 32 (m_send_bytes c + nbytes)) (wrap 32 (m_send_blocks c + 1))
       (wrap 32 (m_inject_errors c + if inject_error then 1 else 0))
       (wrap 32 (m_flushes c + if flush then 1 else 0)))
    (MkAverages (average (m_queue_size a) (double_of_int queue_size)) (m_enc_time a)
       (average_us (m_send_time a) send_time) (m_pkt_time a) (m_rssi a) (m_latency a))
    ports
    (<[ip_port := BlockBytes_add bb nbytes]> (m_ip_port_blocks s))).

(** No lock is taken here. *)
Definition timeout : TransferStats -> TransferStats :=
  on_avgs (fun _ => MkAverages float_zero float_zero float_zero float_zero
                      (to_float (double_of_int (-100))) float_zero).

(** ** [get_stats] *)

Record transfer_stats_t := MkTransferStatsT {
  sequences : Z;
  blocks_in : Z;
  blocks_out : Z;
  sequence_errors : Z;
  block_errors : Z;
  inject_errors : Z;
  bytes_in : Z;
  bytes_out : Z;
  encode_time : float;
  send_time : float;
  pkt_time : float;
  latency : float;
  rssi : float;
  port_blocks : list Z;
  ip_port_blocks : gmap Z BlockBytes
}.

(** [std::round]: to the nearest integer, halves away from zero. *)
Definition round_float (f : float) : option Z :=
  match f with
  | S754_zero _ => Some 0
  | S754_finite s m e =>
      let n := if 0 <=? e then Zpos m * 2 ^ e else (Zpos m + 2 ^ (- e - 1)) / 2 ^ (- e) in
      Some (if s then - n else n)
  | _ => None
  end.

(** [static_cast<int8_t>] of a rounded [float]; undefined out of range. *)
Definition int8_of_float (f : float) : option Z :=
  n ← round_float f; if (-128 <=? n) && (n <=? 127) then Some n else None.

Definition get_stats (s : TransferStats) : option transfer_stats_t :=
  r ← int8_of_float (m_rssi (m_avgs s));
  let c := m_counts s in
  let a := m_avgs s in
  Some (MkTransferStatsT (m_seq c) (m_blocks c) (m_send_blocks c) (m_seq_errors c) (m_block_errors c)
    (m_inject_errors c) (m_bytes c) (m_send_bytes c) (m_enc_time a) (m_send_time a) (m_pkt_time a)
    (m_latency a) (to_float (double_of_int r)) (m_port_blocks s) (m_ip_port_blocks s)).

(** ** Counters add up *)

Lemma wrap_wrap_64 x : wrap 32 (wrap 64 x) = wrap 32 x.
Proof.
  unfold wrap. change (2 ^ 64) with (2 ^ 32 * 2 ^ 32). rewrite Z.rem_mul_r by lia.
  rewrite (Z.mul_comm (2 ^ 32)), Z_mod_plus_full. by apply Z.mod_mod.
Qed.

Lemma wrap_add_l w x y : wrap w (wrap w x + y) = wrap w (x + y).
Proof. apply Zplus_mod_idemp_l. Qed.

Lemma wrap_add_r w x y : wrap w (x + wrap w y) = wrap w (x + y).
Proof. apply Zplus_mod_idemp_r. Qed.

Lemma wrap_idemp w x : wrap w (wrap w x) = wrap w x.
Proof. apply Zmod_mod. Qed.

Lemma accumulate_eq m a b : accumulate m b a = wrap 32 (m + (b - a)).
Proof. unfold accumulate, sub64. by rewrite <-wrap_add_r, wrap_wrap_64, wrap_add_r. Qed.

(** A member follows a 64-bit counter: adding the differences of successive
    readings adds the difference of the last and the first. *)
Lemma accumulate_trans m a b c : accumulate (accumulate m b a) c b = accumulate m c a.
Proof. rewrite !accumulate_eq, wrap_add_l. f_equal. lia. Qed.

Definition zero_bb : BlockBytes := MkBlockBytes 0 0.

(** The sum of a member over all IP ports. *)
Definition total (f : BlockBytes -> Z) (m : gmap Z BlockBytes) : Z :=
  map_fold (fun _ bb acc => f bb + acc) 0 m.

Lemma total_insert f m k bb :
  f zero_bb = 0 -> total f (<[k := bb]> m) = total f m - f (default zero_bb (m !! k)) + f bb.
Proof.
  intros H0. unfold total. rewrite <-insert_delete_eq.
  rewrite map_fold_insert_L by (intros; lia || by rewrite lookup_delete_eq).
  destruct (m !! k) as [bb0|] eqn:E; cbn [default].
  - rewrite (map_fold_delete_L (fun _ bb acc => f bb + acc) 0 k bb0 m) by (intros; lia || done).
    unfold id. lia.
  - rewrite delete_id by done. rewrite H0. lia.
Qed.

Definition zsum (l : list Z) : Z := foldr Z.add 0 l.

Lemma zsum_cons x l : zsum (x :: l) = x + zsum l.
Proof. reflexivity. Qed.

Lemma zsum_insert l i x v : l !! i = Some x -> zsum (<[i := v]> l) = zsum l - x + v.
Proof.
  revert i. induction l as [|y l IH]; intros i Hi; [done|]. destruct i as [|i].
  - injection Hi as ->. change (<[0%nat := v]> (x :: l)) with (v :: l). rewrite !zsum_cons. lia.
  - change (<[S i := v]> (y :: l)) with (y :: <[i := v]> l). rewrite !zsum_cons, (IH i Hi). lia.
Qed.

(** What the send side of the counters agrees on, modulo 2^32. *)
Record send_ok (s : TransferStats) : Prop := {
  ports_length : length (m_port_blocks s) = Z.to_nat RAW_SOCKET_NPORTS;
  ports_sum : wrap 32 (zsum (m_port_blocks s)) = m_send_blocks (m_counts s);
  blocks_sum : wrap 32 (total blocks (m_ip_port_blocks s)) = m_send_blocks (m_counts s);
  bytes_sum : wrap 32 (total bb_bytes (m_ip_port_blocks s)) = m_send_bytes (m_counts s)
}.

Lemma TransferStats_new_ok name : send_ok (TransferStats_new name).
Proof. by split. Qed.

Lemma count_port_Some port l :
  length l = Z.to_nat RAW_SOCKET_NPORTS -> 0 <= port < RAW_SOCKET_NPORTS ->
  exists l', count_port port l = Some l' /\ length l' = length l /\
    wrap 32 (zsum l') = wrap 32 (wrap 32 (zsum l) + 1).
Proof.
  intros Hl Hp. unfold count_port. rewrite (proj2 (Z.leb_le _ _)) by lia.
  destruct (lookup_lt_is_Some_2 l (Z.to_nat port)) as [n Hn]; [lia|]. rewrite Hn. cbn.
  eexists. split; [done|]. split; [apply length_insert|].
  rewrite (zsum_insert _ _ n) by done. rewrite wrap_add_r, wrap_add_l. f_equal. lia.
Qed.

(** ** Properties *)

(** C34: the counters of sent blocks. A block sent on one of the 16 radio
    ports is counted once in every table: the blocks per radio port and the
    blocks per IP port both add up to [m_send_blocks], and the bytes per IP
    port to [m_send_bytes], modulo 2^32, in every state reached from a new
    [TransferStats]. The check of the port lets 16 through, which is written
    outside the array, and a larger port is only logged. *)
Theorem send_counters_agree (s : TransferStats) (port ip_port nbytes queue_size : Z)
    (inject_error flush : bool) (t : float) :
  send_ok s ->
  let r := add_send_block port ip_port nbytes inject_error queue_size flush t s in
  (0 <= port < RAW_SOCKET_NPORTS -> exists s', r = Some s' /\ send_ok s' /\
     m_send_blocks (m_counts s') = wrap 32 (m_send_blocks (m_counts s) + 1) /\
     m_send_bytes (m_counts s') = wrap 32 (m_send_bytes (m_counts s) + nbytes)) /\
  (port = RAW_SOCKET_NPORTS -> r = None) /\
  (RAW_SOCKET_NPORTS < port -> exists s', r = Some s' /\ m_port_blocks s' = m_port_blocks s /\
     m_send_blocks (m_counts s') = wrap 32 (m_send_blocks (m_counts s) + 1)).
Proof.
  intros [Hl Hp Hb Hy] r. unfold r, add_send_block. split; [|split].
  - intros Hport. destruct (count_port_Some port _ Hl Hport) as (l' & -> & Hl' & Hs).
    cbn [mbind option_bind]. eexists. split; [done|]. split; [|done].
    split; cbn [m_port_blocks m_counts m_send_blocks m_ip_port_blocks m_send_bytes]; [by rewrite Hl'|by rewrite Hs, Hp|..].
    + rewrite total_insert by done. unfold BlockBytes_add. cbn [blocks bb_bytes]. rewrite wrap_add_r, <-Hb, wrap_add_l.
      f_equal. unfold zero_bb. lia.
    + rewrite total_insert by done. unfold BlockBytes_add. cbn [blocks bb_bytes].
      rewrite <-wrap_add_r, wrap_wrap_64, wrap_add_r, <-Hy, wrap_add_l. f_equal. unfold zero_bb. lia.
  - intros ->. unfold count_port. cbn [Z.leb Z.compare RAW_SOCKET_NPORTS Pos.compare Pos.compare_cont].
    rewrite lookup_ge_None_2 by (rewrite Hl; done). done.
  - intros Hport. unfold count_port. rewrite (proj2 (Z.leb_gt _ _)) by done. cbn [mbind option_bind].
    eexists. done.
Qed.

Lemma send_counters_agree_witness :
  send_ok (TransferStats_new "air") /\
  exists s', add_send_block 3 5600 1400 false 2 false float_zero (TransferStats_new "air") = Some s' /\ send_ok s' /\
    m_send_blocks (m_counts s') = 1 /\ m_send_bytes (m_counts s') = 1400.
Proof.
  split; [apply TransferStats_new_ok|].
  apply (proj1 (send_counters_agree (TransferStats_new "air") 3 5600 1400 2 false false float_zero
    (TransferStats_new_ok "air"))). unfold RAW_SOCKET_NPORTS. lia.
Defined.
