(* ===== verification/Status.v ===== *)
(** * The status message: [serialize] and [update] of src/src/transfer_stats.cc

    Twice a second each side sends its statistics to the other as a line of
    tokens with commas in between. What arrives is read token by token into a
    [TransferStats], until one is missing or cannot be read. *)

From S2P Require Import Prelude Text TransferStats.
Local Open Scope Z_scope.

(** ** Copies: the copy constructor and the assignment *)

Definition TransferStats_copy (ts : TransferStats) : TransferStats :=
  MkTransferStats (m_name ts)
    (MkCounters (m_seq (m_counts ts)) (m_blocks (m_counts ts)) (m_bytes (m_counts ts)) (m_block_errors (m_counts ts))
       (m_seq_errors (m_counts ts)) (m_send_bytes (m_counts ts)) (m_send_blocks (m_counts ts))
       (m_inject_errors (m_counts ts)) (m_flushes (m_counts ts)))
    (MkAverages (m_queue_size (m_avgs ts)) (m_enc_time (m_avgs ts)) (m_send_time (m_avgs ts))
       (m_pkt_time (m_avgs ts)) (m_rssi (m_avgs ts)) (m_latency (m_avgs ts)))
    (m_port_blocks ts) (m_ip_port_blocks ts).

(** [dst = src] *)
Definition assign (dst src : TransferStats) : TransferStats := TransferStats_copy src.

(** ** Writing *)

Definition serialize (s : TransferStats) : string :=
  let c := m_counts s in
  let a := m_avgs s in
  (put (m_name s) ++ "," ++
   put (m_seq c : uint32) ++ "," ++
   put (m_blocks c : uint32) ++ "," ++
   put (m_bytes c : uint32) ++ "," ++
   put (m_block_errors c : uint32) ++ "," ++
   put (m_seq_errors c : uint32) ++ "," ++
   put (m_send_bytes c : uint32) ++ "," ++
   put (m_send_blocks c : uint32) ++ "," ++
   put (m_inject_errors c : uint32) ++ "," ++
   put (m_queue_size a : binary32) ++ "," ++
   put (m_enc_time a : binary32) ++ "," ++
   put (m_send_time a : binary32) ++ "," ++
   put (m_pkt_time a : binary32) ++ "," ++
   put (m_latency a : binary32) ++ "," ++
   put (m_rssi a : binary32))%string.

(** ** Reading *)

(** [parse_next(v, ss)]: the result, the new value of [v], the stream. *)
Definition parse_next {A} `{Token A} (v : A) (ss : option string) : bool * A * option string :=
  match getline ss "," with
  | Some (token, ss) => let '(v, ok) := get token v in (ok, v, ss)
  | None => (false, v, None)
  end.

(** A member that a token is read into. *)
Record member := Member {
  mem_type : Type;
  mem_token : Token mem_type;
  mem_get : TransferStats -> mem_type;
  mem_set : mem_type -> TransferStats -> TransferStats
}.
#[export] Existing Instance mem_token.
Arguments Member {_ _}.

Definition set_name (v : string) (s : TransferStats) : TransferStats :=
  MkTransferStats v (m_counts s) (m_avgs s) (m_port_blocks s) (m_ip_port_blocks s).

Definition counter_member (f : counters -> Z) (set : Z -> counters -> counters) : member :=
  Member (fun s => f (m_counts s) : uint32) (fun v => on_counts (set v)).
Definition average_member (f : averages -> float) (set : float -> averages -> averages) : member :=
  Member (fun s => f (m_avgs s) : binary32) (fun v => on_avgs (set v)).

(** The members in the order in which [update] reads them. *)
Definition update_members : list member := [
  Member m_name set_name;
  counter_member m_seq (fun v '(MkCounters _ b y be se sb sl ie fl) => MkCounters v b y be se sb sl ie fl);
  counter_member m_blocks (fun v '(MkCounters q _ y be se sb sl ie fl) => MkCounters q v y be se sb sl ie fl);
  counter_member m_bytes (fun v '(MkCounters q b _ be se sb sl ie fl) => MkCounters q b v be se sb sl ie fl);
  counter_member m_block_errors (fun v '(MkCounters q b y _ se sb sl ie fl) => MkCounters q b y v se sb sl ie fl);
  counter_member m_seq_errors (fun v '(MkCounters q b y be _ sb sl ie fl) => MkCounters q b y be v sb sl ie fl);
  counter_member m_send_bytes (fun v '(MkCounters q b y be se _ sl ie fl) => MkCounters q b y be se v sl ie fl);
  counter_member m_send_blocks (fun v '(MkCounters q b y be se sb _ ie fl) => MkCounters q b y be se sb v ie fl);
  counter_member m_inject_errors (fun v '(MkCounters q b y be se sb sl _ fl) => MkCounters q b y be se sb sl v fl);
  average_member m_queue_size (fun v '(MkAverages _ e s p r l) => MkAverages v e s p r l);
  average_member m_enc_time (fun v '(MkAverages q _ s p r l) => MkAverages q v s p r l);
  average_member m_send_time (fun v '(MkAverages q e _ p r l) => MkAverages q e v p r l);
  average_member m_pkt_time (fun v '(MkAverages q e s _ r l) => MkAverages q e s v r l);
  average_member m_latency (fun v '(MkAverages q e s p r _) => MkAverages q e s p r v);
  average_member m_rssi (fun v '(MkAverages q e s p _ l) => MkAverages q e s p v l)
].

(** The conjunction of [parse_next]s: it stops at the first that fails. *)
Fixpoint parse_members (ms : list member) (ss : option string) (s : TransferStats) : bool * TransferStats :=
  match ms with
  | [] => (true, s)
  | m :: ms =>
      let '(ok, v, ss) := parse_next (mem_get m s) ss in
      let s := mem_set m v s in
      if ok then parse_members ms ss s else (false, s)
  end.

Definition update (text : string) (s : TransferStats) : bool * TransferStats :=
  parse_members update_members (Some text) s.

(** ** Lemmas *)

Lemma parse_next_put {A} `{TokenLaws A valid} (v w : A) rest :
  valid v -> parse_next w (Some (put v ++ "," ++ rest)%string) = (true, v, Some rest).
Proof.
  change ("," ++ rest)%string with (String "," rest).
  intros Hv. destruct (put_clean v Hv) as [Hc Hn]. unfold parse_next, getline. cbn [mbind option_bind].
  destruct (put v) as [|a t] eqn:E; [done|]. rewrite append_cons.
  assert (String a (t ++ String "," rest) = String a t ++ String "," rest)%string as -> by done.
  rewrite append_cons. rewrite <-append_cons, split_line_comma by done. by rewrite <-E, get_put.
Qed.

Lemma parse_next_put_end {A} `{TokenLaws A valid} (v w : A) :
  valid v -> parse_next w (Some (put v)) = (true, v, None).
Proof.
  intros Hv. destruct (put_clean v Hv) as [Hc Hn]. unfold parse_next, getline. cbn [mbind option_bind].
  destruct (put v) as [|a t] eqn:E; [done|]. rewrite <-E, split_line_end by congruence. by rewrite get_put.
Qed.

(** One member of [update]. *)
Lemma parse_name v ms rest s :
  clean v = true /\ v <> ""%string ->
  parse_members (Member m_name set_name :: ms) (Some (put v ++ "," ++ rest)%string) s
  = parse_members ms (Some rest) (set_name v s).
Proof. intros Hv. cbn [parse_members mem_get mem_set]. by rewrite (parse_next_put v). Qed.

Lemma parse_counter f set v ms rest s :
  0 <= v < 2 ^ 32 ->
  parse_members (counter_member f set :: ms) (Some (put (v : uint32) ++ "," ++ rest)%string) s
  = parse_members ms (Some rest) (on_counts (set v) s).
Proof. intros Hv. cbn [parse_members mem_get mem_set counter_member]. by rewrite (parse_next_put (v : uint32)). Qed.

Lemma parse_average f set v ms rest s :
  six_digits v ->
  parse_members (average_member f set :: ms) (Some (put (v : binary32) ++ "," ++ rest)%string) s
  = parse_members ms (Some rest) (on_avgs (set v) s).
Proof. intros Hv. cbn [parse_members mem_get mem_set average_member]. by rewrite (parse_next_put (v : binary32)). Qed.

Lemma parse_last_average f set v s :
  six_digits v ->
  parse_members [average_member f set] (Some (put (v : binary32))) s = (true, on_avgs (set v) s).
Proof. intros Hv. cbn [parse_members mem_get mem_set average_member]. by rewrite (parse_next_put_end (v : binary32)). Qed.

(** Members that are averages leave the rest alone. *)
Definition is_average (m : member) : Prop := forall v s, exists f, mem_set m v s = on_avgs f s.

Lemma parse_averages ms : forall ss s, Forall is_average ms -> exists f, (parse_members ms ss s).2 = on_avgs f s.
Proof.
  induction ms as [|m ms IH]; intros ss s H; cbn [parse_members]; [by exists id; destruct s|].
  apply Forall_cons in H as [Hm H]. destruct (parse_next (mem_get m s) ss) as [[ok v] ss'].
  destruct (Hm v s) as [f ->]. destruct ok; [|by exists f].
  destruct (IH ss' (on_avgs f s) H) as [g ->]. by exists (g ∘ f).
Qed.

(** The tokens a stream has at most. *)
Fixpoint commas (s : string) : nat :=
  match s with
  | String a s' => ((if Ascii.eqb a "," then 1 else 0) + commas s')%nat
  | EmptyString => 0%nat
  end.

Definition tokens (ss : option string) : nat := from_option (fun s => S (commas s)) 0%nat ss.

Lemma split_line_commas s : tokens (split_line s ",").2 = commas s.
Proof.
  induction s as [|a s IH]; [done|]. cbn. destruct (Ascii.eqb a ","); [done|].
  by destruct (split_line s ",").
Qed.

Lemma parse_members_tokens ms : forall ss s, (parse_members ms ss s).1 = true -> (length ms <= tokens ss)%nat.
Proof.
  induction ms as [|m ms IH]; intros ss s H; cbn [parse_members length] in *; [lia|].
  unfold parse_next in H. destruct (getline ss ",") as [[token ss']|] eqn:E; [|done].
  destruct (get token (mem_get m s)) as [v ok]. destruct ok; [|done]. apply IH in H.
  unfold getline in E. destruct ss as [[|a s']|]; [done| |done].
  change (Some (split_line (String a s') ",") = Some (token, ss')) in E. apply (inj Some) in E.
  pose proof (split_line_commas (String a s')) as Hs. rewrite E in Hs. cbn [snd] in Hs. cbn [tokens from_option]. lia.
Qed.

(** Values that are written without loss: a name that is one word, counters of
    32 bits. *)
Record sendable (s : TransferStats) : Prop := {
  send_name : clean (m_name s) = true /\ m_name s <> ""%string;
  send_counts : Forall (fun z => 0 <= z < 2 ^ 32)
    [m_seq (m_counts s); m_blocks (m_counts s); m_bytes (m_counts s); m_block_errors (m_counts s);
     m_seq_errors (m_counts s); m_send_bytes (m_counts s); m_send_blocks (m_counts s); m_inject_errors (m_counts s)]
}.

Definition sendable_averages (a : averages) : Prop :=
  Forall six_digits [m_queue_size a; m_enc_time a; m_send_time a; m_pkt_time a; m_latency a; m_rssi a].

(** The counters that arrive: the flushes are not sent. *)
Definition sent_counts (c old : counters) : counters :=
  MkCounters (m_seq c) (m_blocks c) (m_bytes c) (m_block_errors c) (m_seq_errors c) (m_send_bytes c)
    (m_send_blocks c) (m_inject_errors c) (m_flushes old).

Lemma update_serialize s old :
  sendable s ->
  let r := update (serialize s) old in
  m_name r.2 = m_name s /\ m_counts r.2 = sent_counts (m_counts s) (m_counts old) /\
  m_port_blocks r.2 = m_port_blocks old /\ m_ip_port_blocks r.2 = m_ip_port_blocks old /\
  (sendable_averages (m_avgs s) -> r.1 = true /\ m_avgs r.2 = m_avgs s).
Proof.
  intros [Hn Hc]. rewrite !Forall_cons in Hc. destruct Hc as (C1 & C2 & C3 & C4 & C5 & C6 & C7 & C8 & _).
  intros r. subst r. unfold update, serialize, update_members.
  rewrite parse_name by done. rewrite !parse_counter by done.
  match goal with |- context [parse_members ?ms ?ss ?t] =>
    destruct (parse_averages ms ss t) as [g Hg]; [by repeat constructor; eexists|]; rewrite Hg end.
  split; [done|]. split; [by destruct s as [? [] ? ? ?], old as [? [] ? ? ?]|].
  split; [done|]. split; [done|].
  unfold sendable_averages. rewrite !Forall_cons. intros (A1 & A2 & A3 & A4 & A5 & A6 & _).
  revert Hg. rewrite !parse_average, parse_last_average by done. intros Hg.
  split; [done|]. apply (f_equal m_avgs) in Hg. cbn [snd] in Hg. rewrite <-Hg.
  by destruct s as [? ? [] ? ?], old as [? ? [] ? ?].
Qed.

(** ** Properties *)

(** C22: the status message. What one side serializes the other reads: the
    name and the counters exactly, whatever the averages are; and if six digits
    are enough for the averages, the update succeeds and they arrive exactly
    too. The tables of the ports are left alone. A text with fewer than 15
    tokens is refused. *)
Theorem status_roundtrip (s old : TransferStats) :
  sendable s ->
  let r := update (serialize s) old in
  m_name r.2 = m_name s /\ m_counts r.2 = sent_counts (m_counts s) (m_counts old) /\
  m_port_blocks r.2 = m_port_blocks old /\ m_ip_port_blocks r.2 = m_ip_port_blocks old /\
  (sendable_averages (m_avgs s) -> r.1 = true /\ m_avgs r.2 = m_avgs s) /\
  forall text, (commas text < 14)%nat -> (update text old).1 = false.
Proof.
  intros Hs r. destruct (update_serialize s old Hs) as (H1 & H2 & H3 & H4 & H5). repeat (split; [done|]).
  intros text Ht. apply not_true_iff_false. intros H%parse_members_tokens. cbn in H. lia.
Qed.

Definition demo_status : TransferStats :=
  MkTransferStats "air" (MkCounters 1 20 300 4 5 4294967295 7 8 9)
    (MkAverages (decimal_to_float false 5 (-1)) (decimal_to_float false 1234 0) float_zero
       (decimal_to_float false 25 (-2)) (decimal_to_float true 61 0) (decimal_to_float false 3 6)) [] ∅.

Lemma status_roundtrip_witness :
  serialize demo_status = "air,1,20,300,4,5,4294967295,7,8,0.5,1234,0,0.25,3e+06,-61"%string /\
  (update (serialize demo_status) (TransferStats_new "")).1 = true /\
  m_counts (update (serialize demo_status) (TransferStats_new "")).2 = MkCounters 1 20 300 4 5 4294967295 7 8 0 /\
  m_avgs (update (serialize demo_status) (TransferStats_new "")).2 = m_avgs demo_status.
Proof.
  destruct (status_roundtrip demo_status (TransferStats_new "")) as (_ & Hc & _ & _ & Ha & _).
  - split; [split; [reflexivity|discriminate]|]. repeat apply Forall_cons_2; [cbn; lia..|apply Forall_nil_2].
  - destruct Ha as [H1 H2].
    { unfold sendable_averages, six_digits. repeat apply Forall_cons_2; [vm_compute; reflexivity..|apply Forall_nil_2]. }
    split; [vm_compute; reflexivity|]. split; [exact H1|]. split; [exact Hc|exact H2].
Defined.
