(* ===== verification/FloatDiv.v ===== *)
(** * Rounded-up quotients in [double]

    fec.cc divides whole numbers with [std::ceil] of a [double] division. The
    division rounds, but for numbers below [2 ^ 32] never across a whole number:
    the result is the quotient rounded up. *)

From S2P Require Import Prelude FecDecoder TransferStats.
From Stdlib Require Import Floats.SpecFloat.
Local Open Scope Z_scope.

(** [std::ceil], and the conversion to an unsigned type of [w] bits. *)
Definition ceil_float (f : spec_float) : option Z :=
  match f with
  | S754_zero _ => Some 0
  | S754_finite s m e =>
      let n := if s then Zneg m else Zpos m in
      Some (if 0 <=? e then n * 2 ^ e else - ((- n) / 2 ^ (- e)))
  | _ => None
  end.

Definition to_unsigned (w : Z) (f : spec_float) : option Z :=
  n ← ceil_float f; if (0 <=? n) && (n <? 2 ^ w) then Some n else None.

(** The quotient rounded up. *)
Definition ceil_div (a b : Z) : Z := - ((- a) / b).

Lemma ceil_div_spec a b : 0 < b -> (ceil_div a b - 1) * b < a <= ceil_div a b * b.
Proof.
  intros Hb. unfold ceil_div. pose proof (Z.div_mod (- a) b ltac:(lia)). pose proof (Z.mod_pos_bound (- a) b Hb). nia.
Qed.

Lemma ceil_div_unique a b c : 0 < b -> (c - 1) * b < a <= c * b -> ceil_div a b = c.
Proof. intros Hb H. pose proof (ceil_div_spec a b Hb). nia. Qed.

(** ** The size of a mantissa *)

Lemma digits2_size p : digits2_pos p = Pos.size p.
Proof. induction p as [p IH|p IH|]; cbn; [by rewrite IH..|done]. Qed.

Lemma digits2_bounds p : 2 ^ (Zpos (digits2_pos p) - 1) <= Zpos p < 2 ^ Zpos (digits2_pos p).
Proof.
  rewrite digits2_size. pose proof (Pos.size_gt p) as H1. pose proof (Pos.size_le p) as H2.
  apply Pos2Z.pos_lt_pos in H1. apply Pos2Z.pos_le_pos in H2. rewrite Pos2Z.inj_pow in H1, H2. split; [|done].
  rewrite <-(Z.add_simpl_r (Zpos (Pos.size p)) (-1)) in H2.
  replace (Z.pos (Pos.size p) + -1 - -1) with (Z.succ (Z.pos (Pos.size p) - 1)) in H2 by lia.
  rewrite Z.pow_succ_r in H2 by lia. lia.
Qed.

Lemma digits2_unique p d : 2 ^ (d - 1) <= Zpos p < 2 ^ d -> Zpos (digits2_pos p) = d.
Proof.
  intros H. pose proof (digits2_bounds p) as Hp. set (k := Zpos (digits2_pos p)) in *.
  assert (0 <= d) as Hd by (destruct (Z.le_gt_cases 0 d); [done|rewrite (Z.pow_neg_r 2 d) in H by done; lia]).
  destruct (Z.lt_trichotomy k d) as [Hlt|[?|Hlt]]; [|done|].
  - pose proof (Z.pow_le_mono_r 2 k (d - 1) ltac:(lia) ltac:(lia)). lia.
  - pose proof (Z.pow_le_mono_r 2 d (k - 1) ltac:(lia) ltac:(lia)). lia.
Qed.

(** ** Rounding a mantissa of 53 or 54 bits *)

Lemma shr_fexp_53 m e l :
  2 ^ 52 <= Zpos m < 2 ^ 53 -> -1074 <= e -> shr_fexp 53 1024 (Zpos m) e l = (shr_record_of_loc (Zpos m) l, e).
Proof.
  intros Hm He. unfold shr_fexp, Zdigits2. rewrite (digits2_unique m 53) by done. unfold fexp, emin.
  replace (Z.max (53 + e - 53) (3 - 1024 - 53) - e) with 0 by lia. done.
Qed.

Lemma shr_fexp_54 m e l :
  2 ^ 53 <= Zpos m < 2 ^ 54 -> -1074 <= e ->
  shr_fexp 53 1024 (Zpos m) e l = (shr_1 (shr_record_of_loc (Zpos m) l), e + 1).
Proof.
  intros Hm He. unfold shr_fexp, Zdigits2. rewrite (digits2_unique m 54) by done. unfold fexp, emin.
  replace (Z.max (54 + e - 53) (3 - 1024 - 53) - e) with 1 by lia. done.
Qed.

Lemma loc_record m l : loc_of_shr_record (shr_record_of_loc m l) = l.
Proof. by destruct l as [|[]]. Qed.

(** The last step, on the rounded mantissa. *)
Lemma round_end m e :
  2 ^ 52 <= m <= 2 ^ 53 -> -1074 <= e <= 900 ->
  exists m' e', e <= e' <= e + 1 /\ Zpos m' * 2 ^ (e' - e) = m /\
    (let '(mrs, e2) := shr_fexp 53 1024 m e loc_Exact in
     match shr_m mrs with
     | Z0 => S754_zero false
     | Zpos m => if e2 <=? 1024 - 53 then S754_finite false m e2 else S754_infinity false
     | _ => S754_nan
     end) = S754_finite false m' e'.
Proof.
  intros Hm He. destruct m as [|m|]; [lia| |lia].
  destruct (decide (Zpos m = 2 ^ 53)) as [Heq|Hne].
  - rewrite shr_fexp_54 by lia. injection Heq as ->. cbn [shr_record_of_loc shr_1 shr_m].
    rewrite (proj2 (Z.leb_le _ _)) by lia. eexists _, (e + 1). split; [lia|]. split; [|done].
    by replace (e + 1 - e) with 1 by lia.
  - rewrite shr_fexp_53 by lia. cbn [shr_record_of_loc shr_m]. rewrite (proj2 (Z.leb_le _ _)) by lia.
    exists m, e. split; [lia|]. split; [|done]. rewrite Z.sub_diag. lia.
Qed.

(** The rounded value of [q] and the location [l] lies between the two
    neighbours of the format, [g] apart, and is [q] if that is exact. *)
Lemma round_between q e l :
  2 ^ 52 <= q < 2 ^ 54 -> -1074 <= e <= 800 ->
  exists m e', binary_round_aux 53 1024 false q e l = S754_finite false m e' /\ e <= e' <= e + 2 /\
    let g := if q <? 2 ^ 53 then 1 else 2 in
    q / g * g <= Zpos m * 2 ^ (e' - e) <= q / g * g + g /\
    (l = loc_Exact -> q mod g = 0 -> Zpos m * 2 ^ (e' - e) = q).
Proof.
  intros Hq He. destruct q as [|q|]; [lia| |lia]. unfold binary_round_aux.
  assert (forall m l, round_nearest_even m l = m \/ round_nearest_even m l = m + 1) as Hr.
  { intros m [|[]]; cbn; auto. destruct (Z.even m); auto. }
  destruct (Z.ltb_spec (Zpos q) (2 ^ 53)) as [Hlt|Hge].
  - rewrite shr_fexp_53 by lia. rewrite loc_record. set (R := round_nearest_even _ l).
    assert (shr_m (shr_record_of_loc (Z.pos q) l) = Zpos q) as Em by by destruct l as [|[]].
    assert (R = Zpos q \/ R = Zpos q + 1) as HR by (unfold R; rewrite Em; apply Hr).
    destruct (round_end R e) as (m & e' & H1 & H2 & ->); [lia..|].
    exists m, e'. split; [done|]. split; [lia|]. cbn zeta. rewrite Z.div_1_r, H2. split; [lia|].
    intros -> _. done.
  - rewrite shr_fexp_54 by lia. set (rec := shr_1 _).
    assert (shr_m rec = Zpos q / 2 /\ (l = loc_Exact -> Zpos q mod 2 = 0 -> loc_of_shr_record rec = loc_Exact)) as [Em Hl].
    { unfold rec. rewrite <-Z.div2_div, Zmod_odd. by destruct l as [|[]], q as [q|q|]. }
    rewrite Em. set (R := round_nearest_even _ _).
    assert (R = Zpos q / 2 \/ R = Zpos q / 2 + 1) as HR by apply Hr.
    pose proof (Z.div_mod (Zpos q) 2 ltac:(lia)) as Hdm. pose proof (Z.mod_pos_bound (Zpos q) 2 ltac:(lia)) as Hmb.
    destruct (round_end R (e + 1)) as (m & e' & H1 & H2 & ->); [lia..|].
    exists m, e'. split; [done|]. split; [lia|]. cbn zeta.
    replace (e' - e) with (e' - (e + 1) + 1) by lia. rewrite Z.pow_add_r, Z.mul_assoc, H2 by lia. split; [lia|].
    intros Hx H0. unfold R. rewrite Hl by done. cbn. lia.
Qed.

(** ** The quotient *)

(** A whole number in [double], its mantissa of 53 bits. *)
Lemma double_of_pos z :
  0 < z < 2 ^ 53 ->
  exists m d, double_of_int z = S754_finite false m (d - 53) /\ 2 ^ (d - 1) <= z < 2 ^ d /\ 0 < d <= 53 /\
    Zpos m = z * 2 ^ (53 - d).
Proof.
  intros Hz. destruct z as [|p|]; [lia| |lia]. pose proof (digits2_bounds p) as Hp.
  set (d := Zpos (digits2_pos p)) in *. assert (0 < d <= 53) as Hd.
  { split; [done|]. destruct (Z.le_gt_cases d 53); [done|]. pose proof (Z.pow_le_mono_r 2 53 (d - 1) ltac:(lia) ltac:(lia)). lia. }
  assert (exists m, shl_align p 0 (fexp 53 1024 (d + 0)) = (m, d - 53) /\ Zpos m = Zpos p * 2 ^ (53 - d)) as (m & Es & Em).
  { unfold shl_align, fexp, emin. replace (Z.max (d + 0 - 53) (3 - 1024 - 53) - 0) with (d - 53) by lia.
    destruct (d - 53) as [|k|k] eqn:Ek; [|lia|].
    - exists p. split; [done|]. replace (53 - d) with 0 by lia. lia.
    - exists (Pos.iter xO p k). split; [f_equal; lia|]. replace (53 - d) with (Zpos k) by lia.
      clear. induction k as [|k IH] using Pos.peano_ind; [cbn; lia|].
      rewrite Pos.iter_succ, Pos2Z.inj_succ, Z.pow_succ_r by lia. rewrite Pos2Z.inj_xO, IH. lia. }
  assert (2 ^ 52 <= Zpos m < 2 ^ 53) as Hm.
  { rewrite Em. replace (2 ^ 52) with (2 ^ (d - 1) * 2 ^ (53 - d)) by (rewrite <-Z.pow_add_r by lia; f_equal; lia).
    replace (2 ^ 53) with (2 ^ d * 2 ^ (53 - d)) by (rewrite <-Z.pow_add_r by lia; f_equal; lia).
    pose proof (Z.pow_pos_nonneg 2 (53 - d) ltac:(lia) ltac:(lia)). nia. }
  exists m, d. split; [|done]. unfold double_of_int, binary_normalize, binary_round. fold d. rewrite Es.
  unfold binary_round_aux. rewrite shr_fexp_53 by lia. cbn [shr_record_of_loc loc_of_shr_record shr_m round_nearest_even].
  rewrite shr_fexp_53 by lia. cbn [shr_record_of_loc shr_m]. by rewrite (proj2 (Z.leb_le _ _)) by lia.
Qed.

(** The quotient before it is rounded: [2 ^ - e] times too large. *)
Lemma div_unrounded a b :
  0 < a < 2 ^ 32 -> 0 < b < 2 ^ 32 ->
  exists q e l, SFdiv 53 1024 (double_of_int a) (double_of_int b) = binary_round_aux 53 1024 false q e l /\
    -85 <= e <= -21 /\ q = a * 2 ^ (- e) / b /\ 2 ^ 52 <= q < 2 ^ 54 /\ b * 2 <= 2 ^ (- e) /\
    (a * 2 ^ (- e) mod b = 0 -> l = loc_Exact).
Proof.
  intros Ha Hb. destruct (double_of_pos a ltac:(lia)) as (m1 & da & -> & Hda & Hda' & E1).
  destruct (double_of_pos b ltac:(lia)) as (m2 & db & -> & Hdb & Hdb' & E2).
  assert (da <= 32) as Hda32.
  { destruct (Z.le_gt_cases da 32); [done|]. pose proof (Z.pow_le_mono_r 2 32 (da - 1) ltac:(lia) ltac:(lia)). lia. }
  assert (db <= 32) as Hdb32.
  { destruct (Z.le_gt_cases db 32); [done|]. pose proof (Z.pow_le_mono_r 2 32 (db - 1) ltac:(lia) ltac:(lia)). lia. }
  assert (forall z d m, 2 ^ (d - 1) <= z < 2 ^ d -> 0 < d <= 53 -> Zpos m = z * 2 ^ (53 - d) -> 2 ^ 52 <= Zpos m < 2 ^ 53) as Hm.
  { intros z d m Hz Hd ->. replace (2 ^ 52) with (2 ^ (d - 1) * 2 ^ (53 - d)) by (rewrite <-Z.pow_add_r by lia; f_equal; lia).
    replace (2 ^ 53) with (2 ^ d * 2 ^ (53 - d)) by (rewrite <-Z.pow_add_r by lia; f_equal; lia).
    pose proof (Z.pow_pos_nonneg 2 (53 - d) ltac:(lia) ltac:(lia)). nia. }
  pose proof (Hm a da m1 Hda Hda' E1) as H1. pose proof (Hm b db m2 Hdb Hdb' E2) as H2. clear Hm.
  set (e := da - db - 53). assert (2 ^ (- e) = 2 ^ (53 - da) * 2 ^ db) as EG by (rewrite <-Z.pow_add_r by lia; f_equal; unfold e; lia).
  assert (Zpos m1 * 2 ^ 53 = a * 2 ^ (- e) * 2 ^ (53 - db)) as Ex.
  { rewrite E1, EG, <-!Z.mul_assoc. f_equal. rewrite <-!Z.pow_add_r by lia. f_equal. lia. }
  pose proof (Z.pow_pos_nonneg 2 (53 - db) ltac:(lia) ltac:(lia)) as Hp.
  exists (Zpos m1 * 2 ^ 53 / Zpos m2), e, (new_location (Zpos m2) ((Zpos m1 * 2 ^ 53) mod Zpos m2)).
  split; [|split; [unfold e; lia|split; [by rewrite Ex, E2, Z.div_mul_cancel_r by lia|split; [|split]]]].
  - unfold SFdiv, SFdiv_core_binary. cbn [Zdigits2 xorb]. rewrite (digits2_unique m1 53), (digits2_unique m2 53) by done.
    unfold fexp, emin. replace (Z.min _ _) with e by (unfold e; lia).
    replace (da - 53 - (db - 53) - e) with 53 by (unfold e; lia). rewrite Z.shiftl_mul_pow2 by lia.
    unfold Z.div, Z.modulo. by destruct (Z.div_eucl _ _).
  - split; [apply Z.div_le_lower_bound; lia|apply Z.div_lt_upper_bound; lia].
  - rewrite EG. pose proof (Z.pow_le_mono_r 2 21 (53 - da) ltac:(lia) ltac:(lia)). nia.
  - intros H0. rewrite Ex, E2, Z.mul_mod_distr_r, H0 by lia. unfold new_location, new_location_even, new_location_odd.
    by destruct (Z.even _).
Qed.

(** [std::ceil] of a [double] division is the quotient rounded up. *)
Lemma ceil_float_div a b :
  0 < a < 2 ^ 32 -> 0 < b < 2 ^ 32 -> ceil_float (SFdiv 53 1024 (double_of_int a) (double_of_int b)) = Some (ceil_div a b).
Proof.
  intros Ha Hb. destruct (div_unrounded a b Ha Hb) as (q & e & l & -> & He & Eq & Hq & HG & Hl).
  destruct (round_between q e l Hq ltac:(lia)) as (m & e' & -> & He' & Hv & Hx). unfold ceil_float.
  rewrite (proj2 (Z.leb_gt _ _)) by lia. f_equal. set (v := Zpos m * 2 ^ (e' - e)) in *. set (G := 2 ^ (- e)) in *.
  assert (- Zpos m / 2 ^ (- e') = - v / G) as ->.
  { assert (G = 2 ^ (- e') * 2 ^ (e' - e)) as -> by (unfold G; rewrite <-Z.pow_add_r by lia; f_equal; lia).
    unfold v. rewrite <-Z.mul_opp_l, Z.div_mul_cancel_r; [done|apply Z.pow_nonzero; lia|apply Z.pow_nonzero; lia]. }
  fold (ceil_div v G). set (c := ceil_div a b). pose proof (ceil_div_spec a b ltac:(lia)) as Hc. fold c in Hc. clearbody c.
  apply ceil_div_unique; [lia|]. set (g := if q <? 2 ^ 53 then 1 else 2) in *. cbn zeta in Hv, Hx.
  assert (g = 1 \/ g = 2) as Hg by (unfold g; destruct (_ <? _); auto).
  assert (exists k, G = g * k) as [k Hk].
  { destruct Hg as [->| ->]; [by exists G; lia|]. exists (2 ^ (- e - 1)). unfold G. rewrite <-Z.pow_succ_r by lia. f_equal. lia. }
  pose proof (Z.div_mod q g ltac:(lia)) as Hdm. pose proof (Z.mod_pos_bound q g ltac:(lia)) as Hmb.
  pose proof (Z.div_mod (a * G) b ltac:(lia)) as Hd. pose proof (Z.mod_pos_bound (a * G) b ltac:(lia)) as Hr. rewrite <-Eq in Hd.
  destruct (decide (a = c * b)) as [->|Hne].
  - assert (c * b * G mod b = 0) as H0 by (apply Z.mod_divide; [lia|]; exists (c * G); lia).
    assert (q = c * G) as Hqc by nia. rewrite Hx; [nia|by apply Hl|]. rewrite Hqc, Hk. apply Z.mod_divide; [lia|]. exists (c * k). lia.
  - assert ((c - 1) * G + g <= q < c * G) as Hqb by nia. split.
    + assert (((c - 1) * G + g) / g <= q / g) as H by (apply Z.div_le_mono; lia).
      replace ((c - 1) * G + g) with (((c - 1) * k + 1) * g) in H by (rewrite Hk; lia). rewrite Z.div_mul in H by lia. rewrite Hk. nia.
    + assert (q / g < c * k) as H by (apply Z.div_lt_upper_bound; [lia|rewrite Hk in Hqb; lia]). rewrite Hk. nia.
Qed.
