(* ===== verification/FecBuffer.v ===== *)
(** * [FECBufferEncoder] of src/src/fec.cc

    A buffer is divided into blocks of equal size, which one group of a fresh
    encoder carries. The numbers of blocks come from [double] and [float]
    arithmetic. [None] is a conversion that the integer type cannot hold or an
    access outside an array. *)

From S2P Require Import Prelude Gf256 GfField FecCode FecBlock FecWire FecEncoder PlainEncoder TransferStats FloatDiv.
From Stdlib Require Import Floats.SpecFloat.
Local Open Scope Z_scope.

Record FECBufferEncoder := MkBufferEncoder {
  b_max_block_size : Z;
  b_fec_ratio : float;
  b_seq_num : Z
}.

Definition FECBufferEncoder_new (maximum_block_size : Z) (fec_ratio : float) : FECBufferEncoder :=
  MkBufferEncoder maximum_block_size fec_ratio 1.

Definition float_of_int (z : Z) : float := binary_normalize 24 128 z 0 false.

(** The number of blocks and their size; for an empty buffer 0 / 0 is converted. *)
Definition divide (len max_block_size : Z) : option (Z * Z) :=
  nblocks ← to_unsigned 32 (SFdiv 53 1024 (double_of_int len) (double_of_int max_block_size));
  block_size ← to_unsigned 32 (SFdiv 53 1024 (double_of_int len) (double_of_int nblocks));
  Some (nblocks, block_size).

(** Block [b] of the buffer. *)
Definition piece (buf : list byte) (block_size b : Z) : list byte :=
  let start := wrap 32 (b * block_size) in
  let stop := Z.min (wrap 32 (start + block_size)) (Z.of_nat (length buf)) in
  take (Z.to_nat (stop - start)) (drop (Z.to_nat start) buf).

Definition pieces (buf : list byte) (nblocks block_size : Z) : list (list byte) :=
  map (fun b => piece buf block_size (Z.of_nat b)) (seq 0 (Z.to_nat nblocks)).

(** The loop that pulls the blocks out of the encoder. *)
Fixpoint pull (fuel : nat) (e : FECEncoder) : option (list FECBlock) :=
  match fuel with
  | O => None
  | S fuel =>
      match get_block e with
      | (None, _) => Some []
      | (Some b, e) => bs ← pull fuel e; Some (b :: bs)
      end
  end.

(** [encode_buffer(buf, len)]: the blocks, and the encoder with its new
    sequence number. *)
Definition encode_buffer (T : fec_state) (s : FECBufferEncoder) (buf : list byte)
  : option (list FECBlock * FECBufferEncoder) :=
  let len := Z.of_nat (length buf) in
  '(nblocks, block_size) ← divide len (b_max_block_size s);
  if 255 <? nblocks then Some ([], s)
  else
    let '(nblocks, block_size) := if len <=? b_max_block_size s then (1, len) else (nblocks, block_size) in
    nfecblocks ← to_unsigned 8 (fmul (float_of_int nblocks) (b_fec_ratio s));
    let '(T, enc) := FECEncoder_new T (wrap 8 nblocks) nfecblocks (wrap 16 (b_max_block_size s)) (b_seq_num s) in
    let s := MkBufferEncoder (b_max_block_size s) (b_fec_ratio s) (next_seq (b_seq_num s)) in
    enc ← send_all T enc (pieces buf nblocks block_size);
    bs ← pull (S (n_output_blocks enc)) enc;
    Some (bs, s).

(** ** Lemmas *)

Lemma pull_all out : forall fuel e, m_out_blocks e = out -> (length out < fuel)%nat -> pull fuel e = Some out.
Proof.
  induction out as [|b out IH]; intros [|fuel] e E Hf; try (cbn in Hf; lia); cbn [pull]; unfold get_block; rewrite E; [done|].
  cbn. rewrite (IH fuel); [done|done|cbn in Hf; lia].
Qed.

Lemma firstn_skipn_skipn {A} (l : list A) i n : take n (drop i l) ++ drop (i + n) l = drop i l.
Proof. rewrite <-drop_drop. apply take_drop. Qed.

(** The blocks are the buffer, cut every [bs] bytes. *)
Section cut.
Context (buf : list byte) (bs : Z).
Context (Hbs : 0 < bs) (Hlen : Z.of_nat (length buf) + bs < 2 ^ 32).

Lemma piece_eq b : 0 <= b -> b * bs <= Z.of_nat (length buf) ->
  piece buf bs b = take (Z.to_nat bs) (drop (Z.to_nat (b * bs)) buf).
Proof.
  intros Hb Hle. unfold piece. rewrite (wrap_small 32 (b * bs)), wrap_small by nia.
  destruct (Z.le_gt_cases (b * bs + bs) (Z.of_nat (length buf))).
  - rewrite Z.min_l by done. f_equal. lia.
  - rewrite Z.min_r by lia. rewrite !take_ge; [done|rewrite length_drop; lia|rewrite length_drop; lia].
Qed.

Lemma concat_pieces_from n : forall k,
  (Z.of_nat (k + n) - 1) * bs <= Z.of_nat (length buf) <= Z.of_nat (k + n) * bs -> (0 < n)%nat ->
  concat (map (fun b => piece buf bs (Z.of_nat b)) (seq k n)) = drop (Z.to_nat (Z.of_nat k * bs)) buf.
Proof.
  induction n as [|n IH]; intros k H Hn; [lia|]. cbn [seq map concat]. rewrite piece_eq by nia.
  destruct n as [|n].
  - cbn. rewrite app_nil_r, take_ge; [done|]. rewrite length_drop. nia.
  - rewrite IH; [|replace (S k + S n)%nat with (k + S (S n))%nat by lia; done|lia].
    replace (Z.to_nat (Z.of_nat (S k) * bs)) with (Z.to_nat (Z.of_nat k * bs) + Z.to_nat bs)%nat by nia.
    apply firstn_skipn_skipn.
Qed.

Lemma concat_pieces n :
  (n - 1) * bs <= Z.of_nat (length buf) <= n * bs -> 0 < n -> concat (pieces buf n bs) = buf.
Proof.
  intros H Hn. unfold pieces. rewrite concat_pieces_from; [done|cbn [Nat.add]; rewrite Z2Nat.id by lia; lia|lia].
Qed.

Lemma length_piece b : 0 <= b -> b * bs <= Z.of_nat (length buf) -> (length (piece buf bs b) <= Z.to_nat bs)%nat.
Proof. intros. rewrite piece_eq by done. rewrite length_take. lia. Qed.
End cut.

(** ** The numbers of blocks *)

(** As few blocks as possible, of a size as small as possible. *)
Definition block_count (s : FECBufferEncoder) (len : Z) : Z := ceil_div len (b_max_block_size s).
Definition block_length (s : FECBufferEncoder) (len : Z) : Z := ceil_div len (block_count s len).

Section numbers.
Context (s : FECBufferEncoder) (len : Z).
Context (Hlen : 0 < len) (Hmax : 0 < b_max_block_size s) (H32 : len + b_max_block_size s < 2 ^ 32).

Local Abbreviation mx := (b_max_block_size s).
Local Abbreviation n := (block_count s len).
Local Abbreviation bs := (block_length s len).

Lemma block_numbers :
  0 < n <= len /\ 0 < bs <= mx /\ bs <= len /\ (n - 1) * bs < len <= n * bs /\ (n = 1 <-> len <= mx).
Proof using Hlen Hmax H32.
  unfold block_length. pose proof (ceil_div_spec len mx Hmax) as Hn. fold n in Hn.
  assert (0 < n <= len) as Hn0 by nia. pose proof (ceil_div_spec len n ltac:(lia)) as Hb.
  generalize dependent (ceil_div len n). intros z Hb. assert (0 < z <= mx) by nia. repeat split; try lia; nia.
Qed.

Lemma to_unsigned_ceil (f : spec_float) z w : ceil_float f = Some z -> 0 <= z < 2 ^ w -> to_unsigned w f = Some z.
Proof using Type.
  intros E Hz. unfold to_unsigned. rewrite E. cbn [mbind option_bind].
  by rewrite (proj2 (Z.leb_le _ _)), (proj2 (Z.ltb_lt _ _)) by lia.
Qed.

(** The arithmetic of the code, in [double], is exact. *)
Lemma divide_spec : divide len mx = Some (n, bs).
Proof using Hlen Hmax H32.
  destruct block_numbers as (Hn & Hb & Hb2 & _). unfold divide.
  rewrite (to_unsigned_ceil _ n); [|by apply ceil_float_div; lia|lia]. cbn [mbind option_bind].
  rewrite (to_unsigned_ceil _ bs); [done|by apply ceil_float_div; lia|lia].
Qed.
End numbers.

(** A buffer that becomes a group: [n] blocks of at most [bs] bytes and [f]
    FEC packets. *)
Record fits (s : FECBufferEncoder) (len n bs : Z) (f : nat) : Prop := {
  fit_len : 0 < len /\ len + b_max_block_size s < 2 ^ 32;
  fit_n : n = block_count s len /\ n <= 128;
  fit_bs : bs = block_length s len;
  fit_fec : to_unsigned 8 (fmul (float_of_int n) (b_fec_ratio s)) = Some (Z.of_nat f);
  fit_f : (0 < f <= 128)%nat;
  fit_max : 2 <= b_max_block_size s /\ b_max_block_size s + 4 < 65536;
  fit_seq : 0 <= b_seq_num s < 256
}.

(** The state of the encoder, and the encoder that is left. *)
Definition buffer_start (s : FECBufferEncoder) (n f : Z) : FECEncoder :=
  MkFECEncoder (b_seq_num s) n f (b_max_block_size s) [] [].
Definition buffer_next (s : FECBufferEncoder) : FECBufferEncoder :=
  MkBufferEncoder (b_max_block_size s) (b_fec_ratio s) (next_seq (b_seq_num s)).

Section buffer.
Context (T : fec_state) (s : FECBufferEncoder) (buf : list byte).
Context (Hmax : 2 <= b_max_block_size s) (Hmax4 : b_max_block_size s + 4 < 65536).
Context (H32 : Z.of_nat (length buf) + b_max_block_size s < 2 ^ 32).

Local Abbreviation len := (Z.of_nat (length buf)).
Local Abbreviation mx := (b_max_block_size s).
Local Abbreviation n := (block_count s len).
Local Abbreviation bs := (block_length s len).
Local Abbreviation ps := (pieces buf n bs).

(** 0 / 0 is converted to an integer. *)
Lemma encode_empty : buf = [] -> encode_buffer T s buf = None.
Proof using Hmax Hmax4.
  clear H32. intros ->. unfold encode_buffer, divide. cbn [length Z.of_nat].
  destruct (double_of_pos mx ltac:(lia)) as (m & d & -> & _). done.
Qed.

Lemma encode_too_long : 255 < n -> encode_buffer T s buf = Some ([], s).
Proof using Hmax Hmax4 H32.
  intros Hn. unfold encode_buffer. destruct (decide (buf = [])) as [->|Hne].
  { exfalso. unfold block_count, ceil_div in Hn. cbn in Hn. rewrite Z.div_0_l in Hn by lia. lia. }
  assert (0 < len) by (clear -Hne; destruct buf; [done|cbn; lia]).
  rewrite divide_spec by lia. cbn [mbind option_bind]. by rewrite (proj2 (Z.ltb_lt _ _)).
Qed.

Context (Hne : buf <> []) (Hn : n <= 255).

Lemma buffer_numbers :
  0 < n <= len /\ 0 < bs <= mx /\ bs <= len /\ (n - 1) * bs < len <= n * bs /\ (n = 1 <-> len <= mx).
Proof using Hne Hmax H32. apply block_numbers; [clear -Hne; destruct buf; [done|cbn; lia]|lia|done]. Qed.

Lemma encode_buffer_layout :
  encode_buffer T s buf =
    (f ← to_unsigned 8 (fmul (float_of_int n) (b_fec_ratio s));
     e ← send_all (fec_init T) (buffer_start s n f) ps;
     out ← pull (S (n_output_blocks e)) e;
     Some (out, buffer_next s)).
Proof using Hmax Hmax4 H32 Hne Hn.
  destruct buffer_numbers as (Hn0 & Hb & Hb2 & Hcover & H1). unfold encode_buffer. rewrite divide_spec by lia.
  cbn [mbind option_bind]. rewrite (proj2 (Z.ltb_ge _ _)) by lia.
  assert ((if len <=? mx then (1, len) else (n, bs)) = (n, bs)) as ->.
  { destruct (Z.leb_spec len mx) as [Hle|]; [|done]. apply H1 in Hle as E. f_equal; [done|].
    rewrite E in Hcover. lia. }
  destruct (to_unsigned 8 _) as [f|]; [|done]. cbn [mbind option_bind FECEncoder_new]. by rewrite !wrap_small by (cbn; lia).
Qed.

Lemma pieces_spec :
  concat ps = buf /\ Z.of_nat (length ps) = n /\ (forall p, p ∈ ps -> plen p <= bs) /\
  exists p qs, ps = p :: qs /\ plen p = bs.
Proof using Hmax Hne H32.
  destruct buffer_numbers as (Hn0 & Hb & Hb2 & Hcover & _).
  split; [apply concat_pieces; lia|]. split; [unfold pieces; rewrite length_map, length_seq; lia|]. split.
  - unfold pieces. intros p Hp. apply list_elem_of_In, in_map_iff in Hp as (b & <- & Hbi). apply in_seq in Hbi.
    unfold plen. assert (length (piece buf bs (Z.of_nat b)) <= Z.to_nat bs)%nat; [|lia].
    apply length_piece; [lia|lia|lia|nia].
  - unfold pieces. replace (Z.to_nat n) with (S (Z.to_nat n - 1)) by lia. cbn [seq map].
    eexists _, _. split; [done|]. unfold plen. rewrite piece_eq by lia. rewrite Z.mul_0_l, drop_0, length_take. lia.
Qed.

(** The first block is too long for its memory. *)
Lemma encode_buffer_overflows : mx < bs + 2 -> encode_buffer T s buf = None.
Proof using Hmax Hmax4 H32 Hne Hn.
  intros Hover. rewrite encode_buffer_layout. destruct (to_unsigned 8 _) as [f|]; [|done]. cbn [mbind option_bind].
  destruct buffer_numbers as (_ & Hb & _). destruct pieces_spec as (_ & _ & _ & p & qs & -> & Hp).
  cbn [send_all]. by rewrite send_oversized by (cbn; lia).
Qed.

Context (Hfit : bs + 2 <= mx).

Lemma pieces_fit p : p ∈ ps -> plen p + 2 <= mx.
Proof using Hmax Hne H32 Hfit. destruct pieces_spec as (_ & _ & H & _). intros Hp. specialize (H p Hp). lia. Qed.

Lemma pull_outs e outs : FecEncoder.m_out_blocks e = outs -> pull (S (n_output_blocks e)) e = Some outs.
Proof using Type. clear. intros E. apply pull_all; [done|]. unfold n_output_blocks. rewrite E. lia. Qed.

Context (f : Z) (Hfec : to_unsigned 8 (fmul (float_of_int n) (b_fec_ratio s)) = Some f).
Context (Hseq : 0 <= b_seq_num s < 256).

Lemma fec_range : 0 <= f < 256.
Proof using Hfec.
  unfold to_unsigned in Hfec. destruct (ceil_float _) as [z|]; cbn [mbind option_bind] in Hfec; [|done].
  destruct ((0 <=? z) && (z <? 2 ^ 8)) eqn:E; [|done]. apply (inj Some) in Hfec as <-.
  apply andb_true_iff in E as [H1%Z.leb_le H2%Z.ltb_lt]. change (2 ^ 8) with 256 in H2. lia.
Qed.

Lemma buffer_start_ok : enc_ok (buffer_start s n f).
Proof using Hmax Hmax4 H32 Hne Hn Hfec Hseq.
  pose proof fec_range. destruct buffer_numbers as (? & _). split; cbn; (lia || by left).
Qed.

(** No FEC: every block is a packet of its own. *)
Lemma encode_buffer_plain : f = 0 ->
  exists out, encode_buffer T s buf = Some (out, buffer_next s) /\
    mapM wire out = Some (plain_wires n 0 mx (b_seq_num s) ps).
Proof using Hmax Hmax4 H32 Hne Hn Hfit Hfec Hseq.
  intros E0. pose proof buffer_start_ok as Hok. pose proof pieces_fit as Hp.
  rewrite encode_buffer_layout, Hfec. cbn [mbind option_bind]. rewrite E0 in Hok |- *.
  destruct (send_all_plain (fec_init T) n 0 mx ltac:(lia) ps (buffer_start s n 0)) as (e & outs & -> & _ & Eo & Ew).
  { split; try done. by left. }
  { exact Hp. }
  cbn [mbind option_bind]. rewrite (pull_outs e outs Eo). exists outs. by split.
Qed.

(** More than 128 data blocks: fec_encode leaves its table. *)
Lemma encode_buffer_too_many `{!GfTables (fec_init T)} : 0 < f -> 128 < n -> encode_buffer T s buf = None.
Proof using Hmax Hmax4 H32 Hne Hn Hfit Hfec Hseq.
  intros Hf Hn128. rewrite encode_buffer_layout, Hfec. cbn [mbind option_bind].
  destruct pieces_spec as (_ & Hl & _). pose proof pieces_fit as Hp.
  rewrite (send_all_too_many (fec_init T) (buffer_start s n f) ps buffer_start_ok); [done|done|cbn; lia..|done].
Qed.
End buffer.

(** The blocks leave room for their length field: they are one group. *)
Lemma encode_buffer_sends T `{!GfTables (fec_init T)} s buf n bs f :
  fits s (Z.of_nat (length buf)) n bs f -> bs + 2 <= b_max_block_size s ->
  exists out, encode_buffer T s buf = Some (out, buffer_next s) /\
    mapM wire out = Some (group_wires (b_seq_num s) f (pieces buf n bs)) /\
    group_ok (b_seq_num s) f (b_max_block_size s) (pieces buf n bs) /\
    concat (pieces buf n bs) = buf /\ Z.of_nat (length (pieces buf n bs)) = n /\
    forall p, p ∈ pieces buf n bs -> plen p <= bs.
Proof.
  intros [[Hlen H32] [-> Hn] -> Hfec Hff [Hm Hm4] Hsq] Hfit.
  assert (buf <> []) as Hne by (intros ->; cbn in Hlen; lia).
  rewrite (encode_buffer_layout T s buf Hm Hm4 H32 Hne ltac:(lia)), Hfec. cbn [mbind option_bind].
  destruct (pieces_spec s buf Hm H32 Hne) as (Hc & Hl & Hle & _). set (ps := pieces _ _ _) in *.
  destruct (buffer_numbers s buf Hm H32 Hne) as (Hn0 & _).
  assert (group_ok (b_seq_num s) f (b_max_block_size s) ps) as Hok.
  { split; try lia. intros p Hp. specialize (Hle p Hp). lia. }
  destruct (send_group (fec_init T) (buffer_start s (block_count s (Z.of_nat (length buf))) (Z.of_nat f)) ps f)
    as (e' & -> & _ & _ & _ & _ & _ & outs & Eo & Ew); try done.
  - split; cbn; (lia || by left).
  - cbn [mbind option_bind]. rewrite (pull_outs e' outs Eo). by exists outs.
Qed.

(** ** Properties *)

(** C39: encoding a buffer, by its length and the number of FEC packets that
    the ratio makes of its blocks. The buffer is divided into as few blocks as
    the maximum size allows, of equal size but for the last, which together are
    the buffer. An empty buffer is undefined behaviour (0 / 0 is converted to an
    integer), a buffer of more than 255 blocks gives nothing. If a block leaves
    no room for its length field the copy writes past it; otherwise the blocks
    are sent, as one group in the wire format or, without FEC packets, each on
    its own; more than 128 blocks with FEC, or a number of FEC packets that a
    byte does not hold, are undefined behaviour. The encoder moves on to the next
    sequence number. (More than 128 FEC packets are left out: the code computes
    them, but they cannot all be used, see FecCode.) *)
Theorem encode_buffer_group (s0 : fec_state) (s : FECBufferEncoder) (buf : list byte) :
  let len := Z.of_nat (length buf) in
  let mx := b_max_block_size s in
  let n := block_count s len in
  let bs := block_length s len in
  fec_reachable s0 -> 2 <= mx -> mx + 4 < 65536 -> 0 <= b_seq_num s < 256 -> len + mx < 2 ^ 32 ->
  (buf = [] -> encode_buffer s0 s buf = None) /\
  (255 < n -> encode_buffer s0 s buf = Some ([], s)) /\
  (buf <> [] -> n <= 255 -> mx < bs + 2 -> encode_buffer s0 s buf = None) /\
  (buf <> [] -> n <= 255 -> bs + 2 <= mx ->
     exists ps, concat ps = buf /\ Z.of_nat (length ps) = n /\ (forall p, p ∈ ps -> plen p <= bs) /\
     match to_unsigned 8 (fmul (float_of_int n) (b_fec_ratio s)) with
     | None => encode_buffer s0 s buf = None
     | Some f =>
         (f = 0 -> exists out, encode_buffer s0 s buf = Some (out, buffer_next s) /\
            mapM wire out = Some (plain_wires n 0 mx (b_seq_num s) ps)) /\
         (0 < f <= 128 -> n <= 128 -> exists out, encode_buffer s0 s buf = Some (out, buffer_next s) /\
            mapM wire out = Some (group_wires (b_seq_num s) (Z.to_nat f) ps)) /\
         (0 < f -> 128 < n -> encode_buffer s0 s buf = None)
     end).
Proof.
  intros len mx n bs Hs Hm Hm4 Hseq H32. pose proof (fec_init_tables s0 Hs) as HT.
  split; [by apply encode_empty|]. split; [by apply encode_too_long|]. split; [by apply encode_buffer_overflows|].
  intros Hne Hn Hfit. destruct (pieces_spec s buf Hm H32 Hne) as (Hc & Hl & Hle & _).
  exists (pieces buf n bs). split; [done|]. split; [done|]. split; [done|].
  destruct (to_unsigned 8 _) as [f|] eqn:Ef.
  - pose proof (fec_range s buf f Ef) as Hf. split; [by apply encode_buffer_plain|]. split.
    + intros [H0 H128] Hn128. destruct (encode_buffer_sends s0 s buf n bs (Z.to_nat f)) as (out & E & Ew & _).
      * split; try done; try lia; [|by rewrite Z2Nat.id by lia].
        split; [|done]. clear -Hne. destruct buf; [done|cbn; lia].
      * done.
      * by exists out.
    + by apply encode_buffer_too_many.
  - rewrite encode_buffer_layout by done. unfold n, len in Ef. by rewrite Ef.
Qed.

Definition demo_buffer_encoder : FECBufferEncoder := FECBufferEncoder_new 6 (S754_finite false 8388608 (-24)).
Definition demo_buffer : list byte := [x01; x02; x03; x04; x05; x06; x07].

Lemma encode_buffer_group_witness :
  (exists out ps, encode_buffer fec_static demo_buffer_encoder demo_buffer = Some (out, buffer_next demo_buffer_encoder) /\
     mapM wire out = Some (group_wires 1 1 ps) /\ concat ps = demo_buffer /\ Z.of_nat (length ps) = 2) /\
  encode_buffer fec_static demo_buffer_encoder [x01; x02; x03; x04; x05; x06] = None /\
  encode_buffer fec_static demo_buffer_encoder [] = None.
Proof.
  split; [|split].
  - destruct (encode_buffer_group fec_static demo_buffer_encoder demo_buffer reach_static) as (_ & _ & _ & H); try (cbn; lia).
    destruct H as (ps & Hc & Hl & _ & H); [done|vm_compute; discriminate..|].
    destruct H as (_ & H & _). destruct H as (out & E & Ew); [split; [reflexivity|discriminate]|vm_compute; discriminate|].
    exists out, ps. exact (conj E (conj Ew (conj Hc Hl))).
  - destruct (encode_buffer_group fec_static demo_buffer_encoder [x01; x02; x03; x04; x05; x06] reach_static)
      as (_ & _ & H & _); try (cbn; lia).
    apply H; [discriminate|vm_compute; discriminate|vm_compute; reflexivity].
  - destruct (encode_buffer_group fec_static demo_buffer_encoder [] reach_static) as (H & _); try (cbn; lia).
    by apply H.
Defined.
