(* ===== verification/SendThread.v ===== *)
(** * [raw_send_thread] and [raw_relay_thread] of src/src/raw_send_thread.cc

    The encoders are shared through the prototype messages of the links: a
    message refers to its encoder by an index into the store [encs]. What the
    thread reads from its surroundings while it transmits (clock, length of the
    queue other threads push to, answers of the kernel) is a record [env],
    indexed by the number of blocks transmitted in this round. [None] is an
    access outside a block, the send buffer or a table, or a null encoder. *)

From S2P Require Import Prelude Gf256 GfField FecBlock FecWire FecEncoder PlainEncoder FecLink.
From S2P Require Import RawSend RawReceive TransferStats.

Record WifiOptions := MkWifiOptions { link_type : LinkType; data_rate : Z }.

Record Message := MkMessage {
  msg : list byte;
  port : Z;
  ip_port : Z;
  priority : Z;
  opts : WifiOptions;
  enc : option nat
}.

(** The default constructor, and [copy]: the data under the header of a prototype. *)
Definition Message_empty : Message := MkMessage [] 0 0 0 (MkWifiOptions DATA_LINK 18) None.
Definition Message_copy (m : Message) (data : list byte) (ip : Z) : Message :=
  MkMessage data (port m) ip (priority m) (opts m) (enc m).

Record env := MkEnv {
  e_now : nat -> Z;                     (* cur_milliseconds() in send *)
  e_pad : nat -> byte;                  (* the byte of the header nobody sets *)
  e_kernel : nat -> list byte -> bool;  (* ::send(...) >= 0 *)
  e_backlog : nat -> nat;               (* outqueue.size() in the drop decision *)
  e_queued : nat -> nat;                (* outqueue.size() for the statistics *)
  e_elapsed : nat -> float;             (* the time spent on the block *)
  e_encode : float;                     (* the time spent encoding *)
  e_loop : float                        (* the time of the round *)
}.

Record send_state := MkSendState {
  encs : list FECEncoder;
  sock : RawSendSocket;
  stats : TransferStats
}.

(** The drop decision: an FEC block when the link does not keep up. *)
Definition drops (max_queue_size : Z) (backlog out : nat) (fec : bool) : bool :=
  fec && (max_queue_size <? Z.of_nat (backlog + out)).

(** The [for] loop over the blocks the encoder has finished. *)
Fixpoint transmit (fuel k : nat) (E : env) (max_queue_size : Z) (m : Message) (flush : bool)
    (e : FECEncoder) (s : RawSendSocket) (st : TransferStats)
  : option (list (list byte) * FECEncoder * RawSendSocket * TransferStats) :=
  match fuel, get_block e with
  | _, (None, e) => Some ([], e, s, st)
  | O, _ => None
  | S fuel, (Some block, e) =>
      fec ← is_fec_block block;
      let dropped := drops max_queue_size (e_backlog E k) (n_output_blocks e) fec in
      '(count, frame, s) ← (if dropped : bool then Some (0, None, s)
        else
          w ← wire block;
          '(_, frame, s) ← send s (e_now E k) (e_pad E k) (e_kernel E k) w (port m)
                             (link_type (opts m)) (data_rate (opts m));
          Some (pkt_length block, frame, s));
      st ← add_send_block (port m) (ip_port m) count dropped
             (wrap 32 (Z.of_nat (e_queued E k + n_output_blocks e))) flush (e_elapsed E k) st;
      '(frames, e, s, st) ← transmit fuel (S k) E max_queue_size m flush e s st;
      Some (option_list frame ++ frames, e, s, st)
  end.

(** What happens to the encoder before the loop. *)
Definition feed (T : fec_state) (e : FECEncoder) (data : list byte) : option FECEncoder :=
  match data with
  | [] => FecEncoder.flush T e
  | _ =>
      b ← get_next_block e (wrap 16 (plen data));
      b ← copy_to_data data b;
      add_block T e b
  end.

(** One round of the thread: the frames handed to the kernel, and the state. *)
Definition send_message (T : fec_state) (E : env) (max_queue_size : Z) (m : Message) (st : send_state)
  : option (list (list byte) * send_state) :=
  let flush := bool_decide (msg m = []) in
  match enc m with
  | None => if flush then Some ([], st) else None
  | Some i =>
      e ← encs st !! i;
      e ← feed T e (msg m);
      let ts := if flush then stats st else add_encode_time (e_encode E) (stats st) in
      '(frames, e, s, ts) ← transmit (S (n_output_blocks e)) 0 E max_queue_size m flush e (sock st) ts;
      Some (frames, MkSendState (<[i := e]> (encs st)) s (add_loop_time (e_loop E) ts))
  end.

(** The thread on the messages it pops until it is told to terminate, each
    round with its own surroundings: the frames of every round. *)
Fixpoint raw_send_thread (T : fec_state) (max_queue_size : Z) (ms : list (env * Message)) (st : send_state)
  : option (list (list (list byte)) * send_state) :=
  match ms with
  | [] => Some ([], st)
  | (E, m) :: ms =>
      '(fs, st) ← send_message T E max_queue_size m st;
      '(rounds, st) ← raw_send_thread T max_queue_size ms st;
      Some (fs :: rounds, st)
  end.

(** One round of the relay: a received message goes out again. *)
Definition relay_message (now : Z) (pad2 : byte) (kernel : list byte -> bool) (m : monitor_message)
    (s : RawSendSocket) : option (list (list byte) * RawSendSocket) :=
  match msg_data m with
  | [] => Some ([], s)
  | _ =>
      '(_, frame, s) ← send s now pad2 kernel (msg_data m) (msg_port m) (msg_link_type m) (msg_rate m);
      Some (option_list frame, s)
  end.

(** ** The frames of a round *)

(** The frame of a packet, whatever the socket's buffer held before. *)
Definition frame_of (s : RawSendSocket) (E : env) (k : nat) (m : Message) (w : list byte) : list byte :=
  rt_header s (e_pad E k) (data_rate (opts m))
  ++ sent_header s (link_type (opts m)) (port m) (e_now E k) ++ w.

(** Sockets that differ in the contents of their buffers only. *)
Definition same_socket (s s' : RawSendSocket) : Prop :=
  m_ground s' = m_ground s /\ m_mcs s' = m_mcs s /\ m_stbc s' = m_stbc s /\ m_ldpc s' = m_ldpc s /\
  m_mtu s' = m_mtu s /\ socket_ok s'.

Lemma frame_of_same s s' E k m w : same_socket s s' -> frame_of s' E k m w = frame_of s E k m w.
Proof.
  intros (H1 & H2 & H3 & H4 & _ & _). unfold frame_of, rt_header, mcs_flags, sent_header.
  by rewrite H1, H2, H3, H4.
Qed.

Lemma same_socket_refl s : socket_ok s -> same_socket s s.
Proof. by repeat split; apply H. Qed.

Lemma same_socket_trans s1 s2 s3 : same_socket s1 s2 -> same_socket s2 s3 -> same_socket s1 s3.
Proof.
  intros (H1 & H2 & H3 & H4 & H5 & _) (K1 & K2 & K3 & K4 & K5 & K6).
  split; [congruence|]. split; [congruence|]. split; [congruence|]. split; [congruence|].
  split; [congruence|done].
Qed.

(** [send] on a packet: the frame, unless the packet is too long. *)
Lemma send_frame s E k m w :
  socket_ok s ->
  exists r s', send s (e_now E k) (e_pad E k) (e_kernel E k) w (port m) (link_type (opts m)) (data_rate (opts m))
    = Some (r, if m_mtu s <? Z.of_nat (length w + length (ieee_header (link_type (opts m))))
               then None else Some (frame_of s E k m w), s') /\ same_socket s s'.
Proof.
  intros Hs. destruct (send_spec s (e_now E k) (e_pad E k) (e_kernel E k) w (port m)
    (link_type (opts m)) (data_rate (opts m)) Hs) as (s' & Es & Hl & Hm).
  assert (socket_ok s') as Hs' by (destruct Hs as [H1 H2]; split; [by rewrite Hm|by rewrite Hm, Hl]).
  destruct (m_mtu s <? _); (eexists _, s'; split; [exact Es|]);
    apply send_with_buf in Es as [b ->]; done.
Qed.

(** ** One link on its own

    The specification of the thread: what it does for one link depends on
    nothing but the messages of that link and their surroundings. *)

(** The frames of the finished blocks [bs]: the ones that are neither dropped
    nor refused for their length. *)
Fixpoint link_frames (k : nat) (E : env) (max_queue_size : Z) (m : Message) (s : RawSendSocket)
    (bs : list FECBlock) : option (list (list byte)) :=
  match bs with
  | [] => Some []
  | b :: bs =>
      fec ← is_fec_block b;
      fr ← (if drops max_queue_size (e_backlog E k) (length bs) fec then Some []
            else w ← wire b;
                 Some (if m_mtu s <? Z.of_nat (length w + length (ieee_header (link_type (opts m))))
                       then [] else [frame_of s E k m w]));
      frs ← link_frames (S k) E max_queue_size m s bs;
      Some (fr ++ frs)
  end.

Definition link_round (T : fec_state) (E : env) (max_queue_size : Z) (s : RawSendSocket) (m : Message)
    (e : FECEncoder) : option (list (list byte) * FECEncoder) :=
  e ← feed T e (msg m);
  frames ← link_frames 0 E max_queue_size m s (m_out_blocks e);
  Some (frames, set_out e []).

Fixpoint link_run (T : fec_state) (max_queue_size : Z) (s : RawSendSocket) (ms : list (env * Message))
    (e : FECEncoder) : option (list (list (list byte)) * FECEncoder) :=
  match ms with
  | [] => Some ([], e)
  | (E, m) :: ms =>
      '(fs, e) ← link_round T E max_queue_size s m e;
      '(rounds, e) ← link_run T max_queue_size s ms e;
      Some (fs :: rounds, e)
  end.

Lemma link_frames_same k E mq m s s' bs :
  same_socket s s' -> link_frames k E mq m s' bs = link_frames k E mq m s bs.
Proof.
  intros Hs. revert k. induction bs as [|b bs IH]; intros k; cbn [link_frames]; [done|].
  rewrite IH. destruct Hs as (H1 & H2 & H3 & H4 & H5 & H6). rewrite H5.
  destruct (is_fec_block b) as [fec|]; [|done]. cbn [mbind option_bind].
  destruct (drops _ _ _ _); [done|]. destruct (wire b) as [w|]; [|done]. cbn [mbind option_bind].
  by rewrite (frame_of_same s).
Qed.

Lemma link_run_same T mq s s' ms e :
  same_socket s s' -> link_run T mq s' ms e = link_run T mq s ms e.
Proof.
  intros Hs. revert e. induction ms as [|[E m] ms IH]; intros e; [done|]. cbn [link_run]. unfold link_round.
  destruct (feed T e (msg m)) as [e1|]; [|done]. cbn [mbind option_bind]. rewrite (link_frames_same _ _ _ _ s) by done.
  destruct (link_frames _ _ _ _ _ _); [|done]. cbn [mbind option_bind]. by rewrite IH.
Qed.

(** A radio port the statistics have room for. *)
Definition port_ok (m : Message) : Prop := 0 <= port m < RAW_SOCKET_NPORTS.

Lemma add_send_block_total p ip nb ie qs fl t st :
  length (m_port_blocks st) = Z.to_nat RAW_SOCKET_NPORTS -> 0 <= p < RAW_SOCKET_NPORTS ->
  exists st', add_send_block p ip nb ie qs fl t st = Some st' /\ length (m_port_blocks st') = Z.to_nat RAW_SOCKET_NPORTS.
Proof.
  intros Hl Hp. unfold add_send_block. destruct (count_port_Some p _ Hl Hp) as (l & -> & Hl' & _).
  cbn [mbind option_bind]. eexists. split; [done|]. cbn. by rewrite Hl', Hl.
Qed.

Lemma transmit_spec fuel k E mq m fl e s st :
  (length (m_out_blocks e) < fuel)%nat -> socket_ok s -> port_ok m ->
  length (m_port_blocks st) = Z.to_nat RAW_SOCKET_NPORTS ->
  exists s' st', same_socket s s' /\ length (m_port_blocks st') = Z.to_nat RAW_SOCKET_NPORTS /\
    transmit fuel k E mq m fl e s st
      = frames ← link_frames k E mq m s (m_out_blocks e); Some (frames, set_out e [], s', st').
Proof.
  intros Hf. revert k e s st Hf. induction fuel as [|fuel IH]; intros k e s st Hf Hs Hp Hl; [lia|].
  cbn [transmit]. unfold get_block. destruct (m_out_blocks e) as [|b bs] eqn:Eo.
  { exists s, st. split; [by apply same_socket_refl|]. split; [done|]. cbn. by rewrite <-Eo; destruct e. }
  cbn [link_frames]. destruct (is_fec_block b) as [fec|]; cbn [mbind option_bind].
  2: { exists s, st. split; [by apply same_socket_refl|done]. }
  unfold n_output_blocks. cbn [m_out_blocks set_out].
  set (d := drops _ _ _ _). cbn [length] in Hf.
  assert (forall cnt fr s1, same_socket s s1 -> exists s' st', same_socket s s' /\
    length (m_port_blocks st') = Z.to_nat RAW_SOCKET_NPORTS /\
    (st ← add_send_block (port m) (ip_port m) cnt d (wrap 32 (Z.of_nat (e_queued E k + length bs))) fl (e_elapsed E k) st;
     '(frames, e, s, st) ← transmit fuel (S k) E mq m fl (set_out e bs) s1 st;
     Some (option_list fr ++ frames, e, s, st))
    = (frs ← link_frames (S k) E mq m s bs; Some (option_list fr ++ frs, set_out e [], s', st'))) as Hgo.
  { intros cnt fr s1 Hs1.
    destruct (add_send_block_total (port m) (ip_port m) cnt d
      (wrap 32 (Z.of_nat (e_queued E k + length bs))) fl (e_elapsed E k) st Hl Hp) as (st1 & -> & Hl1).
    cbn [mbind option_bind]. destruct (IH (S k) (set_out e bs) s1 st1) as (s' & st' & Hs' & Hl' & ->);
      [cbn; lia|apply Hs1|done|done|]. exists s', st'. split; [by eapply same_socket_trans|]. split; [done|].
    rewrite (link_frames_same _ _ _ _ s) by done. cbn [m_out_blocks set_out].
    by destruct (link_frames _ _ _ _ _ bs). }
  destruct d eqn:Ed.
  - cbn [mbind option_bind]. destruct (Hgo 0 None s) as (s' & st' & H1 & H2 & ->); [by apply same_socket_refl|].
    exists s', st'. split; [done|]. split; [done|]. by destruct (link_frames _ _ _ _ _ bs).
  - destruct (wire b) as [w|]; cbn [mbind option_bind].
    2: { exists s, st. split; [by apply same_socket_refl|done]. }
    destruct (send_frame s E k m w Hs) as (r & s1 & -> & Hs1). cbn [mbind option_bind].
    destruct (m_mtu s <? _).
    + destruct (Hgo (pkt_length b) None s1 Hs1) as (s' & st' & H1 & H2 & ->). exists s', st'.
      split; [done|]. split; [done|]. by destruct (link_frames _ _ _ _ _ bs).
    + destruct (Hgo (pkt_length b) (Some (frame_of s E k m w)) s1 Hs1) as (s' & st' & H1 & H2 & ->). exists s', st'.
      split; [done|]. split; [done|]. by destruct (link_frames _ _ _ _ _ bs).
Qed.

(** ** Any interleaving of links *)

Definition link_msgs (i : nat) (ms : list (env * Message)) : list (env * Message) :=
  filter (fun em => enc em.2 = Some i) ms.

Fixpoint link_rounds (i : nat) (ms : list (env * Message)) (rounds : list (list (list byte)))
  : list (list (list byte)) :=
  match ms, rounds with
  | (_, m) :: ms, fs :: rounds =>
      if decide (enc m = Some i) then fs :: link_rounds i ms rounds else link_rounds i ms rounds
  | _, _ => []
  end.

(** A message of one of [n] links, or the empty message that ends the thread. *)
Definition valid (n : nat) (m : Message) : Prop :=
  match enc m with
  | Some i => (i < n)%nat /\ port_ok m
  | None => msg m = []
  end.

Record send_state_ok (st : send_state) : Prop := {
  st_sock : socket_ok (sock st);
  st_ports : length (m_port_blocks (stats st)) = Z.to_nat RAW_SOCKET_NPORTS
}.

(** A round does to the encoder of its link what the link does on its own. *)
Lemma send_message_spec T E mq m st :
  send_state_ok st -> valid (length (encs st)) m ->
  match enc m with
  | None => send_message T E mq m st = Some ([], st)
  | Some i => exists e, encs st !! i = Some e /\
      exists s' ts, same_socket (sock st) s' /\ length (m_port_blocks ts) = Z.to_nat RAW_SOCKET_NPORTS /\
      send_message T E mq m st = ('(frames, e) ← link_round T E mq (sock st) m e;
                                  Some (frames, MkSendState (<[i := e]> (encs st)) s' ts))
  end.
Proof.
  intros [Hs Hl] Hv. unfold valid in Hv. unfold send_message. destruct (enc m) as [i|].
  - destruct Hv as [Hi Hp]. destruct (lookup_lt_is_Some_2 _ _ Hi) as [e He]. exists e. split; [done|].
    rewrite He. cbn [mbind option_bind]. unfold link_round.
    destruct (feed T e (msg m)) as [e1|]; cbn [mbind option_bind].
    2: { exists (sock st), (stats st). split; [by apply same_socket_refl|done]. }
    set (ts := if bool_decide (msg m = []) then stats st else _).
    assert (length (m_port_blocks ts) = Z.to_nat RAW_SOCKET_NPORTS) as Hts by (unfold ts; by destruct (bool_decide _)).
    destruct (transmit_spec (S (n_output_blocks e1)) 0 E mq m (bool_decide (msg m = [])) e1 (sock st) ts)
      as (s' & ts' & Hs' & Hl' & ->); [unfold n_output_blocks; lia|done|done|done|].
    exists s', (add_loop_time (e_loop E) ts'). split; [done|]. split; [done|].
    by destruct (link_frames _ _ _ _ _ _).
  - by rewrite Hv.
Qed.

Lemma send_thread_links T mq n ms : forall st,
  send_state_ok st -> length (encs st) = n -> Forall (fun em => valid n em.2) ms ->
  (forall i e, encs st !! i = Some e -> is_Some (link_run T mq (sock st) (link_msgs i ms) e)) ->
  exists rounds st', raw_send_thread T mq ms st = Some (rounds, st') /\ send_state_ok st' /\
    length rounds = length ms /\ same_socket (sock st) (sock st') /\
    forall i e, encs st !! i = Some e -> exists e',
      link_run T mq (sock st) (link_msgs i ms) e = Some (link_rounds i ms rounds, e') /\
      encs st' !! i = Some e'.
Proof.
  induction ms as [|[E m] ms IH]; intros st Hst Hn Hv Hrun.
  { exists [], st. cbn. split; [done|]. split; [done|]. split; [done|].
    split; [apply same_socket_refl, Hst|]. eauto. }
  apply Forall_cons in Hv as [Hv Hvs]. cbn in Hv. rewrite <-Hn in Hv.
  pose proof (send_message_spec T E mq m st Hst Hv) as Hm. cbn [raw_send_thread].
  destruct (enc m) as [i|] eqn:Em.
  - destruct Hm as (e & He & s' & ts & Hs' & Hts & ->).
    pose proof (Hrun i e He) as Hi. unfold link_msgs in Hi. rewrite filter_cons_True in Hi by done.
    cbn [link_run] in Hi. destruct (link_round T E mq (sock st) m e) as [[fs e1]|] eqn:Er; cbn [mbind option_bind] in *.
    2: { by destruct Hi. }
    set (st1 := MkSendState (<[i := e1]> (encs st)) s' ts).
    destruct (IH st1) as (rounds & st' & E' & Hok & Hlen & Hss & Hl).
    + split; [apply Hs'|done].
    + cbn. by rewrite length_insert.
    + done.
    + intros i2 e2 H2. cbn [sock st1]. rewrite (link_run_same _ _ (sock st)) by done.
      cbn [encs st1] in H2. destruct (decide (i2 = i)) as [->|Hne].
      * rewrite list_lookup_insert_eq in H2 by (by eapply lookup_lt_Some). injection H2 as <-.
        fold (link_msgs i ms) in Hi. destruct (link_run T mq (sock st) (link_msgs i ms) e1) as [[? ?]|]; [done|].
        by destruct Hi.
      * rewrite list_lookup_insert_ne in H2 by done. specialize (Hrun i2 e2 H2).
        unfold link_msgs in Hrun. rewrite filter_cons_False in Hrun by (cbn; congruence). done.
    + exists (fs :: rounds), st'. rewrite E'. split; [done|]. split; [done|]. split; [cbn; lia|].
      split; [by eapply same_socket_trans|]. intros i2 e2 H2. cbn [link_rounds]. rewrite Em.
      unfold link_msgs. destruct (decide (i2 = i)) as [->|Hne].
      * rewrite filter_cons_True by done. rewrite decide_True by done. rewrite He in H2. injection H2 as <-.
        destruct (Hl i e1) as (e' & Hr & He'); [cbn; by rewrite list_lookup_insert_eq by (by eapply lookup_lt_Some)|].
        cbn [sock st1] in Hr. rewrite (link_run_same _ _ (sock st)) in Hr by done. exists e'. split; [|done].
        cbn [link_run]. rewrite Er. cbn [mbind option_bind]. fold (link_msgs i ms). by rewrite Hr.
      * rewrite filter_cons_False by (cbn; congruence). rewrite decide_False by congruence.
        destruct (Hl i2 e2) as (e' & Hr & He'); [cbn; by rewrite list_lookup_insert_ne by done|].
        cbn [sock st1] in Hr. rewrite (link_run_same _ _ (sock st)) in Hr by done. by exists e'.
  - rewrite Hm. cbn [mbind option_bind].
    assert (forall i, link_msgs i ((E, m) :: ms) = link_msgs i ms) as Hf.
    { intros i. unfold link_msgs. by rewrite filter_cons_False by (cbn; congruence). }
    destruct (IH st) as (rounds & st' & -> & Hok & Hlen & Hss & Hl); [done..| |].
    { intros i e He. rewrite <-Hf. by apply Hrun. }
    exists ([] :: rounds), st'. split; [done|]. split; [done|]. split; [cbn; lia|]. split; [done|].
    intros i e He. rewrite Hf. cbn [link_rounds]. rewrite Em, decide_False by done. by apply Hl.
Qed.

(** ** A link that keeps up transmits the wire format *)

Lemma header_of_app m m' h : header_of m = Some h -> header_of (m ++ m') = Some h.
Proof. do 6 (destruct m as [|? m]; [done|]). done. Qed.

(** A block whose packet starts with a header. *)
Lemma is_fec_block_wire b w h :
  wire b = Some w -> header_of w = Some h -> is_fec_block b = Some (negb (h_block h <? h_n_blocks h)).
Proof.
  unfold wire. destruct (_ <=? _)%nat; [|done]. intros E Hh. apply (inj Some) in E.
  unfold is_fec_block, is_data_block, header. unfold pkt_data in E.
  rewrite <-(take_drop (Z.to_nat (pkt_length b)) (m_data b)), E.
  by rewrite (header_of_app _ _ h).
Qed.

(** The frames that carry the packets [ws] of the link of [m], in order. *)
Definition carried (s : RawSendSocket) (m : Message) (frames ws : list (list byte)) : Prop :=
  Forall2 (fun fr w => exists E k, fr = frame_of s E k m w) frames ws.

(** The queue is never long enough for a packet to be dropped. *)
Definition keeps_up (mq : Z) (n : nat) (E : env) : Prop := forall k, Z.of_nat (e_backlog E k + n) <= mq.

(** A packet of the encoder that fits the MTU with the longest 802.11 header. *)
Definition packet_ok (s : RawSendSocket) (w : list byte) : Prop :=
  is_Some (header_of w) /\ Z.of_nat (length w + 24) <= m_mtu s.

Lemma link_frames_carried k E mq m s bs ws :
  mapM wire bs = Some ws -> Forall (packet_ok s) ws -> keeps_up mq (length bs) E ->
  exists frs, link_frames k E mq m s bs = Some frs /\ carried s m frs ws.
Proof.
  revert k ws. induction bs as [|b bs IH]; intros k ws Hw Hok Hq; cbn [mapM] in Hw.
  { injection Hw as <-. exists []. split; [done|constructor]. }
  ostep Hw as w eqn Eb.
  destruct (mapM wire bs) as [ws'|] eqn:Ebs; cbn [mbind option_bind] in Hw; [|done].
  injection Hw as <-. apply Forall_cons in Hok as [[[h Hh] Hlen] Hok]. cbn [link_frames].
  rewrite (is_fec_block_wire _ _ _ Eb Hh). cbn [mbind option_bind].
  assert (forall fec, drops mq (e_backlog E k) (length bs) fec = false) as ->.
  { intros fec. unfold drops. specialize (Hq k). cbn [length] in Hq.
    rewrite (proj2 (Z.ltb_ge _ _)) by lia. apply andb_false_r. }
  rewrite Eb. cbn [mbind option_bind].
  assert (length (ieee_header (link_type (opts m))) <= 24)%nat by (rewrite length_ieee_header; destruct (link_type _); lia).
  rewrite (proj2 (Z.ltb_ge _ _)) by lia.
  destruct (IH (S k) ws') as (frs & -> & Hc); [done..| |].
  { intros k'. specialize (Hq k'). cbn [length] in Hq. lia. }
  eexists. split; [done|]. apply Forall2_cons_2; eauto.
Qed.

Lemma header_of_length_Some w : (6 <= length w)%nat -> is_Some (header_of w).
Proof. apply header_of_Some. Qed.

Lemma length_group_wire sq f mx ps w :
  group_ok sq f mx ps -> w ∈ group_wires sq f ps -> (length w = group_size ps + 4)%nat.
Proof.
  intros Hg. unfold group_wires. intros Hw. destruct (ok_size _ _ _ _ Hg) as [Hs _].
  apply elem_of_app in Hw as [Hw|Hw].
  - apply list_elem_of_lookup in Hw as [i Hi]. rewrite list_lookup_imap in Hi.
    destruct (ps !! i) as [p|] eqn:Hp; [|done]. injection Hi as <-.
    rewrite data_wire_split, length_app, length_fec_src; [simpl; lia|].
    apply group_size_ge. by eapply list_elem_of_lookup_2.
  - rewrite list_elem_of_In, in_map_iff in Hw. destruct Hw as (j & <- & _).
    unfold fec_wire. rewrite length_app, length_fec_bytes. simpl. lia.
Qed.

(** A message of the link: its surroundings, its IP port and its data. *)
Definition item : Type := env * Z * list byte.
Definition item_data (it : item) : list byte := it.2.

(** A message without data is a flush. *)
Definition event_of (data : list byte) : event := match data with [] => None | _ => Some data end.
Definition item_event (it : item) : event := event_of (item_data it).

Lemma feed_event T e data : plen data < 65536 -> feed T e data = encode_event T e (event_of data).
Proof.
  intros Hl. unfold feed, encode_event, event_of, FecEncoder.send. destruct data as [|b p]; [done|].
  rewrite wrap_small; [done|]. change (2 ^ 16) with 65536. unfold plen in *. lia.
Qed.

Lemma event_fits_len mx it : mx < 65536 -> event_fits mx (item_event it) -> plen (item_data it) < 65536.
Proof.
  unfold event_fits, item_event, event_of, fits. destruct (item_data it) as [|b q]; [done|].
  intros Hmx H. specialize (H _ eq_refl). lia.
Qed.

Lemma keeps_up_le mq n n' E : (n' <= n)%nat -> keeps_up mq n E -> keeps_up mq n' E.
Proof. intros Hn H k. specialize (H k). lia. Qed.

Lemma mapM_length {A B} (g : A -> option B) l k : mapM g l = Some k -> length k = length l.
Proof. intros E. apply mapM_Some in E. symmetry. by eapply Forall2_length. Qed.

Section link.
Context (T : fec_state) `{!GfTables T} (mq : Z) (s : RawSendSocket) (m0 : Message).
Context (nb f : nat) (mx : Z).
Context (Hnb : (0 < nb <= 128)%nat) (Hf : (0 < f <= 128)%nat) (Hmx : mx + 28 <= m_mtu s) (Hmtu : m_mtu s < 65536).

Definition item_msg (it : item) : env * Message := (it.1.1, Message_copy m0 it.2 it.1.2).

Definition item_ok (it : item) : Prop := keeps_up mq (nb + f) it.1.1 /\ event_fits mx (item_event it).

Lemma group_packets_ok sq its :
  group_ok sq f mx its -> Forall (packet_ok s) (group_wires sq f its).
Proof.
  intros Hg. apply Forall_forall. intros w Hw. apply length_group_wire with (mx := mx) in Hw; [|done].
  destruct (ok_size _ _ _ _ Hg). split; [apply header_of_Some|]; lia.
Qed.

(** What one event puts on the air: at most one group. *)
Lemma event_packets sq ps ev :
  (0 <= sq < 256) -> (length ps < nb)%nat -> Forall (group_fits nb mx) (cut_event nb ps ev).1 ->
  let ws := stream_wires sq f (cut_event nb ps ev).1 in
  Forall (packet_ok s) ws /\ (length ws <= nb + f)%nat.
Proof.
  intros Hs Hl Hg. cbn zeta.
  assert ((cut_event nb ps ev).1 = [] \/ exists g, (cut_event nb ps ev).1 = [g] /\ (length g <= nb)%nat) as H.
  { destruct ev as [p|]; cbn [cut_event]; [destruct (Nat.eqb_spec (length ps + 1) nb)|destruct ps as [|q qs]]; cbn [fst].
    - right. exists (ps ++ [p]). rewrite length_app. simpl. split; [done|lia].
    - by left.
    - by left.
    - right. exists (q :: qs). split; [done|lia]. }
  destruct H as [->|(g & E & Hlg)]; [split; [constructor|cbn; lia]|]. rewrite E in *.
  cbn [stream_wires]. rewrite app_nil_r, length_group_wires. split; [|lia].
  apply Forall_cons in Hg as [Hg _]. apply group_packets_ok. apply (group_fits_ok nb); done || lia.
Qed.

(** One message of a link that keeps up: the group it ends goes on the air. *)
Lemma link_round_event e ps it :
  filling nb f mx ps e -> m_out_blocks e = [] -> item_ok it ->
  exists frs e', link_round T it.1.1 mq s (item_msg it).2 e = Some (frs, e') /\
    carried s m0 frs (stream_wires (m_seq_num e) f (cut_event nb ps (item_event it)).1) /\
    filling nb f mx (cut_event nb ps (item_event it)).2 e' /\ m_out_blocks e' = [] /\
    m_seq_num e' = seq_after (length (cut_event nb ps (item_event it)).1) (m_seq_num e).
Proof.
  intros He Ho [Hq Hfit]. pose proof (enc_ok_ranges _ (fill_ok _ _ _ _ _ He)) as (Hs & _).
  destruct (encode_event_spec T nb f mx Hnb Hf ltac:(lia) e ps (item_event it) He Hfit)
    as (e1 & E1 & He1 & Hem & Hg).
  destruct (event_packets (m_seq_num e) ps (item_event it) Hs (fill_len _ _ _ _ _ He) Hg) as [Hok Hlen].
  destruct Hem as (Hseq & outs & Eo & Ew). rewrite Ho in Eo. cbn [app] in Eo. rewrite <-Eo in Ew.
  unfold link_round. change (msg (item_msg it).2) with (item_data it).
  rewrite feed_event by (eapply event_fits_len; [|exact Hfit]; lia). fold (item_event it). rewrite E1. cbn [mbind option_bind].
  destruct (link_frames_carried 0 it.1.1 mq (item_msg it).2 s (m_out_blocks e1) _ Ew Hok) as (frs & Ef & Hc).
  { apply mapM_length in Ew. rewrite <-Ew. by eapply keeps_up_le. }
  rewrite Ef. cbn [mbind option_bind].
  exists frs, (set_out e1 []). split; [done|]. split; [exact Hc|].
  destruct He1 as [[H1 H2 H3 H4 H5] K1 K2 K3 K4 K5 K6]. split; [|done]. by split; [split|..].
Qed.

(** Any messages of a link that keeps up. *)
Lemma link_stream its : forall e ps,
  filling nb f mx ps e -> m_out_blocks e = [] -> Forall item_ok its ->
  exists rounds e', link_run T mq s (map item_msg its) e = Some (rounds, e') /\
    carried s m0 (concat rounds) (stream_wires (m_seq_num e) f (cut nb ps (item_event <$> its)).1) /\
    filling nb f mx (cut nb ps (item_event <$> its)).2 e' /\ m_out_blocks e' = [].
Proof.
  induction its as [|it its IH]; intros e ps He Ho Hits.
  { exists [], e. split; [done|]. split; [constructor|done]. }
  apply Forall_cons in Hits as [Hit Hits]. cbn [map link_run fmap list_fmap cut].
  destruct (link_round_event e ps it He Ho Hit) as (frs & e1 & E1 & Hc1 & He1 & Ho1 & Hs1).
  unfold item_msg at 1. change (Message_copy m0 it.2 it.1.2) with (item_msg it).2. rewrite E1.
  cbn [mbind option_bind]. destruct (cut_event nb ps (item_event it)) as [g ps1]. cbn [fst snd] in *.
  destruct (IH e1 ps1 He1 Ho1 Hits) as (r2 & e2 & E2 & Hc2 & He2 & Ho2). rewrite E2. cbn [mbind option_bind].
  change (list_fmap item event item_event its) with (item_event <$> its).
  destruct (cut nb ps1 (item_event <$> its)) as [gs ps2]. cbn [fst snd] in *.
  exists (frs :: r2), e2. split; [done|]. split; [|done].
  cbn [concat]. rewrite stream_wires_app, <-Hs1. by apply Forall2_app.
Qed.
End link.

(** ** Congestion *)

(** A packet whose index is below the number of data blocks that it announces. *)
Definition protected (w : list byte) : bool :=
  match header_of w with Some h => h_block h <? h_n_blocks h | None => false end.

(** What the drop decision leaves of the packets of a round, when [backlog i]
    messages wait while packet [i] is handled. *)
Fixpoint survivors (mq : Z) (backlog : nat -> nat) (k : nat) (ws : list (list byte)) : list (list byte) :=
  match ws with
  | [] => []
  | w :: ws =>
      let rest := survivors mq backlog (S k) ws in
      if protected w || (Z.of_nat (backlog k + length ws) <=? mq) then w :: rest else rest
  end.

Lemma drops_spec mq E k (ws : list (list byte)) w :
  drops mq (e_backlog E k) (length ws) (negb (protected w))
  = negb (protected w || (Z.of_nat (e_backlog E k + length ws) <=? mq)).
Proof. unfold drops. rewrite negb_orb. f_equal. apply Z.ltb_antisym. Qed.

Lemma link_frames_congested E mq m s bs : forall k ws,
  mapM wire bs = Some ws -> Forall (packet_ok s) ws ->
  exists frs, link_frames k E mq m s bs = Some frs /\ carried s m frs (survivors mq (e_backlog E) k ws).
Proof.
  induction bs as [|b bs IH]; intros k ws Hw Hok; cbn [mapM] in Hw.
  { injection Hw as <-. exists []. split; [done|]. constructor. }
  ostep Hw as w eqn Eb.
  ostep Hw as ws1 eqn Ebs.
  injection Hw as <-. apply Forall_cons in Hok as [[[h Hh] Hlen] Hok]. cbn [link_frames survivors].
  rewrite (is_fec_block_wire _ _ _ Eb Hh). cbn [mbind option_bind].
  destruct (IH (S k) ws1) as (frs & -> & Hc); [done..|].
  replace (h_block h <? h_n_blocks h) with (protected w) by (unfold protected; by rewrite Hh).
  rewrite <-(mapM_length _ _ _ Ebs), drops_spec.
  destruct (_ || _); cbn [negb]; [|cbn [mbind option_bind app]; by exists frs].
  rewrite Eb. cbn [mbind option_bind].
  assert (length (ieee_header (link_type (opts m))) <= 24)%nat by (rewrite length_ieee_header; destruct (link_type _); lia).
  rewrite (proj2 (Z.ltb_ge _ _)) by lia. eexists. split; [done|]. apply Forall2_cons_2; eauto.
Qed.

Lemma packet_headers s ws : Forall (packet_ok s) ws -> Forall (fun w => is_Some (header_of w)) ws.
Proof. intros H. eapply Forall_impl; [exact H|]. by intros w [Hw _]. Qed.

(** Every packet is counted, and every dropped one as an injection error. *)
Lemma transmit_counts E mq m fl fuel : forall k e s st r ws,
  transmit fuel k E mq m fl e s st = Some r ->
  mapM wire (m_out_blocks e) = Some ws -> Forall (fun w => is_Some (header_of w)) ws ->
  wrap 32 (m_send_blocks (m_counts r.2)) = wrap 32 (m_send_blocks (m_counts st) + Z.of_nat (length ws)) /\
  wrap 32 (m_inject_errors (m_counts r.2) + Z.of_nat (length (survivors mq (e_backlog E) k ws)))
    = wrap 32 (m_inject_errors (m_counts st) + Z.of_nat (length ws)).
Proof.
  induction fuel as [|fuel IH]; intros k e s st r ws; cbn [transmit];
    unfold get_block; destruct (m_out_blocks e) as [|b bs]; cbn [mapM]; try done.
  1, 2: by intros [= <-] [= <-] _; cbn; rewrite !Z.add_0_r.
  intros Et Hw Hok. ostep Hw as w eqn Eb. ostep Hw as ws1 eqn Ebs.
  injection Hw as <-. apply Forall_cons in Hok as [[h Hh] Hok].
  rewrite (is_fec_block_wire _ _ _ Eb Hh) in Et. cbn [mbind option_bind] in Et.
  replace (h_block h <? h_n_blocks h) with (protected w) in Et by (unfold protected; by rewrite Hh).
  unfold n_output_blocks in Et. cbn [m_out_blocks set_out] in Et.
  rewrite <-(mapM_length _ _ _ Ebs), drops_spec in Et. cbn [survivors].
  ostep Et as r1 eqn Er. destruct r1 as [[cnt fr] s1]. ostep Et as st1 eqn Es. ostep Et as r2 eqn E2.
  destruct (IH _ _ _ _ _ ws1 E2) as [H1 H2]; [done..|]. destruct r2 as [[[frs e2] s2] st2].
  injection Et as <-. cbn [fst snd] in *. unfold add_send_block in Es. ostep Es as ports eqn Ep. injection Es as <-.
  cbn [m_counts m_send_blocks m_inject_errors] in H1, H2. rewrite wrap_add_l in H1, H2.
  split; [rewrite H1; cbn [length]; f_equal; lia|].
  destruct (_ || _); cbn [negb length] in *.
  - rewrite Z.add_0_r in H2. rewrite !Nat2Z.inj_succ, <-!Z.add_1_r, !Z.add_assoc, <-(wrap_add_l 32 (_ + _) 1), H2, wrap_add_l.
    done.
  - rewrite H2. f_equal. lia.
Qed.

Lemma survivors_sublist mq backlog ws : forall k, survivors mq backlog k ws `sublist_of` ws.
Proof. induction ws as [|w ws IH]; intros k; cbn [survivors]; [constructor|]. destruct (_ || _); by constructor. Qed.

(** Protected packets stay. *)
Lemma survivors_protected mq backlog l r : forall k,
  Forall (fun w => protected w = true) l -> survivors mq backlog k (l ++ r) = l ++ survivors mq backlog (k + length l) r.
Proof.
  induction l as [|w l IH]; intros k H; cbn [app survivors length]; [by rewrite Nat.add_0_r|].
  apply Forall_cons in H as [-> H]. cbn [orb]. rewrite IH by done. by rewrite Nat.add_succ_r.
Qed.

(** The others are lost as soon as more messages wait than the maximum, *)
Lemma survivors_lost mq backlog ws : forall k,
  Forall (fun w => protected w = false) ws -> (forall i, mq < Z.of_nat (backlog i)) -> survivors mq backlog k ws = [].
Proof.
  induction ws as [|w ws IH]; intros k H Hb; cbn [survivors]; [done|]. apply Forall_cons in H as [-> H].
  rewrite (proj2 (Z.leb_gt _ _)) by (specialize (Hb k); lia). by apply IH.
Qed.

(** and none is lost if the maximum is never exceeded. *)
Lemma survivors_all mq backlog ws : forall k,
  (forall i, Z.of_nat (backlog i + length ws) <= mq) -> survivors mq backlog k ws = ws.
Proof.
  induction ws as [|w ws IH]; intros k H; cbn [survivors]; [done|]. pose proof (H k) as Hk. cbn [length] in Hk.
  rewrite (proj2 (Z.leb_le _ _)), orb_true_r by lia. f_equal. apply IH. intros i. specialize (H i). cbn [length] in H. lia.
Qed.

(** Which packets are protected: the data packets of a link with FEC, *)
Lemma data_wires_protected sq f mx ps :
  group_ok sq f mx ps -> Forall (fun w => protected w = true) (imap (data_wire sq (length ps) f (group_size ps)) ps).
Proof.
  intros [H1 H2 H3 H4 H5]. apply Forall_lookup. intros i w. rewrite list_lookup_imap.
  destruct (ps !! i) as [p|] eqn:Ep; [|done]. intros [= <-]. unfold protected, data_wire.
  pose proof (lookup_lt_Some _ _ _ Ep). pose proof (H5 p ltac:(by eapply list_elem_of_lookup_2)).
  rewrite header_of_bytes by (unfold data_header; repeat split; cbn; unfold plen in *; lia).
  unfold data_header. cbn. apply Z.ltb_lt. lia.
Qed.

(** and not its FEC packets; *)
Lemma fec_wires_unprotected sq f mx ps :
  group_ok sq f mx ps -> Forall (fun w => protected w = false) (map (fec_wire sq f (group_size ps) ps) (seq 0 f)).
Proof.
  intros Hg. pose proof Hg as [H1 H2 H3 H4 H5]. apply Forall_forall. intros w Hw.
  apply list_elem_of_In, in_map_iff in Hw as (j & <- & Hj). apply in_seq in Hj. unfold protected.
  assert (6 <= length (fec_wire sq f (group_size ps) ps j))%nat as Hl.
  { unfold fec_wire. rewrite length_app, length_fec_bytes. cbn. destruct (ok_size _ _ _ _ Hg). lia. }
  destruct (header_of_Some _ Hl) as [h Eh]. rewrite Eh. unfold fec_wire in Eh. cbn [app] in Eh.
  destruct (fec_bytes (group_size ps) ps j) as [|x [|y bs]]; [done..|]. cbn [header_of] in Eh. injection Eh as <-.
  cbn [h_block h_n_blocks]. rewrite !u8_byte_of_small by lia. apply Z.ltb_ge. lia.
Qed.

(** without FEC it depends on the number of data blocks. *)
Lemma plain_wires_protected n f mx ps : forall sq,
  0 <= n < 256 -> 0 <= f < 256 -> 0 <= sq < 256 -> (forall p, p ∈ ps -> plen p < 65536) ->
  Forall (fun w => protected w = (0 <? n)) (plain_wires n f mx sq ps).
Proof.
  induction ps as [|p ps IH]; intros sq Hn Hf Hs Hps; cbn [plain_wires]; constructor.
  - unfold protected, plain_wire. pose proof (Hps p ltac:(left)).
    rewrite header_of_bytes by (repeat split; cbn; unfold plen in *; lia). done.
  - apply IH; try done; [pose proof (next_seq_range _ Hs); lia|]. intros q Hq. apply Hps. by right.
Qed.

(** ** Properties *)

(** C7: the transmit thread treats every link as if it were alone. Whatever
    the order in which the messages of the links are popped, the rounds of a
    link hand the kernel the frames, and leave its encoder in the state, that
    the link's own messages give ([link_run]): links share nothing but the
    socket, whose buffer has no influence on later frames. The thread does not
    fail where none of the links does on its own. *)
Theorem send_thread_refines_links (T : fec_state) (mq : Z) (ms : list (env * Message)) (st : send_state) :
  send_state_ok st -> Forall (fun em => valid (length (encs st)) em.2) ms ->
  (forall i e, encs st !! i = Some e -> is_Some (link_run T mq (sock st) (link_msgs i ms) e)) ->
  exists rounds st', raw_send_thread T mq ms st = Some (rounds, st') /\ length rounds = length ms /\
    send_state_ok st' /\
    forall i e, encs st !! i = Some e -> exists e',
      link_run T mq (sock st) (link_msgs i ms) e = Some (link_rounds i ms rounds, e') /\
      encs st' !! i = Some e'.
Proof.
  intros Hst Hv Hr. destruct (send_thread_links T mq (length (encs st)) ms st Hst eq_refl Hv Hr)
    as (rounds & st' & E & Hok & Hl & _ & H). exists rounds, st'. by split.
Qed.

(** Two links without FEC and the message that ends the thread. *)
Definition quiet : env :=
  MkEnv (fun _ => 7) (fun _ => x00) (fun _ _ => true) (fun _ => 0%nat) (fun _ => 0%nat)
    (fun _ => float_zero) float_zero float_zero.
Definition demo_sender : send_state :=
  MkSendState [MkFECEncoder 1 0 0 100 [] []; MkFECEncoder 1 0 0 100 [] []]
    (RawSendSocket_new true 130 3) (TransferStats_new "ground").
Definition demo_proto (i : nat) : Message :=
  MkMessage [] (Z.of_nat i) (5600 + Z.of_nat i) 100 (MkWifiOptions DATA_LINK 2) (Some i).

Definition demo_traffic : list (env * Message) :=
  [(quiet, Message_copy (demo_proto 1) [x05] 5601); (quiet, Message_copy (demo_proto 0) [x06] 5600);
   (quiet, Message_empty)].

Lemma send_thread_refines_links_witness :
  exists rounds st', raw_send_thread fec_static 200 demo_traffic demo_sender = Some (rounds, st') /\
    length rounds = length demo_traffic /\ send_state_ok st' /\
    forall i e, encs demo_sender !! i = Some e -> exists e',
      link_run fec_static 200 (sock demo_sender) (link_msgs i demo_traffic) e
        = Some (link_rounds i demo_traffic rounds, e') /\
      encs st' !! i = Some e'.
Proof.
  apply (send_thread_refines_links fec_static 200 demo_traffic demo_sender).
  - split; [split; [cbn; lia|reflexivity]|reflexivity].
  - repeat (apply Forall_cons; split); try apply Forall_nil; unfold valid, port_ok, RAW_SOCKET_NPORTS; cbn; lia || done.
  - intros [|[|i]] e He; [..|done]; injection He as <-; eexists; vm_compute; reflexivity.
Defined.

(** C35: what a link loses under congestion. Whatever the backlog, the loop
    drains the encoder and hands the kernel, in order and correctly framed,
    every packet except those whose index is not below the number of data blocks
    that they announce, while more messages wait than the maximum; every packet
    is counted as sent, the dropped ones also as injection errors. So a link with
    FEC sends all the data packets of a group and loses FEC packets only, all of
    them if the backlog stays above the maximum; a link without FEC that is
    configured with data blocks loses nothing; but a link without data blocks
    (the default) has no protected packet, and loses all its data while the
    backlog stays above the maximum. Nothing is lost if the maximum is never
    exceeded. *)
Theorem congestion_drops (k : nat) (E : env) (mq : Z) (m : Message) (flush : bool)
    (e : FECEncoder) (s : RawSendSocket) (st : TransferStats) (ws : list (list byte)) :
  socket_ok s -> port_ok m -> length (m_port_blocks st) = Z.to_nat RAW_SOCKET_NPORTS ->
  mapM wire (m_out_blocks e) = Some ws -> Forall (packet_ok s) ws ->
  let sent := survivors mq (e_backlog E) k ws in
  let stuck := forall i, mq < Z.of_nat (e_backlog E i) in
  (exists frames s' st',
    transmit (S (n_output_blocks e)) k E mq m flush e s st = Some (frames, set_out e [], s', st') /\
    carried s m frames sent /\ sent `sublist_of` ws /\
    wrap 32 (m_send_blocks (m_counts st')) = wrap 32 (m_send_blocks (m_counts st) + Z.of_nat (length ws)) /\
    wrap 32 (m_inject_errors (m_counts st') + Z.of_nat (length sent))
      = wrap 32 (m_inject_errors (m_counts st) + Z.of_nat (length ws))) /\
  (forall sq f mx ps, group_ok sq f mx ps -> ws = group_wires sq f ps ->
    let data := imap (data_wire sq (length ps) f (group_size ps)) ps in
    (exists fec, sent = data ++ fec /\ fec `sublist_of` map (fec_wire sq f (group_size ps) ps) (seq 0 f)) /\
    (stuck -> sent = data)) /\
  (forall n f mx sq ps, 0 <= n < 256 -> 0 <= f < 256 -> 0 <= sq < 256 -> (forall p, p ∈ ps -> plen p < 65536) ->
    ws = plain_wires n f mx sq ps -> (0 < n -> sent = ws) /\ (n = 0 -> stuck -> sent = [])) /\
  (keeps_up mq (length ws) E -> sent = ws).
Proof.
  intros Hs Hp Hl Hw Hok sent stuck. split; [|split; [|split]].
  - destruct (transmit_spec (S (length (m_out_blocks e))) k E mq m flush e s st) as (s' & st' & _ & _ & Et); [lia|done..|].
    destruct (link_frames_congested E mq m s _ k ws Hw Hok) as (frs & Ef & Hc).
    rewrite Ef in Et. cbn [mbind option_bind] in Et. exists frs, s', st'. split; [exact Et|]. split; [exact Hc|].
    split; [apply survivors_sublist|]. by apply (transmit_counts _ _ _ _ _ _ _ _ _ _ _ Et Hw), (packet_headers s).
  - intros sq f mx ps Hg ->. unfold sent, group_wires. cbn zeta.
    rewrite survivors_protected by (by eapply data_wires_protected). split.
    + eexists. split; [done|apply survivors_sublist].
    + intros H. rewrite survivors_lost; [apply app_nil_r|by eapply fec_wires_unprotected|done].
  - intros n f mx sq ps Hn Hf Hsq Hps ->. pose proof (plain_wires_protected n f mx ps sq Hn Hf Hsq Hps) as H. split.
    + intros Hpos. rewrite (proj2 (Z.ltb_lt 0 n)) in H by done. unfold sent.
      rewrite <-(app_nil_r (plain_wires _ _ _ _ _)) at 1. rewrite survivors_protected by done. apply app_nil_r.
    + intros -> Hst. by apply survivors_lost.
  - intros H. by apply survivors_all.
Qed.

(** A backlog of 300 with a maximum of 200: a group with an FEC packet, and two
    packets of a link without data blocks. *)
Definition busy : env :=
  MkEnv (fun _ => 7) (fun _ => x00) (fun _ _ => true) (fun _ => 300%nat) (fun _ => 300%nat)
    (fun _ => float_zero) float_zero float_zero.
Definition demo_wires (with_fec : bool) : list (list byte) :=
  if with_fec then group_wires 1 1 [[xaa]; [xbb; xcc]] else plain_wires 0 0 100 1 [[xaa]; [xbb; xcc]].
Definition demo_full (with_fec : bool) : FECEncoder :=
  MkFECEncoder 2 2 1 100 [] (map (fun w => MkFECBlock w (plen w)) (demo_wires with_fec)).

Lemma congestion_drops_witness :
  (exists a b, survivors 200 (fun _ => 300%nat) 0 (demo_wires true) = [a; b] /\
    [a; b] = imap (data_wire 1 2 1 4) [[xaa]; [xbb; xcc]]) /\
  survivors 200 (fun _ => 300%nat) 0 (demo_wires false) = [] /\
  (exists s' st', transmit 4 0 busy 200 (demo_proto 0) false (demo_full false) (RawSendSocket_new true 130 3) (TransferStats_new "ground")
    = Some ([], set_out (demo_full false) [], s', st')).
Proof.
  assert (forall b, socket_ok (RawSendSocket_new true 130 3) /\ port_ok (demo_proto 0) /\
    mapM wire (m_out_blocks (demo_full b)) = Some (demo_wires b) /\
    Forall (packet_ok (RawSendSocket_new true 130 3)) (demo_wires b)) as H.
  { intros b. split; [split; [cbn; lia|reflexivity]|]. split; [unfold port_ok, RAW_SOCKET_NPORTS; cbn; lia|].
    destruct b; (split; [vm_compute; reflexivity|]); apply Forall_forall; intros w Hw;
      repeat (apply elem_of_cons in Hw as [->|Hw];
        [split; [eexists; vm_compute; reflexivity|apply Z.leb_le; vm_compute; reflexivity]|]);
      by apply elem_of_nil in Hw. }
  destruct (H true) as (A1 & A2 & A3 & A4). destruct (H false) as (B1 & B2 & B3 & B4).
  destruct (congestion_drops 0 busy 200 (demo_proto 0) false (demo_full true) (RawSendSocket_new true 130 3)
    (TransferStats_new "ground") (demo_wires true) A1 A2 eq_refl A3 A4) as (_ & Hgroup & _).
  destruct (congestion_drops 0 busy 200 (demo_proto 0) false (demo_full false) (RawSendSocket_new true 130 3)
    (TransferStats_new "ground") (demo_wires false) B1 B2 eq_refl B3 B4) as ((frames & s' & st' & Et & Hc & _) & _ & Hplain & _).
  assert (survivors 200 (fun _ => 300%nat) 0 (demo_wires false) = []) as E0.
  { destruct (Hplain 0 0 100 1 [[xaa]; [xbb; xcc]]) as [_ Hlost]; [lia..| |reflexivity|].
    - intros p Hp. repeat (apply elem_of_cons in Hp as [->|Hp]; [reflexivity|]). by apply elem_of_nil in Hp.
    - apply Hlost; [reflexivity|]. intros i. reflexivity. }
  split; [|split; [exact E0|]].
  - destruct (Hgroup 1 1%nat 98 [[xaa]; [xbb; xcc]]) as [_ Hstuck]; [|reflexivity|].
    + split; cbn; try lia. intros p Hp. repeat (apply elem_of_cons in Hp as [->|Hp]; [unfold plen; cbn; lia|]). by apply elem_of_nil in Hp.
    + eexists _, _. split; [apply Hstuck; intros i; cbn; lia|reflexivity].
  - cbn [e_backlog busy] in Hc. rewrite E0 in Hc. apply Forall2_nil_inv_r in Hc as ->. exists s', st'. exact Et.
Defined.
