(* ===== verification/DecodeThread.v ===== *)
(** * [fec_decode_thread] of src/src/udp_send.cc

    One decoder per radio port. A message the receiver has queued is added to
    the decoder of its port, whatever the decoder releases is put in the output
    queue, and the statistics are brought up to date. [None] is an access
    outside a packet or a block. *)

From S2P Require Import Prelude Gf256 GfField FecBlock FecWire FecDecoder FecLink.
From S2P Require Import RawSend RawReceive TransferStats.

Record decode_state := MkDecodeState {
  decoders : list FECDecoder;
  prev_dec_stats : list FECDecoderStats;
  dec_stats : TransferStats
}.

(** The vectors of the thread; every decoder's constructor runs [fec_init]. *)
Definition decode_state_new (T : fec_state) (stats : TransferStats) : fec_state * decode_state :=
  (fec_init T, MkDecodeState (replicate (Z.to_nat RAW_SOCKET_NPORTS) (FECDecoder_new T).2)
                 (replicate (Z.to_nat RAW_SOCKET_NPORTS) stats_zero) stats).

(** The [for] loop over the released blocks: the packets pushed. *)
Fixpoint drain (fuel : nat) (d : FECDecoder) : option (list (list byte) * FECDecoder) :=
  match fuel, get_block d with
  | _, (None, d) => Some ([], d)
  | O, _ => None
  | S fuel, (Some block, d) =>
      len ← data_length block;
      pkt ← (if 0 <? len then p ← payload block; Some [p] else Some []);
      '(pkts, d) ← drain fuel d;
      Some (pkt ++ pkts, d)
  end.

(** The statistics of the message itself. The latency of a frame without the
    clock byte (short and RTS links) is the one the message was created with, which
    nobody initialised (see [monitor_message_new]). *)
Definition note_signal (m : monitor_message) (s : TransferStats) : TransferStats :=
  if (0 <? plen (msg_data m)) && (-100 <? msg_rssi m)
  then add_latency (msg_latency_ms m) (add_rssi (msg_rssi m) s) else s.

(** One round: the packets pushed, and the state. *)
Definition decode_message (T : fec_state) (m : monitor_message) (st : decode_state)
  : option (list (list byte) * decode_state) :=
  let ts := note_signal m (dec_stats st) in
  if RAW_SOCKET_NPORTS <=? msg_port m then Some ([], MkDecodeState (decoders st) (prev_dec_stats st) ts)
  else
    let p := Z.to_nat (msg_port m) in
    dec ← decoders st !! p;
    dec ← add_block T dec (msg_data m) (wrap 16 (plen (msg_data m)));
    '(pkts, dec) ← drain (S (length (m_out_blocks dec))) dec;
    prev ← prev_dec_stats st !! p;
    Some (pkts, MkDecodeState (<[p := dec]> (decoders st)) (<[p := m_stats dec]> (prev_dec_stats st))
                  (TransferStats.add (m_stats dec) prev ts)).

(** The thread on the messages it pops: the packets of every round. *)
Fixpoint fec_decode_thread (T : fec_state) (ms : list monitor_message) (st : decode_state)
  : option (list (list (list byte)) * decode_state) :=
  match ms with
  | [] => Some ([], st)
  | m :: ms =>
      '(pkts, st) ← decode_message T m st;
      '(rounds, st) ← fec_decode_thread T ms st;
      Some (pkts :: rounds, st)
  end.

(** ** One port on its own *)

(** The packets that leave: the payloads that are not empty. *)
Definition nonempty (ps : list (list byte)) : list (list byte) := filter (fun p => p <> []) ps.

Definition set_released (d : FECDecoder) : FECDecoder :=
  MkFECDecoder (m_block_size d) (m_prev_header d) (FecDecoder.m_blocks d) (m_fec_blocks d) [] (m_stats d).

(** What a port does with a packet: the packets released. *)
Definition port_round (T : fec_state) (data : list byte) (d : FECDecoder)
  : option (list (list byte) * FECDecoder) :=
  d ← add_block T d data (wrap 16 (plen data));
  ps ← mapM payload (m_out_blocks d);
  Some (nonempty ps, set_released d).

Fixpoint port_run (T : fec_state) (datas : list (list byte)) (d : FECDecoder)
  : option (list (list (list byte)) * FECDecoder) :=
  match datas with
  | [] => Some ([], d)
  | data :: datas =>
      '(pkts, d) ← port_round T data d;
      '(rounds, d) ← port_run T datas d;
      Some (pkts :: rounds, d)
  end.

(** Blocks whose data is all there, as released ones must be. *)
Lemma payload_length b p : payload b = Some p -> exists l, data_length b = Some l /\ 0 <= l /\ length p = Z.to_nat l.
Proof.
  unfold payload. destruct (data_length b) as [l|] eqn:E; [|done]. cbn [mbind option_bind].
  destruct (Nat.leb_spec (Z.to_nat l) (length (FecBlock.data b))); [|done]. intros [= <-]. exists l.
  split; [done|]. rewrite length_take. split; [|lia].
  unfold data_length, header in E. destruct (header_of (m_data b)) as [h|] eqn:Eh; [|done].
  injection E as <-. apply header_of_split in Eh as [(_ & _ & _ & _ & ?) _]. lia.
Qed.

Lemma drain_spec fuel d ps :
  (length (m_out_blocks d) <= fuel)%nat -> mapM payload (m_out_blocks d) = Some ps ->
  drain fuel d = Some (nonempty ps, set_released d).
Proof.
  revert d ps. induction fuel as [|fuel IH]; intros d ps Hf Hp; cbn [drain]; unfold get_block;
    destruct (m_out_blocks d) as [|b out] eqn:Eo; try (simpl in Hf; lia).
  1, 2: cbn in Hp; injection Hp as <-; unfold set_released; rewrite <-Eo; by destruct d.
  cbn [mapM] in Hp. ostep Hp as p eqn Ep.
  destruct (mapM payload out) as [ps'|] eqn:Eps; cbn [mbind option_bind] in Hp; [|done].
  injection Hp as <-. destruct (payload_length b p Ep) as (l & -> & Hl & Hlen). cbn [mbind option_bind].
  rewrite (IH (MkFECDecoder (m_block_size d) (m_prev_header d) (FecDecoder.m_blocks d) (m_fec_blocks d) out (m_stats d)) ps')
    by (done || (simpl in *; lia)).
  unfold nonempty. destruct (Z.ltb_spec 0 l) as [H0|H0].
  - cbn [mbind option_bind]. rewrite filter_cons_True; [done|]. intros ->. simpl in Hlen. lia.
  - cbn [mbind option_bind app]. rewrite filter_cons_False; [done|]. destruct p; [naive_solver|simpl in Hlen; lia].
Qed.

Definition port_datas (p : nat) (ms : list monitor_message) : list (list byte) :=
  msg_data <$> filter (fun m => msg_port m = Z.of_nat p) ms.

Fixpoint port_rounds (p : nat) (ms : list monitor_message) (rounds : list (list (list byte)))
  : list (list (list byte)) :=
  match ms, rounds with
  | m :: ms, r :: rounds =>
      if decide (msg_port m = Z.of_nat p) then r :: port_rounds p ms rounds else port_rounds p ms rounds
  | _, _ => []
  end.

(** ** The counters follow the decoders *)

(** The statistics hold, modulo 2^32, the sums of the decoders' counters. *)
Record counted (st : decode_state) : Prop := {
  cnt_prev : prev_dec_stats st = m_stats <$> decoders st;
  cnt_seq : wrap 32 (zsum (total_blocks <$> prev_dec_stats st)) = m_seq (m_counts (dec_stats st));
  cnt_blocks : wrap 32 (zsum (total_packets <$> prev_dec_stats st)) = TransferStats.m_blocks (m_counts (dec_stats st));
  cnt_bytes : wrap 32 (zsum (FecDecoder.bytes <$> prev_dec_stats st)) = m_bytes (m_counts (dec_stats st));
  cnt_errors : wrap 32 (zsum (dropped_packets <$> prev_dec_stats st)) = m_block_errors (m_counts (dec_stats st));
  cnt_seq_errors : wrap 32 (zsum (dropped_blocks <$> prev_dec_stats st)) = m_seq_errors (m_counts (dec_stats st))
}.

Lemma accumulate_sum (g : FECDecoderStats -> Z) (l : list FECDecoderStats) i old new m :
  l !! i = Some old -> wrap 32 (zsum (g <$> l)) = m ->
  wrap 32 (zsum (g <$> <[i := new]> l)) = accumulate m (g new) (g old).
Proof.
  intros Hi <-. rewrite accumulate_eq, wrap_add_l, list_fmap_insert.
  rewrite (zsum_insert _ _ (g old)) by (by rewrite list_lookup_fmap, Hi). f_equal. lia.
Qed.

Lemma note_signal_counts m s : m_counts (note_signal m s) = m_counts s.
Proof. unfold note_signal. by destruct (_ && _). Qed.

Lemma decode_message_counted T m st pkts st' :
  counted st -> decode_message T m st = Some (pkts, st') -> counted st'.
Proof.
  intros [Hp H1 H2 H3 H4 H5] E. unfold decode_message in E. destruct (_ <=? _).
  { apply (inj Some) in E as [= _ <-]. split; cbn [decoders prev_dec_stats dec_stats]; rewrite ?note_signal_counts; done. }
  ostep E as dec eqn Ed.
  destruct (add_block _ _ _ _) as [dec1|]; cbn [mbind option_bind] in E; [|done].
  destruct (drain _ _) as [[ps dec2]|]; cbn [mbind option_bind] in E; [|done].
  ostep E as prev eqn Ep.
  apply (inj Some) in E as [= _ <-].
  split; cbn [decoders prev_dec_stats dec_stats TransferStats.add on_counts m_counts add_counts
              m_seq TransferStats.m_blocks m_bytes m_block_errors m_seq_errors];
    rewrite ?note_signal_counts; try (by apply accumulate_sum).
  by rewrite Hp, list_fmap_insert.
Qed.

Lemma zsum_replicate n : zsum (replicate n 0) = 0.
Proof. induction n as [|n IH]; [done|]. cbn [replicate]. by rewrite zsum_cons, IH. Qed.

Lemma decode_state_new_counted T name : counted (decode_state_new T (TransferStats_new name)).2.
Proof. unfold decode_state_new, FECDecoder_new. generalize (fec_init T). intros T'. split; try done. Qed.

(** ** Any interleaving of ports *)

Definition shape (st : decode_state) : Prop :=
  length (decoders st) = Z.to_nat RAW_SOCKET_NPORTS /\ prev_dec_stats st = m_stats <$> decoders st.

(** A message for port [p] does to its decoder what the port does on its own. *)
Lemma decode_message_spec T m st d pkts d' :
  shape st -> 0 <= msg_port m < RAW_SOCKET_NPORTS -> decoders st !! Z.to_nat (msg_port m) = Some d ->
  port_round T (msg_data m) d = Some (pkts, d') ->
  exists ts, decode_message T m st =
    Some (pkts, MkDecodeState (<[Z.to_nat (msg_port m) := d']> (decoders st))
                  (<[Z.to_nat (msg_port m) := m_stats d']> (prev_dec_stats st)) ts).
Proof.
  intros [Hl Hp] Hport Hd Hr. unfold decode_message. rewrite (proj2 (Z.leb_gt _ _)) by lia. rewrite Hd.
  cbn [mbind option_bind]. unfold port_round in Hr.
  destruct (add_block T d (msg_data m) _) as [d1|]; cbn [mbind option_bind] in *; [|done].
  ostep Hr as ps eqn Eps.
  injection Hr as <- <-. rewrite (drain_spec _ _ ps) by (done || lia). cbn [mbind option_bind].
  rewrite Hp, list_lookup_fmap, Hd. cbn [fmap option_fmap option_map mbind option_bind]. eauto.
Qed.

Lemma decode_message_other T m st :
  RAW_SOCKET_NPORTS <= msg_port m ->
  decode_message T m st = Some ([], MkDecodeState (decoders st) (prev_dec_stats st) (note_signal m (dec_stats st))).
Proof. intros H. unfold decode_message. by rewrite (proj2 (Z.leb_le _ _)). Qed.

Lemma decode_thread_ports T ms : forall st,
  shape st -> Forall (fun m => 0 <= msg_port m) ms ->
  (forall p d, decoders st !! p = Some d -> is_Some (port_run T (port_datas p ms) d)) ->
  exists rounds st', fec_decode_thread T ms st = Some (rounds, st') /\ shape st' /\
    length rounds = length ms /\
    forall p d, decoders st !! p = Some d -> exists d',
      port_run T (port_datas p ms) d = Some (port_rounds p ms rounds, d') /\ decoders st' !! p = Some d'.
Proof.
  induction ms as [|m ms IH]; intros st Hst Hms Hrun.
  { exists [], st. split; [done|]. split; [done|]. split; [done|]. cbn. eauto. }
  apply Forall_cons in Hms as [Hm Hms]. cbn [fec_decode_thread].
  assert (forall p, msg_port m <> Z.of_nat p -> port_datas p (m :: ms) = port_datas p ms) as Hother.
  { intros p Hp. unfold port_datas. by rewrite filter_cons_False. }
  destruct (decide (msg_port m < RAW_SOCKET_NPORTS)) as [Hlt|Hge].
  - set (i := Z.to_nat (msg_port m)) in *.
    assert (msg_port m = Z.of_nat i) as Hi by (unfold i; lia).
    assert (port_datas i (m :: ms) = msg_data m :: port_datas i ms) as Hsame
      by (unfold port_datas; by rewrite filter_cons_True).
    destruct (lookup_lt_is_Some_2 (decoders st) i) as [d Hd]; [destruct Hst as [-> _]; lia|].
    pose proof (Hrun i d Hd) as Hrd. rewrite Hsame in Hrd. cbn [port_run] in Hrd.
    destruct (port_round T (msg_data m) d) as [[pkts d1]|] eqn:Er; cbn [mbind option_bind] in Hrd; [|by destruct Hrd].
    destruct (decode_message_spec T m st d pkts d1 Hst (conj Hm Hlt) Hd Er) as (ts & ->).
    cbn [mbind option_bind]. fold i. set (st1 := MkDecodeState _ _ ts).
    assert (forall p d2, decoders st1 !! p = Some d2 -> is_Some (port_run T (port_datas p ms) d2)) as Hrun1.
    { intros p d2 H2. cbn [decoders st1] in H2. destruct (decide (p = i)) as [->|Hne].
      - rewrite list_lookup_insert_eq in H2 by (by eapply lookup_lt_Some). injection H2 as <-.
        destruct (port_run T (port_datas i ms) d1) as [[? ?]|]; [done|by destruct Hrd].
      - rewrite list_lookup_insert_ne in H2 by done. specialize (Hrun p d2 H2). rewrite Hother in Hrun; [done|lia]. }
    destruct (IH st1) as (rounds & st' & -> & Hst' & Hlen & Hl); [|done|done|].
    { destruct Hst as [H1 H2]. split; cbn; [by rewrite length_insert|by rewrite H2, list_fmap_insert]. }
    exists (pkts :: rounds), st'. split; [done|]. split; [done|]. split; [cbn; lia|].
    intros p d2 H2. cbn [port_rounds]. destruct (decide (p = i)) as [->|Hne].
    + rewrite Hsame, decide_True by done. rewrite Hd in H2. injection H2 as <-. cbn [port_run]. rewrite Er.
      cbn [mbind option_bind]. destruct (Hl i d1) as (d' & -> & Hd');
        [cbn; by rewrite list_lookup_insert_eq by (by eapply lookup_lt_Some)|]. by exists d'.
    + rewrite Hother, decide_False by lia. apply Hl. cbn. by rewrite list_lookup_insert_ne.
  - rewrite decode_message_other by lia. cbn [mbind option_bind].
    assert (forall p d, decoders st !! p = Some d -> msg_port m <> Z.of_nat p) as Hno.
    { intros p d Hd. apply lookup_lt_Some in Hd. destruct Hst as [Hl _]. rewrite Hl in Hd. lia. }
    destruct (IH (MkDecodeState (decoders st) (prev_dec_stats st) (note_signal m (dec_stats st))))
      as (rounds & st' & -> & Hst' & Hlen & Hl); [done|done| |].
    { intros p d Hd. rewrite <-Hother by (by eapply Hno). by apply Hrun. }
    exists ([] :: rounds), st'. split; [done|]. split; [done|]. split; [cbn; lia|].
    intros p d Hd. cbn [port_rounds]. rewrite Hother, decide_False by (by eapply Hno). by apply Hl.
Qed.

(** ** A port on its own and the decoder of [FecLink] *)

(** Packets of the 16-bit length the decoder is given. *)
Lemma port_run_receive T datas : forall d d' ps,
  Forall (fun w => plen w < 65536) datas -> m_out_blocks d = [] ->
  receive_all T d datas = Some d' -> mapM payload (m_out_blocks d') = Some ps ->
  exists rounds d2, port_run T datas d = Some (rounds, d2) /\ concat rounds = nonempty ps /\
    m_out_blocks d2 = [].
Proof.
  induction datas as [|w ws IH]; intros d d' ps Hw Ho Hr Hp.
  { injection Hr as <-. rewrite Ho in Hp. injection Hp as <-. exists [], d. done. }
  apply Forall_cons in Hw as [Hl Hw]. cbn [receive_all] in Hr. unfold FecDecoder.receive in Hr.
  ostep Hr as d1 eqn E1.
  assert (d1 = prepend_out (m_out_blocks d1) (set_released d1)) as Ed1
    by (unfold prepend_out; cbn; rewrite app_nil_r; by destruct d1).
  rewrite Ed1, receive_all_prepend in Hr.
  destruct (receive_all T (set_released d1) ws) as [d2|] eqn:E2; [|done].
  cbn [fmap option_fmap option_map] in Hr. injection Hr as <-. unfold prepend_out in Hp.
  cbn [m_out_blocks] in Hp.
  assert (exists p1 p2, mapM payload (m_out_blocks d1) = Some p1 /\ mapM payload (m_out_blocks d2) = Some p2 /\
    ps = p1 ++ p2) as (p1 & p2 & Hp1 & Hp2 & ->).
  { apply mapM_Some, Forall2_app_inv_l in Hp as (p1 & p2 & H1 & H2 & ->). exists p1, p2.
    by rewrite !mapM_Some. }
  destruct (IH (set_released d1) d2 p2) as (rounds & d3 & E3 & Hc & Ho3); [done..|].
  exists (nonempty p1 :: rounds), d3. cbn [port_run]. unfold port_round. unfold plen in *.
  rewrite wrap_small by (change (2 ^ 16) with 65536; lia). rewrite E1. cbn [mbind option_bind].
  rewrite Hp1. cbn [mbind option_bind]. rewrite E3. split; [done|]. split; [|done].
  cbn [concat]. rewrite Hc. unfold nonempty. by rewrite filter_app.
Qed.

(** ** How much the counters count *)

(** The messages of the 16 ports. *)
Definition accepted (ms : list monitor_message) : list monitor_message :=
  filter (fun m => msg_port m < RAW_SOCKET_NPORTS) ms.

Lemma wrap_congr_64 x y : wrap 64 x = wrap 64 y -> wrap 32 x = wrap 32 y.
Proof. intros H. by rewrite <-(wrap_wrap_64 x), <-(wrap_wrap_64 y), H. Qed.

Lemma drain_stats fuel d pkts d' : drain fuel d = Some (pkts, d') -> m_stats d' = m_stats d.
Proof.
  revert d pkts d'. induction fuel as [|fuel IH]; intros d pkts d'; cbn [drain]; unfold get_block;
    destruct (m_out_blocks d) as [|b out].
  1, 3: by intros [= _ <-].
  1: done.
  intros E. obind E. obind E. ostep E as [ps d2] eqn E2.
  injection E as _ <-. by apply IH in E2.
Qed.

(** A counter that grows by [k] modulo 2^64 in one decoder. *)
Lemma counter_step (g : FECDecoderStats -> Z) (l : list FECDecoderStats) i old new k n :
  l !! i = Some old -> g new = add64 (g old) k -> wrap 32 (zsum (g <$> l)) = wrap 32 n ->
  wrap 32 (zsum (g <$> <[i := new]> l)) = wrap 32 (n + k).
Proof.
  intros Hi Hg Hn. rewrite list_fmap_insert, (zsum_insert _ _ (g old)) by (by rewrite list_lookup_fmap, Hi).
  rewrite Hg. unfold add64. rewrite <-wrap_add_r, wrap_wrap_64, wrap_add_r.
  replace (_ - g old + (g old + k)) with (zsum (g <$> l) + k) by lia. by rewrite <-wrap_add_l, Hn, wrap_add_l.
Qed.

(** The packets and bytes of the decoders, [n] and [b] of them so far. *)
Definition tallied (n b : Z) (st : decode_state) : Prop :=
  wrap 32 (zsum (total_packets <$> prev_dec_stats st)) = wrap 32 n /\
  wrap 32 (zsum (FecDecoder.bytes <$> prev_dec_stats st)) = wrap 32 b.

(** The length a packet is counted with. *)
Definition counted_length (m : monitor_message) : Z := wrap 16 (plen (msg_data m)).

Lemma decode_message_tallied T m st pkts st' n b :
  counted st -> tallied n b st -> decode_message T m st = Some (pkts, st') ->
  if decide (msg_port m < RAW_SOCKET_NPORTS) then tallied (n + 1) (b + counted_length m) st' else tallied n b st'.
Proof.
  intros Hc [Hn Hb] E. unfold decode_message in E. destruct (Z.leb_spec RAW_SOCKET_NPORTS (msg_port m)).
  { apply (inj Some) in E as [= _ <-]. rewrite decide_False by lia. done. }
  rewrite decide_True by done.
  ostep E as dec eqn Ed.
  ostep E as dec1 eqn Ea.
  ostep E as [ps dec2] eqn Edr.
  ostep E as prev eqn Ep.
  apply (inj Some) in E as [= _ <-]. apply add_block_continues in Ea as (H1 & H2 & _).
  apply drain_stats in Edr. rewrite <-Edr in H1, H2.
  rewrite (cnt_prev _ Hc), list_lookup_fmap, Ed in Ep. injection Ep as <-.
  assert (prev_dec_stats st !! Z.to_nat (msg_port m) = Some (m_stats dec)) as Hl
    by (by rewrite (cnt_prev _ Hc), list_lookup_fmap, Ed).
  split; cbn [prev_dec_stats]; by eapply counter_step.
Qed.

Lemma decode_thread_tallied T ms : forall st rounds st' n b,
  counted st -> tallied n b st -> fec_decode_thread T ms st = Some (rounds, st') ->
  counted st' /\ tallied (n + Z.of_nat (length (accepted ms))) (b + zsum (counted_length <$> accepted ms)) st'.
Proof.
  induction ms as [|m ms IH]; intros st rounds st' n b Hc Ht E; cbn [fec_decode_thread] in E.
  { injection E as _ <-. split; [done|]. cbn. by rewrite !Z.add_0_r. }
  ostep E as [pkts st1] eqn E1.
  ostep E as [rs st2] eqn E2.
  injection E as _ <-. pose proof (decode_message_counted _ _ _ _ _ Hc E1) as Hc1.
  pose proof (decode_message_tallied _ _ _ _ _ n b Hc Ht E1) as Ht1. unfold accepted. rewrite filter_cons.
  destruct (decide (msg_port m < RAW_SOCKET_NPORTS)); destruct (IH _ _ _ _ _ Hc1 Ht1 E2) as [Hc2 Ht2]; (split; [done|]).
  - cbn [length]. rewrite fmap_cons, zsum_cons. fold (accepted ms).
    replace (n + Z.of_nat (S (length (accepted ms)))) with (n + 1 + Z.of_nat (length (accepted ms))) by lia.
    by rewrite Z.add_assoc.
  - done.
Qed.

(** ** Properties *)

(** C8: the decode thread treats every port as if it were alone. Whatever the
    order in which packets of the 16 ports arrive, each round for a port hands
    on the packets, and leaves its decoder in the state, that the port's own
    packets give; packets of no port are ignored. The thread does not fail
    where none of the ports does on its own. *)
Theorem decode_thread_refines_ports (T : fec_state) (ms : list monitor_message) (st : decode_state) :
  shape st -> Forall (fun m => 0 <= msg_port m) ms ->
  (forall p d, decoders st !! p = Some d -> is_Some (port_run T (port_datas p ms) d)) ->
  exists rounds st', fec_decode_thread T ms st = Some (rounds, st') /\ length rounds = length ms /\ shape st' /\
    forall p d, decoders st !! p = Some d -> exists d',
      port_run T (port_datas p ms) d = Some (port_rounds p ms rounds, d') /\ decoders st' !! p = Some d'.
Proof.
  intros Hst Hms Hr. destruct (decode_thread_ports T ms st Hst Hms Hr) as (rounds & st' & E & Hs & Hl & H).
  exists rounds, st'. done.
Qed.

(** A packet without FEC on port 3, one of a group on port 1, one of no port. *)
Definition demo_message (p : Z) (data : list byte) : monitor_message :=
  RawReceive.set_port p (RawReceive.set_data data (monitor_message_new 0 0)).
Definition demo_messages : list monitor_message :=
  [demo_message 3 demo_plain; demo_message 1 demo_data; demo_message 16 []].
Definition demo_decode_state : decode_state :=
  MkDecodeState (replicate 16 demo_decoder) (replicate 16 stats_zero) (TransferStats_new "air").

Lemma decode_thread_refines_ports_witness :
  exists rounds st', fec_decode_thread fec_static demo_messages demo_decode_state = Some (rounds, st') /\
    length rounds = 3%nat /\ shape st' /\
    forall p d, decoders demo_decode_state !! p = Some d -> exists d',
      port_run fec_static (port_datas p demo_messages) d = Some (port_rounds p demo_messages rounds, d') /\
      decoders st' !! p = Some d'.
Proof.
  apply (decode_thread_refines_ports fec_static demo_messages demo_decode_state).
  - split; reflexivity.
  - repeat (apply Forall_cons; split); try apply Forall_nil; cbn; lia.
  - intros p d Hd.
    do 16 (destruct p as [|p]; [cbn in Hd; injection Hd as <-; eexists; vm_compute; reflexivity|]). discriminate Hd.
Defined.

(** The statistics count what arrives. In every state the thread can
    reach, the five counters are the sums of the decoders' counters modulo
    2^32; the packets are the messages of the 16 ports so far, and the bytes
    their lengths. *)
Theorem decode_thread_counts (T : fec_state) (name : string) (ms : list monitor_message)
    (rounds : list (list (list byte))) (st : decode_state) :
  fec_decode_thread T ms (decode_state_new T (TransferStats_new name)).2 = Some (rounds, st) ->
  counted st /\
  TransferStats.m_blocks (m_counts (dec_stats st)) = wrap 32 (Z.of_nat (length (accepted ms))) /\
  m_bytes (m_counts (dec_stats st)) = wrap 32 (zsum (counted_length <$> accepted ms)).
Proof.
  intros E.
  destruct (decode_thread_tallied T ms _ rounds st 0 0 (decode_state_new_counted T name)) as [Hc [H1 H2]]; [done|done|].
  split; [done|]. rewrite Z.add_0_l in H1, H2.
  by rewrite <-(cnt_blocks _ Hc), <-(cnt_bytes _ Hc), H1, H2.
Qed.

Lemma decode_thread_counts_witness :
  exists rounds st, fec_decode_thread fec_static demo_messages demo_decode_state = Some (rounds, st) /\
    counted st /\ TransferStats.m_blocks (m_counts (dec_stats st)) = 2 /\ m_bytes (m_counts (dec_stats st)) = 14.
Proof.
  destruct (fec_decode_thread fec_static demo_messages demo_decode_state) as [[rounds st]|] eqn:E;
    [|vm_compute in E; discriminate E].
  exists rounds, st. split; [reflexivity|].
  exact (decode_thread_counts fec_static "air" demo_messages rounds st E).
Defined.
