(* ===== verification/TunInterface.v ===== *)
(** * [TUNInterface::read] and [tun_raw_thread] of src/src/tun_interface.cc

    From the IP packets of the TUN device to the messages of the links. The
    answers of [select] and [read] are arguments. A [std::map] is a list of
    pairs sorted by key, in the order of its iterators. *)

From S2P Require Import Prelude RawSend SendThread.

Definition PROTOCOL_UDP : Z := 0x11.
Definition PROTOCOL_TCP : Z := 0x06.

(** The port field of the packet. The protocol byte of a packet of nine bytes
    or fewer is indeterminate; whatever it is, the length test fails. *)
Definition packet_port (junk : Z) (buf : list byte) : Z :=
  let nread := Z.of_nat (length buf) in
  let protocol := if 9 <? nread then from_option u8 0 (buf !! 9%nat) else junk in
  if ((protocol =? PROTOCOL_UDP) || (protocol =? PROTOCOL_TCP)) && (23 <? nread) then
    Z.lor (wrap 16 (Z.shiftl (from_option u8 0 (buf !! 22%nat)) 8)) (from_option u8 0 (buf !! 23%nat))
  else 0.

(** [read(buf, ip_port, timeout_us)]: the result, the buffer and the port it
    leaves. [sel] is what [select] returns, [rd] what [::read] stores, if it
    does not fail. *)
Definition read (buf : list byte) (ip_port timeout_us sel : Z) (rd : option (list byte)) (junk : Z)
  : bool * list byte * Z :=
  match buf with
  | [] => (false, buf, ip_port)
  | _ =>
      if (0 <? timeout_us) && (sel =? -1) then (false, buf, ip_port)
      else if (0 <? timeout_us) && (sel =? 0) then (true, [], ip_port)
      else
        match rd with
        | None => (false, [], ip_port)
        | Some bytes => (true, bytes, packet_port junk bytes)
        end
  end.

(** [write]: true when the kernel takes the whole, nonempty packet. *)
Definition write (data : list byte) (written : Z) : bool :=
  (0 <? Z.of_nat (length data)) && (written =? Z.of_nat (length data)).

(** ** The table of the links *)

Definition port_table : Type := list (Z * Message).

(** [operator[]] with an assignment. *)
Fixpoint table_set (k : Z) (m : Message) (t : port_table) : port_table :=
  match t with
  | [] => [(k, m)]
  | (k', m') :: t' =>
      if k <? k' then (k, m) :: t
      else if k =? k' then (k, m) :: t' else (k', m') :: table_set k m t'
  end.

(** [find] *)
Fixpoint table_find (k : Z) (t : port_table) : option Message :=
  match t with
  | [] => None
  | (k', m) :: t => if k =? k' then Some m else table_find k t
  end.

(** ** [tun_raw_thread] *)

(** What [select] and [read] answer in a round, the indeterminate values of
    [ip_port] and [protocol], and what [is_flushed] of each encoder returns. *)
Record tun_env := MkTunEnv {
  t_select : Z;
  t_read : option (list byte);
  t_port : Z;
  t_junk : Z;
  t_flushed : nat -> bool
}.

(** The link of a packet: its own, or the default one. *)
Definition route (t : port_table) (ip_port : Z) : option Message :=
  match table_find ip_port t with
  | Some proto => Some proto
  | None => table_find 0 t
  end.

Definition flush_message (flushed : nat -> bool) (proto : Message) : list Message :=
  match enc proto with
  | Some i => if flushed i then [] else [Message_copy proto [] (ip_port proto)]
  | None => []
  end.

(** One round: the messages pushed to the output queue. [msg] has 2048 bytes;
    the result of [read] is not looked at. *)
Definition tun_round (t : port_table) (timeout_us : Z) (E : tun_env) : list Message :=
  let '(_, msg, ip_port) :=
    read (replicate 2048 x00) (t_port E) timeout_us (t_select E) (t_read E) (t_junk E) in
  match msg with
  | [] => concat (map (fun km => flush_message (t_flushed E) km.2) t)
  | _ =>
      match route t ip_port with
      | Some proto => [Message_copy proto msg ip_port]
      | None => []
      end
  end.

Definition tun_raw_thread (t : port_table) (timeout_us : Z) (Es : list tun_env) : list Message :=
  concat (map (tun_round t timeout_us) Es).

(** The output thread, on the packets it pops: the ones the kernel takes.
    [written] is what [::write] returns. *)
Definition tun_send_thread (written : list byte -> Z) (pkts : list (list byte)) : list (list byte) :=
  filter (fun pkt => write pkt (written pkt) = true) pkts.

(** ** The packets of a link

    The packets read from the device whose port is that of the link with key
    [k], or that have no link of their own if [k] is 0. *)
Definition tun_packet (t : port_table) (timeout_us k : Z) (E : tun_env) : option (list byte) :=
  let '(_, msg, ip_port) :=
    read (replicate 2048 x00) (t_port E) timeout_us (t_select E) (t_read E) (t_junk E) in
  match msg with
  | [] => None
  | _ => if decide (match table_find ip_port t with Some _ => ip_port | None => 0 end = k) then Some msg else None
  end.

Definition tun_packets (t : port_table) (timeout_us k : Z) (Es : list tun_env) : list (list byte) :=
  omap (tun_packet t timeout_us k) Es.

(** ** The table is a map *)

Definition keys (t : port_table) : list Z := map fst t.

(** Sorted by key, no key twice. *)
Fixpoint sorted (t : port_table) : Prop :=
  match t with
  | [] => True
  | (k, _) :: t => Forall (fun k' => k < k') (keys t) /\ sorted t
  end.

Lemma table_find_Some k m t : table_find k t = Some m -> (k, m) ∈ t.
Proof.
  induction t as [|[k' m'] t IH]; [done|]. cbn. destruct (Z.eqb_spec k k') as [->|].
  - intros [= ->]. left.
  - intros H. right. by apply IH.
Qed.

Lemma table_find_in k m t : sorted t -> (k, m) ∈ t -> table_find k t = Some m.
Proof.
  induction t as [|[k' m'] t IH]; [by intros _ ?%elem_of_nil|]. cbn. intros [Hk Hs] Hin.
  apply elem_of_cons in Hin as [[= <- <-]|Hin]; [by rewrite Z.eqb_refl|].
  rewrite Forall_forall in Hk. assert (k' < k) by (apply Hk; unfold keys; apply list_elem_of_In;
    apply in_map_iff; exists (k, m); split; [done|by apply list_elem_of_In]).
  rewrite (proj2 (Z.eqb_neq _ _)) by lia. by apply IH.
Qed.

Lemma keys_set k m t k' : k' ∈ keys (table_set k m t) -> k' = k \/ k' ∈ keys t.
Proof.
  induction t as [|[k1 m1] t IH]; cbn.
  - intros Hk%list_elem_of_singleton. by left.
  - destruct (k <? k1); [|destruct (k =? k1) eqn:E]; cbn; rewrite ?elem_of_cons.
    + tauto.
    + apply Z.eqb_eq in E as ->. tauto.
    + tauto.
Qed.

Lemma table_set_sorted k m t : sorted t -> sorted (table_set k m t).
Proof.
  induction t as [|[k1 m1] t IH]; cbn; [done|]. intros [Hk Hs].
  destruct (Z.ltb_spec k k1); [|destruct (Z.eqb_spec k k1) as [->|]]; cbn.
  - split; [|done]. apply Forall_cons. split; [done|].
    eapply Forall_impl; [exact Hk|]. cbn. lia.
  - done.
  - split; [|by apply IH]. apply Forall_forall. intros k' Hk'. apply keys_set in Hk' as [->|Hk']; [lia|].
    rewrite Forall_forall in Hk. by apply Hk.
Qed.

Lemma table_find_set k m t k' :
  sorted t -> table_find k' (table_set k m t) = if k' =? k then Some m else table_find k' t.
Proof.
  induction t as [|[k1 m1] t IH]; cbn; [by destruct (k' =? k)|]. intros [Hk Hs].
  destruct (Z.ltb_spec k k1); [|destruct (Z.eqb_spec k k1) as [->|]]; cbn.
  - done.
  - by destruct (k' =? k1).
  - rewrite IH by done. destruct (Z.eqb_spec k' k1) as [->|]; [|done].
    by rewrite (proj2 (Z.eqb_neq _ _)).
Qed.

Lemma keys_find t k : k ∈ keys t <-> is_Some (table_find k t).
Proof.
  induction t as [|[k' m] t IH]; cbn.
  - split; [by intros ?%elem_of_nil|by intros [? ?]].
  - rewrite elem_of_cons, IH. destruct (Z.eqb_spec k k') as [->|Hne]; [split; [by eexists|by left]|tauto].
Qed.

Lemma read_packet buf ip timeout sel pkt junk :
  buf <> [] -> (timeout <= 0 \/ 0 < sel) ->
  read buf ip timeout sel (Some pkt) junk = (true, pkt, packet_port junk pkt).
Proof.
  intros Hb Ht. unfold read. destruct buf; [done|].
  assert ((0 <? timeout) && (sel =? -1) = false) as -> by (apply andb_false_iff; destruct Ht; [left; lia|right; lia]).
  assert ((0 <? timeout) && (sel =? 0) = false) as -> by (apply andb_false_iff; destruct Ht; [left; lia|right; lia]).
  done.
Qed.

Lemma packet_port_short junk buf : (length buf <= 23)%nat -> packet_port junk buf = 0.
Proof. intros H. unfold packet_port. rewrite (proj2 (Z.ltb_ge 23 _)) by lia. by rewrite andb_false_r. Qed.

Lemma packet_port_spec junk buf proto hi lo :
  buf !! 9%nat = Some proto -> buf !! 22%nat = Some hi -> buf !! 23%nat = Some lo ->
  packet_port junk buf = if bool_decide (u8 proto = PROTOCOL_UDP \/ u8 proto = PROTOCOL_TCP)
                         then 256 * u8 hi + u8 lo else 0.
Proof.
  intros H9 H22 H23. pose proof (lookup_lt_Some _ _ _ H23). unfold packet_port.
  rewrite (proj2 (Z.ltb_lt 9 _)), (proj2 (Z.ltb_lt 23 _)) by lia. rewrite H9, H22, H23, andb_true_r.
  cbn [from_option].
  pose proof (u8_range hi). pose proof (u8_range lo).
  assert (Z.lor (wrap 16 (Z.shiftl (u8 hi) 8)) (u8 lo) = 256 * u8 hi + u8 lo) as ->.
  { rewrite Z.shiftl_mul_pow2 by lia. rewrite wrap_small by lia.
    enough (Z.land (u8 hi * 2 ^ 8) (u8 lo) = 0) as Hland
      by (pose proof (Z.add_lor_land (u8 hi * 2 ^ 8) (u8 lo)); lia).
    apply Z.bits_inj'. intros n Hn. rewrite Z.land_spec, Z.bits_0.
    destruct (Z.ltb_spec n 8).
    - rewrite Z.mul_pow2_bits_low by lia. done.
    - rewrite (Z.bits_above_log2 (u8 lo)); [apply andb_false_r|lia|].
      destruct (Z.eq_dec (u8 lo) 0) as [->|]; [cbn; lia|]. apply Z.log2_lt_pow2; [lia|].
      assert (2 ^ 8 <= 2 ^ n) by (apply Z.pow_le_mono_r; lia). lia. }
  destruct (Z.eqb_spec (u8 proto) PROTOCOL_UDP), (Z.eqb_spec (u8 proto) PROTOCOL_TCP); cbn [orb];
    case_bool_decide as Hd; try done; tauto.
Qed.

Lemma packet_port_junk junk buf : packet_port junk buf = packet_port 0 buf.
Proof.
  destruct (decide (length buf <= 23)%nat); [by rewrite !packet_port_short|].
  unfold packet_port. by rewrite (proj2 (Z.ltb_lt 9 _)) by lia.
Qed.

(** ** The messages of a link *)

Definition of_link (i : nat) (m : Message) : Prop := enc m = Some i.
#[global] Instance of_link_dec i m : Decision (of_link i m).
Proof. unfold of_link. apply _. Defined.

(** What two lists of messages of the link of [m0] have in common with their data. *)
Definition link_data (m0 : Message) (ms : list Message) (ps : list (list byte)) : Prop :=
  Forall (fun m => exists ip, m = Message_copy m0 (msg m) ip) ms /\ filter (fun q => q <> []) (msg <$> ms) = ps.

Lemma link_data_app m0 ms1 ps1 ms2 ps2 :
  link_data m0 ms1 ps1 -> link_data m0 ms2 ps2 -> link_data m0 (ms1 ++ ms2) (ps1 ++ ps2).
Proof. intros [H1 <-] [H2 <-]. split; [by apply Forall_app|]. by rewrite fmap_app, filter_app. Qed.

Section link.
Context (t : port_table) (timeout k : Z) (n : nat) (m0 : Message).
Context (Hs : sorted t) (Hk : table_find k t = Some m0) (Hi : enc m0 = Some n).
Context (Hu : forall k' m, table_find k' t = Some m -> enc m = Some n -> k' = k).

Lemma flush_link_data flushed t' :
  (forall k' m, (k', m) ∈ t' -> table_find k' t = Some m) ->
  link_data m0 (filter (of_link n) (concat (map (fun km => flush_message flushed km.2) t'))) [].
Proof.
  induction t' as [|[k' m'] t' IH]; intros Ht; [by split|]. cbn [map concat snd]. rewrite filter_app.
  apply (link_data_app _ _ [] _ []); [|apply IH; intros; apply Ht; by right].
  specialize (Ht k' m' ltac:(left)). unfold flush_message.
  destruct (enc m') as [j|] eqn:Ej; [|by split]. destruct (flushed j); [by split|].
  rewrite filter_cons. destruct (decide (of_link n _)) as [Hn|]; [|by split].
  unfold of_link in Hn. cbn [enc Message_copy] in Hn. pose proof (Hu _ _ Ht Hn) as ->.
  rewrite Hk in Ht. injection Ht as <-. split; [|done]. apply Forall_cons. split; [by eexists|constructor].
Qed.

(** A round makes flushes and the packet it read of the link's messages. *)
Lemma tun_round_link E :
  link_data m0 (filter (of_link n) (tun_round t timeout E)) (option_list (tun_packet t timeout k E)).
Proof.
  unfold tun_round, tun_packet. destruct (read _ _ _ _ _ _) as [[ok data] ip]. destruct data as [|b data].
  - apply flush_link_data. intros. by apply table_find_in.
  - unfold route. assert (forall k' m, table_find k' t = Some m ->
      link_data m0 (filter (of_link n) [Message_copy m (b :: data) ip])
        (option_list (if decide (k' = k) then Some (b :: data) else None))) as Hm.
    { intros k' m Hm. rewrite filter_cons. unfold of_link at 1. cbn [enc Message_copy].
      destruct (decide (k' = k)) as [->|Hne].
      - rewrite Hk in Hm. injection Hm as <-. rewrite decide_True by done. split; [|done].
        apply Forall_cons. split; [by eexists|constructor].
      - rewrite decide_False; [by split|]. intros Hn. by apply (Hu _ _ Hm) in Hn. }
    destruct (table_find ip t) as [m|] eqn:E1; [by apply Hm|].
    destruct (table_find 0 t) as [m|] eqn:E2; [by apply Hm|].
    rewrite decide_False by congruence. by split.
Qed.

Lemma tun_thread_link Es :
  link_data m0 (filter (of_link n) (tun_raw_thread t timeout Es)) (tun_packets t timeout k Es).
Proof.
  unfold tun_raw_thread, tun_packets. induction Es as [|E Es IH]; [by split|].
  cbn [map concat]. rewrite filter_app.
  assert (omap (tun_packet t timeout k) (E :: Es)
    = option_list (tun_packet t timeout k E) ++ omap (tun_packet t timeout k) Es) as ->.
  { cbn. by destruct (tun_packet t timeout k E). }
  apply link_data_app; [apply tun_round_link|done].
Qed.
End link.

(** ** Properties *)


Definition demo_table : port_table := [(0, demo_proto 0); (5601, demo_proto 1)].
(** A UDP packet to port 5601. *)
Definition demo_packet : list byte := replicate 9 x45 ++ [x11] ++ replicate 12 x00 ++ [x15; xe1] ++ [xaa; xbb].

