(* ===== verification/Udev.v ===== *)
(** * The wifi cards: [UDevInterface] of src/src/udev_interface.cc

    The driver of a network device decides the type of the card, whose
    configuration the bridge uses when the card has none of its own. A device
    of libudev is its attributes and its parent. *)

From S2P Require Import Prelude.
From stdpp Require Import strings.
Local Open Scope string_scope.
Local Open Scope list_scope.

#[warnings="-register-all"]
Inductive udev_device :=
| MkDevice (driver id_model_id devtype : option string) (sysname : string) (parent : option udev_device).

Definition get_driver (d : udev_device) : option string := let '(MkDevice v _ _ _ _) := d in v.
Definition get_model (d : udev_device) : option string := let '(MkDevice _ v _ _ _) := d in v.
Definition get_devtype (d : udev_device) : option string := let '(MkDevice _ _ v _ _) := d in v.
Definition get_sysname (d : udev_device) : string := let '(MkDevice _ _ _ v _) := d in v.
Definition get_parent (d : udev_device) : option udev_device := let '(MkDevice _ _ _ _ v) := d in v.

Definition DeviceList : Type := list (string * string).

Record UDevInterface := MkUDev {
  m_udev : bool;                                   (* udev_new() succeeded *)
  m_devices : DeviceList;
  m_driver_map : list ((string * string) * string);
  m_reset_flag : bool;
  m_run : bool
}.

Definition driver_map : list ((string * string) * string) :=
  [(("rtl8812au", ""), "rtl8812au"); (("rtl88xxau", ""), "rtl8812au"); (("88XXau", ""), "rtl8812au");
   (("rtl88XXau", ""), "rtl8812au"); (("ath9k_htc", "7710"), "ar7010"); (("ath9k_htc", "9271"), "ar9271");
   (("ath9k_htc", ""), "ar9271"); (("ath9k", ""), "ar9271")].

Definition UDevInterface_new (udev_new reset_flag : bool) : UDevInterface :=
  MkUDev udev_new [] (if udev_new then driver_map else []) reset_flag true.

Definition map_find (m : list ((string * string) * string)) (k : string * string) : option string :=
  '(_, e) ← list_find (fun e => e.1 = k) m; Some e.2.

(** [dev_model = std::string(dev_model)]: the string is assigned to itself, not
    to the model that was read. *)
Definition dev_model (model : option string) : string :=
  let dev_model := "" in
  match model with
  | Some _ => dev_model
  | None => dev_model
  end.

Fixpoint card_type (m : list ((string * string) * string)) (d : udev_device) : string :=
  let '(MkDevice driver model _ _ parent) := d in
  match driver with
  | None => match parent with Some p => card_type m p | None => "" end
  | Some driver =>
      match map_find m (driver, dev_model model) with
      | Some t => t
      | None => match map_find m (driver, "") with Some t => t | None => "" end
      end
  end.

(** [strncmp(type, "wlan", 4) == 0] *)
Definition is_wlan (type : option string) : bool :=
  match type with Some t => String.prefix "wlan" t | None => false end.

(** One round of the loop over the devices; [None]: no device for the path. *)
Definition add_entry (m : list ((string * string) * string)) (l : DeviceList) (dev : option udev_device) : DeviceList :=
  match dev with
  | None => l
  | Some d =>
      if is_wlan (get_devtype d) then
        let driver := card_type m d in
        if String.eqb driver "" then l else l ++ [(get_sysname d, driver)]
      else l
  end.

(** [update_devices]; the list of libudev, or none. *)
Definition update_devices (scan : option (list (option udev_device))) (s : UDevInterface) : UDevInterface :=
  let devices := match scan with None => [] | Some devs => foldl (add_entry (m_driver_map s)) [] devs end in
  MkUDev (m_udev s) devices (m_driver_map s) (m_reset_flag s) (m_run s).

(** A round of [monitor_thread]: with an event of a device the list is made
    anew and the flag raised. *)
Definition monitor_round (event : bool) (scan : option (list (option udev_device))) (s : UDevInterface) : UDevInterface :=
  if event then
    let s := update_devices scan s in
    MkUDev (m_udev s) (m_devices s) (m_driver_map s) true (m_run s)
  else s.

(** The rounds while [m_run] holds. *)
Definition monitor_thread (first : option (list (option udev_device)))
    (rounds : list (bool * option (list (option udev_device)))) (s : UDevInterface) : UDevInterface :=
  foldl (fun s r => if m_run s then monitor_round r.1 r.2 s else s) (update_devices first s) rounds.

(** ** The driver of a device is the first one on the way to the root *)

Fixpoint first_driver (d : udev_device) : option string :=
  let '(MkDevice driver _ _ _ parent) := d in
  match driver with
  | Some v => Some v
  | None => match parent with Some p => first_driver p | None => None end
  end.

Definition type_of_driver (driver : string) : string := default "" (map_find driver_map (driver, "")).

Lemma udev_device_rec' (P : udev_device -> Prop) :
  (forall v m t n p, (forall d, p = Some d -> P d) -> P (MkDevice v m t n p)) -> forall d, P d.
Proof.
  intros H. fix IH 1. intros [v m t n p]. apply H. destruct p as [p|]; [|discriminate].
  intros d [= <-]. apply IH.
Qed.

Lemma card_type_driver d :
  card_type driver_map d = match first_driver d with Some v => type_of_driver v | None => "" end.
Proof.
  induction d as [v m t n p IH] using udev_device_rec'. cbn [card_type first_driver].
  destruct v as [v|].
  - unfold type_of_driver. by destruct m; cbn [dev_model]; destruct (map_find _ _).
  - destruct p as [p|]; [by apply IH|done].
Qed.

Lemma type_of_driver_known v : type_of_driver v ∈ ["rtl8812au"; "ar9271"; ""].
Proof.
  unfold type_of_driver, map_find. destruct (list_find _ _) as [[i [[a b] c]]|] eqn:E; cbn; [|set_solver].
  apply list_find_Some in E as (E & E1 & _). cbn in E1.
  do 8 (destruct i as [|i]; [cbn in E; injection E as <- <- <-; try discriminate E1; set_solver|]). discriminate E.
Qed.

(** The entry of a device in the list. *)
Definition entry (dev : option udev_device) : DeviceList :=
  match dev with
  | Some d =>
      if is_wlan (get_devtype d) && negb (String.eqb (card_type driver_map d) "")
      then [(get_sysname d, card_type driver_map d)] else []
  | None => []
  end.

Lemma foldl_add_entry devs l : foldl (add_entry driver_map) l devs = l ++ concat (map entry devs).
Proof.
  revert l. induction devs as [|dev devs IH]; intros l; cbn [foldl map concat]; [by rewrite app_nil_r|].
  rewrite IH, app_assoc. f_equal. unfold add_entry, entry. destruct dev as [d|]; [|by rewrite app_nil_r].
  destruct (is_wlan _), (String.eqb _ _); cbn; by rewrite ?app_nil_r.
Qed.

Lemma monitor_rounds_map rounds : forall s,
  let s' := foldl (fun s r => if m_run s then monitor_round r.1 r.2 s else s) s rounds in
  m_driver_map s' = m_driver_map s /\ m_run s' = m_run s.
Proof.
  induction rounds as [|[ev scan] rounds IH]; intros s; cbn; [done|].
  destruct (m_run s) eqn:Er; [|by rewrite <-Er]. destruct (IH (monitor_round ev scan s)) as [-> ->].
  by destruct ev; cbn; rewrite ?Er.
Qed.

(** ** Properties *)

(** The list of the cards. The type of a card is that of the first driver
    on the way from the device to the root, whatever its model; it is rtl8812au,
    ar9271 or, for an unknown driver, empty: the entry of the table for the model
    7710 (ar7010) is never found. After a scan the list holds exactly the
    devices whose type starts with wlan and whose driver is known, in the order
    of libudev, and a failed scan leaves it empty. An event makes the bridge
    reset. *)
Theorem card_list (reset : bool) (first : option (list (option udev_device)))
    (rounds : list (bool * option (list (option udev_device)))) (d : udev_device) :
  let s := monitor_thread first rounds (UDevInterface_new true reset) in
  card_type (m_driver_map s) d = match first_driver d with Some v => type_of_driver v | None => "" end /\
  card_type (m_driver_map s) d ∈ ["rtl8812au"; "ar9271"; ""] /\
  (forall devs, m_devices (update_devices (Some devs) s) = concat (map entry devs)) /\
  m_devices (update_devices None s) = [] /\
  (forall scan, m_reset_flag (monitor_round true scan s) = true /\
     m_devices (monitor_round true scan s) = m_devices (update_devices scan s) /\ monitor_round false scan s = s).
Proof.
  intros s. assert (m_driver_map s = driver_map) as Hm by apply (monitor_rounds_map rounds).
  rewrite Hm, card_type_driver. split; [done|]. split.
  { destruct (first_driver d); [apply type_of_driver_known|set_solver]. }
  split; [|done]. intros devs. unfold update_devices. rewrite Hm. cbn [m_devices]. by rewrite foldl_add_entry.
Qed.

(** An ath9k_htc card with the model 7710 behind a USB interface. *)
Example card_type_7710 :
  card_type driver_map (MkDevice None None (Some "wlan") "wlan0"
    (Some (MkDevice (Some "ath9k_htc") (Some "7710") None "usb1" None))) = "ar9271".
Proof. reflexivity. Qed.
