(* ===== verification/HttpServer.v ===== *)
(** * The frequency of the cards: [HTTPServer] of src/src/http_server.cc

    The calls that configure a card (in src/src/raw_socket.cc, over netlink and
    sysfs) are events of a history; [world] answers a call after a history.
    Cards has the functions behind the calls and the world they make.
    [HTTPServer] keeps the frequencies the card accepts and the current one,
    which the handlers of the web server read and change; [start] registers the
    handlers with the Civet web server, whose constructor throws when it cannot
    start. *)

From S2P Require Import Prelude Text.

Inductive call :=
| set_wifi_up (device : string)
| set_wifi_down (device : string)
| set_wifi_monitor_mode (device : string)
| set_wifi_frequency (device : string) (freq_mhz : Z)
| set_wifi_legacy_bitrate (device : string) (rate : Z)
| set_wifi_txpower (device : string) (power : Z)
| open_send_socket (device : string) (ground mcs stbc ldpc : bool)
| open_receive_socket (device : string) (ground : bool).

Definition history : Type := list call.
Definition world : Type := history -> call -> bool.

Definition perform (w : world) (c : call) (h : history) : bool * history := (w h c, h ++ [c]).

(** ** The frequencies of a card *)

Definition frequencies_2GHz : list Z :=
  [2412; 2417; 2422; 2427; 2432; 2437; 2442; 2447; 2452; 2457; 2462; 2467; 2472; 2484].
Definition frequencies_5GHz : list Z :=
  [5160; 5170; 5180; 5200; 5220; 5240; 5260; 5280; 5300; 5320; 5500; 5520; 5540; 5560; 5580; 5600;
   5620; 5640; 5660; 5680; 5700; 5745; 5765; 5785; 5805; 5825].

(** One of the two loops: every frequency is tried. *)
Fixpoint probe (w : world) (device : string) (fs : list Z) (found : list Z) (h : history) : list Z * history :=
  match fs with
  | [] => (found, h)
  | f :: fs =>
      let '(ok, h) := perform w (set_wifi_frequency device f) h in
      probe w device fs (if ok then found ++ [f] else found) h
  end.

Definition get_wifi_frequency_list (w : world) (device : string) (h : history) : list Z * history :=
  let '(found, h) := probe w device frequencies_2GHz [] h in
  probe w device frequencies_5GHz found h.

(** ** The server *)

Record HTTPServer := MkHTTPServer {
  m_freqs : list Z;
  m_device : string;
  m_current_frequency : option Z      (* indeterminate at first; uint16_t *)
}.

Definition HTTPServer_new : HTTPServer := MkHTTPServer [] EmptyString None.

Definition get_frequencies (s : HTTPServer) : list Z := m_freqs s.

(** [find] in the set of the frequencies. *)
Definition frequency_valid (s : HTTPServer) (freq : Z) : bool := bool_decide (freq ∈ m_freqs s).

Definition set_frequency (w : world) (s : HTTPServer) (freq : Z) (h : history) : bool * HTTPServer * history :=
  if negb (frequency_valid s freq) then (false, s, h)
  else
    let '(ok, h) := perform w (set_wifi_frequency (m_device s) freq) h in
    if negb ok then (false, s, h)
    else (true, MkHTTPServer (m_freqs s) (m_device s) (Some (wrap 16 freq)), h).

Definition update_frequencies (w : world) (s : HTTPServer) (device : string) (final_freq : Z) (h : history)
  : bool * HTTPServer * history :=
  let s := MkHTTPServer (m_freqs s) device (m_current_frequency s) in
  let '(freqs, h) := get_wifi_frequency_list w device h in
  set_frequency w (MkHTTPServer freqs (m_device s) (m_current_frequency s)) final_freq h.

Definition get_frequency (s : HTTPServer) : option Z := m_current_frequency s.

(** [sscanf(s, "%d", &freq)]: leading white space, a sign, digits; the value is
    that of [strtol], stored in 32 bits. *)
Definition clamp64 (z : Z) : Z := Z.min (Z.max z (- 2 ^ 63)) (2 ^ 63 - 1).

Definition sscanf_d (s : string) : option Z :=
  let s := skip_space s in
  match s with
  | String "-" s' => (fun n => wrap 32 (clamp64 (- n))) <$> digits s' None
  | String "+" s' => (fun n => wrap 32 (clamp64 n)) <$> digits s' None
  | _ => (fun n => wrap 32 (clamp64 n)) <$> digits s None
  end.

(** [SetFrequencyHandler::handleGet]: [value] is the parameter of the request,
    if there is one; the result is whether "OK" is the answer. *)
Definition handle_set_frequency (w : world) (value : option string) (s : HTTPServer) (h : history)
  : bool * HTTPServer * history :=
  match value ≫= sscanf_d with
  | Some freq =>
      if frequency_valid s freq then
        let '(_, s, h) := set_frequency w s freq h in (true, s, h)
      else (false, s, h)
  | None => (false, s, h)
  end.

Definition crlf : string := String "013" (String "010" EmptyString).

(** [FrequencyListHandler::handleGet] and [GetFrequencyHandler::handleGet]: the
    text they answer. *)
Definition handle_frequency_list (s : HTTPServer) : string :=
  String.concat "" (map (fun f => (print_d f ++ crlf)%string) (get_frequencies s)).
Definition handle_get_frequency (s : HTTPServer) : option string := print_d <$> get_frequency s.

(** ** Starting *)

Inductive request_handler := FrequencyListHandler | SetFrequencyHandler | GetFrequencyHandler.

(** The Civet server: the options it was constructed with, the handlers in the
    order in which they were added. *)
Record web_server := MkWeb {
  w_options : list string;
  m_handlers : list (string * request_handler)
}.

(** [HTTPServer::start]. [civet] is whether the constructor of the server
    succeeds with the options; if not it throws, which is [None]. The result
    is always true. *)
Definition start (civet : list string -> bool) (port : Z) (document_root : string) : option (bool * web_server) :=
  let options := ["listening_ports"%string; print_d port] ++
                 (if String.eqb document_root "" then [] else ["document_root"%string; document_root]) in
  if civet options then
    Some (true, MkWeb options [("/frequencies"%string, FrequencyListHandler); ("/set_frequency"%string, SetFrequencyHandler);
                               ("/get_frequency"%string, GetFrequencyHandler)])
  else None.

(** ** Properties of a scan *)

(** The frequencies of the list [fs] to which the card says yes when it is asked
    for all of them in order, each after the calls before it. *)
Definition supported (w : world) (device : string) (fs : list Z) (h : history) : list Z :=
  omap (fun i => f ← fs !! i;
          if w (h ++ map (set_wifi_frequency device) (take i fs)) (set_wifi_frequency device f) then Some f else None)
       (seq 0 (length fs)).

Lemma omap_seq_S {A} (F : nat -> option A) n k : omap F (seq (S k) n) = omap (fun i => F (S i)) (seq k n).
Proof. revert k. induction n as [|n IH]; intros k; [done|]. cbn [seq omap list_omap]. by rewrite IH. Qed.

Lemma omap_ext_seq {A} (F G : nat -> option A) (l : list nat) : (forall i, F i = G i) -> omap F l = omap G l.
Proof. intros H. induction l as [|i l IH]; [done|]. cbn [omap list_omap]. by rewrite H, IH. Qed.

Lemma supported_cons w device f fs h :
  supported w device (f :: fs) h
    = (if w h (set_wifi_frequency device f) then [f] else []) ++ supported w device fs (h ++ [set_wifi_frequency device f]).
Proof.
  unfold supported. cbn [length seq omap list_omap]. cbn [lookup list_lookup mbind option_bind take map].
  rewrite app_nil_r, omap_seq_S.
  rewrite (omap_ext_seq _ (fun i => f0 ← fs !! i;
    if w ((h ++ [set_wifi_frequency device f]) ++ map (set_wifi_frequency device) (take i fs)) (set_wifi_frequency device f0)
    then Some f0 else None)) by (intros i; cbn; by rewrite <-app_assoc).
  by destruct (w h _).
Qed.

Lemma supported_app w device fs gs : forall h,
  supported w device (fs ++ gs) h
    = supported w device fs h ++ supported w device gs (h ++ map (set_wifi_frequency device) fs).
Proof.
  induction fs as [|f fs IH]; intros h; [by rewrite app_nil_r|]. rewrite <-app_comm_cons, !supported_cons, IH.
  cbn [map]. by rewrite <-!app_assoc.
Qed.

Lemma supported_sublist w device fs : forall h, supported w device fs h `sublist_of` fs.
Proof.
  induction fs as [|f fs IH]; intros h; [apply sublist_nil_l|]. rewrite supported_cons.
  destruct (w h _); [apply sublist_skip, IH|apply sublist_cons, IH].
Qed.

Lemma probe_spec w device fs : forall found h,
  probe w device fs found h = (found ++ supported w device fs h, h ++ map (set_wifi_frequency device) fs).
Proof.
  induction fs as [|f fs IH]; intros found h; cbn [probe].
  { unfold supported. cbn. by rewrite !app_nil_r. }
  unfold perform. rewrite IH, supported_cons, <-app_assoc. f_equal. destruct (w h _); [by rewrite <-app_assoc|done].
Qed.

Definition all_frequencies : list Z := frequencies_2GHz ++ frequencies_5GHz.

(** The calls of a scan. *)
Definition scan (device : string) : history := map (set_wifi_frequency device) all_frequencies.

Lemma frequency_list_spec w device h :
  get_wifi_frequency_list w device h = (supported w device all_frequencies h, h ++ scan device).
Proof.
  unfold get_wifi_frequency_list, scan, all_frequencies. rewrite !probe_spec. cbn [app].
  by rewrite supported_app, map_app, app_assoc.
Qed.

(** A server whose list comes from a scan. *)
Definition server_ok (s : HTTPServer) : Prop := m_freqs s `sublist_of` all_frequencies.

Lemma all_frequencies_range f : f ∈ all_frequencies -> 0 <= f < 65536.
Proof.
  intros Hf. assert (Forall (fun f => 0 <= f < 65536) all_frequencies) as H
    by (unfold all_frequencies; repeat constructor; lia).
  rewrite Forall_forall in H. by apply H.
Qed.

Lemma set_frequency_spec w s freq h :
  server_ok s ->
  set_frequency w s freq h =
    if bool_decide (freq ∈ m_freqs s) then
      if w h (set_wifi_frequency (m_device s) freq)
      then (true, MkHTTPServer (m_freqs s) (m_device s) (Some freq), h ++ [set_wifi_frequency (m_device s) freq])
      else (false, s, h ++ [set_wifi_frequency (m_device s) freq])
    else (false, s, h).
Proof.
  intros Hs. unfold set_frequency, frequency_valid, perform.
  case_bool_decide as Hin; cbn [negb]; [|done]. destruct (w h _); cbn [negb]; [|done].
  rewrite wrap_small; [done|]. change (2 ^ 16) with 65536. apply all_frequencies_range. by eapply sublist_subseteq.
Qed.

(** ** Properties *)

(** The states of the server and the calls so far: it is started, and then the
    frequencies are scanned, a frequency is set, a request is handled or the
    rest of the program makes another call, in any order. *)
Inductive reached (w : world) : HTTPServer -> history -> Prop :=
| reached_start h : reached w HTTPServer_new h
| reached_scan s h device freq ok s' h' :
    reached w s h -> update_frequencies w s device freq h = (ok, s', h') -> reached w s' h'
| reached_set s h freq ok s' h' :
    reached w s h -> set_frequency w s freq h = (ok, s', h') -> reached w s' h'
| reached_request s h value ok s' h' :
    reached w s h -> handle_set_frequency w value s h = (ok, s', h') -> reached w s' h'
| reached_other s h c : reached w s h -> reached w s (h ++ [c]).

(** What the server lists is what its card has said yes to in a scan. *)
Definition scanned (w : world) (s : HTTPServer) (h : history) : Prop :=
  m_freqs s = [] \/
  exists h0, (h0 ++ scan (m_device s)) `prefix_of` h /\ m_freqs s = supported w (m_device s) all_frequencies h0.

Lemma scanned_more w s h h' : scanned w s h -> h `prefix_of` h' -> scanned w s h'.
Proof. intros [Hs|(h0 & Hp & Hs)] Hh; [by left|right]. exists h0. split; [by trans h|done]. Qed.

Lemma scanned_ok w s h : scanned w s h -> server_ok s.
Proof. intros [Hs|(h0 & _ & Hs)]; unfold server_ok; rewrite Hs; [apply sublist_nil_l|apply supported_sublist]. Qed.

Lemma set_frequency_keeps w s freq h ok s' h' :
  set_frequency w s freq h = (ok, s', h') -> m_freqs s' = m_freqs s /\ m_device s' = m_device s /\ h `prefix_of` h'.
Proof.
  unfold set_frequency, perform. destruct (negb (frequency_valid s freq)); [by intros [= <- <- <-]|].
  destruct (negb (w h _)); intros [= <- <- <-]; (split; [done|]); (split; [done|]); by apply prefix_app_r.
Qed.

Lemma update_frequencies_scan w s device freq h :
  update_frequencies w s device freq h
    = set_frequency w (MkHTTPServer (supported w device all_frequencies h) device (m_current_frequency s)) freq (h ++ scan device).
Proof. unfold update_frequencies. by rewrite frequency_list_spec. Qed.

Lemma reached_scanned w s h : reached w s h -> scanned w s h.
Proof.
  induction 1 as [h|s h device freq ok s' h' _ _ E|s h freq ok s' h' _ IH E|s h value ok s' h' _ IH E|s h c _ IH].
  - by left.
  - rewrite update_frequencies_scan in E. apply set_frequency_keeps in E as (E1 & E2 & Hp).
    cbn [m_freqs m_device m_current_frequency] in E1, E2. right. exists h. rewrite E1, E2. by split.
  - apply set_frequency_keeps in E as (E1 & E2 & Hp). apply (scanned_more w _ _ h') in IH; [|done].
    unfold scanned. by rewrite E1, E2.
  - assert (m_freqs s' = m_freqs s /\ m_device s' = m_device s /\ h `prefix_of` h') as (E1 & E2 & Hp).
    { unfold handle_set_frequency in E. destruct (value ≫= sscanf_d) as [f|]; [|by injection E as <- <- <-].
      destruct (frequency_valid s f); [|by injection E as <- <- <-].
      destruct (set_frequency w s f h) as [[ok1 s1] h1] eqn:E1. injection E as <- <- <-. by eapply set_frequency_keeps. }
    apply (scanned_more w _ _ h') in IH; [|done]. unfold scanned. by rewrite E1, E2.
  - eapply scanned_more; [done|]. by apply prefix_app_r.
Qed.

(** The state after the card [m_device s] was asked for [freq]. *)
Definition told (w : world) (s : HTTPServer) (freq : Z) (h : history) : HTTPServer :=
  if w h (set_wifi_frequency (m_device s) freq) then MkHTTPServer (m_freqs s) (m_device s) (Some freq) else s.

(** C31: changing the frequency, in every state the server can reach. The
    frequencies it lists are none, or those to which its card said yes in a scan
    before. Outside a scan the card is only asked for one of these: [set_frequency]
    and the request handler ask for it once, and for any other not at all; the
    current frequency becomes the new one exactly when the card agrees. The
    handler says OK before it asks the card, so also when the card refuses. A
    scan asks for every frequency of the two tables in order; it replaces the
    list by the frequencies the card said yes to, and sets the final frequency
    if it is one of them. *)
Theorem frequency_changes (w : world) (s : HTTPServer) (h : history) (freq : Z) (device : string) (value : option string) :
  reached w s h ->
  scanned w s h /\
  set_frequency w s freq h =
    (if decide (freq ∈ m_freqs s)
     then (w h (set_wifi_frequency (m_device s) freq), told w s freq h, h ++ [set_wifi_frequency (m_device s) freq])
     else (false, s, h)) /\
  handle_set_frequency w value s h =
    match value ≫= sscanf_d with
    | Some f => if decide (f ∈ m_freqs s) then (true, told w s f h, h ++ [set_wifi_frequency (m_device s) f]) else (false, s, h)
    | None => (false, s, h)
    end /\
  update_frequencies w s device freq h =
    (let found := supported w device all_frequencies h in
     let s' := MkHTTPServer found device (get_frequency s) in
     if decide (freq ∈ found)
     then (w (h ++ scan device) (set_wifi_frequency device freq), told w s' freq (h ++ scan device),
           h ++ scan device ++ [set_wifi_frequency device freq])
     else (false, s', h ++ scan device)).
Proof.
  intros Hr. pose proof (reached_scanned w s h Hr) as Hs. pose proof (scanned_ok w s h Hs) as Hok.
  assert (forall s freq h, server_ok s -> set_frequency w s freq h =
    (if decide (freq ∈ m_freqs s)
     then (w h (set_wifi_frequency (m_device s) freq), told w s freq h, h ++ [set_wifi_frequency (m_device s) freq])
     else (false, s, h))) as Hset.
  { intros s0 f0 h0 H0. rewrite set_frequency_spec by done. unfold told.
    case_decide; [rewrite bool_decide_true by done; by destruct (w h0 _)|by rewrite bool_decide_false]. }
  split; [done|]. split; [by apply Hset|]. split.
  - unfold handle_set_frequency. destruct (value ≫= sscanf_d) as [f|]; [|done]. unfold frequency_valid. rewrite Hset by done.
    case_decide; [by rewrite bool_decide_true|by rewrite bool_decide_false].
  - rewrite update_frequencies_scan, Hset by apply supported_sublist.
    cbn [m_freqs m_device m_current_frequency]. case_decide; [by rewrite <-app_assoc|done].
Qed.

(** A card without the 5 GHz band. *)
Definition demo_world : world := fun _ c =>
  match c with set_wifi_frequency _ f => f <? 5000 | _ => true end.

Definition demo_server : HTTPServer := MkHTTPServer frequencies_2GHz "wlan0" (Some 2412).
Definition demo_history : history := scan "wlan0" ++ [set_wifi_frequency "wlan0" 2412].

Lemma frequency_changes_witness :
  update_frequencies demo_world HTTPServer_new "wlan0" 2412 [] = (true, demo_server, demo_history) /\
  handle_set_frequency demo_world (Some "2437"%string) demo_server demo_history =
    (true, MkHTTPServer frequencies_2GHz "wlan0" (Some 2437), demo_history ++ [set_wifi_frequency "wlan0" 2437]) /\
  handle_set_frequency demo_world (Some "5180"%string) demo_server demo_history = (false, demo_server, demo_history).
Proof.
  assert (update_frequencies demo_world HTTPServer_new "wlan0" 2412 [] = (true, demo_server, demo_history)) as E.
  { destruct (frequency_changes demo_world HTTPServer_new [] 2412 "wlan0" None (reached_start demo_world [])) as (_ & _ & _ & E).
    etransitivity; [exact E|]. vm_compute. reflexivity. }
  pose proof (reached_scan demo_world _ _ _ _ _ _ _ (reached_start demo_world []) E) as Hr.
  split; [exact E|]. split.
  - destruct (frequency_changes demo_world _ _ 0 "" (Some "2437"%string) Hr) as (_ & _ & E1 & _).
    etransitivity; [exact E1|]. vm_compute. reflexivity.
  - destruct (frequency_changes demo_world _ _ 0 "" (Some "5180"%string) Hr) as (_ & _ & E2 & _).
    etransitivity; [exact E2|]. vm_compute. reflexivity.
Defined.
