(* ===== verification/Cards.v ===== *)
(** * The cards: the functions of src/src/raw_socket.cc that configure them

    Each function with the requests it makes to the kernel, in order: the flags
    of the interface, the netlink messages with their attributes, the parameter
    files of the drivers, and what it opens and closes. [kernel] answers a
    request after the requests before it. Allocations of libnl and unchecked
    attributes succeed; sending a message and waiting for the answer is one
    request. *)

From S2P Require Import Prelude Text HttpServer.
From Stdlib Require Import Floats.SpecFloat.
Local Open Scope Z_scope.

(** ** Resources *)

Inductive resource := Fd (fd : Z) | Nl_cb | Nl_sock | Nl_msg | File.
#[export] Instance resource_eq_dec : EqDecision resource.
Proof. solve_decision. Defined.

Inductive event := Opens (r : resource) | Closes (r : resource).

(** What is still open after the events. *)
Fixpoint remove_one (r : resource) (l : list resource) : list resource :=
  match l with
  | [] => []
  | r' :: l => if decide (r' = r) then l else r' :: remove_one r l
  end.

Definition hold (l : list resource) (e : event) : list resource :=
  match e with Opens r => l ++ [r] | Closes r => remove_one r l end.
Definition held (es : list event) : list resource := foldl hold [] es.

(** ** Netlink messages *)

Inductive nl80211_attr :=
| NL80211_ATTR_IFINDEX | NL80211_ATTR_WIPHY_FREQ | NL80211_ATTR_TX_RATES | NL80211_BAND_2GHZ | NL80211_TXRATE_LEGACY
| NL80211_ATTR_IFTYPE | NL80211_ATTR_WIPHY_TX_POWER_SETTING | NL80211_ATTR_WIPHY_TX_POWER_LEVEL.
Inductive nl80211_command := NL80211_CMD_SET_WIPHY | NL80211_CMD_SET_TX_BITRATE_MASK | NL80211_CMD_SET_INTERFACE.

Inductive attr :=
| U32 (id : nl80211_attr) (v : Z)
| Bytes (id : nl80211_attr) (l : list byte)
| Nest (id : nl80211_attr) (a : attr).         (* of one attribute *)

Record nl_msg := MkNlMsg { n_family : Z; n_command : nl80211_command; n_attrs : list attr }.

Definition NL80211_IFTYPE_MONITOR : Z := 6.
Definition NL80211_TX_POWER_FIXED : Z := 2.
Definition IFF_UP : Z := 1.

(** ** Requests *)

Inductive request :=
| Does (e : event)                                  (* bookkeeping, always granted *)
| Socket                                            (* socket(AF_INET, SOCK_DGRAM, 0) *)
| Set_flags (fd : Z) (ifr_name : string) (ifr_flags : Z)    (* ioctl(SIOCSIFFLAGS) *)
| Resolve (family : string)                         (* genl_ctrl_resolve *)
| If_index (device : string)                        (* if_nametoindex *)
| Put (a : attr)                                    (* nla_put_u32 *)
| Send (m : nl_msg)                                 (* the error code that comes back, 1 if none does *)
| Fopen (path : string)                             (* 0: no such file *)
| Fprintf (path text : string)
| Open_socket (c : call).                           (* add_device of a raw socket, see RawSend and RawCapture *)

Definition kernel : Type := list request -> request -> Z.

Definition io (A : Type) : Type := kernel -> list request -> A * list request.
#[export] Instance io_ret : MRet io := fun A a K t => (a, t).
#[export] Instance io_bind : MBind io := fun A B f m K t => let '(a, t) := m K t in f a K t.

Definition ask (r : request) : io Z := fun K t => (K t r, t ++ [r]).
Definition opens (r : resource) : io unit := fun K t => (tt, t ++ [Does (Opens r)]).
Definition closes (r : resource) : io unit := fun K t => (tt, t ++ [Does (Closes r)]).

(** ** The functions *)

(** [IFNAMSIZ] bytes of the name; the flags are those of a cleared structure.
    The socket is not closed. *)
Definition set_wifi_up_down (device : string) (up : bool) : io bool :=
  sockfd ← ask Socket;
  if sockfd <? 0 then mret false
  else
    opens (Fd sockfd);;
    r ← ask (Set_flags sockfd (String.substring 0 16 device) (if up then IFF_UP else 0));
    mret (0 <=? r).

(** Socket and message; the family of the message. *)
Definition nl_begin : io Z := opens Nl_sock;; opens Nl_msg;; ask (Resolve "nl80211").
Definition nl_end : io unit := closes Nl_msg;; closes Nl_sock.

(** The attributes one after the other, up to the first that cannot be put. *)
Fixpoint put_all (l : list attr) : io bool :=
  match l with
  | [] => mret true
  | a :: l => r ← ask (Put a); if r <? 0 then mret false else put_all l
  end.

(** [error_handler] overwrites the 1 only with an error the kernel reports. *)
Definition set_wifi_frequency (device : string) (freq_mhz : Z) : io bool :=
  opens Nl_cb;;
  family ← nl_begin;
  ifindex ← ask (If_index device);
  let attrs := [U32 NL80211_ATTR_IFINDEX ifindex; U32 NL80211_ATTR_WIPHY_FREQ freq_mhz] in
  ok ← put_all attrs;
  if ok : bool then
    err ← ask (Send (MkNlMsg family NL80211_CMD_SET_WIPHY attrs));
    closes Nl_cb;; nl_end;; mret (0 <=? err)
  else nl_end;; mret false.

(** Nothing is checked. *)
Definition set_wifi_legacy_bitrate (device : string) (rate : Z) : io bool :=
  family ← nl_begin;
  ifindex ← ask (If_index device);
  let attrs := [U32 NL80211_ATTR_IFINDEX ifindex;
                Nest NL80211_ATTR_TX_RATES (Nest NL80211_BAND_2GHZ (Bytes NL80211_TXRATE_LEGACY [byte_of rate]))] in
  _ ← ask (Send (MkNlMsg family NL80211_CMD_SET_TX_BITRATE_MASK attrs));
  nl_end;; mret true.

(** [fopen], [fprintf], [fclose]; false if the file cannot be opened. *)
Definition write_file (path text : string) : io bool :=
  fp ← ask (Fopen path);
  if fp =? 0 then mret false
  else opens File;; _ ← ask (Fprintf path text); closes File;; mret true.

Definition set_wifi_monitor_mode (device : string) : io bool :=
  down ← set_wifi_up_down device false;
  if negb down then mret false
  else
    _ ← write_file "/sys/module/88XXau/parameters/rtw_monitor_disable_1m" "1";
    family ← nl_begin;
    ifindex ← ask (If_index device);
    let attrs := [U32 NL80211_ATTR_IFINDEX ifindex; U32 NL80211_ATTR_IFTYPE NL80211_IFTYPE_MONITOR] in
    ok ← put_all attrs;
    if ok : bool then
      _ ← ask (Send (MkNlMsg family NL80211_CMD_SET_INTERFACE attrs));
      up ← set_wifi_up_down device true;
      nl_end;; mret up
    else nl_end;; mret false.

(** [rint(power_mbm / 50.0)], halves to even. *)
Definition scaled_txpower (power_mbm : Z) : Z :=
  let q := power_mbm / 50 in
  let r := power_mbm mod 50 in
  if r <? 25 then q else if 25 <? r then q + 1 else if Z.even q then q else q + 1.

(** The first of the files that opens gets the text. *)
Fixpoint write_first (paths : list string) (text : string) : io bool :=
  match paths with
  | [] => mret false
  | p :: paths => ok ← write_file p text; if ok : bool then mret true else write_first paths text
  end.

Definition ath9k_files : list string :=
  ["/sys/module/ath9k_hw/parameters/txpower"; "/sys/module/ath9k_htc/parameters/txpower";
   "/sys/module/ath9k/parameters/txpower"]%string.

Definition set_wifi_txpower (device : string) (power_mbm : Z) : io bool :=
  let txpower := print_d (scaled_txpower power_mbm) in
  ath9k ← write_first ath9k_files txpower;
  if ath9k : bool then mret true
  else
    rtl ← write_file "/sys/module/88XXau/parameters/rtw_tx_pwr_idx_override" txpower;
    if negb rtl then mret false
    else
      family ← nl_begin;
      ifindex ← ask (If_index device);
      let attrs := [U32 NL80211_ATTR_IFINDEX ifindex;
                    U32 NL80211_ATTR_WIPHY_TX_POWER_SETTING NL80211_TX_POWER_FIXED;
                    U32 NL80211_ATTR_WIPHY_TX_POWER_LEVEL power_mbm] in
      ok ← put_all attrs;
      if ok : bool then
        _ ← ask (Send (MkNlMsg family NL80211_CMD_SET_WIPHY attrs)); nl_end;; mret true
      else nl_end;; mret false.

(** A call of the program. *)
Definition card_call (c : call) : io bool :=
  match c with
  | HttpServer.set_wifi_up device => set_wifi_up_down device true
  | HttpServer.set_wifi_down device => set_wifi_up_down device false
  | HttpServer.set_wifi_monitor_mode device => set_wifi_monitor_mode device
  | HttpServer.set_wifi_frequency device freq => set_wifi_frequency device freq
  | HttpServer.set_wifi_legacy_bitrate device rate => set_wifi_legacy_bitrate device rate
  | HttpServer.set_wifi_txpower device power => set_wifi_txpower device power
  | c => r ← ask (Open_socket c); mret (0 <=? r)
  end.

(** The calls of a history, and the world that they make: what the rest of the
    program is proved over is one that these functions implement. *)
Definition requests (K : kernel) (h : history) : list request := foldl (fun t c => (card_call c K t).2) [] h.
Definition card_world (K : kernel) : world := fun h c => (card_call c K (requests K h)).1.

(** ** A specification

    What the calls are for: the changes the kernel is asked to make, and the
    results, for a kernel that grants everything but frequencies and files. *)

Inductive effect :=
| Flags (ifr_name : string) (ifr_flags : Z)
| Message (m : nl_msg)
| Wrote (path text : string)
| Opened (c : call).

Definition effect_of (r : request) : option effect :=
  match r with
  | Set_flags _ name flags => Some (Flags name flags)
  | Send m => Some (Message m)
  | Fprintf path text => Some (Wrote path text)
  | Open_socket c => Some (Opened c)
  | _ => None
  end.
Definition event_of (r : request) : option event := match r with Does e => Some e | _ => None end.

Definition effects : list request -> list effect := omap effect_of.
Definition events : list request -> list event := omap event_of.

Record grants (K : kernel) (family : Z) (ifindex : string -> Z) (file : string -> bool) (reply : nl_msg -> Z)
    (device_opens : call -> bool) : Prop := {
  g_socket : forall t, 0 <= K t Socket;
  g_flags : forall t fd name flags, 0 <= K t (Set_flags fd name flags);
  g_family : forall t, K t (Resolve "nl80211") = family;
  g_index : forall t device, K t (If_index device) = ifindex device;
  g_put : forall t a, 0 <= K t (Put a);
  g_send : forall t m, K t (Send m) = reply m;
  g_file : forall t path, K t (Fopen path) = if file path then 1 else 0;
  g_open : forall t c, K t (Open_socket c) = if device_opens c then 0 else -1
}.

Section spec.
Context (family : Z) (ifindex : string -> Z) (file : string -> bool) (reply : nl_msg -> Z) (device_opens : call -> bool).

Definition message (device : string) (c : nl80211_command) (l : list attr) : nl_msg :=
  MkNlMsg family c (U32 NL80211_ATTR_IFINDEX (ifindex device) :: l).

Definition frequency_message (device : string) (freq : Z) : nl_msg :=
  message device NL80211_CMD_SET_WIPHY [U32 NL80211_ATTR_WIPHY_FREQ freq].

Definition wrote (path text : string) : list effect := if file path then [Wrote path text] else [].

Definition rtl_power : string := "/sys/module/88XXau/parameters/rtw_tx_pwr_idx_override".
Definition rtl_monitor : string := "/sys/module/88XXau/parameters/rtw_monitor_disable_1m".

Definition call_effects (c : call) : list effect :=
  match c with
  | HttpServer.set_wifi_up device => [Flags (String.substring 0 16 device) IFF_UP]
  | HttpServer.set_wifi_down device => [Flags (String.substring 0 16 device) 0]
  | HttpServer.set_wifi_monitor_mode device =>
      [Flags (String.substring 0 16 device) 0] ++ wrote rtl_monitor "1" ++
      [Message (message device NL80211_CMD_SET_INTERFACE [U32 NL80211_ATTR_IFTYPE NL80211_IFTYPE_MONITOR]);
       Flags (String.substring 0 16 device) IFF_UP]
  | HttpServer.set_wifi_frequency device freq => [Message (frequency_message device freq)]
  | HttpServer.set_wifi_legacy_bitrate device rate =>
      [Message (message device NL80211_CMD_SET_TX_BITRATE_MASK
         [Nest NL80211_ATTR_TX_RATES (Nest NL80211_BAND_2GHZ (Bytes NL80211_TXRATE_LEGACY [byte_of rate]))])]
  | HttpServer.set_wifi_txpower device power =>
      let txpower := print_d (scaled_txpower power) in
      match List.find file ath9k_files with
      | Some path => [Wrote path txpower]
      | None =>
          if file rtl_power then
            [Wrote rtl_power txpower;
             Message (message device NL80211_CMD_SET_WIPHY
               [U32 NL80211_ATTR_WIPHY_TX_POWER_SETTING NL80211_TX_POWER_FIXED;
                U32 NL80211_ATTR_WIPHY_TX_POWER_LEVEL power])]
          else []
      end
  | c => [Opened c]
  end.

(** Only a frequency depends on what the kernel makes of a message. *)
Definition call_result (c : call) : bool :=
  match c with
  | HttpServer.set_wifi_frequency device freq => 0 <=? reply (frequency_message device freq)
  | HttpServer.set_wifi_txpower _ _ => existsb file (ath9k_files ++ [rtl_power])
  | open_send_socket _ _ _ _ _ | open_receive_socket _ _ => device_opens c
  | _ => true
  end.

(** Sockets that are never closed. *)
Definition lost_sockets (c : call) : nat :=
  match c with
  | HttpServer.set_wifi_up _ | HttpServer.set_wifi_down _ => 1
  | HttpServer.set_wifi_monitor_mode _ => 2
  | _ => 0
  end.
End spec.

(** ** Lemmas *)

Definition is_fd (r : resource) : Prop := exists fd, r = Fd fd.

Lemma remove_one_fds r l l' : Forall is_fd l -> ~ is_fd r -> remove_one r (l ++ l') = l ++ remove_one r l'.
Proof.
  intros H Hr. induction H as [|x l Hx _ IH]; [done|]. cbn. rewrite decide_False by (intros ->; done). by rewrite IH.
Qed.

Lemma effects_app t t' : effects (t ++ t') = effects t ++ effects t'.
Proof. apply omap_app. Qed.
Lemma events_app t t' : events (t ++ t') = events t ++ events t'.
Proof. apply omap_app. Qed.

Section granted.
Context (K : kernel) (family : Z) (ifindex : string -> Z) (file : string -> bool) (reply : nl_msg -> Z)
  (device_opens : call -> bool).
Context (G : grants K family ifindex file reply device_opens).

Local Abbreviation effects_of := (call_effects family ifindex file).
Local Abbreviation result_of := (call_result family ifindex file reply device_opens).

(** What a function does from any point on. *)
Definition performs (m : io bool) (r : bool) (es : list effect) (n : nat) : Prop :=
  forall t, exists seg fds, m K t = (r, t ++ seg) /\ effects seg = es /\ length fds = n /\
    forall l, Forall is_fd l -> foldl hold l (events seg) = l ++ map Fd fds.

Lemma socket_ok t : (K t Socket <? 0) = false.
Proof using G. apply Z.ltb_ge, G. Qed.
Lemma flags_ok t fd name flags : (0 <=? K t (Set_flags fd name flags)) = true.
Proof using G. apply Z.leb_le, G. Qed.
Lemma put_ok t a : (K t (Put a) <? 0) = false.
Proof using G. apply Z.ltb_ge, G. Qed.

Ltac run_io := unfold nl_begin, nl_end, put_all, mbind, io_bind, mret, io_ret, ask, opens, closes; cbv beta iota zeta.
Ltac granted := repeat first
  [rewrite socket_ok | rewrite flags_ok | rewrite put_ok | rewrite (g_family _ _ _ _ _ _ G)
  | rewrite (g_index _ _ _ _ _ _ G) | rewrite (g_send _ _ _ _ _ _ G) | progress cbn [negb] | progress cbv beta iota zeta].

(** Closing what is not a descriptor. *)
Ltac release :=
  let l := fresh "l" in let Hl := fresh "Hl" in
  intros l Hl; cbn [events omap list_omap event_of foldl hold app map];
  rewrite <-?app_assoc; cbn [app];
  repeat (rewrite remove_one_fds; [|by repeat first [done|apply Forall_app_2|apply Forall_singleton; eexists]
                                    |intros [? ?]; done]; cbn [remove_one app];
          repeat first [rewrite decide_True by done|rewrite decide_False by done];
          rewrite <-?app_assoc; cbn [app]);
  rewrite ?app_nil_r; done.

Lemma performs_up_down device (up : bool) :
  performs (set_wifi_up_down device up) true [Flags (String.substring 0 16 device) (if up then IFF_UP else 0)] 1.
Proof using G.
  intros t. unfold set_wifi_up_down. run_io. granted.
  rewrite <-!app_assoc. eexists _, [_].
  split; [reflexivity|]. split; [reflexivity|]. split; [done|]. release.
Qed.

Lemma performs_frequency device freq :
  performs (set_wifi_frequency device freq) (0 <=? reply (frequency_message family ifindex device freq))
    [Message (frequency_message family ifindex device freq)] 0.
Proof using G.
  intros t. unfold set_wifi_frequency. run_io. granted.
  rewrite <-!app_assoc. eexists _, [].
  split; [reflexivity|]. split; [reflexivity|]. split; [done|]. release.
Qed.

Lemma performs_bitrate device rate :
  performs (set_wifi_legacy_bitrate device rate) true (effects_of (HttpServer.set_wifi_legacy_bitrate device rate)) 0.
Proof using G.
  intros t. unfold set_wifi_legacy_bitrate. run_io. granted. rewrite <-!app_assoc. eexists _, [].
  split; [reflexivity|]. split; [reflexivity|]. split; [done|]. release.
Qed.

(** A file that opens is written and closed. *)
Lemma performs_file path text : performs (write_file path text) (file path) (wrote file path text) 0.
Proof using G.
  intros t. unfold write_file, wrote. run_io. rewrite (g_file _ _ _ _ _ _ G). destruct (file path); cbn [Z.eqb].
  - rewrite <-!app_assoc. eexists _, []. split; [reflexivity|]. split; [reflexivity|]. split; [done|]. release.
  - eexists _, []. split; [reflexivity|]. split; [reflexivity|]. split; [done|]. release.
Qed.

Lemma performs_ret b : performs (mret b) b [] 0.
Proof using. intros t. exists [], []. rewrite app_nil_r. split; [done|]. split; [done|]. split; [done|]. intros l _. by rewrite app_nil_r. Qed.

Lemma performs_bind (m : io bool) (f : bool -> io bool) r r' es es' n n' :
  performs m r es n -> performs (f r) r' es' n' -> performs (m ≫= f) r' (es ++ es') (n + n').
Proof using.
  intros Hm Hf t. destruct (Hm t) as (seg & fds & E & He & Hn & Hh).
  destruct (Hf (t ++ seg)) as (seg' & fds' & E' & He' & Hn' & Hh'). exists (seg ++ seg'), (fds ++ fds').
  split; [unfold mbind, io_bind; by rewrite E, E', <-app_assoc|]. split; [by rewrite effects_app, He, He'|].
  split; [by rewrite length_app, Hn, Hn'|]. intros l Hl. rewrite events_app, foldl_app, Hh by done.
  rewrite Hh'; [by rewrite map_app, <-app_assoc|]. apply Forall_app_2; [done|].
  apply Forall_forall. intros x Hx. apply list_elem_of_fmap in Hx as (fd & -> & _). by exists fd.
Qed.

Lemma performs_first paths text :
  performs (write_first paths text) (existsb file paths)
    (match List.find file paths with Some path => [Wrote path text] | None => [] end) 0.
Proof using G.
  induction paths as [|p paths IH]; [apply performs_ret|]. cbn [write_first existsb List.find].
  pose proof (performs_file p text) as Hp. unfold wrote in Hp. destruct (file p); cbn [orb].
  - refine (performs_bind _ _ true true [_] [] 0 0 Hp _). apply performs_ret.
  - exact (performs_bind _ _ false _ [] _ 0 0 Hp IH).
Qed.

(** The messages that end a change of the mode or of the power. *)
Lemma performs_mode device :
  performs
    (family ← nl_begin;
     ifindex ← ask (If_index device);
     let attrs := [U32 NL80211_ATTR_IFINDEX ifindex; U32 NL80211_ATTR_IFTYPE NL80211_IFTYPE_MONITOR] in
     ok ← put_all attrs;
     if ok : bool then
       _ ← ask (Send (MkNlMsg family NL80211_CMD_SET_INTERFACE attrs));
       up ← set_wifi_up_down device true;
       nl_end;; mret up
     else nl_end;; mret false) true
    [Message (message family ifindex device NL80211_CMD_SET_INTERFACE [U32 NL80211_ATTR_IFTYPE NL80211_IFTYPE_MONITOR]);
     Flags (String.substring 0 16 device) IFF_UP] 1.
Proof using G.
  intros t. unfold set_wifi_up_down. run_io. granted. rewrite <-!app_assoc. eexists _, [_].
  split; [reflexivity|]. split; [reflexivity|]. split; [done|]. release.
Qed.

Lemma performs_monitor device :
  performs (set_wifi_monitor_mode device) true (effects_of (HttpServer.set_wifi_monitor_mode device)) 2.
Proof using G.
  unfold set_wifi_monitor_mode. apply (performs_bind _ _ true _ _ _ 1 1 (performs_up_down device false)). cbn [negb].
  apply (performs_bind _ _ _ _ _ _ 0 1 (performs_file rtl_monitor "1")). apply performs_mode.
Qed.

Lemma performs_power_message device power :
  performs
    (family ← nl_begin;
     ifindex ← ask (If_index device);
     let attrs := [U32 NL80211_ATTR_IFINDEX ifindex;
                   U32 NL80211_ATTR_WIPHY_TX_POWER_SETTING NL80211_TX_POWER_FIXED;
                   U32 NL80211_ATTR_WIPHY_TX_POWER_LEVEL power] in
     ok ← put_all attrs;
     if ok : bool then
       _ ← ask (Send (MkNlMsg family NL80211_CMD_SET_WIPHY attrs)); nl_end;; mret true
     else nl_end;; mret false) true
    [Message (message family ifindex device NL80211_CMD_SET_WIPHY
       [U32 NL80211_ATTR_WIPHY_TX_POWER_SETTING NL80211_TX_POWER_FIXED; U32 NL80211_ATTR_WIPHY_TX_POWER_LEVEL power])] 0.
Proof using G.
  intros t. run_io. granted. rewrite <-!app_assoc. eexists _, [].
  split; [reflexivity|]. split; [reflexivity|]. split; [done|]. release.
Qed.

Lemma performs_txpower device power :
  performs (set_wifi_txpower device power) (existsb file (ath9k_files ++ [rtl_power]))
    (effects_of (HttpServer.set_wifi_txpower device power)) 0.
Proof using G.
  set (text := print_d (scaled_txpower power)). pose proof (performs_first ath9k_files text) as Ha.
  unfold set_wifi_txpower. cbn [call_effects]. fold text. cbv zeta. rewrite existsb_app.
  destruct (List.find file ath9k_files) as [path|] eqn:Ef.
  - assert (existsb file ath9k_files = true) as E.
    { apply List.find_some in Ef as [Hin Hf]. apply existsb_exists. by exists path. }
    rewrite E in *. cbn [orb]. rewrite <-(app_nil_r [Wrote path text]).
    refine (performs_bind _ _ true true _ [] 0 0 Ha _). apply performs_ret.
  - assert (existsb file ath9k_files = false) as E.
    { apply not_true_iff_false. intros (p & Hp & Hf)%existsb_exists. pose proof (List.find_none _ _ Ef p Hp). congruence. }
    rewrite E in *. cbn [orb existsb]. rewrite orb_false_r. refine (performs_bind _ _ false _ [] _ 0 0 Ha _).
    cbv beta iota. pose proof (performs_file rtl_power text) as Hr. unfold wrote in Hr. destruct (file rtl_power).
    + refine (performs_bind _ _ true true [_] [_] 0 0 Hr _). cbn [negb]. apply performs_power_message.
    + refine (performs_bind _ _ false false [] [] 0 0 Hr _). apply performs_ret.
Qed.

Lemma performs_open c : performs (r ← ask (Open_socket c); mret (0 <=? r)) (device_opens c) [Opened c] 0.
Proof using G.
  intros t. run_io. rewrite (g_open _ _ _ _ _ _ G). eexists _, [].
  split; [by destruct (device_opens c)|]. split; [reflexivity|]. split; [done|]. release.
Qed.

Lemma performs_call c : performs (card_call c) (result_of c) (effects_of c) (lost_sockets c).
Proof using G.
  destruct c; [apply performs_up_down|apply performs_up_down|apply performs_monitor|apply performs_frequency
    |apply performs_bitrate|apply performs_txpower|apply performs_open|apply performs_open].
Qed.
End granted.

(** A world without memory: the scan finds the frequencies it accepts. *)
Lemma probe_accepted (w : world) device accepts fs : forall found h,
  (forall h f, w h (HttpServer.set_wifi_frequency device f) = accepts f) ->
  (probe w device fs found h).1 = found ++ List.filter accepts fs.
Proof.
  induction fs as [|f fs IH]; intros found h Hw; cbn [probe List.filter]; [by rewrite app_nil_r|].
  unfold perform. rewrite Hw, IH by done. destruct (accepts f); [by rewrite <-app_assoc|done].
Qed.

Lemma frequency_list_accepted (w : world) device accepts h :
  (forall h f, w h (HttpServer.set_wifi_frequency device f) = accepts f) ->
  (get_wifi_frequency_list w device h).1 = List.filter accepts (frequencies_2GHz ++ frequencies_5GHz).
Proof.
  intros Hw. unfold get_wifi_frequency_list. destruct (probe w device frequencies_2GHz [] h) as [found h1] eqn:E.
  rewrite (probe_accepted w device accepts) by done. rewrite List.filter_app. f_equal.
  pose proof (probe_accepted w device accepts frequencies_2GHz [] h Hw) as H. by rewrite E in H.
Qed.

(** ** Properties *)

(** C23: the functions that configure the cards do to the kernel what they are
    for. For a kernel that grants sockets, flags and attributes, any sequence of
    calls makes exactly the changes of the specification, in order: interfaces
    up and down, one netlink message per change with the index of the interface
    first, one line for the driver's file. A call succeeds if its files are there
    and, for a frequency, if the kernel reports no error; what it answers to the
    other messages is not looked at. Each change of the flags leaves a socket
    open for ever, and nothing else stays open. The scan of a card finds the
    frequencies that the kernel accepts. *)
Theorem card_calls (K : kernel) (family : Z) (ifindex : string -> Z) (file : string -> bool) (reply : nl_msg -> Z)
    (device_opens : call -> bool) (h : history) :
  grants K family ifindex file reply device_opens ->
  effects (requests K h) = concat (map (call_effects family ifindex file) h) /\
  (forall c, card_world K h c = call_result family ifindex file reply device_opens c) /\
  (exists fds, held (events (requests K h)) = map Fd fds /\ length fds = sum_list_with lost_sockets h) /\
  forall device, (get_wifi_frequency_list (card_world K) device h).1 =
    List.filter (fun f => 0 <=? reply (frequency_message family ifindex device f)) (frequencies_2GHz ++ frequencies_5GHz).
Proof.
  intros G. assert (forall h c, card_world K h c = call_result family ifindex file reply device_opens c) as Hw.
  { intros h' c. unfold card_world. by destruct (performs_call K _ _ _ _ _ G c (requests K h')) as (seg & fds & -> & _). }
  assert (effects (requests K h) = concat (map (call_effects family ifindex file) h) /\
    exists fds, held (events (requests K h)) = map Fd fds /\ length fds = sum_list_with lost_sockets h) as [H1 H2].
  { induction h as [|c h [IH1 (fds & IH2 & IH3)]] using rev_ind; [split; [done|by exists []]|].
    unfold requests. rewrite foldl_app. cbn [foldl]. fold (requests K h).
    destruct (performs_call K _ _ _ _ _ G c (requests K h)) as (seg & fds' & -> & He & Hn & Hh). cbn [snd].
    rewrite effects_app, events_app, map_app, concat_app, sum_list_with_app, IH1, He. cbn. rewrite app_nil_r.
    split; [done|]. exists (fds ++ fds'). unfold held in *. rewrite foldl_app, IH2, Hh, map_app, length_app, IH3, Hn.
    - split; [done|lia].
    - apply Forall_forall. intros x Hx. apply list_elem_of_fmap in Hx as (fd & -> & _). by exists fd. }
  split; [done|]. split; [done|]. split; [done|]. intros device. by apply frequency_list_accepted.
Qed.

(** A kernel with one card that knows the first channel of 2.4 GHz only, and
    refuses every other change. *)
Definition demo_reply (m : nl_msg) : Z :=
  match n_attrs m with [_; U32 NL80211_ATTR_WIPHY_FREQ 2412] => 1 | _ => -22 end.
Definition demo_kernel : kernel := fun t r =>
  match r with
  | Socket => Z.of_nat (length t)
  | Resolve _ => 28
  | If_index _ => 4
  | Send m => demo_reply m
  | _ => 0
  end.

Lemma demo_kernel_grants : grants demo_kernel 28 (fun _ => 4) (fun _ => false) demo_reply (fun _ => true).
Proof. split; intros; cbn; lia || done. Qed.

Lemma card_calls_witness :
  let h := [HttpServer.set_wifi_monitor_mode "wlan0"; HttpServer.set_wifi_frequency "wlan0" 2412] in
  effects (requests demo_kernel h) =
    [Flags "wlan0" 0;
     Message (MkNlMsg 28 NL80211_CMD_SET_INTERFACE [U32 NL80211_ATTR_IFINDEX 4; U32 NL80211_ATTR_IFTYPE 6]);
     Flags "wlan0" 1;
     Message (MkNlMsg 28 NL80211_CMD_SET_WIPHY [U32 NL80211_ATTR_IFINDEX 4; U32 NL80211_ATTR_WIPHY_FREQ 2412])] /\
  card_world demo_kernel [] (HttpServer.set_wifi_monitor_mode "wlan0") = true /\
  card_world demo_kernel h (HttpServer.set_wifi_frequency "wlan0" 2417) = false /\
  (exists fds, held (events (requests demo_kernel h)) = map Fd fds /\ length fds = 2%nat) /\
  (get_wifi_frequency_list (card_world demo_kernel) "wlan0" h).1 = [2412].
Proof.
  intros h. pose proof demo_kernel_grants as G.
  destruct (card_calls demo_kernel _ _ _ _ _ h G) as (H1 & H2 & H3 & H4). split; [exact H1|].
  split; [exact (proj1 (proj2 (card_calls demo_kernel _ _ _ _ _ [] G)) _)|]. split; [exact (H2 _)|].
  split; [exact H3|]. exact (H4 "wlan0"%string).
Defined.

(** The mode of a card counts as changed when the kernel has refused to change
    it: the answer to the message is never read. *)
Theorem monitor_mode_unchecked (K : kernel) (family : Z) (ifindex : string -> Z) (file : string -> bool)
    (device_opens : call -> bool) (device : string) :
  grants K family ifindex file (fun _ => -22) device_opens ->
  card_world K [] (HttpServer.set_wifi_monitor_mode device) = true /\
  card_world K [] (HttpServer.set_wifi_frequency device 2412) = false.
Proof.
  intros G. unfold card_world. change (requests K []) with (@nil request).
  destruct (performs_call K _ _ _ _ _ G (HttpServer.set_wifi_monitor_mode device) []) as (? & ? & -> & _).
  by destruct (performs_call K _ _ _ _ _ G (HttpServer.set_wifi_frequency device 2412) []) as (? & ? & -> & _).
Qed.

(** The power of a card whose configuration has no "txpower" is 20; in the unit
    of the function, hundredths of a dBm, that is no power. *)
Example default_txpower : scaled_txpower 20 = 0 /\ scaled_txpower 2000 = 40.
Proof. split; reflexivity. Qed.
