(* ===== verification/Bridge.v ===== *)
(** * The main program: src/src/wfb_bridge.cc

    The table of the links built from the configuration file, the choice of
    the cards, and their configuration. [INIReader] is the reader of the
    configuration file, a library; the model is parametric in what it returns.
    [None] is an access outside [port_lut]. *)

From S2P Require Import Prelude Gf256 GfField FecBlock FecEncoder FecLink RawSend TransferStats SendThread.
From S2P Require Import TunInterface HttpServer.
Local Open Scope string_scope.
Local Open Scope Z_scope.

Record INIReader := MkINIReader {
  Sections : list string;                             (* in the order of the set *)
  Get : string -> string -> string -> string;         (* section, name, default *)
  GetInteger : string -> string -> Z -> Z
}.

(** ** The links *)

(** [uint16_t blocksize = mtu - FEC_OVERHEAD - RAW_SOCKET_OVERHEAD] *)
Definition blocksize (mtu : Z) : Z := wrap 16 (mtu - FEC_OVERHEAD - RAW_SOCKET_OVERHEAD).

Record links := MkLinks {
  l_encs : list FECEncoder;
  port_msg_lut : port_table;
  port_lut : list Z;                (* 16 entries, indeterminate at first *)
  l_port : Z                        (* uint8_t *)
}.

Definition is_link (group : string) : bool := String.eqb (String.substring 0 5 group) "link-".

Definition link_type_of (type : string) : LinkType :=
  if String.eqb type "data" then DATA_LINK
  else if String.eqb type "short" then SHORT_DATA_LINK
  else if String.eqb type "rts" then RTS_DATA_LINK
  else DATA_LINK.

Definition link_options (conf : INIReader) (group : string) : WifiOptions :=
  MkWifiOptions (link_type_of (Get conf group "type" "data")) (wrap 8 (GetInteger conf group "datarate" 18)).

Definition link_ip_port (conf : INIReader) (group : string) : Z := wrap 16 (GetInteger conf group "ip_port" 0).

(** The body of the loop over the sections. [T] is the state of the tables of
    fec.c, which the constructor of the encoder sets up. *)
Definition add_link (conf : INIReader) (bs : Z) (group : string) (s : fec_state * links)
  : option (fec_state * links) :=
  let '(T, l) := s in
  if negb (is_link group) then Some (T, l)
  else
    let priority := wrap 8 (GetInteger conf group "priority" 100) in
    let nblocks := wrap 8 (GetInteger conf group "blocks" 0) in
    let nfec_blocks := wrap 8 (GetInteger conf group "fec" 0) in
    let '(T, e) := FECEncoder_new T nblocks nfec_blocks bs 1 in
    let ip_port := link_ip_port conf group in
    let m := MkMessage (replicate (Z.to_nat bs) x00) (l_port l) ip_port priority (link_options conf group)
               (Some (length (l_encs l))) in
    let lut := table_set ip_port m (port_msg_lut l) in
    if l_port l <? RAW_SOCKET_NPORTS then
      Some (T, MkLinks (l_encs l ++ [e]) lut (<[Z.to_nat (l_port l) := ip_port]> (port_lut l)) (wrap 8 (l_port l + 1)))
    else None.

Fixpoint add_links (conf : INIReader) (bs : Z) (groups : list string) (s : fec_state * links)
  : option (fec_state * links) :=
  match groups with
  | [] => Some s
  | g :: groups => s ← add_link conf bs g s; add_links conf bs groups s
  end.

Definition links_start (junk : list Z) : links := MkLinks [] [] junk 0.

Definition make_links (conf : INIReader) (T : fec_state) (mtu : Z) (junk : list Z) : option (fec_state * links) :=
  add_links conf (blocksize mtu) (Sections conf) (T, links_start junk).

(** ** The cards *)

(** Has the set of cards changed? [devices] is the list of udev, [current] the
    set of the cards in use. *)
Definition devices_changed (devices : list (string * string)) (current : gset string) : bool :=
  negb (length devices =? size current)%nat || existsb (fun d => negb (bool_decide (d.1 ∈ current))) devices.

(** [parse_device_list], and [splitstr]: the pieces between the delimiters; a
    delimiter at the end adds no empty piece. *)
Fixpoint splitstr_from (s : string) (delim : ascii) (token : string) : list string :=
  match s with
  | EmptyString => if String.eqb token "" then [] else [token]
  | String a s => if Ascii.eqb a delim then token :: splitstr_from s delim "" else splitstr_from s delim (token ++ String a "")
  end.
Definition splitstr (s : string) (delim : ascii) : list string := splitstr_from s delim "".

Definition parse_device_list (conf : INIReader) (field : string) : gset string :=
  list_to_set (splitstr (Get conf "devices" field "") ",").

Definition role (conf : INIReader) (device : string) : string := Get conf ("device-" ++ device) "type" "unspecified".

(** The first test of [configure_device]. *)
Definition refused (type : string) (transmit relay : bool) : bool :=
  let ignore := String.eqb type "ignore" in
  let is_relay := String.eqb type "relay" in
  let is_transmitter := String.eqb type "transmitter" in
  let is_receiver := String.eqb type "receiver" in
  ignore || (transmit && (is_receiver || is_relay))
  || (negb transmit && (is_transmitter || (is_relay && negb relay)))
  || (relay && negb is_relay).

(** An integer of the device's own section, or if it is [unset] of the section
    of its type. *)
Definition device_integer (conf : INIReader) (conv : Z -> Z) (device device_type name : string) (unset dflt : Z) : Z :=
  let v := conv (GetInteger conf ("device-" ++ device) name unset) in
  if v =? unset then conv (GetInteger conf ("device-" ++ device_type) name dflt) else v.

Record settings := MkSettings { mcs : bool; stbc : bool; ldpc : bool; mode : string }.

Definition read_settings (conf : INIReader) (device device_type dev_mode : string) : settings :=
  let get_mode := Get conf ("device-" ++ device) "mode" "" in
  MkSettings (device_integer conf (swrap 32) device device_type "mcs" (-1) 0 =? 1)
    (device_integer conf (swrap 32) device device_type "stbc" (-1) 0 =? 1)
    (device_integer conf (swrap 32) device device_type "ldpc" (-1) 0 =? 1)
    (if String.eqb get_mode "" then dev_mode else get_mode).

Definition mcs_legacy_datarates : list Z := [11; 22; 36; 48; 72; 96; 108].

(** The bitrate of the card; only bringing it up can fail. *)
Definition configure_bitrate (w : world) (device : string) (datarate : Z) (h : history) : bool * history :=
  if (0 <=? datarate) && (datarate <? 7) then
    let bitrate := nth (Z.to_nat datarate) mcs_legacy_datarates 0 in
    let '(up, h) := perform w (set_wifi_up device) h in
    if negb up then (false, h)
    else
      let '(_, h) := perform w (set_wifi_legacy_bitrate device bitrate) h in
      let '(_, h) := perform w (set_wifi_down device) h in
      (true, h)
  else (true, h).

(** [configure_device]: the result, the settings (if it gets as far), and the
    [mode] argument, which is a reference. [do_configure] is not used. *)
Definition configure_device (w : world) (conf : INIReader) (device device_type : string) (transmit relay : bool)
    (dev_mode : string) (s : HTTPServer) (h : history) : option settings * string * HTTPServer * history :=
  if refused (role conf device) transmit relay then (None, dev_mode, s, h)
  else
    let freq := device_integer conf (wrap 32) device device_type "frequency" 0 2412 in
    let txpower := device_integer conf (wrap 32) device device_type "txpower" 0 20 in
    let datarate := device_integer conf (swrap 32) device device_type "datarate" (-1) (-1) in
    let cfg := read_settings conf device device_type dev_mode in
    let dev_mode := mode cfg in
    let '(ok, h) := configure_bitrate w device datarate h in
    if negb ok then (None, dev_mode, s, h)
    else
      let '(ok, h) := perform w (set_wifi_monitor_mode device) h in
      if negb ok then (None, dev_mode, s, h)
      else
        let '(ok, s, h) := update_frequencies w s device freq h in
        if negb ok then (None, dev_mode, s, h)
        else
          let '(_, h) := perform w (set_wifi_txpower device txpower) h in
          (Some cfg, dev_mode, s, h).

(** A card of the loop for the transmit card or, with [relay], the relay card:
    configured and opened, or passed over. *)
Definition try_sender (w : world) (conf : INIReader) (relay : bool) (global_mode : string)
    (dev : string * string) (s : HTTPServer) (h : history) : option (string * settings) * HTTPServer * history :=
  let '(device, device_type) := dev in
  let '(cfg, _, s, h) := configure_device w conf device device_type (negb relay) relay global_mode s h in
  match cfg with
  | None => (None, s, h)
  | Some c =>
      let '(ok, h) := perform w (open_send_socket device (String.eqb (mode c) "ground") (mcs c) (stbc c) (ldpc c)) h in
      (if ok then Some (device, c) else None, s, h)
  end.

Fixpoint pick_sender (w : world) (conf : INIReader) (relay : bool) (global_mode : string)
    (devices : list (string * string)) (s : HTTPServer) (h : history)
  : option (string * settings) * HTTPServer * history :=
  match devices with
  | [] => (None, s, h)
  | dev :: devices =>
      match try_sender w conf relay global_mode dev s h with
      | (None, s, h) => pick_sender w conf relay global_mode devices s h
      | r => r
      end
  end.

(** A card of the loop for the receive card. It passes the global mode itself
    to [configure_device] and opens the socket with a copy made before. *)
Definition try_receiver (w : world) (conf : INIReader) (global_mode : string) (dev : string * string)
    (s : HTTPServer) (h : history) : option (string * bool) * string * HTTPServer * history :=
  let '(device, device_type) := dev in
  let ground := String.eqb global_mode "ground" in
  let '(cfg, global_mode, s, h) := configure_device w conf device device_type false false global_mode s h in
  match cfg with
  | None => (None, global_mode, s, h)
  | Some _ =>
      let '(ok, h) := perform w (open_receive_socket device ground) h in
      (if ok then Some (device, ground) else None, global_mode, s, h)
  end.

Fixpoint pick_receiver (w : world) (conf : INIReader) (global_mode : string)
    (devices : list (string * string)) (s : HTTPServer) (h : history)
  : option (string * bool) * string * HTTPServer * history :=
  match devices with
  | [] => (None, global_mode, s, h)
  | dev :: devices =>
      match try_receiver w conf global_mode dev s h with
      | (None, global_mode, s, h) => pick_receiver w conf global_mode devices s h
      | r => r
      end
  end.

Record cards := MkCards {
  transmit_card : option (string * settings);
  relay_card : option (string * settings);
  receive_card : option (string * bool);
  global_mode : string
}.

(** The part of the main loop after a change of the cards. *)
Definition configure_cards (w : world) (conf : INIReader) (gmode : string) (devices : list (string * string))
    (s : HTTPServer) (h : history) : cards * HTTPServer * history :=
  let '(tx, s, h) := pick_sender w conf false gmode devices s h in
  let '(rl, s, h) := pick_sender w conf true gmode devices s h in
  let '(rx, gmode, s, h) := pick_receiver w conf gmode devices s h in
  (MkCards tx rl rx gmode, s, h).

(** ** The table of the links is well formed *)

(** [n] links: their messages, encoders and radio ports belong together. *)
Record links_ok (bs : Z) (n : nat) (l : links) : Prop := {
  lk_encs : length (l_encs l) = n;
  lk_port : l_port l = Z.of_nat n;
  lk_max : Z.of_nat n <= RAW_SOCKET_NPORTS;
  lk_lut : length (port_lut l) = Z.to_nat RAW_SOCKET_NPORTS;
  lk_sorted : sorted (port_msg_lut l);
  lk_idle : Forall (fun e => enc_ok e /\ m_in_blocks e = [] /\ FecEncoder.m_out_blocks e = [] /\ m_max_block_size e = bs /\
                        m_seq_num e = 1) (l_encs l);
  lk_find : forall k m, table_find k (port_msg_lut l) = Some m ->
    exists i, enc m = Some i /\ (i < n)%nat /\ port m = Z.of_nat i /\ ip_port m = k /\
      port_lut l !! i = Some k
}.

Definition link_groups (conf : INIReader) : list string := filter (fun g => is_link g = true) (Sections conf).

Lemma add_link_ok conf bs g T n l :
  0 <= bs < 65536 -> links_ok bs n l -> is_link g = true -> Z.of_nat n < RAW_SOCKET_NPORTS ->
  exists T' l', add_link conf bs g (T, l) = Some (T', l') /\ links_ok bs (S n) l'.
Proof.
  intros Hbs [He Hp Hmax Hl Hs Hi Hf] Hg Hn. unfold add_link, FECEncoder_new. rewrite Hg. cbn [negb].
  generalize (Gf256.fec_init T). intros T'. rewrite Hp, (proj2 (Z.ltb_lt _ _)) by done.
  eexists T', _. split; [reflexivity|]. unfold RAW_SOCKET_NPORTS in *. set (e := MkFECEncoder _ _ _ _ [] []).
  split; cbn [l_encs l_port port_lut port_msg_lut].
  - rewrite length_app, He. simpl. lia.
  - rewrite wrap_small by (change (2 ^ 8) with 256; lia). lia.
  - unfold RAW_SOCKET_NPORTS. lia.
  - by rewrite length_insert.
  - by apply table_set_sorted.
  - apply Forall_app. split; [done|]. apply Forall_singleton. split; [|done].
    apply (FECEncoder_new_ok T); lia || apply wrap_range; lia.
  - intros k m. rewrite table_find_set by done. rewrite Nat2Z.id.
    destruct (Z.eqb_spec k (link_ip_port conf g)) as [->|Hne].
    + intros [= <-]. exists n. cbn [enc port ip_port]. rewrite He. split; [done|]. split; [lia|].
      split; [done|]. split; [done|]. apply list_lookup_insert_eq. rewrite Hl. lia.
    + intros Hk. destruct (Hf k m Hk) as (i & H1 & H2 & H3 & H4 & H5). exists i.
      split; [done|]. split; [lia|]. split; [done|]. split; [done|].
      rewrite list_lookup_insert_ne by lia. done.
Qed.

Lemma add_link_other conf bs g s : is_link g = false -> add_link conf bs g s = Some s.
Proof. intros Hg. unfold add_link. destruct s as [T l]. by rewrite Hg. Qed.

Lemma add_link_full conf bs g T l :
  is_link g = true -> RAW_SOCKET_NPORTS <= l_port l -> add_link conf bs g (T, l) = None.
Proof.
  intros Hg Hp. unfold add_link, FECEncoder_new. rewrite Hg. cbn [negb].
  generalize (Gf256.fec_init T). intros T'. by rewrite (proj2 (Z.ltb_ge _ _)).
Qed.

Lemma add_links_spec conf bs groups : forall T n l,
  0 <= bs < 65536 -> links_ok bs n l ->
  let n' := (n + length (filter (fun g => is_link g = true) groups))%nat in
  if decide (Z.of_nat n' <= RAW_SOCKET_NPORTS)
  then exists T' l', add_links conf bs groups (T, l) = Some (T', l') /\ links_ok bs n' l'
  else add_links conf bs groups (T, l) = None.
Proof.
  induction groups as [|g groups IH]; intros T n l Hbs Hl; cbn zeta; cbn [add_links].
  - cbn [filter list_filter length]. rewrite Nat.add_0_r. rewrite decide_True by apply Hl. by exists T, l.
  - rewrite filter_cons. destruct (is_link g) eqn:Hg.
    + rewrite (decide_True (P := true = true)) by done. cbn [length]. rewrite Nat.add_succ_r, <-Nat.add_succ_l.
      destruct (decide (Z.of_nat n < RAW_SOCKET_NPORTS)) as [Hn|Hn].
      * destruct (add_link_ok conf bs g T n l) as (T' & l' & -> & Hl'); [done..|].
        cbn [mbind option_bind]. by apply IH.
      * rewrite decide_False by lia. rewrite add_link_full; [done|done|]. rewrite (lk_port _ _ _ Hl). lia.
    + rewrite (decide_False (P := false = true)) by done. rewrite add_link_other by done. cbn [mbind option_bind]. by apply IH.
Qed.

(** What a successful run of the loop leaves, and the tables of fec.c after it. *)
Lemma make_links_ok conf T mtu junk T' l :
  length junk = Z.to_nat RAW_SOCKET_NPORTS -> make_links conf T mtu junk = Some (T', l) ->
  links_ok (blocksize mtu) (length (link_groups conf)) l.
Proof.
  intros Hj E. pose proof (add_links_spec conf (blocksize mtu) (Sections conf) T 0 (links_start junk)) as H.
  cbn zeta in H. unfold make_links in E. rewrite E in H.
  assert (0 <= blocksize mtu < 65536) as Hb by (unfold blocksize; apply (wrap_range 16); lia).
  specialize (H Hb ltac:(by split)). destruct (decide _) in H; [|done].
  by destruct H as (T1 & l1 & [= <- <-] & Hl).
Qed.

(** ** What the configuration says *)

(** The section for an IP port: the last one that names it, with its place. *)
Definition section_ip_port (conf : INIReader) (g : string) : Z := wrap 16 (GetInteger conf g "ip_port" 0).

Fixpoint last_section (conf : INIReader) (k : Z) (i : nat) (groups : list string) : option (nat * string) :=
  match groups with
  | [] => None
  | g :: groups =>
      match last_section conf k (S i) groups with
      | Some r => Some r
      | None => if section_ip_port conf g =? k then Some (i, g) else None
      end
  end.

(** The prototype message and the encoder of the section at place [i]. *)
Definition section_message (conf : INIReader) (bs : Z) (i : nat) (g : string) : Message := {|
  msg := replicate (Z.to_nat bs) x00;
  port := Z.of_nat i;
  ip_port := section_ip_port conf g;
  priority := wrap 8 (GetInteger conf g "priority" 100);
  opts := {|
    link_type := if decide (Get conf g "type" "data" = "short") then SHORT_DATA_LINK
                 else if decide (Get conf g "type" "data" = "rts") then RTS_DATA_LINK else DATA_LINK;
    data_rate := wrap 8 (GetInteger conf g "datarate" 18) |};
  enc := Some i |}.

Definition section_encoder (conf : INIReader) (bs : Z) (g : string) : FECEncoder := {|
  m_seq_num := 1;
  m_num_blocks := wrap 8 (GetInteger conf g "blocks" 0);
  m_num_fec_blocks := wrap 8 (GetInteger conf g "fec" 0);
  m_max_block_size := bs;
  m_in_blocks := [];
  FecEncoder.m_out_blocks := [] |}.

Lemma last_section_snoc conf k g groups : forall i,
  last_section conf k i (groups ++ [g])%list
    = if section_ip_port conf g =? k then Some ((i + length groups)%nat, g) else last_section conf k i groups.
Proof.
  induction groups as [|g' groups IH]; intros i; cbn [last_section app length].
  - rewrite Nat.add_0_r. by destruct (_ =? _).
  - rewrite IH. destruct (_ =? _); [|done]. do 2 f_equal. lia.
Qed.

Lemma link_type_spec type :
  link_type_of type = if decide (type = "short") then SHORT_DATA_LINK
                      else if decide (type = "rts") then RTS_DATA_LINK else DATA_LINK.
Proof.
  unfold link_type_of. destruct (String.eqb_spec type "data") as [->|_]; [done|].
  destruct (String.eqb_spec type "short") as [->|Hs]; [done|]. rewrite (decide_False (P := type = "short")) by done.
  destruct (String.eqb_spec type "rts") as [->|Hr]; [done|]. by rewrite decide_False.
Qed.

Lemma is_link_prefix g : is_link g = String.prefix "link-" g.
Proof.
  unfold is_link. do 5 (destruct g as [|c g]; [done|]; cbn [String.substring String.prefix String.eqb];
    match goal with |- context [ascii_dec ?a c] => destruct (ascii_dec a c) as [<-|Hne];
      [rewrite Ascii.eqb_refl|rewrite (proj2 (Ascii.eqb_neq c a)) by congruence; done] end).
  by destruct g.
Qed.

Lemma link_groups_prefix conf : link_groups conf = filter (fun g => String.prefix "link-" g = true) (Sections conf).
Proof. unfold link_groups. apply list_filter_iff. intros g. by rewrite is_link_prefix. Qed.

(** The state of the loop after the sections [groups]. *)
Record tabled (conf : INIReader) (bs : Z) (junk : list Z) (groups : list string) (l : links) : Prop := {
  tb_encs : l_encs l = map (section_encoder conf bs) groups;
  tb_lut : port_lut l = (map (section_ip_port conf) groups ++ drop (length groups) junk)%list;
  tb_find : forall k, table_find k (port_msg_lut l)
              = (fun ig => section_message conf bs ig.1 ig.2) <$> last_section conf k 0 groups;
  tb_sorted : sorted (port_msg_lut l);
  tb_port : l_port l = Z.of_nat (length groups)
}.

Lemma add_link_table conf bs junk g groups T l T' l' :
  length junk = Z.to_nat RAW_SOCKET_NPORTS -> is_link g = true ->
  tabled conf bs junk groups l -> add_link conf bs g (T, l) = Some (T', l') -> tabled conf bs junk (groups ++ [g])%list l'.
Proof.
  intros Hj Hg [He Hl Hf Hs Hp] E. unfold add_link, FECEncoder_new in E. rewrite Hg in E. cbn [negb] in E.
  destruct (Z.ltb_spec (l_port l) RAW_SOCKET_NPORTS) as [Hlt|]; [|done]. apply (inj Some), (f_equal snd) in E. cbn [snd] in E.
  subst l'. unfold RAW_SOCKET_NPORTS in *. split; cbn [l_encs port_lut port_msg_lut l_port].
  - by rewrite map_app, He.
  - rewrite Hp, Nat2Z.id, Hl, map_app, length_app, <-app_assoc.
    rewrite <-(length_map (section_ip_port conf) groups) at 1. rewrite <-(Nat.add_0_r (length (map _ _))), insert_app_r.
    f_equal. destruct (drop (length groups) junk) as [|j js] eqn:Ed.
    { apply (f_equal length) in Ed. rewrite length_drop in Ed. simpl in Ed. lia. }
    cbn. f_equal. rewrite <-drop_drop, Ed. done.
  - intros k. rewrite table_find_set by done. rewrite last_section_snoc. change (link_ip_port conf g) with (section_ip_port conf g).
    rewrite (Z.eqb_sym (section_ip_port conf g)). destruct (k =? _); [|apply Hf]. cbn [fmap option_fmap option_map fst snd Nat.add].
    unfold section_message, link_options. by rewrite link_type_spec, He, length_map, Hp.
  - by apply table_set_sorted.
  - rewrite length_app, Hp. cbn [length]. rewrite wrap_small by (change (2 ^ 8) with 256; lia). lia.
Qed.

Lemma add_links_table conf bs junk (Hj : length junk = Z.to_nat RAW_SOCKET_NPORTS) sections : forall groups T l T' l',
  tabled conf bs junk groups l -> add_links conf bs sections (T, l) = Some (T', l') ->
  tabled conf bs junk (groups ++ filter (fun g => is_link g = true) sections)%list l'.
Proof.
  induction sections as [|g sections IH]; intros groups T l T' l' Hl E; cbn [add_links] in E.
  { injection E as <- <-. by rewrite app_nil_r. }
  rewrite filter_cons. destruct (is_link g) eqn:Hg.
  - rewrite decide_True by done. ostep E as [T1 l1] eqn E1. apply add_link_table with (junk := junk) (groups := groups) in E1; [|done..].
    rewrite cons_middle, app_assoc. by eapply IH.
  - rewrite decide_False by done. rewrite add_link_other in E by done. by eapply IH.
Qed.

Lemma add_links_tables conf bs groups : forall T l T' l',
  fec_reachable T -> add_links conf bs groups (T, l) = Some (T', l') ->
  T' = Gf256.fec_init T \/ T' = T /\ l_encs l' = l_encs l.
Proof.
  induction groups as [|g groups IH]; intros T l T' l' HT E; cbn [add_links] in E.
  { injection E as <- <-. by right. }
  destruct (is_link g) eqn:Hg.
  - ostep E as [T1 l1] eqn E1. unfold add_link, FECEncoder_new in E1. rewrite Hg in E1. cbn [negb] in E1.
    destruct (_ <? _); [|done]. apply (inj Some) in E1. apply (f_equal fst) in E1 as E2. cbn [fst] in E2. subst T1.
    left. apply IH in E as [->|[-> _]]; [by apply fec_init_again|done|by constructor].
  - rewrite add_link_other in E by done. by apply IH in E.
Qed.

(** Every message of the TUN thread is one the transmit thread can take. *)
Lemma tun_messages_valid bs n l timeout Es :
  links_ok bs n l -> Forall (valid n) (tun_raw_thread (port_msg_lut l) timeout Es).
Proof.
  intros Hl.
  assert (forall k m data ip, table_find k (port_msg_lut l) = Some m -> valid n (Message_copy m data ip)) as Hv.
  { intros k m data ip Hk. destruct (lk_find _ _ _ Hl k m Hk) as (i & He & Hi & Hp & _).
    unfold valid, port_ok. cbn [enc port Message_copy]. rewrite He. pose proof (lk_max _ _ _ Hl). lia. }
  apply Forall_forall. intros m Hm. unfold tun_raw_thread in Hm.
  rewrite list_elem_of_In, in_concat in Hm. destruct Hm as (ms & Hms & Hm).
  apply in_map_iff in Hms as (E & <- & _). unfold tun_round in Hm.
  destruct (read _ _ _ _ _ _) as [[ok msg] ip]. destruct msg as [|b msg].
  - rewrite in_concat in Hm. destruct Hm as (ms & Hms & Hm). apply in_map_iff in Hms as ([k m'] & <- & Hin).
    cbn in Hm. unfold flush_message in Hm. destruct (enc m') as [i|]; [|done]. destruct (t_flushed E i); [done|].
    destruct Hm as [<-|[]]. eapply Hv. apply table_find_in; [apply Hl|]. by apply list_elem_of_In.
  - destruct (route _ ip) as [m'|] eqn:Er; [|done]. destruct Hm as [<-|[]].
    unfold route in Er. destruct (table_find ip _) as [m1|] eqn:E1; [injection Er as ->|]; by eapply Hv.
Qed.

(** ** The choice of the cards *)

Lemma configure_role w conf device device_type transmit relay dmode s h c m s' h' :
  configure_device w conf device device_type transmit relay dmode s h = (Some c, m, s', h') ->
  refused (role conf device) transmit relay = false.
Proof. unfold configure_device. by destruct (refused _ _ _). Qed.

Lemma pick_sender_role w conf relay gmode devices : forall s h d c s' h',
  pick_sender w conf relay gmode devices s h = (Some (d, c), s', h') ->
  d ∈ map fst devices /\ refused (role conf d) (negb relay) relay = false.
Proof.
  induction devices as [|[d0 t0] devices IH]; intros s h d c s' h'; cbn [pick_sender]; [done|].
  destruct (try_sender _ _ _ _ _ _ _) as [[[[d1 c1]|] s1] h1] eqn:E.
  - intros [= <- <- <- <-]. unfold try_sender in E.
    destruct (configure_device w conf d0 t0 (negb relay) relay gmode s h) as [[[[c2|] m2] s2] h2] eqn:Ec; [|done].
    unfold perform in E. destruct (w _ _); [|done]. injection E as <- <- <- <-.
    split; [left|]. by eapply configure_role.
  - intros H. apply IH in H as [? ?]. split; [by right|done].
Qed.

Lemma pick_receiver_role w conf devices : forall gmode s h d g m s' h',
  pick_receiver w conf gmode devices s h = (Some (d, g), m, s', h') ->
  d ∈ map fst devices /\ refused (role conf d) false false = false.
Proof.
  induction devices as [|[d0 t0] devices IH]; intros gmode s h d g m s' h'; cbn [pick_receiver]; [done|].
  destruct (try_receiver _ _ _ _ _ _) as [[[[[d1 g1]|] m1] s1] h1] eqn:E.
  - intros [= <- <- <- <- <-]. unfold try_receiver in E.
    destruct (configure_device w conf d0 t0 false false gmode s h) as [[[[c2|] m2] s2] h2] eqn:Ec; [|done].
    unfold perform in E. destruct (w _ _); [|done]. injection E as <- <- <- <- <-.
    split; [left|]. by eapply configure_role.
  - intros H. apply IH in H as [? ?]. split; [by right|done].
Qed.

Lemma refused_spec type transmit relay :
  refused type transmit relay = false <->
  type <> "ignore" /\
  (transmit = true -> type <> "receiver" /\ type <> "relay") /\
  (transmit = false -> type <> "transmitter" /\ (type = "relay" -> relay = true)) /\
  (relay = true -> type = "relay").
Proof.
  unfold refused.
  destruct (String.eqb_spec type "ignore"), (String.eqb_spec type "relay"),
    (String.eqb_spec type "transmitter"), (String.eqb_spec type "receiver"),
    transmit, relay; cbn; intuition congruence.
Qed.

(** A card that is the only one, configured for reception. *)
Lemma pick_receiver_mode w conf gmode d t s h d' g m' s' h' :
  pick_receiver w conf gmode [(d, t)] s h = (Some (d', g), m', s', h') ->
  d' = d /\ g = String.eqb gmode "ground" /\ m' = mode (read_settings conf d t gmode).
Proof.
  cbn [pick_receiver]. unfold try_receiver, configure_device. destruct (refused _ _ _); [done|].
  destruct (configure_bitrate _ _ _ _) as [ok h1]. destruct (negb ok); [done|]. unfold perform.
  destruct (negb (w _ _)); [done|]. destruct (update_frequencies _ _ _ _ _) as [[ok2 s2] h2].
  destruct (negb ok2); [done|]. destruct (w _ (open_receive_socket _ _)); [|done]. by intros [= <- <- <- <- <-].
Qed.

Lemma size_subset (A B : gset string) : A ⊆ B -> (size B <= size A)%nat -> A = B.
Proof.
  intros Hs Hl. apply set_eq. intros x. split; [set_solver|]. intros Hx.
  destruct (decide (x ∈ A)) as [|Hn]; [done|]. exfalso.
  assert (A ∪ {[x]} ⊆ B) as H by set_solver. apply subseteq_size in H.
  rewrite size_union, size_singleton in H by set_solver. lia.
Qed.

(** The cards are configured again exactly when the set of cards that udev
    reports differs from the set in use. *)
Lemma devices_changed_false (devices : list (string * string)) (current : gset string) :
  NoDup (map fst devices) ->
  devices_changed devices current = false <-> list_to_set (map fst devices) = current.
Proof.
  intros Hnd. unfold devices_changed.
  assert (size (list_to_set (map fst devices) : gset string) = length devices) as Hsz
    by (rewrite size_list_to_set by done; apply length_map).
  rewrite orb_false_iff, negb_false_iff, Nat.eqb_eq. split.
  - intros [Hl Hex]. apply size_subset; [|lia]. intros d Hd. apply elem_of_list_to_set in Hd.
    apply list_elem_of_In, in_map_iff in Hd as (x & <- & Hx).
    destruct (decide (x.1 ∈ current)) as [|Hn]; [done|]. exfalso.
    assert (existsb (fun d => negb (bool_decide (d.1 ∈ current))) devices = true) as Ht; [|congruence].
    apply existsb_exists. exists x. split; [done|]. by rewrite bool_decide_false.
  - intros <-. split; [by rewrite Hsz|].
    apply not_true_iff_false. rewrite existsb_exists. intros (x & Hx & Hn).
    rewrite bool_decide_true in Hn; [done|]. apply elem_of_list_to_set, list_elem_of_In. by apply in_map.
Qed.

(** ** Properties *)

(** C28: the table of the links. With at most 16 sections whose names begin
    with "link-" every section, in the order of the reader, gets the radio port
    and the encoder of its place in that order; the encoder is fresh, for blocks
    of the MTU without the two overheads, with the numbers of data and FEC
    blocks of the section. The table maps exactly the IP ports of the sections,
    the later section winning where two name the same port, to the message of
    the section: its ports, priority, link type, data rate and encoder; and
    whatever the TUN thread makes of this table is a message the transmit thread
    can take. A seventeenth section is written outside [port_lut]. *)
Theorem link_table (conf : INIReader) (T : fec_state) (mtu : Z) (junk : list Z) :
  length junk = Z.to_nat RAW_SOCKET_NPORTS ->
  let groups := filter (fun g => String.prefix "link-" g = true) (Sections conf) in
  let n := length groups in
  let bs := wrap 16 (mtu - 30) in
  (Z.of_nat n <= RAW_SOCKET_NPORTS -> exists T' l, make_links conf T mtu junk = Some (T', l) /\
     l_encs l = map (section_encoder conf bs) groups /\
     port_lut l = (map (section_ip_port conf) groups ++ drop n junk)%list /\
     (forall k, table_find k (port_msg_lut l) =
        (fun ig => section_message conf bs ig.1 ig.2) <$> last_section conf k 0 groups) /\
     links_ok bs n l /\
     forall timeout Es, Forall (valid n) (tun_raw_thread (port_msg_lut l) timeout Es)) /\
  (RAW_SOCKET_NPORTS < Z.of_nat n -> make_links conf T mtu junk = None).
Proof.
  intros Hj groups n bs. unfold make_links.
  pose proof (add_links_spec conf (blocksize mtu) (Sections conf) T 0 (links_start junk)) as H. cbn zeta in H.
  assert (blocksize mtu = bs) as Ebs by (unfold blocksize, bs; f_equal; unfold FEC_OVERHEAD, RAW_SOCKET_OVERHEAD; lia).
  assert (0 <= blocksize mtu < 65536) as Hb by (unfold blocksize; apply (wrap_range 16); lia).
  assert (links_ok (blocksize mtu) 0 (links_start junk)) as H0 by (by split).
  specialize (H Hb H0). fold (link_groups conf) in H. rewrite link_groups_prefix in H. fold groups in H. fold n in H.
  cbn [Nat.add] in H. split; intros Hn.
  - rewrite decide_True in H by done. destruct H as (T' & l & E & Hl). exists T', l. split; [done|].
    destruct (add_links_table conf (blocksize mtu) junk Hj (Sections conf) [] T (links_start junk) T' l) as [H1 H2 H3 H4 _]; [|done|].
    { by split. }
    cbn [app] in *. fold (link_groups conf) in *. rewrite link_groups_prefix in *. fold groups in H1, H2, H3, H4. rewrite Ebs in *.
    split; [done|]. split; [done|]. split; [done|]. split; [done|]. intros. by eapply tun_messages_valid.
  - by rewrite decide_False in H by lia.
Qed.

Definition demo_conf : INIReader :=
  MkINIReader ["device-wlan0"; "global"; "link-a"; "link-b"]
    (fun sec name dflt => if String.eqb sec "device-wlan0" && String.eqb name "mode" then "air" else dflt)
    (fun sec name dflt => if String.eqb name "ip_port" && String.eqb sec "link-b" then 5601 else dflt).

Lemma link_table_witness :
  exists T' l, make_links demo_conf fec_static 1466 (replicate 16 0) = Some (T', l) /\
    l_encs l = [section_encoder demo_conf 1436 "link-a"; section_encoder demo_conf 1436 "link-b"] /\
    port_lut l = 0 :: 5601 :: replicate 14 0 /\
    table_find 5601 (port_msg_lut l) = Some (section_message demo_conf 1436 1 "link-b") /\
    table_find 80 (port_msg_lut l) = None.
Proof.
  destruct (proj1 (link_table demo_conf fec_static 1466 (replicate 16 0) eq_refl)) as (T' & l & E & H1 & H2 & H3 & _).
  { vm_compute. discriminate. }
  exists T', l. split; [exact E|]. split; [exact H1|]. split; [exact H2|]. split; [exact (H3 5601)|exact (H3 80)].
Defined.

(** C30: the choice of the cards. A card is only used in the role its section
    of the configuration gives it: transmitters never receive, receivers never
    transmit, only relays relay and they do nothing else, and a card to be
    ignored is left alone. The receive socket is opened for the direction of the
    global mode, even if the section of the card sets another; that one is left
    behind in the global mode instead. *)
Theorem card_roles (w : world) (conf : INIReader) (gmode : string) (devices : list (string * string))
    (s s' : HTTPServer) (h h' : history) (c : cards) :
  configure_cards w conf gmode devices s h = (c, s', h') ->
  (forall d cfg, transmit_card c = Some (d, cfg) -> d ∈ map fst devices /\
     role conf d <> "ignore" /\ role conf d <> "receiver" /\ role conf d <> "relay") /\
  (forall d cfg, relay_card c = Some (d, cfg) -> d ∈ map fst devices /\ role conf d = "relay") /\
  (forall d g, receive_card c = Some (d, g) -> d ∈ map fst devices /\
     role conf d <> "ignore" /\ role conf d <> "transmitter" /\ role conf d <> "relay") /\
  (forall d t d' g, devices = [(d, t)] -> receive_card c = Some (d', g) ->
     g = String.eqb gmode "ground" /\
     (Get conf ("device-" ++ d) "mode" "" <> "" -> global_mode c = Get conf ("device-" ++ d) "mode" "")).
Proof.
  unfold configure_cards. destruct (pick_sender w conf false _ _ _ _) as [[tx s1] h1] eqn:Et.
  destruct (pick_sender w conf true _ _ _ _) as [[rl s2] h2] eqn:Er.
  destruct (pick_receiver _ _ _ _ _ _) as [[[rx g1] s3] h3] eqn:Ex. intros [= <- <- <-].
  cbn [transmit_card relay_card receive_card global_mode]. split; [|split; [|split]].
  - intros d cfg ->. apply pick_sender_role in Et as [? Hr%refused_spec]. destruct Hr as (Hi & Hr & _). tauto.
  - intros d cfg ->. apply pick_sender_role in Er as [? Hr%refused_spec]. destruct Hr as (_ & _ & _ & Hr). split; auto.
  - intros d g ->. apply pick_receiver_role in Ex as [? Hr%refused_spec]. destruct Hr as (Hi & _ & Hr & _).
    destruct (Hr eq_refl) as [Ht Hn]. split; [done|]. split; [done|]. split; [done|].
    intros Hrl. by specialize (Hn Hrl).
  - intros d t d' g -> ->. apply pick_receiver_mode in Ex as (_ & -> & ->). split; [done|].
    intros Hm. unfold read_settings. cbn [mode]. by destruct (String.eqb_spec (Get conf ("device-" ++ d) "mode" "") "").
Qed.

Lemma card_roles_witness :
  exists c s' h', configure_cards demo_world demo_conf "ground" [("wlan0", "ar9271")] HTTPServer_new [] = (c, s', h') /\
    (forall d cfg, transmit_card c = Some (d, cfg) -> role demo_conf d <> "ignore") /\
    receive_card c = Some ("wlan0", true) /\ global_mode c = "air".
Proof.
  destruct (configure_cards demo_world demo_conf "ground" [("wlan0", "ar9271")] HTTPServer_new []) as [[c s'] h'] eqn:E.
  exists c, s', h'. split; [reflexivity|].
  destruct (card_roles _ _ _ _ _ _ _ _ _ E) as (Ht & _ & _ & Hm).
  assert (receive_card c = Some ("wlan0", true)) as Hr.
  { apply (f_equal (fun r => receive_card r.1.1)) in E. vm_compute in E. symmetry. exact E. }
  split; [intros d cfg Hd; apply (Ht d cfg Hd)|]. split; [exact Hr|].
  apply (proj2 (Hm "wlan0" "ar9271" "wlan0" true eq_refl Hr)). discriminate.
Defined.
