(* ===== verification/CardLoop.v ===== *)
(** * The main loop of src/src/wfb_bridge.cc

    Twice a second the loop compares the cards that udev reports with those in
    use; after a change it joins the threads that run, forgets their cards and
    starts threads for the cards it now finds. A round is a function of the
    list of udev; the threads started and joined are a trace. *)

From S2P Require Import Prelude HttpServer Bridge.
From stdpp Require Import gmap strings.
Local Open Scope string_scope.
Local Open Scope list_scope.

Inductive thread := Send_thread | Relay_thread | Recv_thread.
#[export] Instance thread_eq_dec : EqDecision thread.
Proof. solve_decision. Defined.

Inductive thread_event := Join (t : thread) | Start (t : thread).

(** [relay_queue]: it exists from the first relay card on, also when no relay
    thread runs any more. *)
Record loop_state := MkLoop {
  current_devices : gset string;
  transmit_device : string;
  receive_device : string;
  send_thread : option (string * settings);
  relay_thread : option (string * settings);
  recv_thread : option (string * bool * bool);   (* device, direction, has a relay queue *)
  relay_queue : bool;
  loop_mode : string
}.

Definition loop_start (gmode : string) : loop_state := MkLoop ∅ "" "" None None None false gmode.

(** The threads that run, in the order in which they are joined. *)
Definition joins (s : loop_state) : list thread_event :=
  (if recv_thread s is Some _ then [Join Recv_thread] else []) ++
  (if send_thread s is Some _ then [Join Send_thread] else []) ++
  (if relay_thread s is Some _ then [Join Relay_thread] else []).

Definition device_of {A} (o : option (string * A)) : string := from_option fst "" o.

(** One round of the loop. *)
Definition loop_round (w : world) (conf : INIReader) (devices : list (string * string)) (s : loop_state)
    (srv : HTTPServer) (h : history) : loop_state * list thread_event * HTTPServer * history :=
  if negb (devices_changed devices (current_devices s)) then (s, [], srv, h)
  else
    let current := list_to_set (map fst devices) in
    let '(tx, srv, h) := pick_sender w conf false (loop_mode s) devices srv h in
    let '(rl, srv, h) := pick_sender w conf true (loop_mode s) devices srv h in
    let queue := if rl is Some _ then true else relay_queue s in
    let '(rx, gmode, srv, h) := pick_receiver w conf (loop_mode s) devices srv h in
    (MkLoop current (device_of tx) (device_of rx) tx rl ((fun r => (r, queue)) <$> rx) queue gmode,
     joins s ++ (if tx is Some _ then [Start Send_thread] else []) ++ (if rl is Some _ then [Start Relay_thread] else [])
     ++ (if rx is Some _ then [Start Recv_thread] else []),
     srv, h).

(** The loop over the lists it sees. *)
Fixpoint loop (w : world) (conf : INIReader) (seen : list (list (string * string))) (s : loop_state)
    (srv : HTTPServer) (h : history) : loop_state * list thread_event * HTTPServer * history :=
  match seen with
  | [] => (s, [], srv, h)
  | devices :: seen =>
      let '(s, es, srv, h) := loop_round w conf devices s srv h in
      let '(s, es', srv, h) := loop w conf seen s srv h in
      (s, es ++ es', srv, h)
  end.

(** ** Threads in a trace *)

(** The threads that run after a trace, or [None]: a second thread of a kind
    is started, or one is joined that does not run. *)
Definition running : Type := thread -> bool.

Definition set_running (t : thread) (b : bool) (r : running) : running := fun t' => if decide (t' = t) then b else r t'.

Fixpoint replay (es : list thread_event) (r : running) : option running :=
  match es with
  | [] => Some r
  | Join t :: es => if r t then replay es (set_running t false r) else None
  | Start t :: es => if r t then None else replay es (set_running t true r)
  end.

Definition bool_of {A} (o : option A) : bool := if o is Some _ then true else false.

Definition runs (s : loop_state) : running := fun t =>
  match t with
  | Send_thread => bool_of (send_thread s)
  | Relay_thread => bool_of (relay_thread s)
  | Recv_thread => bool_of (recv_thread s)
  end.

Lemma replay_app es es' r : replay (es ++ es') r = r' ← replay es r; replay es' r'.
Proof.
  revert r. induction es as [|[t|t] es IH]; intros r; [done|..]; cbn; by destruct (r t).
Qed.

Lemma replay_ext es : forall r1 r2, (forall t, r1 t = r2 t) ->
  match replay es r1, replay es r2 with
  | Some a, Some b => forall t, a t = b t
  | None, None => True
  | _, _ => False
  end.
Proof.
  induction es as [|[t|t] es IH]; intros r1 r2 H; [done|..]; cbn; rewrite <-(H t); destruct (r1 t); try done;
    apply IH; intros t'; unfold set_running; by case_decide.
Qed.

(** A round joins what runs and starts what runs afterwards. *)
Lemma loop_round_replay w conf devices s srv h s' es srv' h' :
  loop_round w conf devices s srv h = (s', es, srv', h') ->
  exists r, replay es (runs s) = Some r /\ forall t, r t = runs s' t.
Proof.
  unfold loop_round. destruct (devices_changed devices (current_devices s)); cbn [negb].
  2: { intros [= <- <- _ _]. by eexists. }
  destruct (pick_sender w conf false _ _ _ _) as [[tx s1] h1], (pick_sender w conf true _ _ _ _) as [[rl s2] h2],
    (pick_receiver _ _ _ _ _ _) as [[[rx g1] s3] h3]. intros [= <- <- _ _].
  unfold joins, runs. destruct (recv_thread s), (send_thread s), (relay_thread s), tx, rl, rx; cbn;
    eexists; (split; [reflexivity|]); by intros [].
Qed.

Lemma loop_replay w conf seen : forall s srv h s' es srv' h',
  loop w conf seen s srv h = (s', es, srv', h') ->
  exists r, replay es (runs s) = Some r /\ forall t, r t = runs s' t.
Proof.
  induction seen as [|devices seen IH]; intros s srv h s' es srv' h'; cbn [loop].
  { intros [= <- <- _ _]. by eexists. }
  destruct (loop_round _ _ _ _ _ _) as [[[s1 es1] srv1] h1] eqn:E1.
  destruct (loop w conf seen s1 srv1 h1) as [[[s2 es2] srv2] h2] eqn:E2. intros [= <- <- _ _].
  apply loop_round_replay in E1 as (r1 & Hr1 & E1). apply IH in E2 as (r2 & Hr2 & E2).
  rewrite replay_app, Hr1. cbn. pose proof (replay_ext es2 r1 (runs s1) E1) as H. rewrite Hr2 in H.
  destruct (replay es2 r1) as [r|]; [|done]. exists r. split; [done|]. intros t. by rewrite H, E2.
Qed.

(** ** What runs is on a card that is there and may do it *)

Record loop_ok (conf : INIReader) (s : loop_state) : Prop := {
  ok_send : forall d c, send_thread s = Some (d, c) -> d ∈ current_devices s /\ refused (role conf d) true false = false;
  ok_relay : forall d c, relay_thread s = Some (d, c) -> d ∈ current_devices s /\ refused (role conf d) false true = false;
  ok_recv : forall d g q, recv_thread s = Some (d, g, q) -> d ∈ current_devices s /\ refused (role conf d) false false = false;
  ok_queue : forall d g q, recv_thread s = Some (d, g, q) -> q = relay_queue s;
  ok_relay_queue : is_Some (relay_thread s) -> relay_queue s = true;
  ok_transmit_device : transmit_device s = device_of (send_thread s);
  ok_receive_device : receive_device s = device_of (fst <$> recv_thread s)
}.

Lemma loop_start_ok conf gmode : loop_ok conf (loop_start gmode).
Proof. split; try done. by intros []. Qed.

Lemma in_current {B} (d : string) (devices : list (string * B)) :
  d ∈ map fst devices -> d ∈ (list_to_set (map fst devices) : gset string).
Proof. by rewrite elem_of_list_to_set. Qed.

Lemma loop_round_ok w conf devices s srv h s' es srv' h' :
  loop_ok conf s -> loop_round w conf devices s srv h = (s', es, srv', h') -> loop_ok conf s'.
Proof.
  intros Hs. unfold loop_round. destruct (devices_changed devices (current_devices s)); cbn [negb]; [|by intros [= <- _ _ _]].
  destruct (pick_sender w conf false _ _ _ _) as [[tx s1] h1] eqn:Et.
  destruct (pick_sender w conf true _ _ _ _) as [[rl s2] h2] eqn:Er.
  destruct (pick_receiver _ _ _ _ _ _) as [[[rx g1] s3] h3] eqn:Ex. intros [= <- _ _ _]. split; cbn.
  - intros d c ->. apply pick_sender_role in Et as [? ?]. split; [by apply in_current|done].
  - intros d c ->. apply pick_sender_role in Er as [? ?]. split; [by apply in_current|done].
  - intros d g q E. destruct rx as [[d' g']|]; [|done]. injection E as -> -> <-.
    apply pick_receiver_role in Ex as [? ?]. split; [by apply in_current|done].
  - intros d g q E. destruct rx as [[d' g']|]; [|done]. by injection E as _ _ <-.
  - by intros [? ->].
  - done.
  - by destruct rx as [[]|].
Qed.

Lemma loop_round_current w conf devices s srv h s' es srv' h' :
  NoDup (map fst devices) -> loop_round w conf devices s srv h = (s', es, srv', h') ->
  current_devices s' = list_to_set (map fst devices).
Proof.
  intros Hnd. unfold loop_round. destruct (devices_changed devices (current_devices s)) eqn:Ec; cbn [negb].
  - by repeat case_match; intros [= <- _ _ _].
  - intros [= <- _ _ _]. symmetry. by apply devices_changed_false.
Qed.

Lemma loop_invariant w conf seen : forall s srv h s' es srv' h',
  Forall (fun devices : list (string * string) => NoDup (map fst devices)) seen -> loop_ok conf s ->
  loop w conf seen s srv h = (s', es, srv', h') ->
  loop_ok conf s' /\ current_devices s' = from_option (fun d => list_to_set (map fst d)) (current_devices s) (last seen).
Proof.
  induction seen as [|devices seen IH]; intros s srv h s' es srv' h' Hnd Hs; cbn [loop].
  { by intros [= <- _ _ _]. }
  apply Forall_cons in Hnd as [Hd Hnd].
  destruct (loop_round _ _ _ _ _ _) as [[[s1 es1] srv1] h1] eqn:E1.
  destruct (loop w conf seen s1 srv1 h1) as [[[s2 es2] srv2] h2] eqn:E2. intros [= <- _ _ _].
  pose proof (loop_round_ok _ _ _ _ _ _ _ _ _ _ Hs E1) as Hs1.
  apply IH in E2 as [Hok Hc]; [|done|done]. split; [done|].
  rewrite (loop_round_current _ _ _ _ _ _ _ _ _ _ Hd E1) in Hc. rewrite Hc, last_cons. by destruct (last seen).
Qed.

(** ** Properties *)

(** C19: the life of the threads. Whatever lists of cards udev reports one
    after the other, no thread of a kind is started while one runs, every
    thread is joined before its card is given up, and those that run are the
    ones the loop knows. They are on cards of the last list, in a role that
    the configuration allows. A list with the same cards changes nothing, not
    even the settings of a card; any other makes the loop start over. *)
Theorem card_loop (w : world) (conf : INIReader) (gmode : string) (seen : list (list (string * string)))
    (srv srv' : HTTPServer) (h h' : history) (s : loop_state) (es : list thread_event) :
  Forall (fun devices : list (string * string) => NoDup (map fst devices)) seen ->
  loop w conf seen (loop_start gmode) srv h = (s, es, srv', h') ->
  (exists r, replay es (fun _ => false) = Some r /\ forall t, r t = runs s t) /\
  loop_ok conf s /\
  current_devices s = from_option (fun d => list_to_set (map fst d)) ∅ (last seen) /\
  forall devices, NoDup (map fst devices) ->
    (list_to_set (map fst devices) = current_devices s -> loop_round w conf devices s srv' h' = (s, [], srv', h')) /\
    (list_to_set (map fst devices) <> current_devices s ->
       exists s1 es1 srv1 h1, loop_round w conf devices s srv' h' = (s1, joins s ++ es1, srv1, h1) /\
         forall t, Join t ∉ es1).
Proof.
  intros Hnd E. destruct (loop_invariant _ _ _ _ _ _ _ _ _ _ Hnd (loop_start_ok conf gmode) E) as [Hok Hc].
  split.
  { destruct (loop_replay _ _ _ _ _ _ _ _ _ _ E) as (r & Hr & H).
    pose proof (replay_ext es (fun _ => false) (runs (loop_start gmode)) ltac:(by intros [])) as Hx. rewrite Hr in Hx.
    destruct (replay es (fun _ => false)) as [r'|]; [|done]. exists r'. split; [done|]. intros t. by rewrite Hx, H. }
  split; [done|]. split; [done|]. intros devices Hd. unfold loop_round. split; intros Hset.
  - by rewrite (proj2 (devices_changed_false devices (current_devices s) Hd) Hset).
  - destruct (devices_changed devices (current_devices s)) eqn:Ec.
    2: { by destruct Hset; apply devices_changed_false. }
    cbn [negb]. destruct (pick_sender w conf false _ _ _ _) as [[tx s1] h1], (pick_sender w conf true _ _ _ _) as [[rl s2] h2],
      (pick_receiver _ _ _ _ _ _) as [[[rx g1] s3] h3]. repeat eexists.
    intros t Ht%list_elem_of_In. destruct tx, rl, rx; cbn in Ht; destruct_or?; discriminate || done.
Qed.

(** A card is plugged in, reported twice, and pulled out. *)
Lemma card_loop_witness :
  exists s es srv' h', loop demo_world demo_conf [[("wlan0", "ar9271")]; [("wlan0", "ar9271")]; []]
      (loop_start "ground") HTTPServer_new [] = (s, es, srv', h') /\
    es = [Start Send_thread; Start Recv_thread; Join Recv_thread; Join Send_thread] /\
    (exists r, replay es (fun _ => false) = Some r /\ forall t, r t = runs s t) /\ current_devices s = ∅.
Proof.
  destruct (loop demo_world demo_conf [[("wlan0", "ar9271")]; [("wlan0", "ar9271")]; []]
      (loop_start "ground") HTTPServer_new []) as [[[s es] srv'] h'] eqn:E.
  exists s, es, srv', h'. split; [reflexivity|].
  destruct (card_loop demo_world demo_conf "ground" [[("wlan0", "ar9271")]; [("wlan0", "ar9271")]; []]
    HTTPServer_new srv' [] h' s es) as (Hr & _ & Hc & _).
  - repeat apply Forall_cons_2; [..|apply Forall_nil_2];
      cbn; match goal with |- NoDup ?l => apply (bool_decide_unpack (NoDup l)); vm_compute; exact I end.
  - exact E.
  - split; [|split; [exact Hr|exact Hc]].
    apply (f_equal (fun r => r.1.1.2)) in E. vm_compute in E. symmetry. exact E.
Defined.
