(* ===== verification/LogThread.v ===== *)
(** * The status exchange: [log_thread] of src/src/log_thread.cc

    A round of the thread takes the status messages of the other side from
    their queue, and when it is time sends the own status and a packed message
    for the ground station's display, and posts the lines of the log: their
    numbers, and their text with [tfm::format] of tinyformat as an argument.
    [None] is undefined behaviour: a [float] that is converted to an integer
    type that cannot hold it. *)

From S2P Require Import Prelude Text FecBlock TransferStats Status.
From S2P Require Import Radiotap RawSend.
From Stdlib Require Import Floats.SpecFloat Strings.String.
Local Open Scope Z_scope.

(** ** Arithmetic *)

Definition ddiv (a b : double) : double := SFdiv 53 1024 a b.
Definition dlit (m e : Z) : double := decimal 53 1024 false m e.

(** Truncation towards zero. *)
Definition trunc_float (f : spec_float) : option Z :=
  match f with
  | S754_zero _ => Some 0
  | S754_finite s m e =>
      let n := if 0 <=? e then Zpos m * 2 ^ e else Zpos m / 2 ^ (- e) in
      Some (if s then - n else n)
  | _ => None
  end.

Definition in_range (lo hi : Z) (z : option Z) : option Z :=
  n ← z; if (lo <=? n) && (n <=? hi) then Some n else None.

(** [kbps(v1, v2, time)] for [uint32_t] counters. *)
Definition kbps (v1 v2 : Z) (time : double) : option Z :=
  let diff := dsub (double_of_int v1) (double_of_int v2) in
  in_range 0 (2 ^ 32 - 1) (round_float (ddiv (dmul diff (dlit 8 (-3))) time)).

(** [avg * 0.9 + 0.1 * v] *)
Definition smooth (avg : float) (v : double) : float :=
  to_float (dadd (dmul (to_double avg) (dlit 9 (-1))) (dmul (dlit 1 (-1)) v)).

(** ** State *)

Record log_state := MkLogState {
  ps : transfer_stats_t;
  pso : transfer_stats_t;
  prev_bytes_in : Z;
  l_rssi : float;
  l_orssi : float;
  krate : float;
  last_stat : double;
  last_log : double
}.

(** The variables before the loop. [prev_bytes_in] starts from the statistics
    of the other side. *)
Definition log_start (now_stat now_log : double) (stats stats_other : TransferStats) : option log_state :=
  s ← get_stats stats;
  o ← get_stats stats_other;
  Some (MkLogState s o (bytes_in o) float_zero float_zero float_zero now_stat now_log).

(** The pause between rounds, in milliseconds; a period of zero is no period. *)
Definition loop_period (syslog_period status_period : float) : option Z :=
  let period :=
    if SFeqb syslog_period float_zero then status_period
    else if SFeqb status_period float_zero then syslog_period
    else if SFltb status_period syslog_period then status_period else syslog_period in
  in_range 0 (2 ^ 32 - 1) (round_float (dmul (double_of_int 100) (to_double period))).

(** ** Messages of the other side *)

(** The result of [update] only decides about a warning. *)
Definition take_status (stats stats_other : TransferStats) (block : list byte) : TransferStats :=
  let '(_, stats_recv) := update (string_of_list_byte block) (TransferStats_new "") in
  if String.eqb (m_name stats_recv) (m_name stats) then stats_other else assign stats_other stats_recv.

Definition take_all (stats stats_other : TransferStats) (log_in : list (list byte)) : TransferStats :=
  foldl (take_status stats) stats_other log_in.

(** ** The packed message *)

(** [wifi_adapter_rx_status_forward_t] *)
Definition adapter_bytes (received_packet_cnt current_signal_dbm type signal_good : Z) : list byte :=
  le32 received_packet_cnt ++ [byte_of current_signal_dbm; byte_of type; byte_of signal_good].

(** [wifibroadcast_rx_status_forward_t] as the thread fills it: [junk] are the
    five adapters that are not written. *)
Definition rx_status (s os : transfer_stats_t) (kbitrate rssi orssi : Z) (good : bool) (junk : list byte) : list byte :=
  le32 (sequence_errors s)                              (* damaged_block_cnt *)
  ++ le32 (block_errors s)                              (* lost_packet_cnt *)
  ++ le32 0                                             (* skipped_packet_cnt *)
  ++ le32 (inject_errors os)                            (* injection_fail_cnt *)
  ++ le32 (blocks_in s)                                 (* received_packet_cnt *)
  ++ le32 kbitrate
  ++ le32 0 ++ le32 0                                   (* kbitrate_measured, kbitrate_set *)
  ++ le32 (block_errors os)                             (* lost_packet_cnt_telemetry_up *)
  ++ le32 0 ++ le32 0 ++ le32 0 ++ le32 0               (* ..telemetry_down, ..msp_up, ..msp_down, ..rc *)
  ++ [byte_of orssi; byte_of orssi; byte_of 0]          (* current_signal_..., joystick_connected *)
  ++ le32 0 ++ le32 0                                   (* HomeLat, HomeLon *)
  ++ [byte_of 0; byte_of 0; byte_of 0; byte_of 0]       (* cpuload and temp *)
  ++ le32 1                                             (* wifi_adapter_cnt *)
  ++ adapter_bytes (blocks_in s) rssi 1 (if good then 1 else 0)
  ++ junk.

(** ** A round *)

(** The numbers of a line of the log: differences to the last post, averages,
    and what has to fit a [uint32_t] or an [int16_t]. *)
Record log_line := MkLogLine {
  ln_name : string;
  ln_interval : double;
  ln_sequences : Z;
  ln_sequence_errors : Z;
  ln_blocks_in : Z;
  ln_blocks_out : Z;
  ln_block_errors : Z;
  ln_inject_errors : Z;
  ln_rate_in : double;
  ln_rate_out : double;
  ln_times : list Z;
  ln_latency : Z;
  ln_rssi : Z
}.

(** What is posted when the logging period is over. *)
Record log_post := MkLogPost {
  own_line : log_line;
  other_line : log_line;
  active_ports : list Z;
  active_text : string
}.

Record log_output := MkLogOutput {
  log_out : list string;                    (* own status *)
  packed_log_out : list (list byte);
  posted : option log_post
}.

(** The status part. [t] is the time, [junk] the indeterminate bytes. *)
Definition send_status (t : double) (status_period : float) (junk : list byte) (stats : TransferStats)
    (s os : transfer_stats_t) (st : log_state) : option (list string * list (list byte) * log_state) :=
  let stat_dur := dsub t (last_stat st) in
  if SFltb (to_double status_period) stat_dur then
    let r := smooth (l_rssi st) (to_double (rssi s)) in
    let o := smooth (l_orssi st) (to_double (rssi os)) in
    k ← kbps (bytes_in s) (prev_bytes_in st) stat_dur;
    let kr := smooth (krate st) (double_of_int k) in
    kb ← in_range 0 (2 ^ 32 - 1) (trunc_float kr);
    ri ← in_range (-128) 127 (trunc_float r);
    oi ← in_range (-128) 127 (trunc_float o);
    let good := SFltb (to_float (double_of_int (-100))) r in
    Some ([serialize stats], [rx_status s os kb ri oi good junk],
          MkLogState (ps st) (pso st) (bytes_in s) r o kr t (last_log st))
  else Some ([], [], st).

(** [mbps(v1, v2, time)] for [uint32_t] counters. *)
Definition mbps (v1 v2 : Z) (time : double) : double :=
  ddiv (dmul (dsub (double_of_int v1) (double_of_int v2)) (dlit 8 (-6))) time.

(** [std::round] of a [double]. *)
Definition round_double (d : double) : double :=
  match d, round_float d with
  | S754_finite s _ _, Some 0 => S754_zero s
  | S754_finite _ _ _, Some z => double_of_int z
  | _, _ => d
  end.

(** [static_cast<uint32_t>(std::round(f))] *)
Definition round_uint32 (f : float) : option Z := in_range 0 (2 ^ 32 - 1) (round_float f).

(** The line of one side, [s] the statistics and [p] those of the last post. *)
Definition line_of (name : string) (log_dur : double) (s p : transfer_stats_t) (signal : float) : option log_line :=
  let diff (f : transfer_stats_t -> Z) := wrap 32 (f s - f p) in
  et ← round_uint32 (encode_time s);
  st ← round_uint32 (send_time s);
  pt ← round_uint32 (pkt_time s);
  lat ← round_uint32 (latency s);
  sig ← in_range (- 2 ^ 15) (2 ^ 15 - 1) (round_float signal);
  Some (MkLogLine name (round_double log_dur) (diff sequences) (diff sequence_errors) (diff blocks_in) (diff blocks_out)
          (diff block_errors) (diff inject_errors) (mbps (bytes_in s) (bytes_in p) log_dur)
          (mbps (bytes_out s) (bytes_out p) log_dur) [et; st; pt] lat sig).

(** The ports in the log: those whose count differs from [ps], which has just
    been set to the present statistics. *)
Definition port_diff (s ps : transfer_stats_t) (pb : Z * BlockBytes) : BlockBytes :=
  BlockBytes_sub pb.2 (default (MkBlockBytes 0 0) (ip_port_blocks ps !! pb.1)).

Definition changed_ports (s ps : transfer_stats_t) : list (Z * BlockBytes) :=
  filter (fun pb => 0 < blocks (port_diff s ps pb)) (map_to_list (ip_port_blocks s)).

(** [operator <<] of [BlockBytes] *)
Definition show_BlockBytes (bb : BlockBytes) : string :=
  ("(" ++ show (blocks bb) ++ "," ++ show (bb_bytes bb / 1000) ++ "kB)")%string.

Definition port_text (s ps : transfer_stats_t) (pb : Z * BlockBytes) : string :=
  (show pb.1 ++ ": " ++ show_BlockBytes (port_diff s ps pb) ++ "  ")%string.

Definition post_log (t : double) (syslog_period : float) (name other_name : string) (s os : transfer_stats_t) (st : log_state)
  : option (option log_post * log_state) :=
  let log_dur := dsub t (last_log st) in
  if SFleb (to_double syslog_period) log_dur then
    own ← line_of name log_dur s (ps st) (l_rssi st);
    other ← line_of other_name log_dur os (pso st) (l_orssi st);
    let st := MkLogState s os (prev_bytes_in st) (l_rssi st) (l_orssi st) (krate st) (last_stat st) t in
    let ports := changed_ports s (ps st) in
    Some (Some (MkLogPost own other (map fst ports)
                  ("Active ports:  " ++ String.concat "" (map (port_text s (ps st)) ports))%string), st)
  else Some (None, st).

Definition log_round (t : double) (syslog_period status_period : float) (junk : list byte)
    (log_in : list (list byte)) (stats stats_other : TransferStats) (st : log_state)
  : option (log_output * TransferStats * log_state) :=
  let stats_other := take_all stats stats_other log_in in
  s ← get_stats stats;
  os ← get_stats stats_other;
  '(out, packed, st) ← send_status t status_period junk stats s os st;
  '(post, st) ← post_log t syslog_period (m_name stats) (m_name stats_other) s os st;
  Some (MkLogOutput out packed post, stats_other, st).

(** *** The text of the log

    [format] is [tfm::format] of tinyformat, a library. *)

Inductive fmt_arg := Fmt_int (z : Z) | Fmt_double (d : double) | Fmt_string (s : string).

(** The received or the sent side first. *)
Definition line_text (format : string -> list fmt_arg -> string) (received_first : bool) (l : log_line) : string :=
  let blks := format "%4d %4d %4d"
    (Fmt_int <$> (if received_first then [ln_blocks_in l; ln_blocks_out l] else [ln_blocks_out l; ln_blocks_in l])
                 ++ [ln_block_errors l]) in
  let rate := format "%5.2f %5.2f"
    (Fmt_double <$> (if received_first then [ln_rate_in l; ln_rate_out l] else [ln_rate_out l; ln_rate_in l])) in
  let times := format "%3d %3d %3d" (Fmt_int <$> ln_times l) in
  format "%-6s %4.2f s %4d %4d   %-14s %3d %s  %14s  %3d   %4d"
    [Fmt_string (ln_name l); Fmt_double (ln_interval l); Fmt_int (ln_sequences l); Fmt_int (ln_sequence_errors l);
     Fmt_string blks; Fmt_int (ln_inject_errors l); Fmt_string rate; Fmt_string times; Fmt_int (ln_latency l);
     Fmt_int (ln_rssi l)].

Definition log_title : string :=
  "Name   Interval Seq(r/e)  Blocks(d/u/e)  Inj  Rate(d/u)   Times(e/s/t)Us  LatMs RSSI".

(** The lines of a post; on the ground the own received side is the link down. *)
Definition post_text (format : string -> list fmt_arg -> string) (own_name : string) (p : log_post) : list string :=
  let is_ground := String.eqb own_name "ground" in
  [log_title; line_text format is_ground (own_line p); line_text format (negb is_ground) (other_line p); active_text p].

(** *** The thread

    A round gets the time, the indeterminate bytes, the messages that have
    come in and the own statistics, which other threads change. *)

Record log_input := MkLogInput {
  i_time : double;
  i_junk : list byte;
  i_log_in : list (list byte);
  i_stats : TransferStats
}.

Fixpoint log_thread (syslog_period status_period : float) (inputs : list log_input) (stats_other : TransferStats)
    (st : log_state) : option (list log_output * TransferStats * log_state) :=
  match inputs with
  | [] => Some ([], stats_other, st)
  | i :: inputs =>
      '(o, stats_other, st) ← log_round (i_time i) syslog_period status_period (i_junk i) (i_log_in i) (i_stats i) stats_other st;
      '(os, stats_other, st) ← log_thread syslog_period status_period inputs stats_other st;
      Some (o :: os, stats_other, st)
  end.

(** ** Lemmas *)

(** The fields of the packed message, where the display finds them. *)
Lemma rx_status_fields s os kb r o good junk :
  0 <= sequence_errors s < 2 ^ 32 -> 0 <= block_errors s < 2 ^ 32 -> 0 <= inject_errors os < 2 ^ 32 ->
  0 <= blocks_in s < 2 ^ 32 -> 0 <= block_errors os < 2 ^ 32 -> 0 <= kb < 2 ^ 32 ->
  let p := rx_status s os kb r o good junk in
  rd32 p 0 = Some (sequence_errors s) /\ rd32 p 4 = Some (block_errors s) /\ rd32 p 12 = Some (inject_errors os) /\
  rd32 p 16 = Some (blocks_in s) /\ rd32 p 20 = Some kb /\ rd32 p 32 = Some (block_errors os) /\
  rd32 p 71 = Some (blocks_in s) /\ drop 78 p = junk.
Proof.
  intros. subst p. split_and!; [..|reflexivity];
    match goal with |- rd32 _ _ = Some ?z => etrans; [|apply (f_equal Some (le32_value z ltac:(done)))]; reflexivity end.
Qed.

(** The other side's status is the last message under another name. *)
Lemma take_all_last stats other blocks block :
  m_name (update (string_of_list_byte block) (TransferStats_new "")).2 <> m_name stats ->
  take_all stats other (blocks ++ [block])%list = (update (string_of_list_byte block) (TransferStats_new "")).2.
Proof.
  intros Hn. unfold take_all. rewrite foldl_app. cbn [foldl]. unfold take_status at 1.
  destruct (update _ _) as [ok recv]. cbn [snd] in *. rewrite (proj2 (String.eqb_neq _ _) Hn).
  unfold assign, TransferStats_copy. by destruct recv as [? [] [] ? ?].
Qed.

Lemma take_all_own stats other blocks :
  Forall (fun b => m_name (update (string_of_list_byte b) (TransferStats_new "")).2 = m_name stats) blocks ->
  take_all stats other blocks = other.
Proof.
  unfold take_all. revert other. induction blocks as [|b blocks IH]; intros other H; [done|].
  apply Forall_cons in H as [Hb H]. cbn [foldl]. unfold take_status at 2. destruct (update _ _) as [ok recv].
  cbn [snd] in Hb. rewrite (proj2 (String.eqb_eq _ _) Hb). by apply IH.
Qed.

Lemma BlockBytes_sub_self b : BlockBytes_sub b b = MkBlockBytes 0 0.
Proof. unfold BlockBytes_sub. by rewrite !Z.sub_diag. Qed.

Lemma changed_ports_same s : changed_ports s s = [].
Proof.
  unfold changed_ports. assert (forall l, (forall pb, pb ∈ l -> ip_port_blocks s !! pb.1 = Some pb.2) ->
    filter (fun pb : Z * BlockBytes => 0 < blocks (port_diff s s pb)) l = []) as H.
  { induction l as [|pb l IH]; intros Hl; [done|]. rewrite filter_cons.
    assert (port_diff s s pb = MkBlockBytes 0 0) as Hd.
    { unfold port_diff. rewrite (Hl pb) by left. apply BlockBytes_sub_self. }
    rewrite decide_False by (rewrite Hd; cbn; lia).
    apply IH. intros q Hq. apply Hl. by right. }
  apply H. intros [p b] Hp. by apply elem_of_map_to_list in Hp.
Qed.

Lemma get_stats_counts s r : get_stats s = Some r ->
  sequence_errors r = m_seq_errors (m_counts s) /\ block_errors r = m_block_errors (m_counts s) /\
  inject_errors r = m_inject_errors (m_counts s) /\ blocks_in r = m_blocks (m_counts s).
Proof. unfold get_stats. destruct (int8_of_float _); cbn; [|done]. by intros [= <-]. Qed.

Lemma in_range_Some lo hi z n : in_range lo hi z = Some n -> lo <= n <= hi.
Proof.
  unfold in_range. destruct z as [z|]; cbn; [|done]. destruct ((lo <=? z) && (z <=? hi)) eqn:E; [|done].
  intros [= <-]. lia.
Qed.

(** What a post shows and leaves. *)
Lemma post_log_cases t p name oname s os st r st' :
  post_log t p name oname s os st = Some (r, st') ->
  last_stat st' = last_stat st /\
  match r with
  | None => st' = st
  | Some q =>
      ps st' = s /\ pso st' = os /\ last_log st' = t /\ active_ports q = [] /\ active_text q = "Active ports:  "%string /\
      line_of name (dsub t (last_log st)) s (ps st) (l_rssi st) = Some (own_line q) /\
      line_of oname (dsub t (last_log st)) os (pso st) (l_orssi st) = Some (other_line q)
  end.
Proof.
  unfold post_log. destruct (SFleb _ _); [|by intros [= <- <-]].
  destruct (line_of name _ _ _ _) as [own|] eqn:E1; cbn [mbind option_bind]; [|done].
  destruct (line_of oname _ _ _ _) as [other|] eqn:E2; cbn [mbind option_bind]; [|done]. intros [= <- <-].
  cbn [last_stat ps pso last_log active_ports active_text own_line other_line]. by rewrite changed_ports_same.
Qed.

(** ** Properties *)

Definition counters_ok (s : TransferStats) : Prop :=
  0 <= m_seq_errors (m_counts s) < 2 ^ 32 /\ 0 <= m_block_errors (m_counts s) < 2 ^ 32 /\
  0 <= m_inject_errors (m_counts s) < 2 ^ 32 /\ 0 <= m_blocks (m_counts s) < 2 ^ 32.

(** C24: a round of the status exchange. The other side's statistics become
    those of the last message that carries another name, even if that message
    could not be read to its end; a message the other side serialized carries
    its name and counters exactly, and messages with the own name change
    nothing. When the period is over, one status is sent, and one packed message
    whose fields are the own errors and packets and the other side's injection
    and block errors; from byte 78 on it is uninitialised memory. The log line
    of the active ports is always empty. *)
Theorem status_exchange (t : double) (syslog_period status_period : float) (junk : list byte)
    (log_in : list (list byte)) (stats stats_other other' : TransferStats) (st st' : log_state) (o : log_output) :
  log_round t syslog_period status_period junk log_in stats stats_other st = Some (o, other', st') ->
  counters_ok stats -> counters_ok other' ->
  (forall blocks block s, log_in = (blocks ++ [block])%list -> string_of_list_byte block = serialize s ->
     sendable s -> m_name s <> m_name stats ->
     m_name other' = m_name s /\ m_counts other' = sent_counts (m_counts s) (m_counts (TransferStats_new ""))) /\
  (forall blocks block, log_in = (blocks ++ [block])%list ->
     let r := update (string_of_list_byte block) (TransferStats_new "") in m_name r.2 <> m_name stats -> other' = r.2) /\
  (Forall (fun b => m_name (update (string_of_list_byte b) (TransferStats_new "")).2 = m_name stats) log_in ->
     other' = stats_other) /\
  (if SFltb (to_double status_period) (dsub t (last_stat st)) then
     log_out o = [serialize stats] /\ last_stat st' = t /\ exists p, packed_log_out o = [p] /\
     rd32 p 0 = Some (m_seq_errors (m_counts stats)) /\ rd32 p 4 = Some (m_block_errors (m_counts stats)) /\
     rd32 p 12 = Some (m_inject_errors (m_counts other')) /\ rd32 p 16 = Some (m_blocks (m_counts stats)) /\
     rd32 p 32 = Some (m_block_errors (m_counts other')) /\ drop 78 p = junk
   else log_out o = [] /\ packed_log_out o = [] /\ last_stat st' = last_stat st) /\
  forall p, posted o = Some p -> active_ports p = [] /\ active_text p = "Active ports:  "%string.
Proof.
  intros E Hc Hco. unfold log_round in E.
  ostep E as s eqn Es.
  ostep E as os eqn Eo.
  destruct (send_status t status_period junk stats s os st) as [[[out packed] st1]|] eqn:Ess;
    cbn [mbind option_bind] in E; [|done].
  destruct (post_log t syslog_period _ _ s os st1) as [[post st2]|] eqn:Ep; cbn [mbind option_bind] in E; [|done].
  apply post_log_cases in Ep as [Hlast Hpost]. injection E as <- <- <-.
  cbn [posted log_out packed_log_out]. split; [|split; [|split; [|split]]].
  - intros blocks block s0 -> Eb Hs Hn. destruct (update_serialize s0 (TransferStats_new "") Hs) as (Hn' & Hcn & _).
    pose proof (take_all_last stats stats_other blocks block) as Ht. rewrite Eb, Hn' in Ht.
    rewrite (Ht Hn), Hn'. by split.
  - intros blocks block -> Hn. by apply take_all_last.
  - apply take_all_own.
  - rewrite Hlast. unfold send_status in Ess. destruct (SFltb _ _); [|by injection Ess as <- <- <-].
    destruct (kbps _ _ _) as [k|]; cbn [mbind option_bind] in Ess; [|done].
    ostep Ess as kb eqn Ekb.
    destruct (in_range (-128) 127 (trunc_float (smooth (l_rssi st) _))) as [ri|]; cbn [mbind option_bind] in Ess; [|done].
    destruct (in_range (-128) 127 _) as [oi|]; cbn [mbind option_bind] in Ess; [|done].
    injection Ess as <- <- <-. split; [done|]. split; [done|]. eexists. split; [done|].
    apply in_range_Some in Ekb. destruct (get_stats_counts _ _ Es) as (S1 & S2 & S3 & S4).
    destruct (get_stats_counts _ _ Eo) as (O1 & O2 & O3 & O4).
    unfold counters_ok in *. rewrite <-S1, <-S2, <-S3, <-S4 in Hc. rewrite <-O1, <-O2, <-O3, <-O4 in Hco.
    rewrite <-S1, <-S2, <-S4, <-O2, <-O3. destruct Hc as (C1 & C2 & C3 & C4), Hco as (D1 & D2 & D3 & D4).
    destruct (rx_status_fields s os kb ri oi
      (SFltb (to_float (double_of_int (-100))) (smooth (l_rssi st) (to_double (rssi s)))) junk)
      as (F1 & F2 & F3 & F4 & _ & F6 & _ & F8); try done; lia.
  - intros q ->. by destruct Hpost as (_ & _ & _ & ? & ? & _).
Qed.

(** The ground side gets a cut message of the air side after a whole one. *)
Definition demo_log_state : option log_state :=
  log_start (double_of_int 10) (double_of_int 10) (TransferStats_new "ground") (TransferStats_new "air").
Definition demo_junk : list byte := replicate 35 xcc.
Definition demo_in : list (list byte) :=
  [list_byte_of_string (serialize demo_status); list_byte_of_string "air,9,8"].
Definition demo_round : option (log_output * TransferStats * log_state) :=
  demo_log_state ≫= log_round (double_of_int 11) (to_float (double_of_int 5)) (decimal_to_float false 2 (-1))
    demo_junk demo_in (TransferStats_new "ground") (TransferStats_new "air").

Lemma status_exchange_witness :
  exists o other' st', demo_round = Some (o, other', st') /\
    m_seq (m_counts other') = 9 /\ m_bytes (m_counts other') = 0 /\
    exists p, packed_log_out o = [p] /\ drop 78 p = demo_junk.
Proof.
  destruct demo_round as [[[o other'] st']|] eqn:E; [|vm_compute in E; discriminate E].
  exists o, other', st'. split; [reflexivity|].
  assert (other' = (update "air,9,8" (TransferStats_new "")).2) as Ho.
  { apply (f_equal (fun r => (fun x => x.1.2) <$> r)) in E. vm_compute in E. apply (inj Some) in E. rewrite <-E.
    vm_compute. reflexivity. }
  unfold demo_round in E. destruct demo_log_state as [st|] eqn:Est; [|discriminate E]. cbn [mbind option_bind] in E.
  destruct (status_exchange _ _ _ _ _ _ _ _ _ _ _ E) as (_ & H1 & _ & H2 & _).
  - repeat split; cbn; lia.
  - rewrite Ho. vm_compute. repeat split; discriminate.
  - assert (SFltb (to_double (decimal_to_float false 2 (-1))) (dsub (double_of_int 11) (last_stat st)) = true) as Hp.
    { assert (Some (last_stat st) = Some (double_of_int 10)) as Hl.
      { change (Some (last_stat st)) with (last_stat <$> Some st). rewrite <-Est. vm_compute. reflexivity. }
      apply (inj Some) in Hl. rewrite Hl. vm_compute. reflexivity. }
    rewrite Hp in H2. destruct H2 as (_ & _ & p & Hp1 & _ & _ & _ & _ & _ & Hp2).
    rewrite Ho. split; [vm_compute; reflexivity|]. split; [vm_compute; reflexivity|]. exists p. split; [exact Hp1|exact Hp2].
Defined.

(** *** The log adds up *)

(** The numbers of a line that count something, and what they count. *)
Definition counted : list ((log_line -> Z) * (transfer_stats_t -> Z)) :=
  [(ln_sequences, sequences); (ln_sequence_errors, sequence_errors); (ln_blocks_in, blocks_in);
   (ln_blocks_out, blocks_out); (ln_block_errors, block_errors); (ln_inject_errors, inject_errors)].

(** What the lines of a run show in total. *)
Definition shown (line : log_post -> log_line) (f : log_line -> Z) (outs : list log_output) : Z :=
  foldr Z.add 0 (map (fun q => f (line q)) (omap posted outs)).

Lemma shown_cons line f o os : shown line f (o :: os) = shown line f [o] + shown line f os.
Proof. unfold shown. cbn [omap list_omap]. destruct (posted o); cbn [map foldr]; lia. Qed.

Lemma line_of_counts name d s p r l f c :
  line_of name d s p r = Some l -> (f, c) ∈ counted -> f l = wrap 32 (c s - c p).
Proof.
  unfold line_of. intros E Hf.
  destruct (round_uint32 (encode_time s)); cbn [mbind option_bind] in E; [|done].
  destruct (round_uint32 (send_time s)); cbn [mbind option_bind] in E; [|done].
  destruct (round_uint32 (pkt_time s)); cbn [mbind option_bind] in E; [|done].
  destruct (round_uint32 (latency s)); cbn [mbind option_bind] in E; [|done].
  destruct (in_range _ _ _); cbn [mbind option_bind] in E; [|done]. injection E as <-.
  unfold counted in Hf. repeat (apply elem_of_cons in Hf as [Hf|Hf]; [injection Hf as -> ->; reflexivity|]).
  by apply elem_of_nil in Hf.
Qed.

Lemma send_status_posts t p junk stats s os st out packed st' :
  send_status t p junk stats s os st = Some (out, packed, st') -> ps st' = ps st /\ pso st' = pso st.
Proof.
  unfold send_status. destruct (SFltb _ _); [|by intros [= _ _ <-]].
  destruct (kbps _ _ _); cbn [mbind option_bind]; [|done].
  destruct (in_range 0 _ _); cbn [mbind option_bind]; [|done].
  destruct (in_range _ _ (trunc_float (smooth (l_rssi st) _))); cbn [mbind option_bind]; [|done].
  destruct (in_range _ _ _); cbn [mbind option_bind]; [|done]. by intros [= _ _ <-].
Qed.

(** What a round adds. *)
Lemma log_round_counts t sp tp junk log_in stats other st o other' st' f c :
  log_round t sp tp junk log_in stats other st = Some (o, other', st') -> (f, c) ∈ counted ->
  wrap 32 (shown own_line f [o]) = wrap 32 (c (ps st') - c (ps st)) /\
  wrap 32 (shown other_line f [o]) = wrap 32 (c (pso st') - c (pso st)) /\
  (is_Some (posted o) -> get_stats stats = Some (ps st') /\ get_stats other' = Some (pso st')).
Proof.
  intros E Hf. unfold log_round in E. ostep E as s eqn Es. ostep E as os eqn Eo.
  destruct (send_status _ _ _ _ _ _ _) as [[[out packed] st1]|] eqn:Ess; cbn [mbind option_bind] in E; [|done].
  destruct (post_log _ _ _ _ _ _ _) as [[post st2]|] eqn:Ep; cbn [mbind option_bind] in E; [|done].
  apply send_status_posts in Ess as [H1 H2]. apply post_log_cases in Ep as [_ Hp]. injection E as <- <- <-.
  unfold shown. cbn [omap list_omap posted]. destruct post as [q|]; cbn [map foldr].
  - destruct Hp as (-> & -> & _ & _ & _ & E1 & E2). rewrite !Z.add_0_r.
    rewrite (line_of_counts _ _ _ _ _ _ _ _ E1 Hf), (line_of_counts _ _ _ _ _ _ _ _ E2 Hf), H1, H2.
    rewrite !wrap_idemp. by split_and!.
  - subst st2. rewrite H1, H2, !Z.sub_diag. split_and!; [done|done|by intros [? ?]].
Qed.

Lemma log_thread_length sp tp inputs : forall other st outs other' st',
  log_thread sp tp inputs other st = Some (outs, other', st') -> List.length outs = List.length inputs.
Proof.
  induction inputs as [|i inputs IH]; intros other st outs other' st' E; cbn [log_thread] in E; [by injection E as <- _ _|].
  destruct (log_round _ _ _ _ _ _ _ _) as [[[o other1] st1]|]; cbn [mbind option_bind] in E; [|done].
  destruct (log_thread sp tp inputs other1 st1) as [[[os other2] st2]|] eqn:E2; cbn [mbind option_bind] in E; [|done].
  injection E as <- _ _. cbn. f_equal. by eapply IH.
Qed.

Lemma wrap_telescope w x y a b c : wrap w x = wrap w (b - a) -> wrap w y = wrap w (c - b) -> wrap w (x + y) = wrap w (c - a).
Proof.
  intros H1 H2. rewrite <-wrap_add_l, H1, wrap_add_l, <-wrap_add_r, H2, wrap_add_r. f_equal. lia.
Qed.

(** C25: the log adds up. Over any run of the thread, what the lines of a
    side show of a counter - sequences, blocks received, sent and lost, errors -
    is in total, modulo 2^32, how far the counter has come from the statistics
    the run started with to those of the last post: nothing is shown twice and
    nothing is left out. A post shows the statistics of its round, on both sides. *)
Theorem log_adds_up (sp tp : float) (inputs : list log_input) (other other' : TransferStats) (st st' : log_state)
    (outs : list log_output) :
  log_thread sp tp inputs other st = Some (outs, other', st') ->
  (forall f c, (f, c) ∈ counted ->
     wrap 32 (shown own_line f outs) = wrap 32 (c (ps st') - c (ps st)) /\
     wrap 32 (shown other_line f outs) = wrap 32 (c (pso st') - c (pso st))) /\
  (forall i o, last inputs = Some i -> last outs = Some o -> is_Some (posted o) ->
     get_stats (i_stats i) = Some (ps st') /\ get_stats other' = Some (pso st')).
Proof.
  revert other st outs. induction inputs as [|i inputs IH]; intros other st outs E; cbn [log_thread] in E.
  { injection E as <- <- <-. split; [|done]. intros f c _. by rewrite !Z.sub_diag. }
  destruct (log_round _ _ _ _ _ _ _ _) as [[[o other1] st1]|] eqn:E1; cbn [mbind option_bind] in E; [|done].
  destruct (log_thread sp tp inputs other1 st1) as [[[os other2] st2]|] eqn:E2; cbn [mbind option_bind] in E; [|done].
  injection E as <- <- <-. destruct (IH _ _ _ E2) as [IHc IHl]. split.
  - intros f c Hf. destruct (IHc f c Hf) as [C1 C2]. destruct (log_round_counts _ _ _ _ _ _ _ _ _ _ _ f c E1 Hf) as (D1 & D2 & _).
    rewrite !(shown_cons _ _ o os). split; by eapply wrap_telescope.
  - intros j q Hi Ho Hq. destruct inputs as [|i' inputs].
    + cbn [log_thread] in E2. injection E2 as <- <- <-. injection Hi as <-. injection Ho as <-.
      by destruct (log_round_counts _ _ _ _ _ _ _ _ _ _ _ ln_sequences sequences E1 ltac:(left)) as (_ & _ & H); apply H.
    + destruct os as [|o' os]; [|by apply (IHl j q)]. by apply log_thread_length in E2.
Qed.

(** Two rounds of the ground side, a second apart; both post. *)
Definition demo_counts (n : Z) : TransferStats :=
  MkTransferStats "ground" (MkCounters n (10 * n) 0 0 0 0 0 0 0) (m_avgs (TransferStats_new "")) (replicate 16 0) ∅.
Definition demo_inputs : list log_input :=
  [MkLogInput (double_of_int 11) demo_junk demo_in (demo_counts 3); MkLogInput (double_of_int 12) demo_junk [] (demo_counts 8)].
Definition demo_run : option (list log_output * TransferStats * log_state) :=
  demo_log_state ≫= log_thread (to_float (double_of_int 1)) (to_float (double_of_int 1)) demo_inputs (TransferStats_new "air").

Lemma log_adds_up_witness :
  exists st outs other' st',
    demo_log_state = Some st /\
    log_thread (to_float (double_of_int 1)) (to_float (double_of_int 1)) demo_inputs (TransferStats_new "air") st
      = Some (outs, other', st') /\
    wrap 32 (shown own_line ln_blocks_in outs) = 80 /\ blocks_in (ps st) = 0 /\ blocks_in (ps st') = 80.
Proof.
  destruct demo_run as [[[outs other'] st']|] eqn:E; [|vm_compute in E; discriminate E].
  assert (blocks_in (ps st') = 80) as Hb.
  { apply (f_equal (fun r => (fun x => blocks_in (ps x.2)) <$> r)) in E. vm_compute in E. by injection E. }
  unfold demo_run in E. destruct demo_log_state as [st|] eqn:Est; [|discriminate E]. cbn [mbind option_bind] in E.
  assert (blocks_in (ps st) = 0) as Ha.
  { apply (f_equal (fun r => (fun x => blocks_in (ps x)) <$> r)) in Est. vm_compute in Est. by injection Est. }
  exists st, outs, other', st'. split; [done|]. split; [exact E|].
  destruct (log_adds_up _ _ _ _ _ _ _ _ E) as [H _].
  destruct (H ln_blocks_in blocks_in) as [H1 _]; [right; right; left|]. rewrite H1, Ha, Hb. by split_and!.
Defined.
