(* ===== verification/StatsAccumulator.v ===== *)
(** * [StatsAccumulator] of src/include/stats_accumulator.hh

    A class template over an arithmetic type, of which it uses the order, the
    limits and the conversions from and to [double]: the class [Arithmetic].
    Nothing in the repository instantiates it; [uint8_t] is an instance here. *)

From S2P Require Import Prelude TransferStats LogThread.
From Stdlib Require Import Floats.SpecFloat.
Local Open Scope Z_scope.

Class Arithmetic (T : Type) := {
  less : T -> T -> bool;
  T_max : T;                                  (* [std::numeric_limits<T>::max()] *)
  T_lowest : T;                               (* [std::numeric_limits<T>::lowest()] *)
  as_double : T -> double;
  of_double : double -> option T              (* none: the value does not fit *)
}.

(** What a reader of [min] and [max] relies on. *)
Class ArithmeticLaws (T : Type) `{Arithmetic T} := {
  less_irrefl (a : T) : less a a = false;
  less_trans (a b c : T) : less a b = true -> less b c = true -> less a c = true;
  less_total (a b : T) : less a b = false -> less b a = false -> a = b;
  less_max (a : T) : less T_max a = false;
  less_lowest (a : T) : less a T_lowest = false
}.

Section accumulator.
Context {T : Type} `{Arithmetic T}.

Record StatsAccumulator := MkStatsAccumulator { m_min : T; m_max : T; m_sum : double; m_count : Z }.

(** [std::min] and [std::max] *)
Definition std_min (a b : T) : T := if less b a then b else a.
Definition std_max (a b : T) : T := if less a b then b else a.

Definition reset : StatsAccumulator := MkStatsAccumulator T_max T_lowest (S754_zero false) 0.
Definition StatsAccumulator_new : StatsAccumulator := reset.

Definition add (s : StatsAccumulator) (v : T) : StatsAccumulator :=
  MkStatsAccumulator (std_min (m_min s) v) (std_max (m_max s) v) (dadd (m_sum s) (as_double v)) (wrap 32 (m_count s + 1)).

Definition min : StatsAccumulator -> T := m_min.
Definition max : StatsAccumulator -> T := m_max.
Definition sum : StatsAccumulator -> double := m_sum.
Definition count : StatsAccumulator -> Z := m_count.

(** Rounded, and through the type of the numbers. *)
Definition mean (s : StatsAccumulator) : option double :=
  if m_count s =? 0 then Some (S754_zero false)
  else as_double <$> of_double (round_double (ddiv (m_sum s) (double_of_int (m_count s)))).

(** [set(min, mean, max)] and [set(val)] *)
Definition set (mn me mx : T) : StatsAccumulator := MkStatsAccumulator mn mx (as_double me) 1.
Definition set_val (v : T) : StatsAccumulator := set v v v.

Definition add_all : StatsAccumulator -> list T -> StatsAccumulator := foldl add.

(** ** Lemmas *)

Lemma add_all_count vs s :
  0 <= m_count s < 2 ^ 32 -> m_count (add_all s vs) = wrap 32 (m_count s + Z.of_nat (length vs)).
Proof.
  revert s. induction vs as [|v vs IH]; intros s Hs; [rewrite wrap_small; cbn; lia|]. cbn [add_all foldl length].
  change (foldl add) with add_all. rewrite IH by (apply (wrap_range 32); lia). cbn [add m_count].
  rewrite wrap_add_l. f_equal. lia.
Qed.

Lemma add_all_sum vs s : m_sum (add_all s vs) = foldl dadd (m_sum s) (map as_double vs).
Proof. revert s. by induction vs as [|v vs IH]; intros s; [|apply IH]. Qed.

Context `{!ArithmeticLaws T}.

Lemma less_asym a b : less a b = true -> less b a = false.
Proof.
  intros E. destruct (less b a) eqn:E'; [|done]. pose proof (less_trans _ _ _ E E') as C. by rewrite less_irrefl in C.
Qed.

Lemma less_neg_trans a b c : less a b = false -> less b c = false -> less a c = false.
Proof.
  intros H1 H2. destruct (less a c) eqn:E; [|done]. destruct (less b a) eqn:E1.
  - by rewrite (less_trans _ _ _ E1 E) in H2.
  - rewrite (less_total a b H1 E1) in E. congruence.
Qed.

(** The least element so far: below everything, and one of the numbers. *)
Lemma add_all_min vs s :
  let m := m_min (add_all s vs) in
  less (m_min s) m = false /\ (forall v, v ∈ vs -> less v m = false) /\ (m = m_min s \/ m ∈ vs).
Proof.
  revert s. induction vs as [|v vs IH]; intros s m.
  { split; [apply less_irrefl|]. split; [intros v Hv; by apply elem_of_nil in Hv|by left]. }
  destruct (IH (add s v)) as (H1 & H2 & H3). change (m_min (add_all (add s v) vs)) with m in *.
  cbn [add m_min] in *. unfold std_min in *. destruct (less v (m_min s)) eqn:E.
  - split; [by eapply less_neg_trans; [apply less_asym|]|]. split; [|destruct H3 as [->|]; right; [left|by right]].
    intros w [->|Hw]%elem_of_cons; [done|by apply H2].
  - split; [done|]. split; [|destruct H3 as [->|]; [by left|right; by right]].
    intros w [->|Hw]%elem_of_cons; [by eapply less_neg_trans|by apply H2].
Qed.

Lemma add_all_max vs s :
  let m := m_max (add_all s vs) in
  less m (m_max s) = false /\ (forall v, v ∈ vs -> less m v = false) /\ (m = m_max s \/ m ∈ vs).
Proof.
  revert s. induction vs as [|v vs IH]; intros s m.
  { split; [apply less_irrefl|]. split; [intros v Hv; by apply elem_of_nil in Hv|by left]. }
  destruct (IH (add s v)) as (H1 & H2 & H3). change (m_max (add_all (add s v) vs)) with m in *.
  cbn [add m_max] in *. unfold std_max in *. destruct (less (m_max s) v) eqn:E.
  - split; [by eapply less_neg_trans; [|apply less_asym]|]. split; [|destruct H3 as [->|]; right; [left|by right]].
    intros w [->|Hw]%elem_of_cons; [done|by apply H2].
  - split; [done|]. split; [|destruct H3 as [->|]; [by left|right; by right]].
    intros w [->|Hw]%elem_of_cons; [by eapply less_neg_trans|by apply H2].
Qed.

(** ** Properties *)

(** What an accumulator shows after numbers have been added: their least and
    their greatest, how many there were as far as 32 bits count, and their sum in
    [double]; without numbers it shows the limits of the type and a mean of 0. *)
Theorem accumulated (vs : list T) :
  let s := add_all StatsAccumulator_new vs in
  count s = wrap 32 (Z.of_nat (length vs)) /\ sum s = foldl dadd (S754_zero false) (map as_double vs) /\
  match vs with
  | [] => min s = T_max /\ max s = T_lowest /\ mean s = Some (S754_zero false)
  | _ => min s ∈ vs /\ max s ∈ vs /\ forall v, v ∈ vs -> less v (min s) = false /\ less (max s) v = false
  end.
Proof.
  intros s. split; [|split; [apply add_all_sum|]].
  { unfold count, s. by rewrite add_all_count. }
  destruct (add_all_min vs StatsAccumulator_new) as (_ & Hm & Hin).
  destruct (add_all_max vs StatsAccumulator_new) as (_ & HM & HIn). destruct vs as [|v vs]; [done|].
  split; [|split; [|intros w Hw; split; [by apply Hm|by apply HM]]].
  - destruct Hin as [E|]; [|done]. change (min s = T_max) in E. specialize (Hm v ltac:(left)).
    change (less v (min s) = false) in Hm. rewrite E in *. rewrite (less_total _ _ (less_max v) Hm). left.
  - destruct HIn as [E|]; [|done]. change (max s = T_lowest) in E. specialize (HM v ltac:(left)).
    change (less (max s) v = false) in HM. rewrite E in *. rewrite <-(less_total _ _ (less_lowest v) HM). left.
Qed.
End accumulator.

(** ** [uint8_t] *)

#[export] Instance uint8_arithmetic : Arithmetic byte := {
  less a b := u8 a <? u8 b;
  T_max := xff;
  T_lowest := x00;
  as_double b := double_of_int (u8 b);
  of_double d := byte_of <$> in_range 0 255 (trunc_float d)
}.

#[export] Instance uint8_laws : ArithmeticLaws byte.
Proof.
  split; cbn; intros *; rewrite ?Z.ltb_irrefl, ?Z.ltb_lt, ?Z.ltb_ge; try done; try lia.
  - intros. apply u8_inj. lia.
  - change (u8 xff) with 255. pose proof (u8_range a). lia.
  - change (u8 x00) with 0. pose proof (u8_range a). lia.
Qed.

(** Three latencies; the mean of 7, 9 and 12 is 9.33 and shown as 9. *)
Example accumulated_latencies :
  let s := add_all StatsAccumulator_new [x09; x07; x0c] in
  (min s, max s, count s, mean s) = (x07, x0c, 3, Some (double_of_int 9)).
Proof. vm_compute. reflexivity. Qed.
