(* ===== verification/FecTest.v ===== *)
(** * The test of the erasure code, src/src/test_fec.cc

    Random buffers are encoded, a tenth of the packets is dropped, and what the
    decoder recovers is compared. [rand] gives the successive results of
    [rand()]; a position in it is state. Time is a pair of seconds and
    microseconds. Undefined behaviour is that of FecBuffer and FecDecoder, and a
    division by zero for the block size 0. No command line gets past the
    options as they are (Options.test_programs_stop): this is the test they are
    for. *)

From S2P Require Import Prelude Text CmdParser Options Gf256 GfField FecCode FecBlock FecWire FecEncoder FecDecoder.
From S2P Require Import FecRecover FecLink FecBuffer TransferStats LogThread.
From Stdlib Require Import Floats.SpecFloat.
Local Open Scope Z_scope.

Definition cur_time (t : Z * Z) : double := dadd (double_of_int t.1) (dmul (double_of_int t.2) (dlit 1 (-6))).

Record test_state := MkTest {
  x_enc : FECBufferEncoder;
  x_dec : FECDecoder;
  x_pos : nat;
  x_failed : Z;
  x_bytes : Z
}.

Section test.
Context (rand : nat -> Z).

(** [min_buffer_size + rand() % (max_buffer_size - min_buffer_size)], unsigned. *)
Definition test_buffer_size (max_block_size : Z) (pos : nat) : option Z :=
  let min_buffer_size := wrap 32 (max_block_size * 6) in
  let max_buffer_size := wrap 32 (max_block_size * 100) in
  let span := wrap 32 (max_buffer_size - min_buffer_size) in
  if span =? 0 then None else Some (wrap 32 (min_buffer_size + wrap 32 (rand pos) mod span)).

Definition random_buffer (pos size : nat) : list byte := map (fun j => byte_of (Z.rem (rand (pos + j)) 255)) (seq 0 size).

Definition dropped (pos : nat) : bool := Z.rem (rand pos) 10 =? 0.

(** The packets that are not dropped reach the decoder. *)
Fixpoint add_blocks (T : fec_state) (d : FECDecoder) (pos : nat) (blks : list FECBlock) : option FECDecoder :=
  match blks with
  | [] => Some d
  | blk :: blks =>
      d ← (if dropped pos then Some d else FecDecoder.add_block T d (pkt_data blk) (pkt_length blk));
      add_blocks T d (S pos) blks
  end.

(** The loop over [get_block]. *)
Fixpoint collect (fuel : nat) (d : FECDecoder) (obuf : list byte) : option (list byte * FECDecoder) :=
  match fuel with
  | O => None
  | S fuel =>
      match FecDecoder.get_block d with
      | (None, d) => Some (obuf, d)
      | (Some sblk, d) => p ← payload sblk; collect fuel d (obuf ++ p)
      end
  end.

(** The first place where the buffers differ. *)
Fixpoint difference (j : nat) (obuf buf : list byte) : option (nat * byte * byte) :=
  match obuf, buf with
  | o :: obuf, b :: buf => if decide (o = b) then difference (S j) obuf buf else Some (j, o, b)
  | _, _ => None
  end.

Definition show_nat (n : nat) : string := show (Z.of_nat n).
Definition show_char (b : byte) : string := String (ascii_of_byte b) "".

(** What the comparison complains about. *)
Definition compare_buffers (obuf buf : list byte) : option string :=
  if negb (Nat.eqb (length obuf) (length buf)) then
    Some ("Buffers are different sizes: " ++ show_nat (length obuf) ++ " != " ++ show_nat (length buf) ++ nl)%string
  else
    '(j, o, b) ← difference 0 obuf buf;
    Some ("Buffers differ at location " ++ show_nat j ++ ": " ++ show_char o ++ " != " ++ show_char b ++ nl)%string.

(** An iteration. *)
Definition test_round (T : fec_state) (max_block_size : Z) (i : nat) (st : test_state) : prog test_state :=
  buf_size ← defined (test_buffer_size max_block_size (x_pos st));
  let buf := random_buffer (S (x_pos st)) (Z.to_nat buf_size) in
  print_out ("Iteration: " ++ show_nat i ++ "  buffer size: " ++ show buf_size ++ nl);;
  '(blks, enc) ← defined (encode_buffer T (x_enc st) buf);
  print_err (show_nat (length blks) ++ " blocks created" ++ nl);;
  let pos := (S (x_pos st) + length buf)%nat in
  dec ← defined (add_blocks T (x_dec st) pos blks);
  '(obuf, dec) ← defined (collect (S (length (FecDecoder.m_out_blocks dec))) dec []);
  failed ← match compare_buffers obuf buf with
           | Some text => print_err text;; mret (wrap 32 (x_failed st + 1))
           | None => mret (x_failed st)
           end;
  mret (MkTest enc dec (pos + length blks) failed (wrap 64 (x_bytes st + buf_size))).

Fixpoint test_rounds (T : fec_state) (max_block_size : Z) (i n : nat) (st : test_state) : prog test_state :=
  match n with
  | O => mret st
  | S n => st ← test_round T max_block_size i st; test_rounds T max_block_size (S i) n st
  end.

(** The number of tests that passed and the rate in Mbps; [start] and [stop]
    are the clock before and after. *)
Definition run_test (T : fec_state) (enc : FECBufferEncoder) (max_block_size : Z) (iterations : nat)
    (start stop : Z * Z) : prog (Z * double) :=
  let '(T, dec) := FECDecoder_new T in
  st ← test_rounds T max_block_size 0 iterations (MkTest enc dec 0 0 0);
  mret (wrap 32 (Z.of_nat iterations - x_failed st),
        ddiv (dmul (dlit 8 (-6)) (double_of_int (x_bytes st))) (dsub (cur_time stop) (cur_time start))).

(** [main] of the program; [test_fec_options] is its beginning. *)
Definition test_fec_main (argv : list string) (start stop : Z * Z) : prog Z :=
  o ← test_fec_options argv;
  let enc := FECBufferEncoder_new (f_block_size o) (f_fec_ratio o) in
  passed ← run_test fec_static enc (f_block_size o) (Z.to_nat (f_iterations o)) start stop;
  mret (if passed.1 =? f_iterations o then EXIT_SUCCESS else EXIT_FAILURE).

(** ** The course of a test *)

(** The packets of [k] that are not dropped. *)
Definition kept (pos k : nat) : list nat := filter (fun i => dropped (pos + i) = false) (seq 0 k).

(** The first packet that arrives is a data packet, and not the last one, which
    may be shorter than the others. *)
Definition starts (n : nat) (r : list nat) : Prop := exists x, r !! 0%nat = Some x /\ (x < n)%nat /\ (x + 1 < n \/ n = 1)%nat.

(** The rounds from a position on: for each how many packets are needed, and
    which arrive. All buffers are of a size the encoder can handle. *)
Inductive course (max_block_size : Z) : FECBufferEncoder -> nat -> list (nat * list nat) -> Prop :=
| course_end s pos : course max_block_size s pos []
| course_round s pos len n bs f rest :
    test_buffer_size max_block_size pos = Some len ->
    fits s len (Z.of_nat n) bs f -> bs + 2 <= b_max_block_size s ->
    let start := (S pos + Z.to_nat len)%nat in
    let r := kept start (n + f) in
    starts n r ->
    course max_block_size (MkBufferEncoder (b_max_block_size s) (b_fec_ratio s) (next_seq (b_seq_num s)))
      (start + (n + f)) rest ->
    course max_block_size s pos ((n, r) :: rest).

Definition recovered (round : nat * list nat) : bool := (round.1 <=? length round.2)%nat.
End test.

(** ** Lemmas *)

Section lemmas.
Context (rand : nat -> Z).

Lemma kept_S pos k : kept rand pos (S k) = (if dropped rand pos then [] else [0%nat]) ++ (S <$> kept rand (S pos) k).
Proof.
  unfold kept. change (seq 0 (S k)) with ([0%nat] ++ seq 1 k). rewrite filter_app. f_equal.
  - rewrite filter_cons, filter_nil, Nat.add_0_r. destruct (dropped rand pos); [by rewrite decide_False|by rewrite decide_True].
  - rewrite <-(fmap_S_seq 0 k). induction (seq 0 k) as [|i l IH]; [done|].
    cbn [fmap list_fmap]. rewrite !filter_cons. replace (S pos + i)%nat with (pos + S i)%nat by lia.
    destruct (decide _); cbn [fmap list_fmap]; by rewrite IH.
Qed.

Lemma kept_lt pos k x : x ∈ kept rand pos k -> (x < k)%nat.
Proof. unfold kept. rewrite list_elem_of_filter, elem_of_seq. lia. Qed.

Lemma increasing_kept pos k : increasing (kept rand pos k).
Proof. apply increasing_filter, increasing_seq. Qed.

(** What the decoder gets is the packets on the wire, but for the dropped ones. *)
Lemma add_blocks_kept T blks : forall ws d pos,
  mapM wire blks = Some ws -> Forall (fun w => w <> []) ws ->
  add_blocks rand T d pos blks = receive_all T d ((fun i => ws !!! i) <$> kept rand pos (length blks)).
Proof.
  induction blks as [|b blks IH]; intros ws d pos Hw Hne; [by injection Hw as <-|].
  apply mapM_Some in Hw. apply Forall2_cons_inv_l in Hw as (w & ws' & Eb & Hws & ->).
  apply Forall_cons in Hne as [Hn Hne]. cbn [add_blocks length]. rewrite kept_S.
  assert (forall d, add_blocks rand T d (S pos) blks =
    receive_all T d ((fun i => (w :: ws') !!! i) <$> (S <$> kept rand (S pos) (length blks)))) as E.
  { intros d'. rewrite (IH ws') by (done || by apply mapM_Some). by rewrite <-list_fmap_compose. }
  destruct (dropped rand pos); cbn [mbind option_bind]; [apply E|]. cbn [app fmap list_fmap receive_all].
  replace (FecDecoder.add_block T d (pkt_data b) (pkt_length b)) with (receive T d w).
  - change ((w :: ws') !!! 0%nat) with w. destruct (receive T d w); [apply E|done].
  - unfold wire in Eb. destruct (_ <=? _)%nat eqn:El; [|done]. injection Eb as Ew. apply Nat.leb_le in El.
    assert (length w = Z.to_nat (pkt_length b)) as Hl by (rewrite <-Ew, length_take; lia).
    assert (Z.of_nat (length w) = pkt_length b) as Hz by (destruct w; [done|simpl in *; lia]).
    unfold receive, FecDecoder.add_block, FECBlock_of_packet. rewrite Hz.
    rewrite (proj2 (Nat.leb_le _ _)) by lia. rewrite (proj2 (Nat.leb_le _ _)) by done.
    by rewrite take_ge, Ew by lia.
Qed.

Definition emptied (d : FECDecoder) : FECDecoder :=
  MkFECDecoder (m_block_size d) (m_prev_header d) (FecDecoder.m_blocks d) (m_fec_blocks d) [] (FecDecoder.m_stats d).

Lemma collect_all : forall out d ps fuel obuf,
  FecDecoder.m_out_blocks d = out -> mapM payload out = Some ps -> (length out < fuel)%nat ->
  collect fuel d obuf = Some (obuf ++ concat ps, emptied d).
Proof.
  induction out as [|b out IH]; intros d ps [|fuel] obuf E Hp Hf; try (cbn in Hf; lia); cbn [collect];
    unfold FecDecoder.get_block; rewrite E.
  - injection Hp as <-. rewrite app_nil_r. destruct d; cbn in E. by rewrite E.
  - apply mapM_Some, Forall2_cons_inv_l in Hp as (p & ps' & Eb & Hps & ->). rewrite Eb. cbn [mbind option_bind].
    rewrite (IH _ ps') by (done || (by apply mapM_Some) || (cbn in *; lia)). cbn [concat]. by rewrite app_assoc.
Qed.

Lemma difference_same buf : forall j, difference j buf buf = None.
Proof. induction buf as [|b buf IH]; intros j; [done|]. cbn [difference]. by rewrite decide_True. Qed.

Lemma compare_same buf : compare_buffers buf buf = None.
Proof. unfold compare_buffers. by rewrite Nat.eqb_refl, difference_same. Qed.

Lemma compare_size obuf buf : length obuf <> length buf -> exists text, compare_buffers obuf buf = Some text.
Proof. intros H. unfold compare_buffers. rewrite (proj2 (Nat.eqb_neq _ _)) by done. by eexists. Qed.
End lemmas.

(** The pieces of a buffer: all but the last have the full size. *)
Section pieces.
Context (buf : list byte) (bs : Z) (n : nat).
Context (Hbs : 0 < bs) (Hlen : Z.of_nat (length buf) + bs < 2 ^ 32).
Context (Hn : (0 < n)%nat) (Hcover : (Z.of_nat n - 1) * bs < Z.of_nat (length buf) <= Z.of_nat n * bs).

Local Abbreviation ps := (pieces buf (Z.of_nat n) bs).

Lemma piece_at i : (i < n)%nat -> ps !!! i = take (Z.to_nat bs) (drop (Z.to_nat (Z.of_nat i * bs)) buf).
Proof using Hbs Hlen Hn Hcover.
  intros Hi. unfold pieces. rewrite Nat2Z.id.
  change (map ?g ?l) with (g <$> l).
  rewrite (list_lookup_total_fmap _ (seq 0 n)) by (by rewrite length_seq).
  rewrite (list_lookup_total_correct _ _ _ (lookup_seq_lt 0 n i Hi)). apply piece_eq; nia.
Qed.

Lemma length_pieces : length ps = n.
Proof using. unfold pieces. by rewrite length_map, length_seq, Nat2Z.id. Qed.

Lemma piece_full i : (i + 1 < n)%nat -> plen (ps !!! i) = bs.
Proof using Hbs Hlen Hn Hcover. intros Hi. rewrite piece_at by lia. unfold plen. rewrite length_take, length_drop. nia. Qed.

(** A front of the pieces is not the whole buffer. *)
Lemma take_pieces_short g : (g < n)%nat -> concat ps = buf -> (length (concat (take g ps)) < length buf)%nat.
Proof using Hbs Hlen Hn Hcover.
  intros Hg Hc. rewrite <-Hc at 2. rewrite <-(take_drop g ps) at 2. rewrite concat_app, length_app.
  assert (0 < length (concat (drop g ps)))%nat; [|lia].
  assert (is_Some (last (drop g ps))) as [p Hp].
  { apply last_is_Some. intros E. apply (f_equal length) in E. rewrite length_drop, length_pieces in E. simpl in E. lia. }
  apply last_Some in Hp as [l El]. pose proof (f_equal length El) as Hl.
  rewrite length_drop, length_pieces, length_app in Hl. simpl in Hl.
  assert (ps !!! (n - 1)%nat = p) as Ep.
  { apply list_lookup_total_correct. rewrite <-(take_drop g ps), El, app_assoc.
    rewrite lookup_app_r by (rewrite length_app, length_take, length_pieces; lia).
    rewrite length_app, length_take, length_pieces. by replace (n - 1 - (g `min` n + length l))%nat with 0%nat by lia. }
  rewrite El, concat_app, length_app. cbn [concat]. rewrite app_nil_r, <-Ep, piece_at by lia.
  rewrite length_take, length_drop. nia.
Qed.
End pieces.

(** The state between two rounds. *)
Record between (s : FECBufferEncoder) (pos : nat) (failed : Z) (st : test_state) : Prop := {
  bt_enc : x_enc st = s;
  bt_pos : x_pos st = pos;
  bt_failed : x_failed st = failed;
  bt_fresh : fresh (b_seq_num s) (x_dec st);
  bt_out : FecDecoder.m_out_blocks (x_dec st) = []
}.

Section round.
Context (rand : nat -> Z) (T : fec_state) `{!GfTables T} (Hinit : fec_init T = T).

(** What comes out of the decoder for a group of pieces, and its state. *)
Lemma group_outcome sq (f n : nat) mx buf bs d pos :
  let ps := pieces buf (Z.of_nat n) bs in
  let r := kept rand pos (n + f) in
  group_ok sq f mx ps -> (forall p, p ∈ ps -> plen p <= bs) -> concat ps = buf -> 0 < bs ->
  Z.of_nat (length buf) + bs < 2 ^ 32 -> (0 < n)%nat -> (Z.of_nat n - 1) * bs < Z.of_nat (length buf) <= Z.of_nat n * bs ->
  fresh sq d -> FecDecoder.m_out_blocks d = [] -> starts n r ->
  exists d' outs qs, receive_all T d (pkt sq f ps <$> r) = Some d' /\ FecDecoder.m_out_blocks d' = outs /\
    mapM payload outs = Some qs /\ fresh (next_seq sq) (emptied d') /\
    if (n <=? length r)%nat then qs = ps else length (concat qs) <> length buf.
Proof using GfTables0.
  intros ps r Hg Hle Hcat Hbs Hlen Hn Hcov Hfr Hout (x & Hx0 & Hxn & Hx1).
  pose proof (length_pieces buf bs n) as Hps. fold ps in Hps. pose proof (increasing_kept rand pos (n + f)) as Hinc.
  assert (forall y, y ∈ r -> (y < length ps + f)%nat) as Hlt by (intros y Hy; rewrite Hps; by apply (kept_lt rand pos)).
  fold r in Hinc. destruct r as [|x' xs]; [done|]. injection Hx0 as ->.
  pose proof (next_seq_neq sq (ok_seq _ _ _ _ Hg)) as Hneq. pose proof (ok_seq _ _ _ _ Hg) as Hsq.
  destruct (Nat.leb_spec n (length (x :: xs))) as [Hge|Hfew].
  - destruct (group_recovered T sq f mx ps Hg d x xs) as (st & d' & E & Hc & _); try done; [lia| |lia| |].
    { intros y Hy. apply Hlt. by right. }
    { exists x. split; [apply elem_datas; split; [left|lia]|]. apply Nat.le_antisymm.
      - apply group_size_ge, payload_in. lia.
      - apply group_size_le. intros p Hp. specialize (Hle p Hp). unfold plen in Hle.
        destruct Hx1 as [Hx1| ->].
        + pose proof (piece_full buf bs n Hbs Hlen Hn Hcov x Hx1) as Hp'. fold ps in Hp'. unfold plen in Hp'. lia.
        + assert (x = 0)%nat as -> by lia. apply list_elem_of_lookup_1 in Hp as [t Ht].
          pose proof (lookup_lt_Some _ _ _ Ht). assert (t = 0)%nat as -> by lia.
          by rewrite (list_lookup_total_correct _ _ _ Ht). }
    destruct (complete_out _ _ _ _ _ _ Hc) as (outs & Eo & Ep). rewrite Hout in Eo. exists d', outs, ps.
    split; [done|]. split; [done|]. split; [done|]. split; [|done].
    destruct Hc as [(E1 & E2 & E3) (y & _ & Hy & _) _ _]. split; [|done]. cbn. rewrite Hy. done.
  - destruct (group_interrupted T sq f mx ps Hg d x xs) as (d' & g & outs & E & Hgn & Eo & Ep & Es & Hnz); try done; [lia| |lia|].
    { intros y Hy. apply Hlt. by right. }
    rewrite Hout in Eo. exists d', outs, (take g ps). split; [done|]. split; [done|]. split; [done|]. split.
    + split; [cbn; by rewrite Es|]. intros Hz. done.
    + pose proof (take_pieces_short buf bs n Hbs Hlen Hn Hcov g ltac:(lia) Hcat). fold ps in H. lia.
Qed.

Lemma group_wires_nonempty sq f mx ps : group_ok sq f mx ps -> Forall (fun w => w <> []) (group_wires sq f ps).
Proof using.
  intros Hg. apply Forall_forall. intros w Hw. apply list_elem_of_lookup_1 in Hw as [x Hx].
  pose proof (lookup_lt_Some _ _ _ Hx) as Hlt. rewrite length_group_wires in Hlt.
  pose proof (length_pkt sq f ps x Hlt) as Hl. unfold pkt in Hl.
  rewrite (list_lookup_total_correct _ _ _ Hx) in Hl. intros ->. simpl in Hl. lia.
Qed.

Lemma length_random_buffer pos size : length (random_buffer rand pos size) = size.
Proof using. unfold random_buffer. by rewrite length_map, length_seq. Qed.

Definition after (failed : Z) (round : nat * list nat) : Z := if recovered round then failed else wrap 32 (failed + 1).

Lemma round_spec mb s pos len n bs f i st out failed :
  test_buffer_size rand mb pos = Some len ->
  fits s len (Z.of_nat n) bs f -> bs + 2 <= b_max_block_size s ->
  let start := (S pos + Z.to_nat len)%nat in
  let r := kept rand start (n + f) in
  starts n r -> between s pos failed st ->
  exists st' out', test_round rand T mb i st out = Running st' out' /\
    between (MkBufferEncoder (b_max_block_size s) (b_fec_ratio s) (next_seq (b_seq_num s))) (start + (n + f))
      (after failed (n, r)) st'.
Proof using GfTables0 Hinit.
  intros Esz Hfit Hbs start r Hst [<- <- <- Hfr Hout].
  pose proof Hfit as [[F1 F2] [F3 F4] F5 F6 F7 [F8 F9] F10].
  destruct (block_numbers (x_enc st) len) as (N1 & N2 & N3 & N4 & _); [done|lia|done|]. rewrite <-F5, <-F3 in *. set (buf := random_buffer rand (S (x_pos st)) (Z.to_nat len)).
  assert (Z.of_nat (length buf) = len) as Hbuf by (unfold buf; rewrite length_random_buffer; lia).
  assert (GfTables (fec_init T)) as HT by by rewrite Hinit.
  destruct (encode_buffer_sends T (x_enc st) buf (Z.of_nat n) bs f) as (blks & E & Ew & Hg & Hcat & Hnp & Hle);
    [by rewrite Hbuf|done|].
  assert (length blks = (n + f)%nat) as Hb.
  { pose proof (proj1 (mapM_Some _ _ _) Ew) as Ew2. rewrite (Forall2_length _ _ _ Ew2), length_group_wires. lia. }
  destruct (group_outcome (b_seq_num (x_enc st)) f n (b_max_block_size (x_enc st)) buf bs (x_dec st) start) as
    (d' & outs & qs & Er & Eo & Ep & Hfr' & Hq); try done; try lia.
  unfold test_round. rewrite (bind_defined _ _ _ _ Esz). cbv beta zeta. fold buf. rewrite bind_print_out.
  rewrite (bind_defined _ _ _ _ E). cbv beta iota zeta. rewrite bind_print_err.
  replace (S (x_pos st) + length buf)%nat with start by (unfold start; lia).
  rewrite (bind_defined _ _ d'); [|by rewrite (add_blocks_kept rand T blks _ _ _ Ew (group_wires_nonempty _ _ _ _ Hg)), Hb].
  rewrite (bind_defined _ _ (concat qs, emptied d')); [|by rewrite (collect_all outs d' qs) by (done || (rewrite Eo; lia))].
  cbv beta iota. unfold after, recovered. cbn [fst snd]. fold r in Hq |- *. rewrite Hb. revert Hq.
  destruct (n <=? length r)%nat; intros Hq.
  - rewrite Hq, Hcat, compare_same. eexists _, _. split; [reflexivity|]. by split.
  - destruct (compare_size _ _ Hq) as [text ->]. eexists _, _. split; [reflexivity|]. by split.
Qed.

Lemma rounds_spec mb s pos rs : course rand mb s pos rs -> forall i st out failed,
  between s pos failed st ->
  exists st' out', test_rounds rand T mb i (length rs) st out = Running st' out' /\ x_failed st' = foldl after failed rs.
Proof using GfTables0 Hinit.
  induction 1 as [s pos|s pos len n bs f rest Hsz Hfit Hbs start r Hst _ IH]; intros i st out failed Hb.
  - exists st, out. split; [done|]. apply Hb.
  - destruct (round_spec mb s pos len n bs f i st out failed) as (st1 & out1 & E & Hb1); try done.
    destruct (IH (S i) st1 out1 _ Hb1) as (st' & out' & E' & Hf). exists st', out'. split; [|done].
    cbn [length test_rounds]. by rewrite (bind_running _ _ _ _ _ E).
Qed.
End round.

(** The number of failures, which a [uint32_t] can hold. *)
Lemma failures rs : forall failed, 0 <= failed -> failed + Z.of_nat (length rs) < 2 ^ 32 ->
  foldl after failed rs = failed + Z.of_nat (length rs) - Z.of_nat (length (List.filter recovered rs)).
Proof.
  induction rs as [|r rs IH]; intros failed H0 Hlt; [cbn; lia|]. cbn [length] in Hlt. cbn [foldl List.filter].
  unfold after at 2. destruct (recovered r).
  - rewrite IH by lia. cbn [length]. lia.
  - rewrite wrap_small, IH by lia. cbn [length]. lia.
Qed.

(** ** Properties *)

(** C33: the test of the erasure code counts what it should. For buffers that
    the encoder can handle, a test passes exactly when at least as many packets
    of its group arrive as it has data packets, whatever happened to the groups
    before; so all tests pass exactly if that many arrive every time. (The first
    packet to arrive has to be a data packet, and not the shorter last one.) *)
Theorem run_test_counts (rand : nat -> Z) (s0 : fec_state) (enc : FECBufferEncoder) (mb : Z)
    (rs : list (nat * list nat)) (start stop : Z * Z) (out : streams) :
  fec_reachable s0 -> b_seq_num enc <> 0 -> Z.of_nat (length rs) < 2 ^ 32 -> course rand mb enc 0 rs ->
  exists rate out', run_test rand s0 enc mb (length rs) start stop out =
    Running (Z.of_nat (length (List.filter recovered rs)), rate) out'.
Proof.
  intros Hs Hseq Hlen Hc. unfold run_test, FECDecoder_new. pose proof (fec_init_tables s0 Hs) as HT.
  assert (between enc 0 0 (MkTest enc (MkFECDecoder 0 FECHeader_default [] [] [] stats_zero) 0 0 0)) as Hb.
  { by split. }
  destruct (rounds_spec rand (fec_init s0) (fec_init_again s0 Hs) mb enc 0 rs Hc 0%nat _ out 0 Hb)
    as (st & out' & E & Hf).
  rewrite (bind_running _ _ _ _ _ E). unfold mret, prog_ret. eexists _, _. f_equal. f_equal.
  rewrite Hf, failures by lia. pose proof (List.filter_length_le recovered rs). rewrite wrap_small by lia. lia.
Qed.

(** Two buffers of 97 bytes for blocks of 16: seven data and four FEC packets.
    The first group loses one packet, the second one six. *)
Definition demo_rand (pos : nat) : Z :=
  if decide (pos ∈ [0; 109; 100; 208; 209; 210; 211; 212; 213])%nat then (if decide (pos ∈ [0; 109])%nat then 1 else 10) else 3.

Lemma run_test_counts_witness :
  exists rate out', run_test demo_rand fec_static (FECBufferEncoder_new 16 (S754_finite false 8388608 (-24))) 16 2
    (10, 0) (11, 0) (MkStreams "" "") = Running (1, rate) out'.
Proof.
  apply (run_test_counts demo_rand fec_static (FECBufferEncoder_new 16 (S754_finite false 8388608 (-24))) 16
    [(7%nat, kept demo_rand 98 11); (7%nat, kept demo_rand 207 11)]).
  - exact reach_static.
  - done.
  - done.
  - apply (course_round _ _ _ 0 97 7 14 4); [reflexivity| |done..| |].
    + split; try (cbn; lia); vm_compute; by repeat split.
    + exists 0%nat. split; [vm_compute; reflexivity|lia].
    + apply (course_round _ _ _ 109 97 7 14 4); [reflexivity| |done..| |].
      * split; try (cbn; lia); vm_compute; by repeat split.
      * exists 0%nat. split; [vm_compute; reflexivity|lia].
      * apply course_end.
Defined.
