(* ===== verification/Config.v ===== *)
(** * The settings of the bridge

    The global section of the configuration file as [main] of
    src/src/wfb_bridge.cc reads it, with the conversions of the integers, the
    logging level of src/include/logging.hh and the helpers of
    src/include/wfb_bridge.hh that read ports and make directories. *)

From S2P Require Import Prelude Text Bridge.
Local Open Scope string_scope.
Local Open Scope Z_scope.

(** The integers; periods are [float]s of the reader and not modelled. *)
Record global_settings := MkGlobal {
  g_mode : string;
  g_other_mode : string;
  g_timeout_us : Z;
  g_local_host : string;
  g_remote_host : string;
  g_log_to_host : string;
  g_netmask : string;
  g_packed_status_port : Z;
  g_packed_status_host : string;
  g_mtu : Z;
  g_max_queue_size : Z;
  g_link_status_port : Z;
  g_http_port : Z;
  g_blocksize : Z
}.

Definition get_uint16 (conf : INIReader) (section name : string) (dflt : Z) : Z :=
  wrap 16 (GetInteger conf section name dflt).

Definition read_global (conf : INIReader) : global_settings :=
  let mode := Get conf "global" "mode" "air" in
  let air := String.eqb mode "air" in
  let mtu := get_uint16 conf "global" "mtu" 1466 in
  MkGlobal mode (if air then "ground" else "air")
    (wrap 32 (GetInteger conf "global" "timeout" 1000))
    (Get conf "global" (if air then "air_ip" else "ground_id") "10.1.1.1")
    (Get conf "global" (if air then "ground_ip" else "air_id") "10.1.1.1")
    (Get conf "global" "ground_id" "10.1.1.1")
    (Get conf "global" "netmask" "255.255.255.0")
    (get_uint16 conf "global" "packed_status_port" 5800)
    (Get conf "global" "packed_status_host" "127.0.0.1")
    mtu
    (get_uint16 conf "global" "maxqueuesize" 200)
    (get_uint16 conf "link-status" "ip_port" 5155)
    (get_uint16 conf "global" "http_port" 5180)
    (blocksize mtu).

(** ** [get_log_level] *)

Inductive PriorityLevel := EMERG | FATAL | ALERT | CRIT | ERROR | WARN | NOTICE | INFO | DEBUG | NOTSET.

Fixpoint lower (s : string) : string :=
  match s with String a s' => String (tolower a) (lower s') | EmptyString => s end.

Definition get_log_level (level : string) : PriorityLevel :=
  let level := lower level in
  if String.eqb level "emergency" then EMERG
  else if String.eqb level "fatal" then FATAL
  else if String.eqb level "alert" then ALERT
  else if String.eqb level "critical" then CRIT
  else if String.eqb level "error" then ERROR
  else if String.eqb level "warn" then WARN
  else if String.eqb level "notice" then NOTICE
  else if String.eqb level "info" then INFO
  else if String.eqb level "debug" then DEBUG
  else NOTSET.

(** ** [parse_portstr]

    The port and the hosts, or [None] without an entry. [atoi] is a parameter:
    it is undefined for numbers out of range. The last case, no first piece, does
    not happen: only an empty string has no pieces. *)
Definition parse_portstr (atoi : string -> Z) (conf : INIReader) (group mode : string)
  : option (option (Z * list string)) :=
  let str := Get conf group mode "" in
  if String.eqb str "" then Some None
  else
    match splitstr str ":" with
    | [p] => Some (Some (wrap 16 (atoi p), ["127.0.0.1"]))
    | p :: h :: _ => Some (Some (wrap 16 (atoi p), splitstr h ","))
    | [] => None
    end.

(** ** [mkpath]

    A file system is the set of its directories; [mkdir] succeeds, finds the
    directory there, or finds its parent missing. *)
Inductive mkdir_answer := Made | EEXIST | ENOENT | Other_error.

(** The part before the last slash; without one, [npos] leaves all of it. *)
Fixpoint last_slash (s : string) : option string :=
  match s with
  | EmptyString => None
  | String a s' =>
      match last_slash s' with
      | Some p => Some (String a p)
      | None => if Ascii.eqb a "/" then Some EmptyString else None
      end
  end.

Definition parent (path : string) : string := default path (last_slash path).

Section mkpath.
Context {W : Type} (mkdir : string -> W -> mkdir_answer * W).

(** [None]: not finished within the fuel. *)
Fixpoint mkpath (fuel : nat) (path : string) (w : W) : option (bool * W) :=
  match fuel with
  | O => None
  | S fuel =>
      let '(r, w) := mkdir path w in
      match r with
      | Made | EEXIST => Some (true, w)
      | Other_error => Some (false, w)
      | ENOENT =>
          match mkpath fuel (parent path) w with
          | Some (true, w) => let '(r, w) := mkdir path w in Some (match r with Made => true | _ => false end, w)
          | r => r
          end
      end
  end.

Lemma last_slash_length s p : last_slash s = Some p -> (String.length p < String.length s)%nat.
Proof.
  revert p. induction s as [|a s IH]; intros p; cbn; [done|]. destruct (last_slash s) as [q|].
  - intros [= <-]. cbn. specialize (IH q eq_refl). lia.
  - destruct (Ascii.eqb a "/"); [|done]. intros [= <-]. cbn. lia.
Qed.

(** A path whose topmost part is never missing is dealt with: there are as many
    rounds as slashes at most. *)
Lemma mkpath_ends path : forall w fuel,
  (forall p w, last_slash p = None -> (mkdir p w).1 <> ENOENT) ->
  (String.length path < fuel)%nat -> is_Some (mkpath fuel path w).
Proof.
  induction path as [path IH] using (induction_ltof1 _ String.length). intros w fuel Htop Hf.
  destruct fuel as [|fuel]; [lia|]. cbn [mkpath]. destruct (mkdir path w) as [r w'] eqn:E.
  destruct r; try by eexists. unfold parent. destruct (last_slash path) as [q|] eqn:Eq; unfold default, from_option, id.
  - apply last_slash_length in Eq. destruct (IH q) with (w := w') (fuel := fuel) as [[ok w2] ->]; [done|done|lia|].
    destruct ok; [|by eexists]. destruct (mkdir path w2). by eexists.
  - exfalso. apply (Htop path w Eq). by rewrite E.
Qed.

(** Without a slash and with the parent missing, as for the empty path, it
    calls itself with the same path for ever. *)
Lemma mkpath_diverges path : 
  (forall w, (mkdir path w).1 = ENOENT) -> last_slash path = None -> forall fuel w, mkpath fuel path w = None.
Proof.
  intros H Hs. induction fuel as [|fuel IH]; intros w; [done|]. cbn [mkpath].
  specialize (H w). destruct (mkdir path w) as [r w']. cbn in H. subst r. unfold parent. rewrite Hs.
  unfold default, from_option, id. by rewrite IH.
Qed.
End mkpath.

(** ** Which addresses are used *)

(** The ground side takes its own address from [ground_id] and the other's from
    [air_id]; the entries [ground_ip] and [air_ip] are read by the air side
    only. *)
Lemma ground_ignores_ips conf conf' :
  Get conf "global" "mode" "air" = "ground" -> Get conf' "global" "mode" "air" = "ground" ->
  Get conf "global" "ground_id" "10.1.1.1" = Get conf' "global" "ground_id" "10.1.1.1" ->
  Get conf "global" "air_id" "10.1.1.1" = Get conf' "global" "air_id" "10.1.1.1" ->
  g_local_host (read_global conf) = g_local_host (read_global conf') /\
  g_remote_host (read_global conf) = g_remote_host (read_global conf').
Proof. intros H1 H2 H3 H4. unfold read_global. rewrite H1, H2. cbn. by split. Qed.
