(* ===== verification/Startup.v ===== *)
(** * The start of the program: [main] of src/src/wfb_bridge.cc

    From the command line to the loop over the cards: who may run it, the
    options, the configuration file, the loggers, queues and statistics, the
    table of links, the threads that never end and the web server. What is
    outside the program is a [machine]. The two streams hold what the parser and
    [main] print; what the loggers print is not modelled. *)

From S2P Require Import Prelude Text Strto CmdParser Options Gf256 GfField FecBlock FecEncoder SharedQueue TransferStats.
From S2P Require Import SendThread TunInterface HttpServer Bridge CardLoop Config LogThread.
From Stdlib Require Import Floats.SpecFloat.
Local Open Scope string_scope.
Local Open Scope Z_scope.

(** A configuration file as INIReader reads it: [ParseError()], the entries,
    and [GetFloat]. *)
Record conf_file := MkConfFile {
  ParseError : Z;
  entries : INIReader;
  GetFloat : string -> string -> float -> float
}.

Record machine := MkMachine {
  getuid : Z;
  files : string -> conf_file;
  civet : list string -> bool       (* does the web server start with these options? *)
}.

(** An appender of the logger with its threshold. *)
Record appender := MkAppender { ap_name : string; ap_ident : string; ap_threshold : PriorityLevel }.

(** The threads that never end, with what they are given besides the queues. *)
Inductive service :=
| Udev_monitor
| Tun_reader (timeout_us : Z)                                     (* [tun_raw_thread] *)
| Tun_writer                                                      (* from [send_queue] to the device *)
| Status_sender (hostname : string) (port : Z)                    (* [udp_send_loop] of [log_out] *)
| Packed_sender (hostname : string) (port : Z)                    (* [udp_send_loop] of [packed_log_out] *)
| Status_receiver (hostname : string) (port blocksize : Z)        (* [udp_recv_loop] to [log_in] *)
| Log_writer (syslog_period status_period : float)                (* [log_thread] *)
| Decoder.                                                        (* [fec_decode_thread] *)

(** Capacities of the queues. *)
Record queues := MkQueues {
  q_inqueue : Z;
  q_outqueue : Z;
  q_send_queue : Z;
  q_log_out : Z;
  q_packed_log_out : Z;
  q_log_in : Z
}.

Record started := MkStarted {
  s_conf : INIReader;
  s_global : global_settings;
  s_do_configure : bool;
  s_appenders : list appender;
  s_queues : queues;
  s_trans_stats : TransferStats;
  s_trans_stats_other : TransferStats;
  s_tun : string * string * Z;          (* arguments of [init]; its result is not looked at *)
  s_tables : fec_state;
  s_links : links;
  s_thrs : list service;                (* in the order in which they are started *)
  s_web : web_server
}.

Definition terminate {A} : prog A := fun s => Terminated s.

Definition services (g : global_settings) (syslog_period status_period : float) : list service :=
  [Udev_monitor; Tun_reader (g_timeout_us g); Tun_writer;
   Status_sender (g_log_to_host g) (g_link_status_port g);
   Packed_sender (g_packed_status_host g) (g_packed_status_port g);
   Status_receiver "0.0.0.0" (g_link_status_port g) (g_blocksize g);
   Log_writer syslog_period status_period; Decoder].

(** Up to the loop. [se] is the state of the tables of fec.c, [junk] the
    indeterminate [port_lut]. *)
Definition main_start (M : machine) (argv : list string) (se : fec_state) (junk : list Z) : prog started :=
  check_root (getuid M);;
  '(do_configure, conf_name) ← bridge_options argv;
  let file := files M conf_name in
  if negb (ParseError file =? 0) then
    print_err ("Error reading the configuration file: " ++ conf_name ++ nl);; quit EXIT_FAILURE
  else
    let conf := entries file in
    let log_level := Get conf "global" "loglevel" "info" in
    let syslog_level := Get conf "global" "sysloglevel" "info" in
    let g := read_global conf in
    let syslog_period := GetFloat file "global" "syslogperiod" (decimal_to_float false 5 0) in
    let status_period := GetFloat file "global" "statusperiod" (decimal_to_float false 2 (-1)) in
    let appenders := [MkAppender "console" "" (get_log_level log_level);
                      MkAppender "syslog" (hd "" argv) (get_log_level syslog_level)] in
    let qs := MkQueues (g_max_queue_size g) (g_max_queue_size g) 1000 1000 1000 1000 in
    match make_links conf se (g_mtu g) junk with
    | None => undefined
    | Some (T, l) =>
        match start (civet M) (g_http_port g) "" with
        | None => terminate
        | Some (ok, web) =>
            if negb ok then terminate             (* [return] destroys threads that run *)
            else
              mret (MkStarted conf g do_configure appenders qs (TransferStats_new (g_mode g))
                      (TransferStats_new (g_other_mode g)) (g_local_host g, g_netmask g, g_blocksize g) T l
                      (services g syslog_period status_period) web)
        end
    end.

(** The program as far as it has seen lists of cards; the loop has no exit. *)
Definition main (M : machine) (argv : list string) (se : fec_state) (junk : list Z)
    (w : world) (seen : list (list (string * string)))
  : prog (started * loop_state * list thread_event * HTTPServer * history) :=
  st ← main_start M argv se junk;
  let '(ls, es, srv, h) := loop w (s_conf st) seen (loop_start (g_mode (s_global st))) HTTPServer_new [] in
  mret (st, ls, es, srv, h).

(** ** Lemmas *)

Lemma check_root_other uid s :
  uid <> 0 -> check_root uid s =
    Exited EXIT_FAILURE (CmdParser.write s "" ("This application must be run as root or with root privileges." ++ nl)).
Proof. intros H. unfold check_root. by rewrite (proj2 (Z.eqb_neq _ _) H). Qed.

(** The table of links is made, with every link in it, if there are at most 16. *)
Lemma make_links_cases conf se mtu junk :
  length junk = Z.to_nat RAW_SOCKET_NPORTS ->
  let n := length (link_groups conf) in
  if (16 <? n)%nat then make_links conf se mtu junk = None
  else exists T l, make_links conf se mtu junk = Some (T, l) /\ links_ok (blocksize mtu) n l.
Proof.
  intros Hj n. assert (0 <= blocksize mtu < 65536) as Hb by (unfold blocksize; apply (wrap_range 16); lia).
  pose proof (add_links_spec conf (blocksize mtu) (Sections conf) se 0 (links_start junk) Hb ltac:(by split)) as H.
  cbn zeta in H. cbn [plus] in H. fold (link_groups conf) in H. fold n in H. unfold make_links.
  destruct (Nat.ltb_spec 16 n); [rewrite decide_False in H|rewrite decide_True in H]; try exact H;
    unfold RAW_SOCKET_NPORTS; lia.
Qed.

Lemma main_running M argv se junk w seen s st s' :
  main_start M argv se junk s = Running st s' ->
  let '(ls, es, srv, h) := loop w (s_conf st) seen (loop_start (g_mode (s_global st))) HTTPServer_new [] in
  main M argv se junk w seen s = Running (st, ls, es, srv, h) s'.
Proof.
  intros E. destruct (loop _ _ _ _ _ _) as [[[ls es] srv] h] eqn:El. unfold main.
  rewrite (bind_running _ _ _ _ _ E), El. done.
Qed.

Lemma main_stops M argv se junk w seen s :
  match main_start M argv se junk s with
  | Running _ _ => True
  | Exited code s' => main M argv se junk w seen s = Exited code s'
  | Terminated s' => main M argv se junk w seen s = Terminated s'
  | Undefined_behaviour => main M argv se junk w seen s = Undefined_behaviour
  end.
Proof. unfold main. rewrite bind_cases. by destruct (main_start M argv se junk s). Qed.

(** The state in which the loop starts. *)
Record started_ok (M : machine) (file : conf_file) (c : bool) (se : fec_state) (junk : list Z) (st : started) : Prop := {
  st_conf : s_conf st = entries file;
  st_global : s_global st = read_global (entries file);
  st_configure : s_do_configure st = c;
  st_made : make_links (entries file) se (g_mtu (s_global st)) junk = Some (s_tables st, s_links st);
  st_links : links_ok (g_blocksize (s_global st)) (length (link_groups (entries file))) (s_links st);
  st_tables : fec_reachable (s_tables st);
  st_thrs : exists p q, s_thrs st = services (s_global st) p q;
  st_names : m_name (s_trans_stats st) = g_mode (s_global st) /\ m_name (s_trans_stats_other st) = g_other_mode (s_global st);
  st_web : map fst (m_handlers (s_web st)) = ["/frequencies"; "/set_frequency"; "/get_frequency"]
}.

(** The start after the options have been read. *)
Lemma main_start_spec M app words se junk s :
  getuid M = 0 -> fec_reachable se -> length junk = Z.to_nat RAW_SOCKET_NPORTS ->
  match bridge_options (app :: words) s with
  | Running (c, name) s' =>
      let file := files M name in
      if negb (ParseError file =? 0) then
        main_start M (app :: words) se junk s =
          Exited EXIT_FAILURE (CmdParser.write s' "" ("Error reading the configuration file: " ++ name ++ nl))
      else if (16 <? length (link_groups (entries file)))%nat then
        main_start M (app :: words) se junk s = Undefined_behaviour
      else if negb (civet M ["listening_ports"; print_d (g_http_port (read_global (entries file)))]) then
        main_start M (app :: words) se junk s = Terminated s'
      else exists st, main_start M (app :: words) se junk s = Running st s' /\ started_ok M file c se junk st
  | Exited code s' => main_start M (app :: words) se junk s = Exited code s'
  | Terminated _ | Undefined_behaviour => False
  end.
Proof.
  intros Hu Hse Hj. pose proof (bridge_options_end app words s) as Hend. unfold main_start.
  rewrite Hu, (bind_running (check_root 0) _ s tt s eq_refl), bind_cases.
  destruct (bridge_options (app :: words) s) as [[c name] s'|code s'| |]; [|done|done|done]. clear Hend s.
  cbn zeta. destruct (ParseError (files M name) =? 0); [cbn [negb]|done].
  pose proof (make_links_cases (entries (files M name)) se (g_mtu (read_global (entries (files M name)))) junk Hj) as Hm.
  cbn zeta in Hm. destruct (16 <? _)%nat; [by rewrite Hm|]. destruct Hm as (T & l & E & Hl). rewrite E.
  unfold start. cbn [String.eqb]. rewrite app_nil_r. destruct (civet M _); cbn [negb]; [|done].
  eexists. split; [reflexivity|]. split; try done; [|by eexists _, _].
  cbn [s_tables]. destruct (add_links_tables _ _ _ _ _ _ _ Hse E) as [->|[-> _]]; [by constructor|done].
Qed.

(** ** Properties *)

(** C9: how the program starts. It ends at once unless root runs it; after
    that its command line decides, then whether the configuration file can be
    read; more than 16 links are undefined behaviour, and a web server that does
    not start ends it by an exception, not with the message that is there for
    it. Otherwise it reaches the loop over the cards and never leaves it, for
    whatever cards it sees, with a well-formed table of all the links, the
    tables of the code initialised and the eight threads started, and the
    threads of the cards are started and joined in pairs. *)
Theorem main_outcome (M : machine) (app : string) (words : list string) (se : fec_state) (junk : list Z)
    (w : world) (seen : list (list (string * string))) (s : streams) :
  fec_reachable se -> length junk = Z.to_nat RAW_SOCKET_NPORTS ->
  let run := main M (app :: words) se junk w seen s in
  (getuid M <> 0 ->
     run = Exited EXIT_FAILURE (CmdParser.write s "" ("This application must be run as root or with root privileges." ++ nl))) /\
  (getuid M = 0 ->
   match bridge_options (app :: words) s with
   | Running (c, name) s' =>
       let file := files M name in
       if negb (ParseError file =? 0) then
         run = Exited EXIT_FAILURE (CmdParser.write s' "" ("Error reading the configuration file: " ++ name ++ nl))
       else if (16 <? length (link_groups (entries file)))%nat then run = Undefined_behaviour
       else if negb (civet M ["listening_ports"; print_d (g_http_port (read_global (entries file)))]) then run = Terminated s'
       else exists st ls es srv h, run = Running (st, ls, es, srv, h) s' /\ started_ok M file c se junk st /\
         exists r, replay es (runs (loop_start "")) = Some r /\ forall t, r t = runs ls t
   | Exited code s' => run = Exited code s'
   | Terminated _ | Undefined_behaviour => False
   end).
Proof.
  intros Hse Hj run. pose proof (main_stops M (app :: words) se junk w seen s) as Hstop. fold run in Hstop. split.
  - intros Hu. unfold main_start in Hstop. by rewrite bind_cases, check_root_other in Hstop.
  - intros Hu. pose proof (main_start_spec M app words se junk s Hu Hse Hj) as H.
    destruct (bridge_options (app :: words) s) as [[c name] s'|code s'| |]; [|by rewrite H in Hstop|done|done].
    cbn zeta in *. destruct (ParseError (files M name) =? 0); cbn [negb] in *; [|by rewrite H in Hstop].
    destruct (16 <? _)%nat; [by rewrite H in Hstop|]. destruct (civet M _); cbn [negb] in *; [|by rewrite H in Hstop].
    destruct H as (st & E & Hst). pose proof (main_running M (app :: words) se junk w seen s st s' E) as Hr.
    destruct (loop _ _ _ _ _ _) as [[[ls es] srv] h] eqn:El. exists st, ls, es, srv, h. split; [exact Hr|]. split; [done|].
    by apply loop_replay in El.
Qed.

(** An unreadable file, and a start with the defaults. *)
Definition demo_machine (uid : Z) : machine :=
  MkMachine uid
    (fun name => MkConfFile (if String.eqb name "wfb.conf" then 0 else -1)
                   (MkINIReader ["global"; "link-video"] (fun _ _ dflt => dflt) (fun _ _ dflt => dflt)) (fun _ _ dflt => dflt))
    (fun _ => true).

Lemma main_outcome_witness :
  let s := MkStreams "" "" in
  let junk := replicate 16 0 in
  main (demo_machine 1000) ["wfb_bridge"; "-c"; "wfb.conf"] fec_static junk (fun _ _ => false) [] s =
    Exited 1 (MkStreams "" ("This application must be run as root or with root privileges." ++ nl)) /\
  main (demo_machine 0) ["wfb_bridge"; "-c"; "wfb.con"] fec_static junk (fun _ _ => false) [] s =
    Exited 1 (MkStreams "" ("Error reading the configuration file: wfb.con" ++ nl)) /\
  exists st ls es srv h,
    main (demo_machine 0) ["wfb_bridge"; "-c"; "wfb.conf"] fec_static junk (fun _ _ => false) [[]; []] s =
      Running (st, ls, es, srv, h) s /\ links_ok 1436 1 (s_links st) /\ s_do_configure st = true.
Proof.
  intros s junk. split; [|split].
  - destruct (main_outcome (demo_machine 1000) "wfb_bridge" ["-c"; "wfb.conf"] fec_static junk (fun _ _ => false) [] s
      reach_static eq_refl) as [H _]. by apply H.
  - destruct (main_outcome (demo_machine 0) "wfb_bridge" ["-c"; "wfb.con"] fec_static junk (fun _ _ => false) [] s
      reach_static eq_refl) as [_ H]. by apply H.
  - destruct (main_outcome (demo_machine 0) "wfb_bridge" ["-c"; "wfb.conf"] fec_static junk (fun _ _ => false) [[]; []] s
      reach_static eq_refl) as [_ H].
    destruct (H eq_refl) as (st & ls & es & srv & h & E & Hok & _). exists st, ls, es, srv, h. split; [exact E|].
    pose proof (st_links _ _ _ _ _ _ Hok) as Hl. rewrite (st_global _ _ _ _ _ _ Hok) in Hl. split; [exact Hl|].
    apply (st_configure _ _ _ _ _ _ Hok).
Defined.
