(* ===== verification/Devices.v ===== *)
(** * What the program takes from the system and gives back

    [TUNInterface::init] (src/src/tun_interface.cc), the UDP sockets of
    src/src/udp_receive.cc and src/src/udp_send.cc, and what the functions of
    Cards leave open. The answers of the system are arguments; a function gives
    its result and the descriptors it opens and closes, in order. *)

From S2P Require Import Prelude Text HttpServer Cards.
From Stdlib Require Import Floats.SpecFloat.
Local Open Scope Z_scope.

(** ** The TUN device *)

Record tun_answers := MkTunAnswers {
  a_open : Z;
  a_setiff : Z;          (* ioctl(TUNSETIFF) *)
  a_socket : Z;
  a_ip : Z;              (* inet_pton of the address *)
  a_setaddr : Z;
  a_mask : Z;            (* inet_pton of the mask *)
  a_setmask : Z;
  a_getflags : Z;
  a_setflags : Z;
  a_setmtu : Z
}.

(** [init]: the result, [m_fd], the events. *)
Definition tun_init (a : tun_answers) : bool * Z * list event :=
  let fd := a_open a in
  if fd <? 0 then (false, fd, [])
  else
    let es := [Opens (Fd fd)] in
    if a_setiff a <? 0 then (false, fd, es ++ [Closes (Fd fd)])
    else if a_socket a <? 0 then (false, fd, es ++ [Closes (Fd fd)])
    else
      let sock := a_socket a in
      let es := es ++ [Opens (Fd sock)] in
      let close_both := [Closes (Fd fd); Closes (Fd sock)] in
      if negb (a_ip a =? 1) then (false, fd, es)
      else if a_setaddr a <? 0 then (false, fd, es)
      else if negb (a_mask a =? 1) then (false, fd, es)
      else if a_setmask a <? 0 then (false, fd, es)
      else if a_getflags a <? 0 then (false, fd, es ++ close_both)
      else if a_setflags a <? 0 then (false, fd, es ++ close_both)
      else if a_setmtu a <? 0 then (false, fd, es ++ close_both)
      else (true, fd, es ++ [Closes (Fd sock)]).

(** ** The network devices *)

(** [detect_network_devices]: an interface is its name and its address family,
    if it has an address. *)
Definition AF_PACKET : Z := 17.
Definition detect_network_devices (ifaddrs : option (list (string * option Z))) : bool * list string :=
  match ifaddrs with
  | None => (false, [])
  | Some l => (true, map fst (filter (fun i => i.2 = Some AF_PACKET) l))
  end.

(** ** UDP *)

(** [open_udp_socket_for_rx]: the descriptor or -1. *)
Definition open_udp_socket_for_rx (sock bind : Z) : Z * list event :=
  if sock <? 0 then (-1, [])
  else if bind <? 0 then (-1, [Opens (Fd sock)])
  else (sock, [Opens (Fd sock)]).

(** [hostname_to_ip]: the first address of the host, if it is found. *)
Definition hostname_to_ip (host : option (list string)) : string :=
  match host with
  | Some (ip :: _) => ip
  | _ => ""
  end.

(** A round of [udp_recv_loop]: [recv] fills the buffer of [blocksize] bytes
    with the front of a datagram, or fails. *)
Definition recv_round (blocksize : Z) (datagram : option (list byte)) (outq : list (list byte)) : list (list byte) :=
  match datagram with
  | Some d =>
      let msg := take (Z.to_nat blocksize) d in
      if 0 <? Z.of_nat (length msg) then outq ++ [msg] else outq
  | None => outq
  end.

(** What the loop pushes when the socket is open. *)
Definition udp_recv_loop (sock bind blocksize : Z) (datagrams : list (option (list byte))) : list (list byte) :=
  if (open_udp_socket_for_rx sock bind).1 <? 0 then []
  else foldl (fun q d => recv_round blocksize d q) [] datagrams.

(** [udp_send_loop]: every packet is sent as it is; no answer is looked at. *)
Definition udp_send_loop (sock : Z) (packets : list (list byte)) : list (list byte) :=
  if sock <? 0 then [] else packets.

(** ** Lemmas *)

Definition tun_ok (a : tun_answers) : Prop :=
  0 <= a_open a /\ 0 <= a_setiff a /\ 0 <= a_socket a /\ a_ip a = 1 /\ 0 <= a_setaddr a /\ a_mask a = 1 /\
  0 <= a_setmask a /\ 0 <= a_getflags a /\ 0 <= a_setflags a /\ 0 <= a_setmtu a.

(** The address or the mask could not be set. *)
Definition tun_address_failed (a : tun_answers) : bool :=
  negb (a_open a <? 0) && negb (a_setiff a <? 0) && negb (a_socket a <? 0) &&
  (negb (a_ip a =? 1) || (a_setaddr a <? 0) || negb (a_mask a =? 1) || (a_setmask a <? 0)).

(** Two descriptors that differ. *)
Lemma remove_two a b : a <> b -> remove_one b [a; b] = [a] /\ remove_one a [a; b] = [b].
Proof. intros H. cbn. rewrite (decide_False (P := a = b)), !decide_True by done. done. Qed.

(** Both answers of the first test of the goal. *)
Ltac decide_test := match goal with |- context [if ?b then _ else _] => destruct b eqn:? end.

Lemma tun_init_spec a :
  a_open a <> a_socket a ->
  let '(ok, fd, es) := tun_init a in
  fd = a_open a /\ (ok = true <-> tun_ok a) /\
  held es = (if ok then [Fd fd] else if tun_address_failed a then [Fd fd; Fd (a_socket a)] else []).
Proof.
  intros Hne. assert (Fd (a_open a) <> Fd (a_socket a)) as Hfd by congruence.
  destruct (remove_two _ _ Hfd) as [R1 R2].
  assert (forall b, remove_one b [b] = []) as R by (intros b; cbn; by rewrite decide_True).
  unfold tun_init, tun_ok.
  repeat (decide_test; [split; [done|]; split; [split; [done|intros ?; lia]|];
    unfold tun_address_failed; repeat match goal with H : _ = _ :> bool |- _ => rewrite H; clear H end;
    unfold held; cbn [foldl hold app negb andb orb]; rewrite ?R2, ?R; reflexivity|]).
  split; [done|]. split; [split; [intros _|done]; lia|]. unfold held. cbn [foldl hold app]. by rewrite R1.
Qed.

(** What a function of a card leaves open, when it runs on a kernel. *)
Definition left_open (m : io bool) (K : kernel) : list resource := held (events (m K []).2).

Ltac run_card := unfold left_open, set_wifi_monitor_mode, set_wifi_txpower, set_wifi_frequency, set_wifi_legacy_bitrate,
  write_first, ath9k_files, write_file, set_wifi_up_down, put_all, nl_begin, nl_end, opens, closes, ask, mbind, io_bind, mret, io_ret;
  cbv beta iota zeta.

Ltac card_cases := repeat (match goal with |- context [if ?b then _ else _] => destruct b eqn:? end;
  cbn [negb]; cbv beta iota zeta; cbn [negb]).

(** ** Properties *)

(** Opening and closing. [init] of the TUN device succeeds exactly when
    every call does, and then only the device stays open. When the address or
    the mask cannot be set it fails with the device and the configuration
    socket left open; after any other failure nothing is. Bringing a card up
    or down leaves a socket open every time, so configuring monitor mode leaves
    two, and a UDP socket that cannot be bound is left open; the netlink
    functions give back what they took, but for the callback of a frequency
    change that could not be put together. *)
Theorem open_and_close (a : tun_answers) :
  a_open a <> a_socket a ->
  let '(ok, fd, es) := tun_init a in
  fd = a_open a /\ (ok = true <-> tun_ok a) /\
  held es = (if ok then [Fd fd] else if tun_address_failed a then [Fd fd; Fd (a_socket a)] else []) /\
  (forall K device up, left_open (set_wifi_up_down device up) K = if K [] Socket <? 0 then [] else [Fd (K [] Socket)]) /\
  (forall K device, (set_wifi_monitor_mode device K []).1 = true ->
     exists down up, left_open (set_wifi_monitor_mode device) K = [Fd down; Fd up]) /\
  (forall K device freq, left_open (set_wifi_frequency device freq) K = [] \/
     left_open (set_wifi_frequency device freq) K = [Nl_cb] /\ (set_wifi_frequency device freq K []).1 = false) /\
  (forall K device rate, left_open (set_wifi_legacy_bitrate device rate) K = []) /\
  (forall K device power, left_open (set_wifi_txpower device power) K = []) /\
  (forall sock bind, (open_udp_socket_for_rx sock bind).1 = -1 -> 0 <= sock ->
     held (open_udp_socket_for_rx sock bind).2 = [Fd sock]).
Proof.
  intros Hne. pose proof (tun_init_spec a Hne) as H. destruct (tun_init a) as [[ok fd] es].
  destruct H as (H1 & H2 & H3). split; [exact H1|]. split; [exact H2|]. split; [exact H3|]. split_and!.
  - intros K device up. run_card. by destruct (K [] Socket <? 0).
  - intros K device. run_card. card_cases; cbn; intros; try done; by eexists _, _.
  - intros K device freq. run_card. card_cases; cbn; auto.
  - intros K device rate. run_card. done.
  - intros K device power. run_card. card_cases; done.
  - intros sock bind. unfold open_udp_socket_for_rx. repeat decide_test; cbn; intros; done || lia.
Qed.

(** The address of the configuration file is malformed. *)
Lemma open_and_close_witness :
  (tun_init (MkTunAnswers 3 0 4 0 0 1 0 0 0 0)).1 = (false, 3) /\
  held (tun_init (MkTunAnswers 3 0 4 0 0 1 0 0 0 0)).2 = [Fd 3; Fd 4].
Proof.
  destruct (open_and_close (MkTunAnswers 3 0 4 0 0 1 0 0 0 0) ltac:(discriminate)) as (_ & _ & H & _).
  split; [reflexivity|exact H].
Defined.
