(* ===== verification/EndToEnd.v ===== *)
(** * From one bridge to the other

    The threads of two bridges composed: messages of all links through the
    transmit thread of one, the frames through the air, captures through the
    receive thread of the other, and its decode thread ([bridge_transport]). *)

From S2P Require Import Prelude Gf256 GfField FecBlock FecWire FecEncoder FecDecoder FecRecover FecLink.
From S2P Require Import Radiotap RawSend RawReceive TransferStats SendThread DecodeThread.

(** The frame without the radiotap header of the sender. *)
Definition frame_body (s : RawSendSocket) (fr : list byte) : list byte :=
  drop (if m_mcs s then 13 else 12)%nat fr.

Lemma frame_body_of s E k m w :
  frame_body s (frame_of s E k m w) = sent_header s (link_type (opts m)) (port m) (e_now E k) ++ w.
Proof.
  unfold frame_body, frame_of. rewrite drop_app_length'; [done|]. by rewrite length_rt_header.
Qed.

(** Something the receiver hears: a capture and the clock. *)
Definition capture : Type := list byte * Z.

(** A capture of the frame [fr] of the sender with socket [s]. *)
Definition hears (s : RawSendSocket) (fr : list byte) (c : capture) : Prop := captured (frame_body s fr) c.1.

(** A capture of somebody else: a message for another port. *)
Definition hears_other (p : Z) (c : capture) : Prop :=
  forall stale, exists m', receive c.1 (Z.of_nat (length c.1)) c.2 (monitor_message_new stale 0) = Some (true, m') /\
    msg_port m' <> p /\ 0 <= msg_port m' /\ msg_data m' <> [].

(** [hear s p frs cs]: the captures [cs] are those of the frames [frs], in
    order, with captures of other ports in between. *)
Inductive hear (s : RawSendSocket) (p : Z) : list (list byte) -> list capture -> Prop :=
| hear_nil : hear s p [] []
| hear_frame fr c frs cs : hears s fr c -> hear s p frs cs -> hear s p (fr :: frs) (c :: cs)
| hear_other c frs cs : hears_other p c -> hear s p frs cs -> hear s p frs (c :: cs).

Definition packet_of (c : capture) : pcap_answer := Packet c.1 (Z.of_nat (length c.1)) c.2.

(** A packet of the link of [m] with data, and the frame that carries it. *)
Definition link_packet (s : RawSendSocket) (m : Message) (fr w : list byte) : Prop :=
  w <> [] /\ Z.of_nat (length w + length (ieee_header (link_type (opts m)))) <= m_mtu s /\
  exists E k, fr = frame_of s E k m w.

Lemma receive_thread_hears stale s m p frs cs : forall ws fuel,
  socket_ok s -> port m = Z.of_nat p -> (p < 16)%nat -> hear s (port m) frs cs ->
  Forall2 (link_packet s m) frs ws -> (length cs < fuel)%nat ->
  exists ms, receive_thread stale fuel (map packet_of cs) = Some (ms, false) /\
    port_datas p ms = ws /\ Forall (fun m => 0 <= msg_port m) ms /\ length ms = length cs.
Proof.
  intros ws fuel Hs Hp Hp16 Hh. revert ws fuel.
  induction Hh as [|fr c frs cs Hc _ IH|c frs cs Hother _ IH]; intros ws fuel Hw Hf.
  - apply Forall2_nil_inv_l in Hw as ->. destruct fuel; [lia|]. by exists [].
  - apply Forall2_cons_inv_l in Hw as (w & ws' & (Hwne & Hfit & E & k & ->) & Hw & ->).
    destruct fuel as [|fuel]; [lia|]. cbn [length] in Hf. cbn [map receive_thread receive_call packet_of].
    unfold hears in Hc. rewrite frame_body_of in Hc.
    destruct (receive_captured s (e_now E k) c.2 (port m) w (link_type (opts m)) (monitor_message_new (stale fuel) 0) c.1 Hs Hfit Hc)
      as (m' & -> & Hd & Hport & _). cbn [mbind option_bind].
    destruct (IH ws' fuel) as (ms & -> & Hds & Hpos & Hlen); [done|lia|]. cbn [mbind option_bind]. rewrite Hd.
    assert (msg_port m' = Z.of_nat p) as Hmp.
    { rewrite Hport, Hp. change 15 with (Z.ones 4). rewrite Z.land_ones by lia. apply Z.mod_small. lia. }
    destruct w as [|b w]; [done|]. exists (m' :: ms). split; [done|]. split.
    + unfold port_datas in *. rewrite filter_cons_True by done. cbn [fmap list_fmap]. by rewrite Hd, Hds.
    + split; [apply Forall_cons; split; [lia|done]|cbn; lia].
  - destruct fuel as [|fuel]; [lia|]. cbn [length] in Hf. cbn [map receive_thread receive_call packet_of].
    destruct (Hother (stale fuel)) as (m' & Er & Hne & H0 & Hd).
    rewrite Er. cbn [mbind option_bind]. destruct (IH ws fuel) as (ms & -> & Hds & Hpos & Hlen); [done|lia|].
    cbn [mbind option_bind]. destruct (msg_data m') as [|b d] eqn:Ed; [done|]. exists (m' :: ms). split; [done|]. split.
    + unfold port_datas in *. rewrite filter_cons_False; [done|]. congruence.
    + split; [by apply Forall_cons|cbn; lia].
Qed.

(** ** Losses *)

Lemma deliver_Forall2 (R : list byte -> list byte -> Prop) ks rs : forall xs ys,
  Forall2 R xs ys -> length ys = sum_list ks -> Forall2 (fun k r => Forall (fun i => (i < k)%nat) r) ks rs ->
  Forall2 R (deliver ks xs rs) (deliver ks ys rs).
Proof.
  intros xs ys Hxy Hlen Hr. revert xs ys Hxy Hlen.
  induction Hr as [|k r ks rs Hr _ IH]; intros xs ys Hxy Hlen; cbn [deliver]; [constructor|].
  change (length ys = k + sum_list ks)%nat in Hlen. apply Forall2_app.
  - apply Forall2_fmap, Forall_Forall2_diag. eapply Forall_impl; [exact Hr|]. intros x Hk. cbn beta in *.
    destruct (lookup_lt_is_Some_2 ys x) as [b Hb]; [lia|].
    destruct (Forall2_lookup_r _ _ _ _ _ Hxy Hb) as (a & Ha & HR).
    by rewrite (list_lookup_total_correct _ _ _ Ha), (list_lookup_total_correct _ _ _ Hb).
  - apply IH; [by apply Forall2_drop|]. rewrite length_drop. lia.
Qed.

(** The indices of what arrives are those of packets of the group. *)
Lemma enough_indices f pss rs :
  Forall2 (enough f) pss rs -> Forall2 (fun k r => Forall (fun i => (i < k)%nat) r) (group_sizes f pss) rs.
Proof.
  intros H. unfold group_sizes. apply Forall2_fmap_l. eapply Forall2_impl; [exact H|].
  intros ps r (_ & Hlt & _). by apply Forall_forall.
Qed.

(** What arrives was sent. *)
Lemma deliver_elem ks ws rs w :
  Forall2 (fun k r => Forall (fun i => (i < k)%nat) r) ks rs -> length ws = sum_list ks ->
  w ∈ deliver ks ws rs -> w ∈ ws.
Proof.
  intros H. revert ws. induction H as [|k r ks rs Hr _ IH]; intros ws Hl; cbn [deliver]; [by intros ?%elem_of_nil|].
  change (length ws = k + sum_list ks)%nat in Hl. intros [Hw|Hw]%elem_of_app.
  - apply list_elem_of_fmap in Hw as (x & -> & Hx). rewrite Forall_forall in Hr. specialize (Hr x Hx).
    apply list_elem_of_lookup_total_2. lia.
  - apply IH in Hw; [|rewrite length_drop; lia]. rewrite <-(take_drop k ws). apply elem_of_app. by right.
Qed.

(** Every packet of a stream has data and fits. *)
Lemma stream_wires_fit nb f mx sq pss w :
  (0 < nb <= 128)%nat -> (0 < f <= 128)%nat -> mx + 4 < 65536 -> 0 <= sq < 256 ->
  Forall (group_fits nb mx) pss -> w ∈ stream_wires sq f pss -> w <> [] /\ plen w <= mx + 4.
Proof.
  intros Hnb Hf Hmx Hs Hp. revert sq Hs. induction Hp as [|ps pss Hps _ IH]; intros sq Hs; cbn [stream_wires].
  { by intros ?%elem_of_nil. }
  intros [Hw|Hw]%elem_of_app.
  - pose proof (group_fits_ok nb f mx Hnb Hf Hmx sq ps Hs Hps) as Hg.
    pose proof (length_group_wire _ _ _ _ _ Hg Hw). destruct (ok_size _ _ _ _ Hg). unfold plen. split; [|lia].
    intros ->. simpl in *. lia.
  - apply (IH (next_seq sq)); [|done]. pose proof (next_seq_range sq Hs). lia.
Qed.

Lemma Forall2_and_r {A B} (P : A -> B -> Prop) (Q : B -> Prop) l k :
  Forall2 P l k -> Forall Q k -> Forall2 (fun x y => Q y /\ P x y) l k.
Proof. intros H. induction H; intros Hq; constructor; apply Forall_cons in Hq as [? ?]; auto. Qed.

(** ** One link of the threads *)

Lemma nonempty_id pkts : (forall q, q ∈ pkts -> q <> []) -> nonempty pkts = pkts.
Proof.
  intros H. unfold nonempty. induction pkts as [|q qs IH]; [done|]. rewrite filter_cons_True by (apply H; left).
  f_equal. apply IH. intros q' Hq. apply H. by right.
Qed.

(** The transmit thread does for link [i] what the link does on its own. *)
Lemma sender_link T mq i st e ms r e' :
  send_state_ok st -> encs st !! i = Some e -> Forall (fun em => valid (length (encs st)) em.2) ms ->
  link_run T mq (sock st) (link_msgs i ms) e = Some (r, e') ->
  (forall j ej, j <> i -> encs st !! j = Some ej -> is_Some (link_run T mq (sock st) (link_msgs j ms) ej)) ->
  exists rounds st', raw_send_thread T mq ms st = Some (rounds, st') /\ link_rounds i ms rounds = r.
Proof.
  intros Hst He Hv Hr Hother.
  destruct (send_thread_links T mq (length (encs st)) ms st Hst eq_refl Hv) as (rounds & st' & E & _ & _ & _ & Hl).
  { intros j ej Hj. destruct (decide (j = i)) as [->|Hne]; [|by apply Hother].
    rewrite He in Hj. injection Hj as <-. rewrite Hr. by eexists. }
  exists rounds, st'. split; [done|]. destruct (Hl i e He) as (e2 & E2 & _). rewrite Hr in E2. by injection E2 as ->.
Qed.

(** The decode thread does for port [p] what its decoder does on its own. *)
Lemma receiver_port T p ds d d' ms qs :
  shape ds -> decoders ds !! p = Some d -> FecDecoder.m_out_blocks d = [] ->
  Forall (fun m => 0 <= msg_port m) ms -> Forall (fun w => plen w < 65536) (port_datas p ms) ->
  receive_all T d (port_datas p ms) = Some d' -> mapM payload (FecDecoder.m_out_blocks d') = Some qs ->
  (forall q dq, q <> p -> decoders ds !! q = Some dq -> is_Some (port_run T (port_datas q ms) dq)) ->
  exists rounds ds', fec_decode_thread T ms ds = Some (rounds, ds') /\
    concat (port_rounds p ms rounds) = nonempty qs.
Proof.
  intros Hsh Hd Ho Hpos Hw Ed Ep Hother.
  destruct (port_run_receive T (port_datas p ms) d d' qs) as (r1 & d2 & E1 & Hc & _); [done..|].
  destruct (decode_thread_ports T ms ds Hsh Hpos) as (rounds & ds' & E & _ & _ & Hl).
  { intros q dq Hq. destruct (decide (q = p)) as [->|Hnq]; [|by apply Hother].
    rewrite Hd in Hq. injection Hq as <-. rewrite E1. by eexists. }
  exists rounds, ds'. split; [done|]. destruct (Hl p d Hd) as (d3 & E3 & _).
  rewrite E1 in E3. by injection E3 as <- _.
Qed.

(** ** The groups of a link *)

(** The groups the messages [its] of a link are sent in, and what stays behind. *)
Definition stream_groups (nb : nat) (its : list item) : list (list (list byte)) := (cut nb [] (item_event <$> its)).1.
Definition stream_rest (nb : nat) (its : list item) : list (list byte) := (cut nb [] (item_event <$> its)).2.

Lemma omap_events its : omap id (item_event <$> its) = nonempty (item_data <$> its).
Proof.
  induction its as [|it its IH]; [done|]. unfold nonempty in *. cbn [fmap list_fmap omap list_omap].
  change (list_fmap item event item_event its) with (item_event <$> its).
  change (list_omap _ _ id (item_event <$> its)) with (omap id (item_event <$> its)). rewrite IH.
  rewrite filter_cons. unfold item_event, event_of. by destruct (item_data it).
Qed.

(** Every packet is in a group or stays behind. *)
Lemma stream_groups_data nb its : concat (stream_groups nb its) ++ stream_rest nb its = nonempty (item_data <$> its).
Proof. unfold stream_groups, stream_rest. by rewrite cut_concat, omap_events. Qed.

Lemma stream_groups_nonempty nb its q : q ∈ concat (stream_groups nb its) -> q <> [].
Proof.
  intros Hq. assert (q ∈ nonempty (item_data <$> its)) as H.
  { rewrite <-(stream_groups_data nb). apply elem_of_app. by left. }
  unfold nonempty in H. by apply list_elem_of_filter in H as [H _].
Qed.

(** After a flush nothing stays behind. *)
Lemma stream_rest_flushed nb its it : item_data it = [] -> stream_rest nb (its ++ [it]) = [].
Proof.
  intros H. unfold stream_rest. rewrite fmap_app. cbn [fmap list_fmap].
  assert (item_event it = None) as -> by (unfold item_event; by rewrite H). apply cut_flushed.
Qed.

Section bridges.
Context (Te Td : fec_state) `{!GfTables Te} `{!GfTables Td}.
Context (mq : Z) (nb f p i : nat) (mx : Z) (m0 : Message) (st : send_state) (e : FECEncoder).
Context (Hnb : (0 < nb <= 128)%nat) (Hf : (0 < f <= 128)%nat) (Hp16 : (p < 16)%nat) (Hport : port m0 = Z.of_nat p).
Context (Hmx : mx + 28 <= m_mtu (sock st)) (Hmtu : m_mtu (sock st) < 65536).
Context (Hst : send_state_ok st) (He : encs st !! i = Some e).
Context (Hidle : filling nb f mx [] e) (Hout : FecEncoder.m_out_blocks e = []).

Lemma items_groups_fit its : Forall (item_ok mq nb f mx) its -> Forall (group_fits nb mx) (stream_groups nb its).
Proof.
  intros Hits.
  destruct (stream_sent Te nb f mx Hnb Hf ltac:(lia) (item_event <$> its) e [] Hidle) as (_ & _ & _ & _ & Hg); [|done].
  apply Forall_fmap. eapply Forall_impl; [exact Hits|]. by intros it [_ Hfit].
Qed.

Lemma sender_stream its ms :
  Forall (item_ok mq nb f mx) its ->
  link_msgs i ms = map (item_msg m0) its ->
  Forall (fun em => valid (length (encs st)) em.2) ms ->
  (forall j ej, j <> i -> encs st !! j = Some ej -> is_Some (link_run Te mq (sock st) (link_msgs j ms) ej)) ->
  exists rounds st', raw_send_thread Te mq ms st = Some (rounds, st') /\
    carried (sock st) m0 (concat (link_rounds i ms rounds)) (stream_wires (m_seq_num e) f (stream_groups nb its)).
Proof.
  intros Hits Hms Hv Hother.
  destruct (link_stream Te mq (sock st) m0 nb f mx Hnb Hf Hmx Hmtu its e [] Hidle Hout Hits)
    as (rounds1 & e1 & E1 & Hc & _).
  rewrite <-Hms in E1. destruct (sender_link Te mq i st e ms rounds1 e1) as (rounds & st' & E & <-); try done.
  by exists rounds, st'.
Qed.

Lemma receiver_stream sq pss rs d ds ms :
  0 <= sq < 256 -> Forall (group_fits nb mx) pss -> (forall q, q ∈ concat pss -> q <> []) ->
  Forall2 (enough f) pss rs ->
  shape ds -> decoders ds !! p = Some d -> fresh sq d -> FecDecoder.m_out_blocks d = [] ->
  Forall (fun m => 0 <= msg_port m) ms ->
  port_datas p ms = deliver (group_sizes f pss) (stream_wires sq f pss) rs ->
  (forall q dq, q <> p -> decoders ds !! q = Some dq -> is_Some (port_run Td (port_datas q ms) dq)) ->
  exists rounds ds', fec_decode_thread Td ms ds = Some (rounds, ds') /\
    concat (port_rounds p ms rounds) = concat pss.
Proof.
  intros Hs Hpss Hne Hrs Hsh Hd Hfr Ho Hpos Hdatas Hother.
  assert (mx + 4 < 65536) as Hmx' by lia.
  destruct (stream_received Td nb f mx Hnb Hf Hmx' sq pss rs d Hs Hfr Hpss Hrs) as (d' & outs & Ed & Eo & Ep).
  rewrite Ho in Eo. cbn [app] in Eo. rewrite <-Eo in Ep. rewrite <-Hdatas in Ed.
  rewrite <-(nonempty_id (concat pss)) by done. eapply receiver_port; try done.
  rewrite Hdatas. apply Forall_forall. intros w Hw.
  apply deliver_elem in Hw; [|by apply enough_indices|apply length_stream_wires].
  pose proof (stream_wires_fit nb f mx sq pss w Hnb Hf Hmx' Hs Hpss Hw). lia.
Qed.
End bridges.

(** ** The composition *)

(** The link [i] of a bridge with radio port [p]: its prototype message, its
    idle encoder for groups of at most [nb] + [f] packets, and blocks that fit the MTU. *)
Record link_setup (nb f p i : nat) (mx : Z) (m0 : Message) (st : send_state) (e : FECEncoder) : Prop := {
  su_nb : (0 < nb <= 128)%nat;
  su_f : (0 < f <= 128)%nat;
  su_p : (p < 16)%nat;
  su_port : port m0 = Z.of_nat p;
  su_mx : mx + 28 <= m_mtu (sock st);
  su_mtu : m_mtu (sock st) < 65536;
  su_st : send_state_ok st;
  su_enc : encs st !! i = Some e;
  su_idle : filling nb f mx [] e;
  su_out : FecEncoder.m_out_blocks e = []
}.

(** The decode thread has not seen the link's next group on port [p], and the
    packets of the other ports are no problem for their decoders. *)
Record receiver_setup (Td : fec_state) (p : nat) (sq : Z) (msgs : list monitor_message) (ds : decode_state) : Prop := {
  rs_shape : shape ds;
  rs_port : exists d, decoders ds !! p = Some d /\ fresh sq d /\ FecDecoder.m_out_blocks d = [];
  rs_other : forall q dq, q <> p -> decoders ds !! q = Some dq -> is_Some (port_run Td (port_datas q msgs) dq)
}.

(** The composition, for tables set up by [fec_init] on both sides. *)
Lemma bridge_transport (se sd : fec_state) (mq : Z) (nb f p i : nat) (mx : Z) (m0 : Message)
    (st : send_state) (e : FECEncoder) (its : list item) (ms : list (env * Message)) (rs : list (list nat)) :
  fec_reachable se -> fec_reachable sd -> link_setup nb f p i mx m0 st e ->
  Forall (item_ok mq nb f mx) its -> link_msgs i ms = map (item_msg m0) its ->
  Forall (fun em => valid (length (encs st)) em.2) ms ->
  (forall j ej, j <> i -> encs st !! j = Some ej ->
     is_Some (link_run (fec_init se) mq (sock st) (link_msgs j ms) ej)) ->
  let pss := stream_groups nb its in
  Forall2 (enough f) pss rs ->
  exists rounds st', raw_send_thread (fec_init se) mq ms st = Some (rounds, st') /\
    carried (sock st) m0 (concat (link_rounds i ms rounds)) (stream_wires (m_seq_num e) f pss) /\
    concat pss ++ stream_rest nb its = nonempty (item_data <$> its) /\
    forall stale caps, hear (sock st) (port m0) (deliver (group_sizes f pss) (concat (link_rounds i ms rounds)) rs) caps ->
    exists msgs, receive_thread stale (S (length caps)) (map packet_of caps) = Some (msgs, false) /\
      length msgs = length caps /\
      port_datas p msgs = deliver (group_sizes f pss) (stream_wires (m_seq_num e) f pss) rs /\
      forall ds, receiver_setup (fec_init sd) p (m_seq_num e) msgs ds ->
      exists out ds', fec_decode_thread (fec_init sd) msgs ds = Some (out, ds') /\
        concat (port_rounds p msgs out) = concat pss.
Proof.
  intros Hse Hsd Hsu. pose proof (fec_init_tables se Hse) as HTe. pose proof (fec_init_tables sd Hsd) as HTd.
  generalize dependent (fec_init se). generalize dependent (fec_init sd). clear se sd Hse Hsd.
  intros Td HTd Te HTe Hits Hms Hv Hother pss Hrs.
  destruct Hsu as [Hnb Hf Hp Hport Hmx Hmtu Hst He Hidle Hout].
  destruct (sender_stream Te mq nb f i mx m0 st e Hnb Hf Hmx Hmtu Hst He Hidle Hout its ms Hits Hms Hv Hother)
    as (rounds & st' & E & Hc). exists rounds, st'. split; [done|]. split; [done|].
  split; [apply stream_groups_data|]. fold pss in Hc. intros stale caps Hh.
  assert (Forall (group_fits nb mx) pss) as Hpss by (by eapply (items_groups_fit Te)).
  assert (0 <= m_seq_num e < 256) as Hs by apply (fill_ok _ _ _ _ _ Hidle).
  assert (mx + 4 < 65536) as Hmx' by lia.
  assert (Forall2 (link_packet (sock st) m0) (concat (link_rounds i ms rounds)) (stream_wires (m_seq_num e) f pss)) as Hd.
  { assert (Forall (fun w => w <> [] /\ plen w <= mx + 4) (stream_wires (m_seq_num e) f pss)) as Hw.
    { apply Forall_forall. intros w Hw. by eapply (stream_wires_fit nb f mx). }
    eapply Forall2_impl; [exact (Forall2_and_r _ _ _ _ Hc Hw)|].
    intros fr w [[Hne Hl] (E' & k & ->)]. split; [done|]. split; [|eauto].
    rewrite length_ieee_header. unfold plen in Hl. destruct (link_type _); lia. }
  apply (deliver_Forall2 _ (group_sizes f pss) rs) in Hd; [|apply length_stream_wires|by apply enough_indices].
  destruct (receive_thread_hears stale (sock st) m0 p _ caps _ (S (length caps)) (st_sock _ Hst) Hport Hp Hh Hd)
    as (msgs & Er & Hdatas & Hpos & Hml); [lia|].
  exists msgs. split; [done|]. split; [done|]. split; [done|]. intros ds [Hsh (d & Hdd & Hfr & Ho) Hoth].
  eapply (receiver_stream Td nb f p mx st); try done. apply stream_groups_nonempty.
Qed.

(** ** A small bridge *)

(** A bridge with one link: groups of two packets and one FEC packet. *)
Definition demo_encoder_1 : FECEncoder := MkFECEncoder 1 2 1 100 [] [].
Definition demo_bridge : send_state :=
  MkSendState [demo_encoder_1] (RawSendSocket_new true 130 3) (TransferStats_new "ground").
Definition demo_item (data : list byte) : item := (quiet, 5600, data).

Lemma demo_link_setup : link_setup 2 1 0 0 100 (demo_proto 0) demo_bridge demo_encoder_1.
Proof.
  split; try (reflexivity || (cbn; lia)).
  - split; [split; [cbn; lia|reflexivity]|reflexivity].
  - split; try reflexivity; [|cbn; lia|by intros p ?%elem_of_nil].
    apply (FECEncoder_new_ok fec_static 2 1 100 1); lia.
Qed.

Lemma demo_item_ok data : plen data + 2 <= 100 -> item_ok 200 2 1 100 (demo_item data).
Proof.
  intros H. split; [intros k; cbn; lia|]. unfold item_event, event_of, demo_item, item_data. cbn [snd].
  intros q Hq. destruct data; [done|]. injection Hq as <-. exact H.
Qed.

(** The first packet of a group of one is enough. *)
Lemma demo_enough p : enough 1 [p] [0%nat].
Proof.
  split; [intros [|i] [|j] H1 H2; simpl in *; lia|].
  split; [intros y Hy; apply list_elem_of_singleton in Hy; simpl; lia|]. split; [simpl; lia|].
  split; [exists 0%nat; simpl; split; [done|lia]|]. exists 0%nat. split; [|unfold group_size; simpl; symmetry; apply Nat.max_0_r].
  apply elem_datas. split; [left|simpl; lia].
Qed.

(** The wire format of the data packet of a group of one, and a capture of a
    frame, with a sequence number of the chip, the radiotap header of a receiver
    in front and a checksum behind. *)
Definition demo_wire : list byte := [x01; x00; x01; x01; x02; x00; xaa; xbb].
Definition demo_capture (fr : list byte) : capture :=
  (demo_header ++ renumber x40 x01 (frame_body (sock demo_bridge) fr) ++ demo_crc, 9).

Lemma demo_captured E k :
  hears (sock demo_bridge) (frame_of (sock demo_bridge) E k (demo_proto 0) demo_wire)
    (demo_capture (frame_of (sock demo_bridge) E k (demo_proto 0) demo_wire)).
Proof.
  unfold hears, demo_capture. rewrite frame_body_of.
  eexists _, demo_header, demo_crc, demo_iterator. split; [right; split; [reflexivity|by eexists _, _]|]. split; [reflexivity|]. split; [reflexivity|]. split; [reflexivity|]. split.
  - unfold defined_fields. vm_compute. by apply Forall_singleton.
  - vm_compute. reflexivity.
Qed.

(** One message, with data for port 0, is of port 0. *)
Lemma demo_port msgs :
  length msgs = 1%nat -> port_datas 0 msgs = [demo_wire] ->
  exists m, msgs = [m] /\ msg_port m = 0.
Proof.
  destruct msgs as [|m [|]]; [done| |done]. intros _ H. exists m. split; [done|].
  unfold port_datas in H. cbn [filter list_filter] in H.
  destruct (decide (msg_port m = Z.of_nat 0)) as [Hm|Hm]; [exact Hm|discriminate H].
Qed.
