(* ===== verification/Air.v ===== *)
(** * The air between the bridges

    Everything that is sent on the air, by bridges of both sides, reaches the
    card of a receiver; the filter that [RawReceiveSocket::add_device] installs
    keeps the frames of the other side, and the threads of the receiver make of
    them the packets that its peer sent. *)

From S2P Require Import Prelude Gf256 GfField FecBlock FecWire FecEncoder FecDecoder FecRecover FecLink.
From S2P Require Import Radiotap RawSend RawReceive RawCapture TransferStats SendThread DecodeThread EndToEnd.

(** A frame on the air: the socket that sends it, the message and the packet it
    carries, and what the card of the receiver captures of it. *)
Record emission := MkEmission {
  em_sock : RawSendSocket;
  em_env : env;
  em_k : nat;
  em_msg : Message;
  em_packet : list byte;
  em_capture : capture
}.

Definition em_frame (e : emission) : list byte := frame_of (em_sock e) (em_env e) (em_k e) (em_msg e) (em_packet e).

(** A frame that a transmit thread can have sent, and a capture of it. *)
Record em_ok (e : emission) : Prop := {
  eo_sock : socket_ok (em_sock e);
  eo_data : em_packet e <> [];
  eo_fits : Z.of_nat (length (em_packet e) + length (ieee_header (link_type (opts (em_msg e))))) <= m_mtu (em_sock e);
  eo_capture : hears (em_sock e) (em_frame e) (em_capture e)
}.

(** What the filter looks at: the capture behind its radiotap header. *)
Definition behind (mem : list byte) : list byte :=
  match rd16 mem 2 with
  | Some n => drop (Z.to_nat n) mem
  | None => mem
  end.

Definition kept (matches : string -> list byte -> bool) (r : RawReceiveSocket) (e : emission) : bool :=
  passes matches r (behind (em_capture e).1).

(** The captures that the socket hands out. *)
Definition handed_out (matches : string -> list byte -> bool) (r : RawReceiveSocket) (es : list emission) : list capture :=
  em_capture <$> filter (fun e => kept matches r e = true) es.

(** The frames of the other side on port [p]. *)
Definition of_peer (ground : bool) (p : Z) (e : emission) : bool :=
  xorb ground (m_ground (em_sock e)) && (Z.land (port (em_msg e)) 15 =? p).
Definition peer_frames (ground : bool) (p : Z) (es : list emission) : list (list byte) :=
  em_frame <$> filter (fun e => of_peer ground p e = true) es.

(** On this port only the peer, with socket [s], sends on the other side. *)
Definition only_peer (ground : bool) (p : Z) (s : RawSendSocket) (e : emission) : Prop :=
  of_peer ground p e = true -> em_sock e = s.

Lemma own_side_only_peer ground p s e : m_ground (em_sock e) = ground -> only_peer ground p s e.
Proof. intros <-. unfold only_peer, of_peer. by rewrite xorb_nilpotent. Qed.

Lemma peer_only_peer ground p s e : em_sock e = s -> only_peer ground p s e.
Proof. by intros ? ?. Qed.

Lemma behind_captured body mem : captured body mem -> exists body' crc, renumbered body body' /\ behind mem = body' ++ crc.
Proof.
  intros (body' & rt & crc & it & Hb & -> & _ & Hrt & _). exists body', crc. split; [exact Hb|]. unfold behind. rewrite Hrt, Nat2Z.id. apply drop_app_length.
Qed.

Lemma kept_other_side matches im r0 c r e :
  documented matches -> add_device im r0 c = (true, r) -> em_ok e ->
  kept matches r e = xorb (r_ground r0) (m_ground (em_sock e)).
Proof.
  intros Hm Hr He. pose proof (eo_capture _ He) as Hc. unfold hears, em_frame in Hc. rewrite frame_body_of in Hc.
  apply behind_captured in Hc as (body & crc & Hb & Eb).
  apply renumbered_app in Hb as (hdr & -> & Hh). unfold kept. rewrite Eb, <-app_assoc. by eapply passes_frame.
Qed.

(** A frame for another port. *)
Lemma other_port_heard p e : em_ok e -> Z.land (port (em_msg e)) 15 <> p -> hears_other p (em_capture e).
Proof.
  intros [Hs Hd Hf Hc] Hp stale. unfold hears, em_frame in Hc. rewrite frame_body_of in Hc.
  destruct (receive_captured (em_sock e) (e_now (em_env e) (em_k e)) (em_capture e).2 (port (em_msg e)) (em_packet e)
    (link_type (opts (em_msg e))) (monitor_message_new stale 0) (em_capture e).1 Hs Hf Hc) as (m' & Er & Hd' & Hp' & _).
  exists m'. split; [exact Er|]. rewrite Hp', Hd'. split; [done|]. split; [|done]. apply Z.land_nonneg. lia.
Qed.

(** Of all that is on the air, the receiver hears the frames of its peer, in
    their order, and frames for other ports. *)
Lemma air_heard matches im r0 c r s p es :
  documented matches -> add_device im r0 c = (true, r) -> Forall em_ok es ->
  Forall (only_peer (r_ground r0) p s) es ->
  hear s p (peer_frames (r_ground r0) p es) (handed_out matches r es).
Proof.
  intros Hm Hr. unfold peer_frames, handed_out. induction es as [|e es IH]; intros Hok Hpeer; [constructor|].
  apply Forall_cons in Hok as [He Hok]. apply Forall_cons in Hpeer as [Hp Hpeer]. specialize (IH Hok Hpeer).
  rewrite !filter_cons. unfold only_peer, of_peer in *. rewrite (kept_other_side matches im r0 c r e Hm Hr He).
  destruct (xorb (r_ground r0) (m_ground (em_sock e))); cbn [andb] in *.
  2: { exact IH. }
  destruct (Z.eqb_spec (Z.land (port (em_msg e)) 15) p) as [Ep|Ep].
  - apply hear_frame; [|exact IH]. rewrite <-(Hp eq_refl). apply He.
  - apply hear_other; [by apply other_port_heard|exact IH].
Qed.

(** ** Properties *)

(** C2: from one bridge to the other over an air that all bridges share. The
    messages of a link with FEC, packets and flushes, go through the transmit
    thread in any interleaving with the messages of other links; the air carries
    frames of both sides and of all ports, and of the frames of the link it
    loses at most as many per group as [enough] allows. The receiver's filter
    drops the frames of its own side; from what it hands out, the decode thread
    makes, for the port of the link, exactly the packets of the groups, in order
    and unchanged. That is every packet of the link but the ones pending in its
    encoder. *)
Theorem bridge_over_air (matches : string -> list byte -> bool) (im : bool) (r0 r : RawReceiveSocket) (calls : pcap_calls)
    (se sd : fec_state) (mq : Z) (nb f p i : nat) (mx : Z) (m0 : Message)
    (st : send_state) (e : FECEncoder) (its : list item) (ms : list (env * Message)) (rs : list (list nat)) :
  documented matches -> add_device im r0 calls = (true, r) ->
  fec_reachable se -> fec_reachable sd -> link_setup nb f p i mx m0 st e ->
  Forall (item_ok mq nb f mx) its -> link_msgs i ms = map (item_msg m0) its ->
  Forall (fun em => valid (length (encs st)) em.2) ms ->
  (forall j ej, j <> i -> encs st !! j = Some ej ->
     is_Some (link_run (fec_init se) mq (sock st) (link_msgs j ms) ej)) ->
  let pss := stream_groups nb its in
  Forall2 (enough f) pss rs ->
  exists rounds st', raw_send_thread (fec_init se) mq ms st = Some (rounds, st') /\
    carried (sock st) m0 (concat (link_rounds i ms rounds)) (stream_wires (m_seq_num e) f pss) /\
    concat pss ++ stream_rest nb its = nonempty (item_data <$> its) /\
    forall stale air, Forall em_ok air -> Forall (only_peer (r_ground r0) (port m0) (sock st)) air ->
    peer_frames (r_ground r0) (port m0) air = deliver (group_sizes f pss) (concat (link_rounds i ms rounds)) rs ->
    let caps := handed_out matches r air in
    exists msgs, receive_thread stale (S (length caps)) (map packet_of caps) = Some (msgs, false) /\
      length msgs = length caps /\
      port_datas p msgs = deliver (group_sizes f pss) (stream_wires (m_seq_num e) f pss) rs /\
      forall ds, receiver_setup (fec_init sd) p (m_seq_num e) msgs ds ->
      exists out ds', fec_decode_thread (fec_init sd) msgs ds = Some (out, ds') /\
        concat (port_rounds p msgs out) = concat pss.
Proof.
  intros Hm Hr Hse Hsd Hsu Hits Hms Hv Hother pss Hrs.
  destruct (bridge_transport se sd mq nb f p i mx m0 st e its ms rs Hse Hsd Hsu Hits Hms Hv Hother Hrs)
    as (rounds & st' & E & Hc & Hd & Hrecv).
  exists rounds, st'. split; [exact E|]. split; [exact Hc|]. split; [exact Hd|]. intros stale air Hok Hpeer Hair caps.
  apply Hrecv. fold pss. rewrite <-Hair. by eapply air_heard.
Qed.

(** The ground side sends a packet and a flush, whose FEC packet is lost; an air
    side bridge, with the same port, sends at the same time. *)
Definition demo_own_side : RawSendSocket := RawSendSocket_new false 130 3.
Definition demo_emission (s : RawSendSocket) (E : env) (k : nat) : emission :=
  MkEmission s E k (demo_proto 0) demo_wire (demo_capture (frame_of s E k (demo_proto 0) demo_wire)).

Lemma demo_emission_ok (b : bool) E k :
  em_ok (demo_emission (if b then demo_own_side else sock demo_bridge) E k).
Proof.
  split; [by destruct b|done|by destruct b|]. unfold demo_emission, hears, demo_capture, em_frame.
  cbn [em_sock em_env em_k em_msg em_packet em_capture fst].
  assert (m_mcs (sock demo_bridge) = m_mcs (if b then demo_own_side else sock demo_bridge)) as Em by (by destruct b).
  replace (frame_body (sock demo_bridge)) with (frame_body (if b then demo_own_side else sock demo_bridge))
    by (unfold frame_body; by rewrite Em).
  rewrite frame_body_of. eexists _, demo_header, demo_crc, demo_iterator.
  split; [right; split; [by destruct b|by eexists _, _]|]. split; [reflexivity|]. split; [reflexivity|]. destruct b; (split; [reflexivity|split]);
    try (unfold defined_fields; vm_compute; by apply Forall_singleton); vm_compute; reflexivity.
Qed.

Lemma bridge_over_air_witness :
  exists r rounds st' air msgs out ds',
    add_device true (RawReceiveSocket_new false 130) demo_calls = (true, r) /\
    raw_send_thread (fec_init fec_static) 200
      [item_msg (demo_proto 0) (demo_item [xaa; xbb]); item_msg (demo_proto 0) (demo_item [])] demo_bridge
      = Some (rounds, st') /\
    length air = 2%nat /\
    receive_thread (fun _ => 0) 2 (map packet_of (handed_out demo_matches r air)) = Some (msgs, false) /\
    fec_decode_thread (fec_init fec_static) msgs demo_decode_state = Some (out, ds') /\
    concat (port_rounds 0 msgs out) = [[xaa; xbb]].
Proof.
  assert (documented demo_matches) as Hm by (intros body _; split; reflexivity).
  destruct (add_device true (RawReceiveSocket_new false 130) demo_calls) as [ok r] eqn:Er.
  assert (ok = true) as -> by (by injection Er).
  destruct (bridge_over_air demo_matches true _ r demo_calls fec_static fec_static 200 2 1 0 0 100 (demo_proto 0)
    demo_bridge demo_encoder_1 [demo_item [xaa; xbb]; demo_item []]
    [item_msg (demo_proto 0) (demo_item [xaa; xbb]); item_msg (demo_proto 0) (demo_item [])]
    [[0%nat]] Hm Er reach_static reach_static demo_link_setup)
    as (rounds & st' & E & Hc & _ & Hrecv).
  - repeat first [apply Forall_nil_2 | apply Forall_cons_2; [apply demo_item_ok; vm_compute; discriminate|]].
  - reflexivity.
  - repeat first [apply Forall_nil_2 | apply Forall_cons_2; [unfold valid, port_ok, RAW_SOCKET_NPORTS; cbn; lia|]].
  - intros [|j] ej Hj Hej; [by destruct Hj|discriminate Hej].
  - apply Forall2_cons_2; [apply demo_enough|apply Forall2_nil_2].
  - destruct (concat (link_rounds 0 _ rounds)) as [|fr frs] eqn:Efr; [by apply Forall2_length in Hc|].
    apply Forall2_cons_inv_l in Hc as (w & ws & (E' & k & Hfr) & _ & Hw).
    apply (f_equal (fun l => hd [] l)) in Hw. cbn [hd] in Hw.
    assert (w = demo_wire) as -> by (rewrite <-Hw; vm_compute; reflexivity).
    set (air := [demo_emission demo_own_side E' k; demo_emission (sock demo_bridge) E' k]).
    destruct (Hrecv (fun _ => 0) air) as (msgs & Em & Hl1 & Hdatas & Hdec).
    { repeat apply Forall_cons_2; [apply (demo_emission_ok true)|apply (demo_emission_ok false)|apply Forall_nil_2]. }
    { repeat apply Forall_cons_2; [by apply own_side_only_peer|by apply peer_only_peer|apply Forall_nil_2]. }
    { unfold peer_frames, air. rewrite filter_cons_False by (unfold of_peer; cbn [demo_emission em_sock em_msg]; done).
      rewrite filter_cons_True by done. rewrite Hfr. reflexivity. }
    assert (length (handed_out demo_matches r air) = 1%nat) as Hl.
    { assert (kept demo_matches r (demo_emission demo_own_side E' k) = false) as K1
        by exact (kept_other_side _ _ _ _ _ _ Hm Er (demo_emission_ok true E' k)).
      assert (kept demo_matches r (demo_emission (sock demo_bridge) E' k) = true) as K2
        by exact (kept_other_side _ _ _ _ _ _ Hm Er (demo_emission_ok false E' k)).
      unfold handed_out, air. rewrite length_fmap, filter_cons_False by (rewrite K1; done).
      by rewrite filter_cons_True by exact K2. }
    rewrite Hl in Em, Hl1. destruct (demo_port msgs Hl1) as (m & -> & Hmp); [rewrite Hdatas; vm_compute; reflexivity|].
    destruct (Hdec demo_decode_state) as (out & ds' & Ed & Eo).
    { split; [split; reflexivity| |].
      - exists demo_decoder. split; [reflexivity|]. split; [|reflexivity].
        split; [cbn; lia|intros _; split; reflexivity].
      - intros q dq Hq _. unfold port_datas. rewrite filter_cons_False by (rewrite Hmp; lia). by eexists. }
    exists r, rounds, st', air, [m], out, ds'. 
    exact (conj eq_refl (conj E (conj eq_refl (conj Em (conj Ed Eo))))).
Defined.
