(* ===== verification/PlainLink.v ===== *)
(** * A link without FEC

    With no data or no FEC packets configured, the encoder hands every packet
    on at once (PlainEncoder) and the decoder releases whatever arrives: a link
    without FEC is a channel that loses single packets. *)

From S2P Require Import Prelude Gf256 FecBlock FecWire FecEncoder PlainEncoder FecDecoder FecLink.
From S2P Require Import Radiotap RawSend RawReceive TransferStats SendThread DecodeThread EndToEnd.

(** ** The transmit thread *)

Lemma plain_wires_app n f mx ps1 : forall sq ps2,
  plain_wires n f mx sq (ps1 ++ ps2) = plain_wires n f mx sq ps1 ++ plain_wires n f mx (seq_after (length ps1) sq) ps2.
Proof.
  induction ps1 as [|p ps1 IH]; intros sq ps2; [done|]. cbn [app plain_wires length].
  rewrite IH. unfold seq_after. by rewrite Nat.iter_succ_r.
Qed.

Section link.
Context (T : fec_state) (mq : Z) (s : RawSendSocket) (m0 : Message) (n f mx : Z).
Context (Hmx : mx + 28 <= m_mtu s) (Hmtu : m_mtu s < 65536).

(** A message of the link while the thread keeps up, and one that is only not too long. *)
Definition plain_item (it : item) : Prop := keeps_up mq 1 it.1.1 /\ event_fits mx (item_event it).

Lemma plain_packet_ok sq p : fits mx p -> packet_ok s (plain_wire n f mx sq p).
Proof.
  intros H. pose proof (length_plain_wire n f mx sq p H) as Hl. unfold fits, plen in H. split.
  - apply header_of_Some. lia.
  - lia.
Qed.

(** What the encoder makes of a message. *)
Lemma feed_plain e it :
  plain n f mx e -> FecEncoder.m_out_blocks e = [] -> event_fits mx (item_event it) ->
  exists e', feed T e (item_data it) = Some e' /\ plain n f mx e' /\
    m_seq_num e' = seq_after (length (nonempty [item_data it])) (m_seq_num e) /\
    mapM wire (FecEncoder.m_out_blocks e') = Some (plain_wires n f mx (m_seq_num e) (nonempty [item_data it])) /\
    Forall (packet_ok s) (plain_wires n f mx (m_seq_num e) (nonempty [item_data it])) /\
    (length (FecEncoder.m_out_blocks e') <= 1)%nat.
Proof.
  intros He Ho Hfit. rewrite feed_event by (eapply event_fits_len; [|exact Hfit]; lia).
  unfold event_fits, item_event, event_of in *. destruct (item_data it) as [|b q].
  - exists e. cbn [encode_event]. rewrite (flush_plain T n f mx) by done. rewrite Ho. split; [done|]. split; [done|].
    split; [done|]. split; [done|]. split; [apply Forall_nil_2|cbn; lia].
  - specialize (Hfit _ eq_refl). cbn [encode_event].
    destruct (send_plain T n f mx ltac:(lia) e (b :: q) He Hfit) as (blk & e' & E & He' & Hs & Eo & Ew).
    exists e'. split; [done|]. split; [done|]. split; [done|]. rewrite Eo, Ho. cbn [app].
    split; [cbn [mapM]; by rewrite Ew|]. split; [|done]. apply Forall_singleton. by apply plain_packet_ok.
Qed.

Lemma set_out_plain e : plain n f mx e -> plain n f mx (set_out e []).
Proof. intros [[H1 H2 H3 H4 H5] K1 K2 K3 K4 K5]. by split; [split|..]. Qed.

Lemma link_plain its : forall e,
  plain n f mx e -> FecEncoder.m_out_blocks e = [] -> Forall plain_item its ->
  exists rounds e', link_run T mq s (map (item_msg m0) its) e = Some (rounds, e') /\
    carried s m0 (concat rounds) (plain_wires n f mx (m_seq_num e) (nonempty (item_data <$> its))) /\
    plain n f mx e' /\ FecEncoder.m_out_blocks e' = [].
Proof.
  induction its as [|it its IH]; intros e He Ho Hits.
  { exists [], e. split; [done|]. split; [constructor|done]. }
  apply Forall_cons in Hits as [[Hq Hfit] Hits]. cbn [map link_run]. unfold item_msg at 1, link_round.
  change (msg (Message_copy m0 it.2 it.1.2)) with (item_data it).
  destruct (feed_plain e it He Ho Hfit) as (e1 & -> & He1 & Hs1 & Ew & Hok & Hl). cbn [mbind option_bind].
  destruct (link_frames_carried 0 it.1.1 mq (Message_copy m0 it.2 it.1.2) s _ _ Ew Hok) as (frs & -> & Hc).
  { by eapply keeps_up_le. }
  cbn [mbind option_bind]. destruct (IH (set_out e1 [])) as (r2 & e2 & -> & Hc2 & He2); [by apply set_out_plain|done|done|].
  cbn [mbind option_bind]. exists (frs :: r2), e2. split; [done|]. split; [|done].
  assert (nonempty (item_data <$> it :: its) = nonempty [item_data it] ++ nonempty (item_data <$> its)) as ->.
  { unfold nonempty. by rewrite <-filter_app. }
  rewrite plain_wires_app, <-Hs1. by apply Forall2_app.
Qed.
End link.

(** ** The decode thread *)

(** What arrives of the items of a list, by index: any of them, in any order,
    also more than once. *)
Definition select {A} (ix : list nat) (l : list A) : list A := omap (fun i => l !! i) ix.

Lemma select_Forall2 {A B} (R : A -> B -> Prop) ix l k : Forall2 R l k -> Forall2 R (select ix l) (select ix k).
Proof.
  intros H. unfold select. induction ix as [|i ix IH]; [constructor|]. cbn [omap list_omap].
  pose proof (Forall2_length _ _ _ H) as Hl. destruct (l !! i) as [x|] eqn:El.
  - destruct (Forall2_lookup_l _ _ _ _ _ H El) as (y & -> & HR). by constructor.
  - apply lookup_ge_None in El. rewrite Hl in El. apply lookup_ge_None in El as ->. done.
Qed.

(** A packet of the link and its payload. *)
Definition plain_of (n f mx : Z) (w p : list byte) : Prop :=
  fits mx p /\ exists sq, 0 <= sq < 256 /\ w = plain_wire n f mx sq p.

Lemma plain_of_fit n f mx ws ps :
  Forall2 (plain_of n f mx) ws ps -> Forall (fun w => w <> [] /\ plen w <= mx + 4) ws.
Proof.
  induction 1 as [|w p ws ps (Hfit & sq & _ & ->) _ IH]; constructor; [|done].
  pose proof (length_plain_wire n f mx sq p Hfit) as Hl. unfold fits, plen in *. split; [|lia].
  intros E. rewrite E in Hl. simpl in Hl. lia.
Qed.

Lemma plain_wires_of n f mx ps : forall sq,
  0 <= sq < 256 -> (forall p, p ∈ ps -> fits mx p) -> Forall2 (plain_of n f mx) (plain_wires n f mx sq ps) ps.
Proof.
  induction ps as [|p ps IH]; intros sq Hs Hfit; [constructor|]. cbn [plain_wires]. constructor.
  - split; [apply Hfit; left|]. by exists sq.
  - pose proof (next_seq_range sq Hs). apply IH; [lia|]. intros q Hq. apply Hfit. by right.
Qed.

Section decoder.
Context (T : fec_state) (n f mx : Z).
Context (Hn : 0 <= n < 256) (Hf : 0 <= f < 256) (Hoff : f = 0 \/ n = 0) (Hmx : mx + 4 < 65536).

Lemma plain_received ws ps : Forall2 (plain_of n f mx) ws ps -> forall d,
  exists d' outs, receive_all T d ws = Some d' /\ FecDecoder.m_out_blocks d' = FecDecoder.m_out_blocks d ++ outs /\
    mapM payload outs = Some ps.
Proof.
  induction 1 as [|w p ws ps (Hfit & sq & Hs & ->) _ IH]; intros d.
  { exists d, []. by rewrite app_nil_r. }
  unfold fits, plen in Hfit. set (h := MkFECHeader sq 0 n f (plen p)).
  assert (header_ok h) as Hh by (repeat split; cbn; unfold plen; lia).
  cbn [receive_all]. rewrite (receive_plain _ _ _ h); [|by apply header_of_bytes|cbn; tauto].
  cbn [mbind option_bind].
  match goal with |- context [receive_all T ?d1 ws] => destruct (IH d1) as (d' & outs & -> & Eo & Ep) end.
  exists d', (MkFECBlock (plain_wire n f mx sq p) (Z.of_nat (length (plain_wire n f mx sq p))) :: outs).
  split; [done|]. cbn in Eo. split; [by rewrite Eo, <-app_assoc|].
  cbn [mapM]. rewrite Ep.
  change (MkFECBlock (plain_wire n f mx sq p) ?l) with (mk_block h (p ++ replicate (Z.to_nat (mx - 2) - length p) x00) l).
  rewrite payload_mk; [|done|rewrite length_app; unfold h, plen; cbn; lia]. cbn [mbind option_bind].
  unfold h, plen. cbn [h_length]. by rewrite Nat2Z.id, take_app_length.
Qed.
End decoder.

(** ** Properties *)

(** A link [i] without FEC of a bridge, with radio port [p]. *)
Record plain_setup (n f mx : Z) (p i : nat) (m0 : Message) (st : send_state) (e : FECEncoder) : Prop := {
  ps_plain : plain n f mx e;
  ps_out : FecEncoder.m_out_blocks e = [];
  ps_enc : encs st !! i = Some e;
  ps_p : (p < 16)%nat;
  ps_port : port m0 = Z.of_nat p;
  ps_mx : mx + 28 <= m_mtu (sock st);
  ps_mtu : m_mtu (sock st) < 65536;
  ps_st : send_state_ok st
}.

(** Each nonempty message becomes one frame, a flush none, in any interleaving
    with other links; whichever of the frames are heard, in whatever order and
    however often, in between captures of other ports: the decode thread hands
    on, for the port of the link, exactly the packets of the frames that were
    heard, unchanged and in that order. *)
Lemma plain_transport (Te Td : fec_state) (mq n f mx : Z) (p i : nat) (m0 : Message) (st : send_state)
    (e : FECEncoder) (its : list item) (ms : list (env * Message)) :
  plain_setup n f mx p i m0 st e ->
  Forall (plain_item mq mx) its -> link_msgs i ms = map (item_msg m0) its ->
  Forall (fun em => valid (length (encs st)) em.2) ms ->
  (forall j ej, j <> i -> encs st !! j = Some ej -> is_Some (link_run Te mq (sock st) (link_msgs j ms) ej)) ->
  let pkts := nonempty (item_data <$> its) in
  exists rounds st', raw_send_thread Te mq ms st = Some (rounds, st') /\
    carried (sock st) m0 (concat (link_rounds i ms rounds)) (plain_wires n f mx (m_seq_num e) pkts) /\
    forall stale ix caps, hear (sock st) (port m0) (select ix (concat (link_rounds i ms rounds))) caps ->
    exists msgs, receive_thread stale (S (length caps)) (map packet_of caps) = Some (msgs, false) /\
      length msgs = length caps /\ port_datas p msgs = select ix (plain_wires n f mx (m_seq_num e) pkts) /\
      forall ds d, shape ds -> decoders ds !! p = Some d -> FecDecoder.m_out_blocks d = [] ->
      (forall q dq, q <> p -> decoders ds !! q = Some dq -> is_Some (port_run Td (port_datas q msgs) dq)) ->
      exists out ds', fec_decode_thread Td msgs ds = Some (out, ds') /\
        concat (port_rounds p msgs out) = select ix pkts.
Proof.
  intros [He Ho Hi Hp Hport Hmx Hmtu Hst] Hits Hms Hv Hother pkts.
  destruct (link_plain Te mq (sock st) m0 n f mx Hmx Hmtu its e He Ho Hits) as (r & e' & Er & Hc & _).
  rewrite <-Hms in Er. destruct (sender_link Te mq i st e ms r e') as (rounds & st' & E & <-); try done.
  exists rounds, st'. split; [done|]. split; [done|]. fold pkts in Hc. intros stale ix caps Hh.
  destruct (plain_ranges n f mx e He) as (Hs & Hn & Hf).
  assert (Forall2 (plain_of n f mx) (plain_wires n f mx (m_seq_num e) pkts) pkts) as Hw.
  { apply plain_wires_of; [done|]. intros q Hq. unfold pkts, nonempty in Hq. apply list_elem_of_filter in Hq as [Hne Hq].
    apply list_elem_of_fmap in Hq as (it & -> & Hit). rewrite Forall_forall in Hits. destruct (Hits it Hit) as [_ Hfit].
    apply Hfit. unfold item_event, event_of. by destruct (item_data it). }
  apply (select_Forall2 _ ix) in Hc, Hw.
  assert (Forall2 (link_packet (sock st) m0) (select ix (concat (link_rounds i ms rounds)))
            (select ix (plain_wires n f mx (m_seq_num e) pkts))) as Hl.
  { eapply Forall2_impl; [exact (Forall2_and_r _ _ _ _ Hc (plain_of_fit n f mx _ _ Hw))|].
    intros fr w [[Hne Hlen] (E' & k & ->)]. split; [done|]. split; [|eauto].
    rewrite length_ieee_header. unfold plen in Hlen. destruct (link_type _); lia. }
  destruct (receive_thread_hears stale (sock st) m0 p _ caps _ (S (length caps)) (st_sock _ Hst) Hport Hp Hh Hl)
    as (msgs & Em & Hdatas & Hpos & Hml); [lia|]. exists msgs.
  split; [done|]. split; [done|]. split; [done|]. intros ds d Hsh Hd Hod Hoth.
  destruct (plain_received Td n f mx Hn Hf (pl_off _ _ _ _ He) ltac:(lia) _ _ Hw d) as (d' & outs & Ed & Eo & Ep).
  rewrite Hod in Eo. cbn [app] in Eo. rewrite <-Eo in Ep. rewrite <-Hdatas in Ed.
  rewrite <-(nonempty_id (select ix pkts)).
  2: { intros q Hq. unfold select in Hq. apply list_elem_of_omap in Hq as (j & _ & Hj).
       apply list_elem_of_lookup_2 in Hj. unfold pkts, nonempty in Hj. by apply list_elem_of_filter in Hj as [? _]. }
  eapply receiver_port; try done. rewrite Hdatas. eapply Forall_impl; [exact (plain_of_fit n f mx _ _ Hw)|].
  intros w [_ Hlen]. lia.
Qed.
