(* ===== verification/TunToTun.v ===== *)
(** * From TUN device to TUN device

    The threads and queues of two bridges composed, from the configuration of
    the sender: the packets of the TUN device are routed to the links, queued,
    encoded and transmitted; what is heard is queued, decoded, queued again
    and written to the other TUN device. *)

From S2P Require Import Prelude Gf256 GfField FecBlock FecWire FecEncoder FecDecoder FecRecover FecLink.
From S2P Require Import RawSend RawReceive SharedQueue TransferStats SendThread DecodeThread TunInterface Bridge.
From S2P Require Import EndToEnd PlainEncoder PlainLink.

(** ** A queue between two threads

    A run of a [SharedQueue] with any number of waiting threads in which no
    push finds it full and that ends with the queue empty: [pushed] goes in,
    [popped] comes out. *)
Definition handed_over {A} (max : nat) (pushed popped : list A) : Prop :=
  exists ls s, mrun (monitor_new max false) ls = Some (s, popped) /\ pushes ls = pushed /\
    overflows (monitor_new max false) ls = false /\ m_queue (mon_queue s) = [].

Lemma handed_over_eq {A} max (pushed popped : list A) : handed_over max pushed popped -> popped = pushed.
Proof.
  intros (ls & s & E & <- & Ho & Hq). destruct (mrun_fifo _ _ _ _ E) as (_ & H & _).
  specialize (H Ho). by rewrite Hq, app_nil_r in H.
Qed.

(** A consumer that always keeps up. *)
Definition one_by_one {A} (xs : list A) : list (label A) := concat (map (fun x => [Push x; Notify; TryPop]) xs).

Lemma one_by_one_run {A} max (xs : list A) :
  mrun (monitor_new (S max) false) (one_by_one xs) = Some (monitor_new (S max) false, xs) /\
  pushes (one_by_one xs) = xs /\ overflows (monitor_new (S max) false) (one_by_one xs) = false.
Proof.
  induction xs as [|x xs (E & Hp & Ho)]; [done|]. unfold one_by_one in *. cbn [map concat app].
  generalize dependent (concat (map (fun x : A => [Push x; Notify; TryPop]) xs)). intros ls E Hp Ho.
  split; [|split].
  - cbn. change (MkMonitor _ 0 0 0) with (monitor_new (A := A) (S max) false). by rewrite E.
  - cbn [pushes]. by rewrite Hp.
  - cbn. exact Ho.
Qed.

Lemma handed_over_refl {A} max (xs : list A) : (0 < max)%nat -> handed_over max xs xs.
Proof.
  intros H. destruct max as [|max]; [lia|]. destruct (one_by_one_run max xs) as (E & Hp & Ho).
  by exists (one_by_one xs), (monitor_new (S max) false).
Qed.

(** ** A link of a configured bridge *)

(** Link [i] of the bridge with the table [l]: the messages for IP port [k] and
    the unrouted ones if [k] is 0, groups of [nb] + [f] packets. *)
Record link_at (l : links) (k : Z) (i nb f : nat) (m0 : Message) (e : FECEncoder) : Prop := {
  la_find : table_find k (port_msg_lut l) = Some m0;
  la_enc : enc m0 = Some i;
  la_encoder : l_encs l !! i = Some e;
  la_nb : m_num_blocks e = Z.of_nat nb;
  la_f : m_num_fec_blocks e = Z.of_nat f;
  la_nb_range : (0 < nb <= 128)%nat;
  la_f_range : (0 < f <= 128)%nat
}.

(** A transmit thread that has just started with these encoders. *)
Record thread_of (l : links) (mtu : Z) (st : send_state) : Prop := {
  to_ok : send_state_ok st;
  to_encs : encs st = l_encs l;
  to_mtu : m_mtu (sock st) = mtu
}.

(** The messages of the link among those the transmit thread pops. *)
Definition its_of (i : nat) (ms : list (env * Message)) : list item :=
  (fun em => (em.1, ip_port em.2, msg em.2)) <$> link_msgs i ms.

Lemma link_msgs_snd i ms : filter (of_link i) (snd <$> ms) = snd <$> link_msgs i ms.
Proof.
  unfold link_msgs. induction ms as [|em ms IH]; [done|]. rewrite fmap_cons, !filter_cons, IH.
  unfold of_link. by destruct (decide (enc em.2 = Some i)).
Qed.

(** A link of the table, with or without FEC. *)
Section any_link.
Context (bs : Z) (n : nat) (l : links) (k : Z) (i : nat) (m0 : Message).
Context (Hl : links_ok bs n l) (Hfind : table_find k (port_msg_lut l) = Some m0) (Henc : enc m0 = Some i).

(** Every key has a link of its own. *)
Lemma link_unique k' m : table_find k' (port_msg_lut l) = Some m -> enc m = Some i -> k' = k.
Proof.
  intros Hk Hi. destruct (lk_find _ _ _ Hl _ _ Hk) as (j & Ej & _ & _ & _ & Hj).
  destruct (lk_find _ _ _ Hl _ _ Hfind) as (j' & Ej' & _ & _ & _ & Hj'). congruence.
Qed.

Lemma link_radio_port : port m0 = Z.of_nat i /\ (i < 16)%nat.
Proof.
  destruct (lk_find _ _ _ Hl _ _ Hfind) as (j & Ej & Hj & Hp & _).
  rewrite Henc in Ej. injection Ej as <-.
  pose proof (lk_max _ _ _ Hl). unfold RAW_SOCKET_NPORTS in *. split; [done|lia].
Qed.

Lemma its_of_msgs ms timeout Es :
  snd <$> ms = tun_raw_thread (port_msg_lut l) timeout Es ->
  link_msgs i ms = map (item_msg m0) (its_of i ms) /\
  nonempty (item_data <$> its_of i ms) = tun_packets (port_msg_lut l) timeout k Es.
Proof.
  intros E. destruct (tun_thread_link (port_msg_lut l) timeout k i m0 (lk_sorted _ _ _ Hl)
    Hfind Henc link_unique Es) as [Hcopy Hdata].
  rewrite <-E, link_msgs_snd in Hcopy, Hdata. unfold its_of. split.
  - rewrite Forall_fmap in Hcopy. clear -Hcopy. induction Hcopy as [|[E' m] l' [ip Hm] _ IH]; [done|].
    cbn [fmap list_fmap map]. rewrite <-IH. unfold item_msg. cbn [fst snd compose] in *. by rewrite Hm.
  - rewrite <-Hdata, <-!list_fmap_compose. done.
Qed.
End any_link.

Section link.
Context (bs mtu : Z) (n : nat) (l : links) (k : Z) (i nb f : nat) (m0 : Message) (e : FECEncoder) (st : send_state).
Context (Hl : links_ok bs n l) (Hla : link_at l k i nb f m0 e) (Hth : thread_of l mtu st).
Context (Hbs : bs + 28 <= mtu) (Hmtu : mtu < 65536).

Lemma link_at_setup : link_setup nb f i i bs m0 st e /\ m_seq_num e = 1.
Proof.
  pose proof (lk_idle _ _ _ Hl) as H. rewrite Forall_forall in H.
  destruct (H e) as (Hok & Hin & Hout & Hmax & Hseq).
  { eapply list_elem_of_lookup_2. apply Hla. }
  destruct (link_radio_port bs n l k i m0 Hl (la_find _ _ _ _ _ _ _ Hla) (la_enc _ _ _ _ _ _ _ Hla)) as [Hp Hi]. split; [|done]. destruct Hla as [_ _ He Hnb Hf Hnbr Hfr].
  split; try done.
  - by rewrite (to_mtu _ _ _ Hth).
  - by rewrite (to_mtu _ _ _ Hth).
  - apply Hth.
  - by rewrite (to_encs _ _ _ Hth).
  - split; try done; [cbn; lia|by intros p ?%elem_of_nil].
Qed.

End link.

(** They are no problem for the encoder if the messages fit. *)
Lemma its_of_ok mq nb f mx i ms :
  Forall (fun em => event_fits mx (event_of (msg em.2))) ms ->
  Forall (fun em => keeps_up mq (nb + f) em.1) (link_msgs i ms) -> Forall (item_ok mq nb f mx) (its_of i ms).
Proof.
  intros Hfit Hup. unfold its_of. apply Forall_fmap. rewrite Forall_forall in *. intros em Hem.
  split; [by apply Hup|]. apply Hfit. unfold link_msgs in Hem. by apply list_elem_of_filter in Hem as [_ ?].
Qed.

(** ** The receiving side *)

Lemma port_rounds_sublist p ms : forall rounds,
  concat (port_rounds p ms rounds) `sublist_of` concat rounds.
Proof.
  induction ms as [|m ms IH]; intros [|r rounds]; cbn [port_rounds concat]; try apply sublist_nil_l.
  destruct (decide _); cbn [concat]; [by apply sublist_app|by apply sublist_inserts_l].
Qed.

(** Traffic of one port only. *)
Lemma port_rounds_all p ms : forall rounds,
  Forall (fun m => msg_port m = Z.of_nat p) ms -> length rounds = length ms -> port_rounds p ms rounds = rounds.
Proof.
  induction ms as [|m ms IH]; intros [|r rounds] Hp Hl; try done. apply Forall_cons in Hp as [Hm Hp].
  cbn [port_rounds]. rewrite decide_True by done. f_equal. apply IH; [done|]. simpl in Hl. lia.
Qed.

Lemma decode_thread_length T ms : forall st rounds st',
  fec_decode_thread T ms st = Some (rounds, st') -> length rounds = length ms.
Proof.
  induction ms as [|m ms IH]; intros st rounds st' E; cbn [fec_decode_thread] in E; [by injection E as <- _|].
  ostep E as [pkts st1] eqn E1. ostep E as [rs st2] eqn E2. injection E as <- _. cbn. f_equal. by eapply IH.
Qed.

(** A kernel that takes every packet: the output thread writes all but empty ones. *)
Lemma tun_send_all written pkts : (forall q, written q = plen q) -> tun_send_thread written pkts = nonempty pkts.
Proof.
  intros Hw. unfold tun_send_thread, nonempty. apply list_filter_iff. intros q. unfold write. rewrite Hw.
  unfold plen. rewrite Z.eqb_refl, andb_true_r, Z.ltb_lt. destruct q; simpl; [split; [lia|done]|split; [done|lia]].
Qed.

Lemma filter_sublist_mono {A} (P : A -> Prop) `{!forall x, Decision (P x)} (l1 l2 : list A) :
  l1 `sublist_of` l2 -> filter P l1 `sublist_of` filter P l2.
Proof.
  induction 1 as [|x l1 l2 _ IH|x l1 l2 _ IH]; [done| |]; rewrite ?filter_cons; destruct (decide (P x)); try done.
  - by apply sublist_skip.
  - by apply sublist_cons.
Qed.

(** What the output thread writes when the decode thread pushes [out]. *)
Lemma tun_written p popped out pkts written wr :
  concat (port_rounds p popped out) = pkts -> (forall q, q ∈ pkts -> q <> []) -> length out = length popped ->
  (forall q, written q = plen q) -> handed_over 1000 (concat out) wr ->
  pkts `sublist_of` tun_send_thread written wr /\
  (Forall (fun m => msg_port m = Z.of_nat p) popped -> tun_send_thread written wr = pkts).
Proof.
  intros Hp Hne Hlen Hw ->%handed_over_eq. rewrite tun_send_all by done. split.
  - rewrite <-(nonempty_id pkts) by done. unfold nonempty. rewrite <-Hp.
    apply filter_sublist_mono, port_rounds_sublist.
  - intros Hall. rewrite port_rounds_all in Hp by done. rewrite Hp. by apply nonempty_id.
Qed.

(** The decode thread as it starts is ready for the first group of any link. *)
Lemma decode_state_new_setup sd name p popped :
  (p < 16)%nat ->
  (forall q, q <> p -> is_Some (port_run (fec_init sd) (port_datas q popped) (FECDecoder_new sd).2)) ->
  receiver_setup (fec_init sd) p 1 popped (decode_state_new sd (TransferStats_new name)).2.
Proof.
  intros Hp Hother. unfold decode_state_new. generalize dependent (fec_init sd). intros T Hother. cbn [snd].
  change (Z.to_nat RAW_SOCKET_NPORTS) with 16%nat. split.
  - by split.
  - exists (FECDecoder_new sd).2. split; [by apply lookup_replicate_2|]. unfold FECDecoder_new. cbn [snd].
    split; [split; [cbn; lia|done]|done].
  - intros q dq Hq Hd. apply lookup_replicate in Hd as [-> _]. by apply Hother.
Qed.

(** ** No link fails *)

(** The parameters of an encoder that the code can handle: no FEC, or at most
    128 data and 128 FEC packets. *)
Definition fec_supported (e : FECEncoder) : bool :=
  (m_num_fec_blocks e =? 0) || (m_num_blocks e =? 0)
  || ((m_num_blocks e <=? 128) && (m_num_fec_blocks e <=? 128)).

(** The states the encoder of a link can be in between two rounds. *)
Definition ready (mx : Z) (e : FECEncoder) : Prop :=
  FecEncoder.m_out_blocks e = [] /\
  ((exists n f, plain n f mx e) \/
   (exists nb f ps, (0 < nb <= 128)%nat /\ (0 < f <= 128)%nat /\ filling nb f mx ps e)).

Section total.
Context (T : fec_state) `{!GfTables T} (mq : Z) (s : RawSendSocket) (mx : Z).
Context (Hmx : mx + 28 <= m_mtu s) (Hmtu : m_mtu s < 65536).

Lemma feed_ready e data :
  ready mx e -> event_fits mx (event_of data) ->
  exists e1 ws, feed T e data = Some e1 /\ mapM wire (FecEncoder.m_out_blocks e1) = Some ws /\
    Forall (packet_ok s) ws /\ ready mx (set_out e1 []).
Proof.
  intros [Ho [(n & f & He)|(nb & f & ps & Hnb & Hf & He)]] Hfit.
  - destruct (feed_plain T s n f mx Hmx Hmtu e (quiet, 0, data) He Ho Hfit) as (e1 & E & He1 & _ & Ew & Hok & _).
    eexists e1, _. split; [exact E|]. split; [exact Ew|]. split; [done|]. split; [done|].
    left. exists n, f. by apply set_out_plain.
  - rewrite feed_event by (apply (event_fits_len mx (quiet, 0, data)); [lia|done]).
    destruct (encode_event_spec T nb f mx Hnb Hf ltac:(lia) e ps _ He Hfit) as (e1 & E & He1 & Hem & Hg).
    pose proof (enc_ok_ranges _ (fill_ok _ _ _ _ _ He)) as (Hs & _).
    destruct (event_packets s nb f mx Hnb Hf Hmx Hmtu (m_seq_num e) ps _ Hs (fill_len _ _ _ _ _ He) Hg) as [Hok _].
    destruct Hem as (_ & outs & Eo & Ew). rewrite Ho in Eo. cbn [app] in Eo. rewrite <-Eo in Ew.
    eexists e1, _. split; [exact E|]. split; [exact Ew|]. split; [done|]. split; [done|].
    right. exists nb, f, (cut_event nb ps (event_of data)).2. split; [done|]. split; [done|].
    destruct He1 as [[H1 H2 H3 H4 H5] K1 K2 K3 K4 K5 K6]. by split; [split|..].
Qed.

(** Whatever the backlog and the answers of the kernel. *)
Lemma link_run_total ms : forall e,
  ready mx e -> Forall (fun em => event_fits mx (event_of (msg em.2))) ms -> is_Some (link_run T mq s ms e).
Proof.
  induction ms as [|[E m] ms IH]; intros e He Hms; [by eexists|]. apply Forall_cons in Hms as [Hm Hms].
  cbn [link_run]. unfold link_round. cbn [snd] in Hm.
  destruct (feed_ready e (msg m) He Hm) as (e1 & ws & -> & Ew & Hok & He1). cbn [mbind option_bind].
  destruct (link_frames_congested E mq m s _ 0 ws Ew Hok) as (frs & -> & _). cbn [mbind option_bind].
  destruct (IH (set_out e1 []) He1 Hms) as [[r e2] ->]. by eexists.
Qed.
End total.

(** The encoders of a configured bridge are ready. *)
Lemma links_ready bs n l e :
  links_ok bs n l -> e ∈ l_encs l -> fec_supported e = true -> ready bs e.
Proof.
  intros Hl He Hsup. pose proof (lk_idle _ _ _ Hl) as H. rewrite Forall_forall in H.
  destruct (H e He) as (Hok & Hin & Hout & Hmax & _). split; [done|]. pose proof (enc_ok_ranges e Hok) as (_ & Hn & Hf & _).
  unfold fec_supported in Hsup. rewrite !orb_true_iff, andb_true_iff, !Z.eqb_eq, !Z.leb_le in Hsup.
  destruct (decide (m_num_fec_blocks e = 0 \/ m_num_blocks e = 0)) as [Hoff|Hon].
  - left. exists (m_num_blocks e), (m_num_fec_blocks e). by split.
  - right. exists (Z.to_nat (m_num_blocks e)), (Z.to_nat (m_num_fec_blocks e)), [].
    split; [lia|]. split; [lia|]. split; try done; [cbn; lia|by intros p ?%elem_of_nil|lia|lia].
Qed.

(** What the TUN thread reads in a round fits a block. The device is configured
    with an MTU of a whole block, so it also hands over packets that do not. *)
Definition tun_fits (mx timeout : Z) (E : tun_env) : Prop :=
  let '(_, data, _) := TunInterface.read (replicate 2048 x00) (t_port E) timeout (t_select E) (t_read E) (t_junk E) in
  event_fits mx (event_of data).

Definition message_fits (mx : Z) (m : Message) : Prop := event_fits mx (event_of (msg m)).

Lemma tun_round_fits mx t timeout E : tun_fits mx timeout E -> Forall (message_fits mx) (tun_round t timeout E).
Proof.
  unfold tun_fits, tun_round. destruct (TunInterface.read _ _ _ _ _ _) as [[ok data] ip]. intros Hf.
  destruct data as [|b data].
  - induction t as [|[k m] t IH]; [constructor|]. cbn [map concat snd]. apply Forall_app. split; [|done].
    unfold flush_message. destruct (enc m) as [j|]; [|constructor]. destruct (t_flushed E j); [constructor|].
    by apply Forall_cons_2; [|constructor].
  - destruct (route t ip); [|constructor]. apply Forall_cons_2; [exact Hf|constructor].
Qed.

Lemma tun_thread_fits mx t timeout Es :
  Forall (tun_fits mx timeout) Es -> Forall (message_fits mx) (tun_raw_thread t timeout Es).
Proof.
  intros H. unfold tun_raw_thread. induction H as [|E Es HE _ IH]; [constructor|]. cbn [map concat].
  apply Forall_app. split; [by apply tun_round_fits|done].
Qed.

Lemma blocksize_mtu mtu : 30 <= mtu < 65536 -> blocksize mtu = mtu - 30.
Proof.
  intros H. unfold blocksize, FEC_OVERHEAD, RAW_SOCKET_OVERHEAD. rewrite wrap_small; [lia|].
  change (2 ^ 16) with 65536. lia.
Qed.

(** A bridge as [main] sets it up, and what its TUN thread has queued. *)
Section configured.
Context (conf : INIReader) (se : fec_state) (mtu : Z) (junk : list Z) (Te : fec_state) (l : links) (st : send_state).
Context (timeout : Z) (Es : list tun_env) (ms : list (env * Message)).
Context (Hse : fec_reachable se) (Hj : length junk = Z.to_nat RAW_SOCKET_NPORTS) (Hmtu : 30 <= mtu < 65536).
Context (El : make_links conf se mtu junk = Some (Te, l)) (Hth : thread_of l mtu st).
Context (Hsup : Forall (fun e => fec_supported e = true) (l_encs l)).
Context (Hfit : Forall (tun_fits (blocksize mtu) timeout) Es).
Context (Hms : snd <$> ms = tun_raw_thread (port_msg_lut l) timeout Es).

Lemma messages_valid : Forall (fun em => valid (length (encs st)) em.2) ms.
Proof.
  pose proof (make_links_ok _ _ _ _ _ _ Hj El) as Hl. rewrite (to_encs _ _ _ Hth), (lk_encs _ _ _ Hl).
  apply (proj1 (Forall_fmap snd (valid _) ms)). rewrite Hms. by eapply tun_messages_valid.
Qed.

Lemma messages_fit : Forall (fun em => message_fits (blocksize mtu) em.2) ms.
Proof.
  apply (proj1 (Forall_fmap snd (message_fits (blocksize mtu)) ms)). rewrite Hms. by apply tun_thread_fits.
Qed.

Lemma links_total mq j e :
  encs st !! j = Some e -> is_Some (link_run Te mq (sock st) (link_msgs j ms) e).
Proof.
  intros He. rewrite (to_encs _ _ _ Hth) in He.
  assert (Te = fec_init se) as ->.
  { destruct (add_links_tables _ _ _ _ _ _ _ Hse El) as [->|[_ Ee]]; [done|]. by rewrite Ee in He. }
  pose proof (fec_init_tables se Hse) as HT. pose proof (list_elem_of_lookup_2 _ _ _ He) as Hin.
  pose proof (proj1 (Forall_forall _ _) Hsup _ Hin) as Hes. pose proof (blocksize_mtu mtu Hmtu) as Hbs.
  apply (link_run_total (fec_init se) mq (sock st) (blocksize mtu)); rewrite ?(to_mtu _ _ _ Hth); [lia|lia| |].
  - eapply links_ready; [by eapply make_links_ok|exact Hin|exact Hes].
  - pose proof messages_fit as Hf. rewrite Forall_forall in Hf. apply Forall_forall.
    intros em Hem. apply Hf. unfold link_msgs in Hem. by apply list_elem_of_filter in Hem as [_ ?].
Qed.
End configured.

(** ** Properties *)

(** C1: from TUN device to TUN device. A bridge sets up its links from its
    configuration; the TUN thread reads packets and queues them, and flushes of
    groups under way, for the transmit thread; what the air does not lose is
    heard by the other bridge, queued, decoded, queued and written to its TUN
    device. If no queue overflows, the link keeps up, and [enough] of every
    group arrives, the packets written for a link with FEC are exactly the ones
    that were routed to it, in order and unchanged, but for those that stay
    pending in the encoder until a flush, whatever the other links do. *)
Theorem tun_to_tun (conf : INIReader) (se sd : fec_state) (mtu : Z) (junk : list Z) (Te : fec_state) (l : links)
    (k timeout mq : Z) (i nb f : nat) (m0 : Message) (e : FECEncoder) (st : send_state) (Es : list tun_env)
    (ms : list (env * Message)) (rs : list (list nat)) (qmax qmax' : nat) (name : string) :
  fec_reachable se -> fec_reachable sd -> length junk = Z.to_nat RAW_SOCKET_NPORTS -> 30 <= mtu < 65536 ->
  make_links conf se mtu junk = Some (Te, l) -> link_at l k i nb f m0 e -> thread_of l mtu st ->
  handed_over qmax (tun_raw_thread (port_msg_lut l) timeout Es) (snd <$> ms) ->
  Forall (fun em => keeps_up mq (nb + f) em.1) (link_msgs i ms) ->
  Forall (fun e => fec_supported e = true) (l_encs l) -> Forall (tun_fits (blocksize mtu) timeout) Es ->
  let pss := stream_groups nb (its_of i ms) in
  Forall2 (enough f) pss rs ->
  concat pss ++ stream_rest nb (its_of i ms) = tun_packets (port_msg_lut l) timeout k Es /\
  (forall it, last (its_of i ms) = Some it -> item_data it = [] -> stream_rest nb (its_of i ms) = []) /\
  exists rounds st', raw_send_thread Te mq ms st = Some (rounds, st') /\
    carried (sock st) m0 (concat (link_rounds i ms rounds)) (stream_wires 1 f pss) /\
    forall stale caps, hear (sock st) (port m0) (deliver (group_sizes f pss) (concat (link_rounds i ms rounds)) rs) caps ->
    exists heard, receive_thread stale (S (length caps)) (map packet_of caps) = Some (heard, false) /\
      length heard = length caps /\ port_datas i heard = deliver (group_sizes f pss) (stream_wires 1 f pss) rs /\
      forall popped, handed_over qmax' heard popped ->
      (forall q, q <> i -> is_Some (port_run (fec_init sd) (port_datas q popped) (FECDecoder_new sd).2)) ->
      exists out ds',
        (let '(Td, ds) := decode_state_new sd (TransferStats_new name) in fec_decode_thread Td popped ds)
          = Some (out, ds') /\
        forall written wr, handed_over 1000 (concat out) wr -> (forall q, written q = plen q) ->
          concat pss `sublist_of` tun_send_thread written wr /\
          (Forall (fun m => msg_port m = Z.of_nat i) popped -> tun_send_thread written wr = concat pss).
Proof.
  intros Hse Hsd Hj Hmtu El Hla Hth Hq%handed_over_eq Hup Hsup Hfit pss Hrs.
  pose proof (make_links_ok _ _ _ _ _ _ Hj El) as Hl. pose proof (blocksize_mtu mtu Hmtu) as Hbs.
  destruct (link_at_setup _ mtu _ l k i nb f m0 e st Hl Hla Hth) as [Hsu Hseq]; [lia|lia|].
  destruct (its_of_msgs _ _ l k i m0 Hl (la_find _ _ _ _ _ _ _ Hla) (la_enc _ _ _ _ _ _ _ Hla) ms timeout Es Hq) as [Hms Hdata].
  assert (Te = fec_init se) as Et.
  { destruct (add_links_tables _ _ _ _ _ _ _ Hse El) as [->|[_ Ee]]; [done|].
    pose proof (la_encoder _ _ _ _ _ _ _ Hla) as He. by rewrite Ee in He. }
  assert (Forall (item_ok mq nb f (blocksize mtu)) (its_of i ms)) as Hits.
  { apply its_of_ok; [by eapply messages_fit|done]. }
  assert (Forall (fun em => valid (length (encs st)) em.2) ms) as Hv by (by eapply messages_valid).
  destruct (bridge_transport se sd mq nb f i i (blocksize mtu) m0 st e (its_of i ms) ms rs Hse Hsd Hsu Hits Hms Hv)
    as (rounds & st' & E & Hc & Hcat & Hhear); [|done|].
  { intros j ej _ Hj'. rewrite <-Et.
    by apply (links_total conf se mtu junk Te l st timeout Es). }
  rewrite Hseq in Hc, Hhear. rewrite <-Et in E.
  split; [by rewrite <-Hdata|].
  split; [intros it [its' ->]%last_Some; apply stream_rest_flushed|]. exists rounds, st'. split; [done|]. split; [done|]. intros stale caps Hcaps.
  destruct (Hhear stale caps Hcaps) as (heard & Er & Hlen & Hdatas & Hdec). exists heard.
  split; [done|]. split; [done|]. split; [done|]. intros popped ->%handed_over_eq Hports.
  destruct (Hdec _ (decode_state_new_setup sd name i heard (su_p _ _ _ _ _ _ _ _ Hsu) Hports)) as (out & ds' & Ed & Eo).
  exists out, ds'. split; [exact Ed|]. intros written wr Hwr Hw.
  apply (tun_written i heard out); try done; [apply stream_groups_nonempty|by eapply decode_thread_length].
Qed.

(** A bridge with one link, groups of two packets and one FEC packet; a packet
    and a timeout, whose flush is the last message. *)
Definition demo_link_conf : INIReader :=
  MkINIReader ["global"; "link-a"] (fun _ _ dflt => dflt)
    (fun _ name dflt => if String.eqb name "blocks" || String.eqb name "datarate" then 2
                        else if String.eqb name "fec" then 1 else dflt).
Definition demo_link_proto : Message :=
  MkMessage (replicate 100 x00) 0 0 100 (MkWifiOptions DATA_LINK 2) (Some 0%nat).
Definition demo_links : links := MkLinks [demo_encoder_1] [(0, demo_link_proto)] (replicate 16 0) 1.

Lemma demo_make_links : make_links demo_link_conf fec_static 130 (replicate 16 0) = Some (fec_init fec_static, demo_links).
Proof.
  unfold make_links. cbn [Sections demo_link_conf add_links]. rewrite add_link_other by done.
  cbn [mbind option_bind]. unfold add_link, FECEncoder_new. generalize (fec_init fec_static). intros T.
  vm_compute. reflexivity.
Qed.

Definition demo_tun : list tun_env :=
  [MkTunEnv 1 (Some [xaa; xbb]) 0 0 (fun _ => true); MkTunEnv 0 None 0 0 (fun _ => false)].
Definition demo_popped : list (env * Message) :=
  [(quiet, Message_copy demo_link_proto [xaa; xbb] 0); (quiet, Message_copy demo_link_proto [] 0)].

Lemma demo_link_at : link_at demo_links 0 0 2 1 demo_link_proto demo_encoder_1.
Proof. split; (reflexivity || lia). Qed.

Lemma demo_thread_of : thread_of demo_links 130 demo_bridge.
Proof. split; [split; [split; [cbn; lia|reflexivity]|reflexivity]|reflexivity|reflexivity]. Qed.

Lemma demo_tun_fits : Forall (tun_fits (blocksize 130) 1000) demo_tun.
Proof.
  repeat first [apply Forall_nil_2 | apply Forall_cons_2]; intros q Hq; [|discriminate Hq].
  injection Hq as <-. vm_compute. discriminate.
Qed.

(** The FEC packet is lost; the queues hand over one item at a time. *)
Lemma tun_to_tun_witness :
  exists rounds st' caps heard out ds',
    raw_send_thread (fec_init fec_static) 200 demo_popped demo_bridge = Some (rounds, st') /\
    receive_thread (fun _ => 0) 2 (map packet_of caps) = Some (heard, false) /\
    (let '(Td, ds) := decode_state_new fec_static (TransferStats_new "air") in fec_decode_thread Td heard ds)
      = Some (out, ds') /\
    tun_send_thread plen (concat out) = [[xaa; xbb]].
Proof.
  destruct (tun_to_tun demo_link_conf fec_static fec_static 130 (replicate 16 0) (fec_init fec_static) demo_links
    0 1000 200 0 2 1 demo_link_proto demo_encoder_1 demo_bridge demo_tun demo_popped [[0%nat]] 200 200 "air"
    reach_static reach_static eq_refl ltac:(lia) demo_make_links demo_link_at demo_thread_of)
    as (_ & _ & rounds & st' & E & Hc & Hhear).
  - apply handed_over_refl. lia.
  - repeat first [apply Forall_nil_2 | apply Forall_cons_2; [intros k'; cbn; lia|]].
  - apply Forall_singleton. reflexivity.
  - exact demo_tun_fits.
  - apply Forall2_cons_2; [apply demo_enough|apply Forall2_nil_2].
  - destruct (concat (link_rounds 0 demo_popped rounds)) as [|fr frs] eqn:Efr; [by apply Forall2_length in Hc|].
    apply Forall2_cons_inv_l in Hc as (w & ws & (E' & k & Hfr) & _ & Hw).
    apply (f_equal (fun l => hd [] l)) in Hw. cbn [hd] in Hw.
    assert (w = demo_wire) as -> by (rewrite <-Hw; vm_compute; reflexivity).
    destruct (Hhear (fun _ => 0) [demo_capture fr]) as (heard & Er & Hl1 & Hdatas & Hdec).
    { apply hear_frame; [rewrite Hfr; apply demo_captured|apply hear_nil]. }
    destruct (demo_port heard Hl1) as (m & -> & Hm); [rewrite Hdatas; vm_compute; reflexivity|].
    destruct (Hdec [m]) as (out & ds' & Ed & Hout).
    { apply handed_over_refl. lia. }
    { intros q Hq. unfold port_datas. rewrite filter_cons_False by (rewrite Hm; lia). by eexists. }
    destruct (Hout plen (concat out)) as [_ Hall].
    { apply handed_over_refl. lia. }
    { reflexivity. }
    exists rounds, st', [demo_capture fr], [m], out, ds'.
    exact (conj E (conj Er (conj Ed (Hall ltac:(by apply Forall_singleton))))).
Defined.

(** A packet of the MTU of the TUN device, or one byte less, overflows a block. *)
Theorem full_packet_overflows (T : fec_state) (E : env) (mtu mq : Z) (m : Message) (st : send_state) (i : nat) (e : FECEncoder) :
  enc m = Some i -> encs st !! i = Some e -> m_max_block_size e = blocksize mtu -> 32 <= mtu < 65536 ->
  blocksize mtu - 1 <= plen (msg m) <= blocksize mtu ->
  send_message T E mq m st = None.
Proof.
  intros Ei Ee Em Hmtu Hp. assert (blocksize mtu = mtu - 30) as Eb by (apply blocksize_mtu; lia).
  unfold send_message. rewrite Ei. unfold feed.
  destruct (msg m) as [|b p] eqn:Emsg; [unfold plen in Hp; cbn in Hp; lia|]. rewrite bool_decide_false by done.
  rewrite Ee. cbn [mbind option_bind]. rewrite wrap_small by lia.
  pose proof (send_oversized T e (b :: p)) as H. unfold FecEncoder.send in H.
  destruct (get_next_block e (plen (b :: p))) as [blk|]; [|done]. cbn [mbind option_bind] in *.
  destruct (copy_to_data (b :: p) blk) as [blk'|]; [|done]. cbn [mbind option_bind] in *. rewrite H by lia. done.
Qed.

(** C3: the sending side never fails. With at most 128 data and 128 FEC packets
    per group configured, and packets that leave room for the length field of a
    block, which excludes those of the MTU of the TUN device and one byte less
    ([full_packet_overflows]), the transmit thread of a bridge set up by its
    configuration never reaches undefined behaviour: for any packets and timeouts
    of the TUN device, any backlog, any answers of the kernel it finishes every
    round, and it is ready for the next. *)
Theorem sending_side_safe (conf : INIReader) (se : fec_state) (mtu : Z) (junk : list Z) (Te : fec_state) (l : links)
    (st : send_state) (timeout mq : Z) (Es : list tun_env) (ms : list (env * Message)) :
  fec_reachable se -> length junk = Z.to_nat RAW_SOCKET_NPORTS -> 30 <= mtu < 65536 ->
  make_links conf se mtu junk = Some (Te, l) -> thread_of l mtu st ->
  Forall (fun e => fec_supported e = true) (l_encs l) -> Forall (tun_fits (blocksize mtu) timeout) Es ->
  snd <$> ms = tun_raw_thread (port_msg_lut l) timeout Es ->
  exists rounds st', raw_send_thread Te mq ms st = Some (rounds, st') /\ length rounds = length ms /\ send_state_ok st'.
Proof.
  intros Hse Hj Hmtu El Hth Hsup Hfit Hms.
  destruct (send_thread_links Te mq (length (encs st)) ms st) as (rounds & st' & E & Hok & Hlen & _); try done.
  - apply Hth.
  - by eapply messages_valid.
  - intros j e He. by eapply links_total.
  - by exists rounds, st'.
Qed.

Lemma sending_side_safe_witness :
  exists rounds st', raw_send_thread (fec_init fec_static) 0 (demo_popped) demo_bridge = Some (rounds, st') /\
    length rounds = 2%nat /\ send_state_ok st'.
Proof.
  apply (sending_side_safe demo_link_conf fec_static 130 (replicate 16 0) (fec_init fec_static) demo_links demo_bridge
    1000 0 demo_tun demo_popped reach_static eq_refl ltac:(lia) demo_make_links demo_thread_of).
  - apply Forall_singleton. reflexivity.
  - exact demo_tun_fits.
  - reflexivity.
Defined.
