(* ===== verification/TunPlain.v ===== *)
(** * From TUN device to TUN device without FEC

    The composition of TunToTun for a link that is configured without FEC: the
    air takes single packets away, repeats or reorders them, and the other
    device gets exactly the packets of the frames that are heard. *)

From S2P Require Import Prelude Gf256 GfField FecBlock FecWire FecEncoder FecDecoder FecLink.
From S2P Require Import Radiotap RawSend RawReceive SharedQueue TransferStats SendThread DecodeThread TunInterface Bridge.
From S2P Require Import EndToEnd PlainEncoder PlainLink TunToTun.

(** Link [i] of the bridge with the table [l] is configured without data or
    without FEC packets. *)
Record plain_link_at (l : links) (k : Z) (i : nat) (m0 : Message) (e : FECEncoder) : Prop := {
  pa_find : table_find k (port_msg_lut l) = Some m0;
  pa_enc : enc m0 = Some i;
  pa_encoder : l_encs l !! i = Some e;
  pa_off : m_num_fec_blocks e = 0 \/ m_num_blocks e = 0
}.

Lemma plain_link_setup bs mtu n l k i m0 e st :
  links_ok bs n l -> plain_link_at l k i m0 e -> thread_of l mtu st -> bs + 28 <= mtu -> mtu < 65536 ->
  plain_setup (m_num_blocks e) (m_num_fec_blocks e) bs i i m0 st e /\ m_seq_num e = 1.
Proof.
  intros Hl [Hf He Ha Hoff] Hth Hbs Hmtu. pose proof (lk_idle _ _ _ Hl) as H. rewrite Forall_forall in H.
  destruct (H e) as (Hok & Hin & Hout & Hmax & Hseq); [by eapply list_elem_of_lookup_2|].
  destruct (link_radio_port bs n l k i m0 Hl Hf He) as [Hp Hi]. split; [|done].
  split; try done; rewrite ?(to_mtu _ _ _ Hth), ?(to_encs _ _ _ Hth); try done. apply Hth.
Qed.

(** A message that fits, sent while the thread keeps up. *)
Lemma its_of_plain mq mx i ms :
  Forall (fun em => event_fits mx (event_of (msg em.2))) ms ->
  Forall (fun em => keeps_up mq 1 em.1) (link_msgs i ms) -> Forall (plain_item mq mx) (its_of i ms).
Proof.
  intros Hfit Hup. unfold its_of. apply Forall_fmap. rewrite Forall_forall in *. intros em Hem.
  split; [by apply Hup|]. apply Hfit. unfold link_msgs in Hem. by apply list_elem_of_filter in Hem as [_ ?].
Qed.

Lemma decode_state_new_shape sd name p :
  (p < 16)%nat ->
  let '(T, ds) := decode_state_new sd (TransferStats_new name) in
  T = fec_init sd /\ shape ds /\ decoders ds !! p = Some (FECDecoder_new sd).2 /\
  forall q dq, decoders ds !! q = Some dq -> dq = (FECDecoder_new sd).2.
Proof.
  intros Hp. unfold decode_state_new. change (Z.to_nat RAW_SOCKET_NPORTS) with 16%nat.
  generalize (fec_init sd). intros T. split; [done|]. split; [by split|]. split; [by apply lookup_replicate_2|].
  intros q dq Hd. by apply lookup_replicate in Hd as [-> _].
Qed.

Lemma select_elem {A} ix (l : list A) x : x ∈ select ix l -> x ∈ l.
Proof.
  unfold select. intros (j & _ & Hj)%list_elem_of_omap. by eapply list_elem_of_lookup_2.
Qed.

(** C4: from TUN device to TUN device without FEC. The bridge is set up by its
    configuration, the link has no FEC; each packet routed to the link is one
    frame of it, in order. Whichever of the frames are heard, in whatever order
    and however often, the packets written to the other TUN device for the link
    are exactly those of the frames that were heard, unchanged and in that
    order, whatever the other links do; the losses of the air are the losses of
    the link. No flush is ever needed. *)
Theorem tun_to_tun_plain (conf : INIReader) (se sd : fec_state) (mtu : Z) (junk : list Z) (Te : fec_state) (l : links)
    (k timeout mq : Z) (i : nat) (m0 : Message) (e : FECEncoder) (st : send_state) (Es : list tun_env)
    (ms : list (env * Message)) (qmax qmax' : nat) (name : string) :
  fec_reachable se -> length junk = Z.to_nat RAW_SOCKET_NPORTS -> 30 <= mtu < 65536 ->
  make_links conf se mtu junk = Some (Te, l) -> plain_link_at l k i m0 e -> thread_of l mtu st ->
  handed_over qmax (tun_raw_thread (port_msg_lut l) timeout Es) (snd <$> ms) ->
  Forall (fun em => keeps_up mq 1 em.1) (link_msgs i ms) ->
  Forall (fun e => fec_supported e = true) (l_encs l) -> Forall (tun_fits (blocksize mtu) timeout) Es ->
  let pkts := tun_packets (port_msg_lut l) timeout k Es in
  exists rounds st', raw_send_thread Te mq ms st = Some (rounds, st') /\
    carried (sock st) m0 (concat (link_rounds i ms rounds))
      (plain_wires (m_num_blocks e) (m_num_fec_blocks e) (blocksize mtu) 1 pkts) /\
    forall stale ix caps, hear (sock st) (port m0) (select ix (concat (link_rounds i ms rounds))) caps ->
    exists heard, receive_thread stale (S (length caps)) (map packet_of caps) = Some (heard, false) /\
      length heard = length caps /\
      port_datas i heard = select ix (plain_wires (m_num_blocks e) (m_num_fec_blocks e) (blocksize mtu) 1 pkts) /\
      forall popped, handed_over qmax' heard popped ->
      (forall q, q <> i -> is_Some (port_run (fec_init sd) (port_datas q popped) (FECDecoder_new sd).2)) ->
      exists out ds',
        (let '(Td, ds) := decode_state_new sd (TransferStats_new name) in fec_decode_thread Td popped ds)
          = Some (out, ds') /\
        forall written wr, handed_over 1000 (concat out) wr -> (forall q, written q = plen q) ->
          select ix pkts `sublist_of` tun_send_thread written wr /\
          (Forall (fun m => msg_port m = Z.of_nat i) popped -> tun_send_thread written wr = select ix pkts).
Proof.
  intros Hse Hj Hmtu El Hla Hth Hq%handed_over_eq Hup Hsup Hfit pkts.
  pose proof (make_links_ok _ _ _ _ _ _ Hj El) as Hl. pose proof (blocksize_mtu mtu Hmtu) as Hbs.
  destruct (plain_link_setup _ mtu _ l k i m0 e st Hl Hla Hth) as [Hsu Hseq]; [lia|lia|].
  destruct (its_of_msgs _ _ l k i m0 Hl (pa_find _ _ _ _ _ Hla) (pa_enc _ _ _ _ _ Hla) ms timeout Es Hq) as [Hms Hdata].
  assert (Forall (plain_item mq (blocksize mtu)) (its_of i ms)) as Hits.
  { apply its_of_plain; [by eapply messages_fit|done]. }
  destruct (plain_transport Te (fec_init sd) mq _ _ (blocksize mtu) i i m0 st e (its_of i ms) ms Hsu Hits Hms)
    as (rounds & st' & E & Hc & Hhear); [by eapply messages_valid|intros; by eapply links_total|].
  rewrite Hdata, Hseq in Hc, Hhear. exists rounds, st'. split; [done|]. split; [done|]. intros stale ix caps Hcaps.
  destruct (Hhear stale ix caps Hcaps) as (heard & Er & Hlen & Hdatas & Hdec). exists heard.
  split; [done|]. split; [done|]. split; [done|]. intros popped ->%handed_over_eq Hports.
  pose proof (decode_state_new_shape sd name i (ps_p _ _ _ _ _ _ _ _ Hsu)) as Hds.
  destruct (decode_state_new sd (TransferStats_new name)) as [Td ds]. destruct Hds as (-> & Hsh & Hd & Hall).
  destruct (Hdec ds (FECDecoder_new sd).2 Hsh Hd eq_refl) as (out & ds' & Ed & Eo).
  { intros q dq Hne Hq'. rewrite (Hall q dq Hq'). by apply Hports. }
  exists out, ds'. split; [exact Ed|]. intros written wr Hwr Hw.
  apply (tun_written i heard out); try done; [|by eapply decode_thread_length].
  intros q Hq'. apply select_elem in Hq'. fold pkts in Hdata. rewrite <-Hdata in Hq'.
  unfold nonempty in Hq'. by apply list_elem_of_filter in Hq' as [? _].
Qed.

(** A bridge with one link and the default settings; two packets. The frame of
    the second is heard twice, the first is lost. *)
Definition demo_plain_conf : INIReader :=
  MkINIReader ["global"; "link-a"] (fun _ _ dflt => dflt)
    (fun _ name dflt => if String.eqb name "datarate" then 2 else dflt).
Definition demo_plain_encoder : FECEncoder := MkFECEncoder 1 0 0 100 [] [].
Definition demo_plain_links : links := MkLinks [demo_plain_encoder] [(0, demo_link_proto)] (replicate 16 0) 1.
Definition demo_plain_sender : send_state :=
  MkSendState [demo_plain_encoder] (RawSendSocket_new true 130 3) (TransferStats_new "ground").
Definition demo_plain_tun : list tun_env :=
  [MkTunEnv 1 (Some [xcc]) 0 0 (fun _ => true); MkTunEnv 1 (Some [xaa; xbb]) 0 0 (fun _ => true)].
Definition demo_plain_popped : list (env * Message) :=
  [(quiet, Message_copy demo_link_proto [xcc] 0); (quiet, Message_copy demo_link_proto [xaa; xbb] 0)].
Definition demo_plain_wire : list byte := plain_wire 0 0 100 2 [xaa; xbb].

Lemma demo_plain_links_made :
  make_links demo_plain_conf fec_static 130 (replicate 16 0) = Some (fec_init fec_static, demo_plain_links).
Proof.
  unfold make_links. cbn [Sections demo_plain_conf add_links]. rewrite add_link_other by done.
  cbn [mbind option_bind]. unfold add_link, FECEncoder_new. generalize (fec_init fec_static). intros T.
  vm_compute. reflexivity.
Qed.

Lemma demo_plain_captured E k :
  hears (sock demo_plain_sender) (frame_of (sock demo_plain_sender) E k demo_link_proto demo_plain_wire)
    (demo_capture (frame_of (sock demo_plain_sender) E k demo_link_proto demo_plain_wire)).
Proof.
  unfold hears, demo_capture. change (sock demo_bridge) with (sock demo_plain_sender).
  rewrite frame_body_of.
  eexists _, demo_header, demo_crc, demo_iterator. split; [right; split; [reflexivity|by eexists _, _]|]. split; [reflexivity|]. split; [reflexivity|]. split; [reflexivity|]. split.
  - unfold defined_fields. vm_compute. by apply Forall_singleton.
  - vm_compute. reflexivity.
Qed.

(** Two messages with two packets for port 0 are both of port 0. *)
Lemma demo_two_port heard : length heard = 2%nat -> length (port_datas 0 heard) = 2%nat -> Forall (fun m => msg_port m = 0) heard.
Proof.
  unfold port_datas. rewrite length_fmap. intros H1 H2.
  assert (forall l, length (filter (fun m => msg_port m = Z.of_nat 0) l) = length l -> Forall (fun m => msg_port m = 0) l) as H.
  { induction l as [|m l IH]; [done|]. rewrite filter_cons. case_decide as Hm; cbn [length].
    - intros [= E]. constructor; [done|by apply IH].
    - pose proof (length_filter (fun m => msg_port m = Z.of_nat 0) l). lia. }
  apply H. lia.
Qed.

Lemma tun_to_tun_plain_witness :
  exists rounds st' caps heard out ds',
    raw_send_thread (fec_init fec_static) 200 demo_plain_popped demo_plain_sender = Some (rounds, st') /\
    receive_thread (fun _ => 0) 3 (map packet_of caps) = Some (heard, false) /\
    (let '(Td, ds) := decode_state_new fec_static (TransferStats_new "air") in fec_decode_thread Td heard ds)
      = Some (out, ds') /\
    tun_send_thread plen (concat out) = [[xaa; xbb]; [xaa; xbb]].
Proof.
  destruct (tun_to_tun_plain demo_plain_conf fec_static fec_static 130 (replicate 16 0) (fec_init fec_static)
    demo_plain_links 0 1000 200 0 demo_link_proto demo_plain_encoder demo_plain_sender demo_plain_tun demo_plain_popped
    200 200 "air" reach_static eq_refl ltac:(lia) demo_plain_links_made)
    as (rounds & st' & E & Hc & Hhear).
  - split; try reflexivity. by left.
  - split; [split; [split; [cbn; lia|reflexivity]|reflexivity]|reflexivity|reflexivity].
  - apply handed_over_refl. lia.
  - repeat first [apply Forall_nil_2 | apply Forall_cons_2; [intros k'; cbn; lia|]].
  - apply Forall_singleton. reflexivity.
  - repeat first [apply Forall_nil_2 | apply Forall_cons_2]; intros q Hq; injection Hq as <-; vm_compute; discriminate.
  - pose proof (Forall2_length _ _ _ Hc) as Hlen. change (length (plain_wires _ _ _ _ _)) with 2%nat in Hlen.
    destruct (concat (link_rounds 0 demo_plain_popped rounds)) as [|fr1 [|fr [|]]] eqn:Efr; try discriminate Hlen.
    apply Forall2_cons_1 in Hc as [_ Hc]. apply Forall2_cons_1 in Hc as [(E' & k & Hfr) _].
    destruct (Hhear (fun _ => 0) [1; 1]%nat [demo_capture fr; demo_capture fr]) as (heard & Er & Hl & Hdatas & Hdec).
    { cbn. rewrite Hfr. apply hear_frame; [apply demo_plain_captured|].
      apply hear_frame; [apply demo_plain_captured|apply hear_nil]. }
    assert (Forall (fun m => msg_port m = 0) heard) as Hp.
    { apply demo_two_port; [exact Hl|]. rewrite Hdatas. reflexivity. }
    destruct (Hdec heard) as (out & ds' & Ed & Hout); [apply handed_over_refl; lia| |].
    { intros q Hq. assert (port_datas q heard = []) as ->; [|by eexists]. unfold port_datas.
      clear -Hp Hq. induction Hp as [|m l Hm _ IH]; [done|]. by rewrite filter_cons_False by lia. }
    destruct (Hout plen (concat out)) as [_ Hall]; [apply handed_over_refl; lia|reflexivity|].
    exists rounds, st', [demo_capture fr; demo_capture fr], heard, out, ds'.
    exact (conj E (conj Er (conj Ed (Hall Hp)))).
Defined.
