(* ===== verification/RawTest.v ===== *)
(** * The test of the raw sockets, src/src/raw_socket_test.cc

    What [main] does with its options: the card is put into monitor mode, then
    messages are sent or received until a call fails. The system is a record of
    its answers: the card (a world of HttpServer), the calls that open the
    sockets, the clock, and what each capture and each [send] returns. When the
    answers are used up the program is still running. No command line gets past the options
    as they are (Options.test_programs_stop): this is the test they are for. *)

From S2P Require Import Prelude Text CmdParser Options Gf256 GfField FecBlock FecEncoder FecDecoder.
From S2P Require Import RawSend RawReceive RawCapture HttpServer FecBuffer TransferStats LogThread.
From Stdlib Require Import Floats.SpecFloat.
Local Open Scope Z_scope.

Record test_system := MkTestSystem {
  a_world : world;
  a_capture : pcap_calls;
  a_immediate : bool;                       (* HAVE_PCAP_IMMEDIATE_MODE *)
  a_answers : list pcap_answer;
  a_junk : Z;                               (* the uninitialised member of the message *)
  a_sends : send_calls;
  a_now : nat -> Z;                         (* cur_milliseconds() of the sends *)
  a_pad : nat -> byte;
  a_kernel : nat -> list byte -> bool;
  a_start_second : Z;                       (* tv_sec when USecTimer is made *)
  a_clock : list (Z * Z)                    (* gettimeofday() of [usec] *)
}.

(** [USecTimer::usec] *)
Definition usec (M : test_system) (t : Z * Z) : Z := wrap 64 (wrap 64 (t.1 - a_start_second M) * 1000000 + t.2).

(** What a run does: the calls to the card, the frames given to the kernel, the
    lines of the log, and the exit code if it ends. *)
Record status_line := MkStatus { l_mbps : float; l_eb : Z; l_ep : Z; l_tot : Z }.

Record outcome := MkOutcome { o_calls : history; o_frames : list (list byte); o_log : list status_line; o_exit : option Z }.

(** ** Sending *)

(** The block of a round, and the new [length]; nothing if there is nothing to
    send and the loop continues. *)
Definition test_block (T : fec_state) (e : FECEncoder) (len : Z) (message : list byte) : option (option (FECEncoder * Z)) :=
  block ← FecEncoder.get_next_block e len;
  match message with
  | _ :: _ =>
      block ← copy_to_data message block;
      e ← FecEncoder.add_block T e block;
      Some (Some (e, wrap 16 (Z.of_nat (length message))))
  | [] =>
      if 0 <? len then
        block ← copy_to_data (replicate (Z.to_nat len) x00) block;
        e ← FecEncoder.add_block T e block;
        Some (Some (e, len))
      else Some None
  end.

(** The loop over the finished packets; the result of [send] is ignored. *)
Fixpoint test_send (M : test_system) (fuel k : nat) (port datarate : Z) (e : FECEncoder) (s : RawSendSocket)
  : option (list (list byte) * FECEncoder * RawSendSocket * nat) :=
  match fuel, FecEncoder.get_block e with
  | _, (None, e) => Some ([], e, s, k)
  | O, _ => None
  | S fuel, (Some block, e) =>
      w ← wire block;
      '(_, frame, s) ← RawSend.send s (a_now M k) (a_pad M k) (a_kernel M k) w port DATA_LINK datarate;
      '(frames, e, s, k) ← test_send M fuel (S k) port datarate e s;
      Some (option_list frame ++ frames, e, s, k)
  end.

(** [while (1)]: the frames, and whether the loop was left. *)
Fixpoint send_loop (T : fec_state) (M : test_system) (o : raw_test_settings) (clock : list (Z * Z)) (k : nat)
    (e : FECEncoder) (s : RawSendSocket) (len send_time : Z) : option (list (list byte) * bool) :=
  match clock with
  | [] => Some ([], false)
  | t :: clock =>
      let t := usec M t in
      if t_period o <=? wrap 64 (t - send_time) then
        r ← test_block T e len (String.list_byte_of_string (t_message o));
        match r with
        | None => send_loop T M o clock k e s len send_time
        | Some (e, len) =>
            '(frames, e, s, k) ← test_send M (n_output_blocks e) k (t_port o) (t_datarate o) e s;
            if t_period o =? 0 then Some (frames, true)
            else
              '(more, ended) ← send_loop T M o clock k e s len t;
              Some (frames ++ more, ended)
        end
      else send_loop T M o clock k e s len send_time
  end.

(** ** Receiving *)

Record previous := MkPrevious { prev_bytes : Z; prev_packets : Z; prev_dropped_blocks : Z; prev_dropped_packets : Z; last_status : Z }.

(** The status, when a second has passed: [uint64_t] bytes, [uint32_t] counts. *)
Definition test_status (st : FECDecoderStats) (p : previous) (t : Z) : list status_line * previous :=
  if 1000000 <? wrap 64 (t - last_status p) then
    let bytes := FecDecoder.bytes st in
    let packets := wrap 32 (FecDecoder.total_packets st) in
    let dropped_packets := wrap 32 (FecDecoder.dropped_packets st) in
    let dropped_blocks := wrap 32 (FecDecoder.dropped_blocks st) in
    let mbps := to_float (ddiv (dmul (to_double (float_of_int (wrap 64 (bytes - prev_bytes p)))) (double_of_int 8))
                               (dlit 1 6)) in
    ([MkStatus mbps (wrap 32 (dropped_blocks - prev_dropped_blocks p)) (wrap 32 (dropped_packets - prev_dropped_packets p))
        (wrap 32 (packets - prev_packets p))],
     MkPrevious bytes packets dropped_blocks dropped_packets t)
  else ([], p).

(** The blocks that come out are not used. *)
Fixpoint discard (fuel : nat) (d : FECDecoder) : option FECDecoder :=
  match fuel with
  | O => None
  | S fuel => match FecDecoder.get_block d with (None, d) => Some d | (Some _, d) => discard fuel d end
  end.

(** The loop: the log, and whether [receive] has failed. [msg] is reused. *)
Fixpoint receive_loop (fuel : nat) (T : fec_state) (M : test_system) (answers : list pcap_answer) (clock : list (Z * Z))
    (d : FECDecoder) (msg : monitor_message) (p : previous) : option (list status_line * bool) :=
  match fuel with
  | O => Some ([], false)
  | S fuel =>
      r ← receive_call answers msg;
      match r with
      | Waiting => Some ([], false)
      | Returned false _ _ => Some ([], true)
      | Returned true msg answers =>
          let len := Z.of_nat (length (msg_data msg)) in
          d ← (if 0 <? len then FecDecoder.add_block T d (msg_data msg) (wrap 16 len) else Some d);
          d ← discard (S (length (FecDecoder.m_out_blocks d))) d;
          match clock with
          | [] => Some ([], false)
          | t :: clock =>
              let '(line, p) := test_status (FecDecoder.m_stats d) p (usec M t) in
              '(lines, failed) ← receive_loop fuel T M answers clock d msg p;
              Some (line ++ lines, failed)
          end
      end
  end.

(** ** The program *)

Definition is_nonzero (f : float) : bool := negb (SFeqb f (S754_zero false)).

(** The part of [main] behind the options. *)
Definition raw_test (M : test_system) (o : raw_test_settings) : option outcome :=
  let mtu := wrap 16 (t_length o + FEC_OVERHEAD + RAW_SOCKET_OVERHEAD) in
  let '(ok, h) := perform (a_world M) (set_wifi_monitor_mode (t_device o)) [] in
  if negb ok then Some (MkOutcome h [] [] (Some EXIT_FAILURE))
  else
    '(ok, h) ← (if is_nonzero (t_frequency o) then
                  freq ← in_range 0 (2 ^ 32 - 1) (trunc_float (t_frequency o));
                  Some (perform (a_world M) (set_wifi_frequency (t_device o) freq) h)
                else Some (true, h));
    if negb ok then Some (MkOutcome h [] [] (Some EXIT_FAILURE))
    else if t_receiver o then
      let '(T, dec) := FECDecoder_new fec_static in
      let '(ok, _) := RawCapture.add_device (a_immediate M) (RawReceiveSocket_new true mtu) (a_capture M) in
      if negb ok then Some (MkOutcome h [] [] (Some EXIT_FAILURE))
      else
        match a_clock M with
        | [] => Some (MkOutcome h [] [] None)
        | t :: clock =>
            '(lines, failed) ← receive_loop (S (length (a_answers M))) T M (a_answers M) clock dec (monitor_message_new (a_junk M) 0)
                                    (MkPrevious 0 0 0 0 (usec M t));
            Some (MkOutcome h [] lines (if (failed : bool) then Some 0 else None))
        end
    else
      let '(T, enc) := FECEncoder_new fec_static (wrap 8 (t_num_data_blocks o)) (wrap 8 (t_num_fec_blocks o)) (t_length o) 1 in
      let '(ok, s) := RawSend.add_device (RawSendSocket_new false mtu (-1)) (a_sends M) true true true in
      if negb ok then Some (MkOutcome h [] [] (Some EXIT_FAILURE))
      else
        '(frames, ended) ← send_loop T M o (a_clock M) 0 enc s (t_length o) 0;
        Some (MkOutcome h frames [] (if (ended : bool) then Some 0 else None)).

(** [main]: the options, then the test. *)
Definition raw_test_main (M : test_system) (uid : Z) (argv : list string) : prog outcome :=
  o ← raw_test_options uid argv;
  defined (raw_test M o).

(** ** The first message *)

(** The headers of the frame with the test message. *)
Definition test_frame (o : raw_test_settings) (s : RawSendSocket) (pad : byte) (now : Z) (w : list byte) : list byte :=
  rt_header s pad (t_datarate o) ++ sent_header s DATA_LINK (t_port o) now ++ w.

(** The packet: the header with the length of option -l, the message, zeros. *)
Definition test_packet (n f len : Z) (message : list byte) : list byte :=
  header_bytes (MkFECHeader 1 0 n f len) ++ message ++ replicate (Z.to_nat (len - 2) - length message) x00.

Section single.
Context (T : fec_state) (n f len : Z).
Context (Hn : 0 <= n < 256) (Hf : 0 <= f < 256).

Local Abbreviation enc := (MkFECEncoder 1 n f len [] []).

(** A block size below two leaves no room for the header. *)
Lemma test_block_small message : 0 <= len < 2 -> test_block T enc len message = None.
Proof using Type.
  intros Hl. unfold test_block, get_next_block, FECBlock_new, FEC_OVERHEAD.
  cbn [m_seq_num m_in_blocks m_num_blocks m_num_fec_blocks m_max_block_size].
  unfold put_header. rewrite header_of_None; [done|].
  rewrite length_replicate, wrap_small by (change (2 ^ 16) with 65536; lia). lia.
Qed.

(** The zeros of an empty message are two bytes more than the block has. *)
Lemma test_block_zeros : 2 <= len -> len + 4 < 65536 -> test_block T enc len [] = None.
Proof using Type.
  intros H2 Hl. unfold test_block, get_next_block.
  cbn [m_seq_num m_in_blocks m_num_blocks m_num_fec_blocks m_max_block_size].
  rewrite FECBlock_new_mk by lia. cbn [mbind option_bind]. rewrite (proj2 (Z.ltb_lt 0 len)) by lia.
  unfold copy_to_data, data, mk_block. cbn [m_data]. rewrite drop_app_length' by done.
  rewrite !length_replicate. rewrite (proj2 (Nat.leb_gt _ _)) by lia. done.
Qed.

Context (message : list byte) (Hmsg : message <> []) (Hfit : Z.of_nat (length message) + 2 <= len) (Hlen : len + 4 < 65536).

Local Abbreviation blk :=
  (mk_block (MkFECHeader 1 0 n f len) (message ++ replicate (Z.to_nat (len - 2) - length message) x00) (len + 4)).

Lemma test_block_message :
  test_block T enc len message
    = (e ← FecEncoder.add_block T enc blk; Some (Some (e, wrap 16 (Z.of_nat (length message))))).
Proof using Hn Hf Hmsg Hfit Hlen.
  unfold test_block, get_next_block. cbn [m_seq_num m_in_blocks m_num_blocks m_num_fec_blocks m_max_block_size].
  rewrite FECBlock_new_mk by lia. cbn [mbind option_bind]. clear Hlen. destruct message as [|c cs]; [done|].
  rewrite copy_to_data_mk by (rewrite length_replicate; lia). cbn [mbind option_bind].
  by rewrite drop_replicate.
Qed.

Lemma test_header_ok : header_ok (MkFECHeader 1 0 n f len).
Proof using Hn Hf Hfit Hlen. repeat split; cbn; lia. Qed.

(** Without FEC the block is ready at once; with FEC it waits for its group. *)
Lemma test_block_added :
  (f = 0 \/ n = 0 -> exists e, FecEncoder.add_block T enc blk = Some e /\ FecEncoder.m_out_blocks e = [blk]) /\
  (0 < f -> 2 <= n -> exists e, FecEncoder.add_block T enc blk = Some e /\ FecEncoder.m_out_blocks e = []).
Proof using Hn Hf Hfit Hlen.
  pose proof test_header_ok. unfold FecEncoder.add_block. cbn [m_in_blocks length]. change (wrap 8 (Z.of_nat 0)) with 0.
  rewrite with_header_mk by done. cbn [mbind option_bind m_num_fec_blocks m_num_blocks]. split.
  - intros Hoff. assert ((f =? 0) || (n =? 0) = true) as ->; [|by eexists].
    apply orb_true_iff. rewrite !Z.eqb_eq. done.
  - intros Hf0 Hn2. rewrite (proj2 (Z.eqb_neq f 0)), (proj2 (Z.eqb_neq n 0)) by lia. cbn [orb].
    rewrite header_mk by done. cbn [mbind option_bind h_block set_in m_num_fec_blocks m_num_blocks].
    rewrite (proj2 (Z.ltb_lt 0 f)), (proj2 (Z.eqb_neq _ _)) by (cbn; lia). cbn [andb]. by eexists.
Qed.

Lemma test_packet_wire : wire blk = Some (test_packet n f len message) /\ length (test_packet n f len message) = Z.to_nat (len + 4).
Proof using Hfit.
  assert (length (test_packet n f len message) = Z.to_nat (len + 4)) as Hl.
  { unfold test_packet. rewrite !length_app, length_header_bytes, length_replicate. lia. }
  split; [|done]. unfold wire, mk_block, pkt_length, pkt_data. cbn [m_data m_data_length].
  fold (test_packet n f len message). rewrite Hl, Nat.leb_refl. f_equal. rewrite take_ge; [done|lia].
Qed.

(** A receiver cannot read as many bytes as the header announces. *)
Lemma test_packet_payload :
  (b ← FECBlock_of_packet (test_packet n f len message) (len + 4); payload b) = None.
Proof using Hn Hf Hfit Hlen.
  destruct test_packet_wire as [_ Hl]. unfold FECBlock_of_packet. rewrite Hl, Nat.leb_refl. cbn [mbind option_bind].
  rewrite take_ge by lia. unfold payload, data_length, header, test_packet. cbn [m_data].
  rewrite header_of_bytes by apply test_header_ok. cbn [mbind option_bind h_length].
  unfold data. cbn [m_data]. rewrite drop_app_length' by done.
  rewrite length_app, length_replicate, (proj2 (Nat.leb_gt _ _)) by lia. done.
Qed.
End single.

(** The socket as the test opens it. *)
Definition test_socket (M : test_system) (o : raw_test_settings) : bool * RawSendSocket :=
  RawSend.add_device (RawSendSocket_new false (wrap 16 (t_length o + FEC_OVERHEAD + RAW_SOCKET_OVERHEAD)) (-1)) (a_sends M) true true true.

(** A sender without a period whose calls succeed. *)
Record sends_once (M : test_system) (o : raw_test_settings) : Prop := {
  so_sender : t_receiver o = false;
  so_period : t_period o = 0;
  so_frequency : is_nonzero (t_frequency o) = false;
  so_monitor : a_world M [] (set_wifi_monitor_mode (t_device o)) = true;
  so_socket : (test_socket M o).1 = true;
  so_clock : a_clock M <> [];
  so_length : 0 <= t_length o < 65506
}.

Section once.
Context (M : test_system) (o : raw_test_settings) (Ho : sends_once M o).

Local Abbreviation len := (t_length o).
Local Abbreviation n := (wrap 8 (t_num_data_blocks o)).
Local Abbreviation f := (wrap 8 (t_num_fec_blocks o)).
Local Abbreviation message := (String.list_byte_of_string (t_message o)).
Local Abbreviation monitor := [set_wifi_monitor_mode (t_device o)].

Lemma test_socket_ok : socket_ok (test_socket M o).2 /\ m_mtu (test_socket M o).2 = len + 30.
Proof using Ho.
  pose proof (so_length M o Ho). unfold test_socket, FEC_OVERHEAD, RAW_SOCKET_OVERHEAD.
  rewrite wrap_small by (change (2 ^ 16) with 65536; lia).
  assert (forall c m s l, m_send_buf (RawSend.add_device (RawSendSocket_new false (len + 6 + 24) (-1)) c m s l).2
                            = replicate (Z.to_nat (13 + (len + 6 + 24))) x00 /\
            m_mtu (RawSend.add_device (RawSendSocket_new false (len + 6 + 24) (-1)) c m s l).2 = len + 6 + 24) as Hsame.
  { intros. unfold RawSend.add_device. by repeat case_match. }
  destruct (Hsame (a_sends M) true true true) as [Hb Hm].
  split; [split|]; rewrite ?Hb, ?Hm, ?length_replicate; lia.
Qed.

(** What is left of [main] when the calls have succeeded. *)
Lemma raw_test_once :
  match test_block (fec_init fec_static) (MkFECEncoder 1 n f len [] []) len message with
  | None => raw_test M o = None
  | Some None => True
  | Some (Some (e, _)) =>
      forall frames e' s' k,
        test_send M (n_output_blocks e) 0 (t_port o) (t_datarate o) e (test_socket M o).2 = Some (frames, e', s', k) ->
        raw_test M o = Some (MkOutcome monitor frames [] (Some 0))
  end.
Proof using Ho.
  destruct Ho as [Hs Hp Hf Hm Hd Hc _]. unfold raw_test, perform. rewrite Hm. cbn [negb]. rewrite Hf.
  cbn [mbind option_bind negb]. rewrite Hs. cbn [FECEncoder_new]. fold (test_socket M o).
  destruct (test_socket M o) as [ok s]. cbn [fst snd] in *. subst ok. cbn [negb].
  destruct (a_clock M) as [|t clock] eqn:Ec; [done|]. cbn [send_loop]. rewrite Hp.
  assert ((0 <=? wrap 64 (usec M t - 0)) = true) as -> by (apply Z.leb_le, wrap_range; lia).
  destruct (test_block _ _ _ _) as [[[e l]|]|]; cbn [mbind option_bind]; [|done..].
  intros frames e' s' k ->. done.
Qed.

(** One packet is sent as one frame. *)
Lemma test_send_one e b w :
  FecEncoder.m_out_blocks e = [b] -> wire b = Some w -> Z.of_nat (length w) <= len + 6 ->
  exists e' s' k, test_send M (n_output_blocks e) 0 (t_port o) (t_datarate o) e (test_socket M o).2
    = Some ([test_frame o (test_socket M o).2 (a_pad M 0) (a_now M 0) w], e', s', k).
Proof using Ho.
  intros Eb Ew Hw. destruct test_socket_ok as [Hs Hm]. unfold n_output_blocks. rewrite Eb. cbn [length test_send].
  unfold FecEncoder.get_block. rewrite Eb, Ew. cbn [mbind option_bind].
  destruct (send_spec (test_socket M o).2 (a_now M 0) (a_pad M 0) (a_kernel M 0) w (t_port o) DATA_LINK (t_datarate o) Hs)
    as (s' & -> & _ & _).
  rewrite Hm, (proj2 (Z.ltb_ge _ _)) by (rewrite length_ieee_header; lia). cbn [mbind option_bind].
  eexists _, _, _. reflexivity.
Qed.
End once.

(** The sender of the raw socket test, run without a period. A message
    with two bytes of room leaves as one frame, when FEC is off: the radiotap
    and the 802.11 header, and a packet that announces the length of option
    -l and not that of the message, so no receiver can read it out. With FEC
    and two or more data blocks the program ends without sending anything,
    since the encoder is never flushed. An empty message is written over the
    end of its block, and so is the header if the length is below two. *)
Theorem single_shot (M : test_system) (o : raw_test_settings) :
  sends_once M o ->
  let len := t_length o in
  let n := wrap 8 (t_num_data_blocks o) in
  let f := wrap 8 (t_num_fec_blocks o) in
  let message := String.list_byte_of_string (t_message o) in
  let packet := test_packet n f len message in
  let monitor := [set_wifi_monitor_mode (t_device o)] in
  (len < 2 \/ message = [] -> raw_test M o = None) /\
  (message <> [] -> Z.of_nat (length message) + 2 <= len ->
     (f = 0 \/ n = 0 ->
        raw_test M o = Some (MkOutcome monitor [test_frame o (test_socket M o).2 (a_pad M 0) (a_now M 0) packet] [] (Some 0)) /\
        (b ← FECBlock_of_packet packet (len + 4); payload b) = None) /\
     (0 < f -> 2 <= n -> raw_test M o = Some (MkOutcome monitor [] [] (Some 0)))).
Proof.
  intros Ho len n f message packet monitor. pose proof (so_length M o Ho) as Hl.
  pose proof (wrap_range 8 (t_num_data_blocks o) ltac:(lia)) as Hn. pose proof (wrap_range 8 (t_num_fec_blocks o) ltac:(lia)) as Hf.
  change (2 ^ 8) with 256 in *. pose proof (raw_test_once M o Ho) as Hrun. fold len n f message in Hrun, Hl, Hn, Hf. split.
  - destruct (decide (len < 2)); [|intros [?| ->]; [done|]].
    + rewrite test_block_small in Hrun by lia. done.
    + rewrite test_block_zeros in Hrun by lia. done.
  - intros Hne Hfit. rewrite test_block_message in Hrun by (done || lia).
    destruct (test_block_added (fec_init fec_static) n f len Hn Hf message Hfit ltac:(lia)) as [Hoff Hon].
    destruct (test_packet_wire n f len message Hfit) as [Hw Hlw]. split.
    + intros H0. destruct (Hoff H0) as (e & He & Eb). rewrite He in Hrun. cbn [mbind option_bind] in Hrun.
      destruct (test_send_one M o Ho e _ _ Eb Hw ltac:(rewrite Hlw; fold len; lia)) as (e' & s' & k & E).
      split; [by eapply Hrun|]. apply test_packet_payload; (done || lia).
    + intros H0 H1. destruct (Hon H0 H1) as (e & He & Eb). rewrite He in Hrun. cbn [mbind option_bind] in Hrun.
      eapply Hrun. unfold n_output_blocks. rewrite Eb. cbn [length test_send]. unfold FecEncoder.get_block. by rewrite Eb.
Qed.

Definition demo_test_system : test_system :=
  MkTestSystem (fun _ _ => true) demo_calls true [] 0 (MkSendCalls 5 0 0 0 0 0) (fun _ => 7) (fun _ => x00) (fun _ _ => true) 100 [(101, 2)].

Definition demo_raw_test : raw_test_settings :=
  MkRawTest 3 0 8 (S754_zero false) 3 0 0 "Hi" "wlan0" false false.

Lemma single_shot_witness :
  sends_once demo_test_system demo_raw_test /\
  raw_test demo_test_system demo_raw_test
    = Some (MkOutcome [set_wifi_monitor_mode "wlan0"]
              [[x00; x00; x0d; x00; x00; x80; x08; x00; x08; x00; x37; x30; x03;
                x08; x02; x00; x00; x35; x07; x00; x00; x00; x00; x13; x22; x33; x44; x55; x66;
                x00; x00; x00; x00; x00; x00; x00; x00;
                x01; x00; x00; x00; x08; x00; x48; x69; x00; x00; x00; x00]] [] (Some 0)).
Proof.
  assert (sends_once demo_test_system demo_raw_test) as Ho by (split; vm_compute; by auto).
  split; [exact Ho|].
  destruct (single_shot demo_test_system demo_raw_test Ho) as [_ H].
  assert (String.list_byte_of_string (t_message demo_raw_test) <> []) as Hne by discriminate.
  assert (Z.of_nat (length (String.list_byte_of_string (t_message demo_raw_test))) + 2 <= t_length demo_raw_test) as Hfit
    by (vm_compute; discriminate).
  destruct (H Hne Hfit) as [H0 _]. destruct (H0 (or_introl eq_refl)) as [E _]. exact E.
Defined.
